(** * CyberFusion 4.0: the ingestion / processing / analytics / orchestration
      pipeline, embedded from the TypeScript sources

    Sources embedded here:
    - [src/lib/analytics.ts]      (AnalyticsService, DataIngestionService)
    - [src/lib/dataProcessing.ts] (DataProcessingService)
    - [src/lib/orchestration.ts]  (OrchestrationService)
    - [src/lib/types.ts]          (the entity records)

    Conventions of the embedding.
    - A method of a service is a computation in the monad [M]: it runs on a
      [Machine] that holds the service object ([this]) together with the host
      the service runs on: the system clock, the source of [Math.random()],
      the [setInterval] table, the state owned by the registered subscriber
      callbacks and what was written with [console.error].  A computation
      ends normally or throws; the machine it leaves behind is kept in both
      cases, as in JavaScript.
    - A JavaScript [Map] is an insertion-ordered association list ([JsMap]):
      [set] on a present key replaces the value in place, [set] on a new key
      appends, and [values] enumerates in that order.
    - [Date] values are integers (milliseconds).  Integer-valued numbers are
      [Z].  [Math.random()] is a double supplied by the host, carried as the
      rational it stands for; a product such as [Math.random() * n] is the
      double nearest to the exact product ([Float64.round]), and a literal
      such as [0.05] is the double it denotes.  The weighted risk score is
      computed with the binary64 operations of the standard library
      ([SpecFloat]).
    - A thrown value is an [Error] with its message or any other value;
      [console.error(label, error)] records both arguments.
    - A subscriber callback is a function on the state the subscribers own
      that may throw: it neither calls back into the service that notifies
      it nor mutates the value it is handed.  The same holds of a
      processor, an engine, a detector and a monitor.  An enricher may
      change the array it is handed: [processData] reads the length of
      [normalizedData] after the enrichers have run.
    - A list stands for an array; where the length of an array enters
      double arithmetic the list is taken to be shorter than 2^32, as every
      array is.
    - An [async] method is run to completion; [collectData], whose [await]
      lets other calls in, is split around it ([collectDataWith]).
    - [console.log] and [console.warn] output is not modelled. *)

From Stdlib Require Import List String Ascii Bool ZArith QArith Qround Qabs.
From Stdlib Require Import Lia Lqa DecimalString SpecFloat Sorted Permutation.
Import ListNotations.

Open Scope string_scope.
Open Scope Z_scope.
Open Scope list_scope.

(** String concatenation, as in a template literal. *)
Infix "+++" := String.append (right associativity, at level 60).

Set Implicit Arguments.
Set Warnings "-register-all,-notation-for-abbreviation".

(* ================================================================= *)
(** ** JavaScript [Map] with string keys *)

Module JsMap.
Section Ops.
Context {V : Type}.

Definition t := list (string * V).

Definition empty : t := [].

Fixpoint get (k : string) (m : t) : option V :=
  match m with
  | [] => None
  | (k', v) :: r => if String.eqb k k' then Some v else get k r
  end.

Definition has (k : string) (m : t) : bool :=
  match get k m with Some _ => true | None => false end.

Fixpoint set (k : string) (v : V) (m : t) : t :=
  match m with
  | [] => [(k, v)]
  | (k', v') :: r =>
      if String.eqb k k' then (k, v) :: r else (k', v') :: set k v r
  end.

Definition delete (k : string) (m : t) : t :=
  filter (fun kv => negb (String.eqb k (fst kv))) m.

Definition keys (m : t) : list string := map fst m.

Definition values (m : t) : list V := map snd m.

(** Every map built from [empty] by [set] and [delete] has distinct keys. *)
Definition wf (m : t) : Prop := NoDup (keys m).

Lemma get_set_eq k v m : get k (set k v m) = Some v.
Proof.
  induction m as [|[k' v'] r IH]; simpl.
  - now rewrite String.eqb_refl.
  - destruct (String.eqb k k') eqn:E; simpl.
    + now rewrite String.eqb_refl.
    + now rewrite E.
Qed.

Lemma get_set_ne k k' v m : k <> k' -> get k' (set k v m) = get k' m.
Proof.
  intros Hne. induction m as [|[k0 v0] r IH]; simpl.
  - destruct (String.eqb k' k) eqn:E; [|reflexivity].
    apply String.eqb_eq in E. congruence.
  - destruct (String.eqb k k0) eqn:E; simpl.
    + apply String.eqb_eq in E. subst k0.
      destruct (String.eqb k' k) eqn:E'; [|reflexivity].
      apply String.eqb_eq in E'. congruence.
    + now rewrite IH.
Qed.

Lemma get_delete_eq k m : get k (delete k m) = None.
Proof.
  induction m as [|[k' v'] r IH]; simpl; [reflexivity|].
  destruct (String.eqb k k') eqn:E; simpl; [assumption|].
  now rewrite E.
Qed.

Lemma get_delete_ne k k' m : k <> k' -> get k' (delete k m) = get k' m.
Proof.
  intros Hne. induction m as [|[k0 v0] r IH]; simpl; [reflexivity|].
  destruct (String.eqb k k0) eqn:E; simpl.
  - apply String.eqb_eq in E. subst k0.
    destruct (String.eqb k' k) eqn:E'; [|assumption].
    apply String.eqb_eq in E'. congruence.
  - now rewrite IH.
Qed.

Lemma get_None_delete k m : get k m = None -> delete k m = m.
Proof.
  induction m as [|[k' v'] r IH]; simpl; [reflexivity|].
  destruct (String.eqb k k') eqn:E; [discriminate|].
  intros H. simpl. now rewrite IH.
Qed.

Lemma get_In k v m : get k m = Some v -> In (k, v) m.
Proof.
  induction m as [|[k' v'] r IH]; simpl; [discriminate|].
  destruct (String.eqb k k') eqn:E.
  - apply String.eqb_eq in E. intros [= ->]. subst. now left.
  - intros H. right. now apply IH.
Qed.

Lemma get_None_keys k m : get k m = None -> ~ In k (keys m).
Proof.
  induction m as [|[k' v'] r IH]; simpl; [tauto|].
  destruct (String.eqb k k') eqn:E; [discriminate|].
  apply String.eqb_neq in E. intros H [H1|H1]; [congruence|].
  now apply IH.
Qed.

Lemma In_get k v m : wf m -> In (k, v) m -> get k m = Some v.
Proof.
  unfold wf. induction m as [|[k' v'] r IH]; simpl; [tauto|].
  intros Hnd [H|H].
  - injection H as -> ->. now rewrite String.eqb_refl.
  - inversion Hnd as [|? ? Hnotin Hnd']; subst.
    destruct (String.eqb k k') eqn:E.
    + apply String.eqb_eq in E. subst k'. exfalso. apply Hnotin.
      change k with (fst (k, v)). now apply in_map.
    + now apply IH.
Qed.

Lemma keys_set k v m :
  keys (set k v m) = if has k m then keys m else keys m ++ [k].
Proof.
  unfold has. induction m as [|[k' v'] r IH]; simpl; [reflexivity|].
  destruct (String.eqb k k') eqn:E; simpl.
  - apply String.eqb_eq in E. now subst.
  - rewrite IH. now destruct (get k r).
Qed.

Lemma values_set_new k v m :
  get k m = None -> values (set k v m) = values m ++ [v].
Proof.
  induction m as [|[k' v'] r IH]; simpl; [reflexivity|].
  destruct (String.eqb k k') eqn:E; [discriminate|].
  intros H. simpl. now rewrite IH.
Qed.

Lemma wf_set k v m : wf m -> wf (set k v m).
Proof.
  unfold wf. intros H. rewrite keys_set. unfold has.
  destruct (get k m) eqn:E; [assumption|].
  apply get_None_keys in E.
  apply NoDup_rev in H. rewrite <- (rev_involutive (keys m ++ [k])).
  apply NoDup_rev. rewrite rev_app_distr. simpl. constructor; [|assumption].
  now rewrite <- in_rev.
Qed.

Lemma wf_delete k m : wf m -> wf (delete k m).
Proof.
  unfold wf, delete, keys. induction m as [|[k' v'] r IH]; simpl; [auto|].
  intros Hnd. inversion Hnd as [|? ? Hnotin Hnd']; subst.
  destruct (String.eqb k k'); simpl; [now apply IH|].
  constructor; [|now apply IH].
  intros Hin. apply Hnotin. apply in_map_iff in Hin.
  destruct Hin as [[k0 v0] [Hk Hin]]. apply filter_In in Hin.
  simpl in Hk. subst k0. change k' with (fst (k', v0)).
  apply in_map. tauto.
Qed.

Lemma wf_empty : wf empty.
Proof. constructor. Qed.

End Ops.
Arguments t : clear implicits.
End JsMap.

(* ================================================================= *)
(** ** IEEE-754 binary64, the arithmetic of JavaScript numbers *)

Module Float64.

Definition prec : Z := 53.
Definition emax : Z := 1024.

Definition mul : spec_float -> spec_float -> spec_float := SFmul prec emax.
Definition add : spec_float -> spec_float -> spec_float := SFadd prec emax.
Definition div : spec_float -> spec_float -> spec_float := SFdiv prec emax.

(** The double nearest to an integer (exact below 2^53). *)
Definition of_Z (z : Z) : spec_float := binary_normalize prec emax z 0 false.

(** The literals [0.3], [0.2], [0.1] and [0.05]: the doubles nearest to
    3/10, 2/10, 1/10 and 5/100. *)
Definition lit_0_3 : spec_float := S754_finite false 5404319552844595 (-54).
Definition lit_0_2 : spec_float := S754_finite false 7205759403792794 (-55).
Definition lit_0_1 : spec_float := S754_finite false 7205759403792794 (-56).
Definition lit_0_05 : spec_float := S754_finite false 7205759403792794 (-57).

(** [Math.floor] of a finite double, as an integer.  [Math.floor] returns NaN
    and the infinities unchanged; they have no integer value and the model
    gives 0 there. *)
Definition floor (x : spec_float) : Z :=
  match x with
  | S754_finite s m e =>
      let n := cond_Zopp s (Z.pos m) in
      if 0 <=? e then n * 2 ^ e else n / 2 ^ (- e)
  | _ => 0
  end.

Definition is_finite (x : spec_float) : bool :=
  match x with
  | S754_finite _ _ _ | S754_zero _ => true
  | _ => false
  end.

Definition eqb (x y : spec_float) : bool :=
  match x, y with
  | S754_zero a, S754_zero b => Bool.eqb a b
  | S754_infinity a, S754_infinity b => Bool.eqb a b
  | S754_nan, S754_nan => true
  | S754_finite a m e, S754_finite b n f =>
      Bool.eqb a b && Pos.eqb m n && Z.eqb e f
  | _, _ => false
  end.

(** The rational a finite double stands for. *)
Definition toQ (x : spec_float) : Q :=
  match x with
  | S754_finite s m e =>
      (inject_Z (cond_Zopp s (Z.pos m))
       * (if 0 <=? e then inject_Z (2 ^ e) else 1 # Z.to_pos (2 ^ (- e))))%Q
  | _ => 0%Q
  end.

(** Where a number is drawn, compared or multiplied by an integer it is
    carried as the rational it stands for.  Every finite double is an
    integer multiple of 2^-1074, and in those units it has at most 53
    significant bits. *)
Definition quantum : Z := 2 ^ 1074.

(** The integer nearest to [q], the even one of the two when [q] lies half
    way. *)
Definition nearestEven (q : Q) : Z :=
  let f := Qfloor q in
  match (q - inject_Z f ?= 1 # 2)%Q with
  | Lt => f
  | Gt => f + 1
  | Eq => if Z.even f then f else f + 1
  end.

(** The result of an arithmetic operation whose exact value is [q]: the
    double nearest to [q], ties to even (no operation below comes near the
    largest double). *)
Definition round (q : Q) : Q :=
  let x := (q * inject_Z quantum)%Q in
  let e := Z.max (Z.log2 (Qfloor (Qabs x)) - 52) 0 in
  (inject_Z (nearestEven (x / inject_Z (2 ^ e)) * 2 ^ e) / inject_Z quantum)%Q.

(** A double of [0,1): what [Math.random()] returns. *)
Definition unit (r : Q) : Prop := (round r == r /\ 0 <= r /\ r < 1)%Q.

Arguments toQ : simpl never.
Arguments nearestEven : simpl never.
Arguments round : simpl never.
Arguments unit : simpl never.

End Float64.

(* ================================================================= *)
(** ** JavaScript values of type [any] *)

Inductive JsValue : Type :=
| JsUndefined
| JsNull
| JsBool (b : bool)
| JsNumber (q : Q)
| JsString (s : string)
| JsDate (ms : Z)
| JsArray (items : list JsValue)
| JsObject (fields : list (string * JsValue)).

(** A raw record and every [any]-typed payload is a plain object: its list of
    own properties, latest definition first in lookup. *)
Definition JsFields := list (string * JsValue).

(** A value of type [number]: a finite double, carried as the rational it
    stands for, [NaN] or an infinity. *)
Inductive Number : Type :=
| Finite (q : Q)
| NaN
| Infinity (negative : bool).

(** ToBoolean. *)
Definition truthy (v : JsValue) : bool :=
  match v with
  | JsUndefined | JsNull => false
  | JsBool b => b
  | JsNumber q => negb (Qeq_bool q 0)
  | JsString s => negb (String.eqb s "")
  | JsDate _ | JsArray _ | JsObject _ => true
  end.

(** [a || b] *)
Definition jsOr (a b : JsValue) : JsValue := if truthy a then a else b.

(** [o.k] on a plain object: [undefined] when the property is absent. *)
Fixpoint prop (k : string) (o : JsFields) : JsValue :=
  match o with
  | [] => JsUndefined
  | (k', v) :: r => if String.eqb k k' then v else prop k r
  end.

(** [{ ...o, k: v }]: the property keeps its place when present, else it is
    added last. *)
Fixpoint setProp (k : string) (v : JsValue) (o : JsFields) : JsFields :=
  match o with
  | [] => [(k, v)]
  | (k', v') :: r =>
      if String.eqb k k' then (k, v) :: r else (k', v') :: setProp k v r
  end.

(** [arr[i]] for an integer-valued index: [undefined] out of range. *)
Definition arrayAt {A : Type} (l : list A) (i : Z) : option A :=
  if i <? 0 then None else nth_error l (Z.to_nat i).

(** Rendering of an integer in a template literal. *)
Definition showZ (z : Z) : string := NilZero.string_of_int (Z.to_int z).
Arguments showZ : simpl never.

(** Renderings that depend on the JavaScript engine and that no property
    below relies on: [String(v)] of an arbitrary value and
    [x.toString(36)] of a fraction. *)
Class JsRuntime : Type := {
  ToString : JsValue -> string;
  toString36 : Q -> string
}.

(** [Math.random().toString(36).substr(2, 9)] *)
Definition randomSuffix `{JsRuntime} (r : Q) : string :=
  String.substring 2 9 (toString36 r).
Arguments randomSuffix : simpl never.

(** [Math.floor(r * n)] for a draw [r] and an integer [n]: the floor of the
    product as a double. *)
Definition floorTimes (r : Q) (n : Z) : Z :=
  Qfloor (Float64.round (r * inject_Z n)).
Arguments floorTimes : simpl never.
Strategy 1000 [floorTimes Float64.round].

(* ================================================================= *)
(** ** The machine and the monad of service methods *)

(** A thrown value: an [Error] (or an instance of a subclass such as
    [TypeError]) with its message, or any other value. *)
Inductive exn : Type :=
| Error (message : string)
| Thrown (value : JsValue).

(** [error instanceof Error ? error.message : 'Unknown error'] *)
Definition messageOf (e : exn) : string :=
  match e with
  | Error message => message
  | Thrown _ => "Unknown error"
  end.

Inductive Completion (A : Type) : Type :=
| Normal (a : A)
| Throws (e : exn).
Arguments Normal {A} a.
Arguments Throws {A} e.

(** A subscriber callback: it runs on the subscribers' own state and may
    throw. *)
Definition Callback (Ext A : Type) : Type := A -> Ext -> Completion unit * Ext.

(** What [setInterval] was given: the source to collect from and the delay
    in milliseconds. *)
Record Interval : Type := mkInterval {
  iv_dataSourceId : string;
  iv_delay : Q
}.

Record Machine (S Ext : Type) : Type := mkMachine {
  this : S;
  clock : nat -> Z;
  entropy : nat -> Q;
  timers : list (nat * Interval);
  nextTimer : nat;
  subscribers : Ext;
  console : list (string * exn)
}.

Definition M (S Ext A : Type) : Type :=
  Machine S Ext -> Completion A * Machine S Ext.

Section Monad.
Context {S Ext : Type}.

Definition ret {A} (a : A) : M S Ext A := fun m => (Normal a, m).

Definition bind {A B} (c : M S Ext A) (k : A -> M S Ext B) : M S Ext B :=
  fun m =>
    match c m with
    | (Normal a, m') => k a m'
    | (Throws e, m') => (Throws e, m')
    end.

Definition throw {A} (e : exn) : M S Ext A := fun m => (Throws e, m).

(** [try { c } catch (error) { h error }] *)
Definition tryCatch {A} (c : M S Ext A) (h : exn -> M S Ext A) : M S Ext A :=
  fun m =>
    match c m with
    | (Normal a, m') => (Normal a, m')
    | (Throws e, m') => h e m'
    end.

Definition getThis : M S Ext S := fun m => (Normal (this m), m).

Definition putThis (s : S) : M S Ext unit :=
  fun m =>
    (Normal tt,
     mkMachine s (clock m) (entropy m) (timers m) (nextTimer m)
       (subscribers m) (console m)).

(** [Date.now()], and [new Date()] read as milliseconds. *)
Definition Date_now : M S Ext Z :=
  fun m =>
    (Normal (clock m 0%nat),
     mkMachine (this m) (fun n => clock m (Datatypes.S n)) (entropy m)
       (timers m) (nextTimer m) (subscribers m) (console m)).

Definition Math_random : M S Ext Q :=
  fun m =>
    (Normal (entropy m 0%nat),
     mkMachine (this m) (clock m) (fun n => entropy m (Datatypes.S n))
       (timers m) (nextTimer m) (subscribers m) (console m)).

(** [console.error(label, error)]: the console keeps the two arguments. *)
Definition console_error (label : string) (error : exn) : M S Ext unit :=
  fun m =>
    (Normal tt,
     mkMachine (this m) (clock m) (entropy m) (timers m) (nextTimer m)
       (subscribers m) (console m ++ [(label, error)])).

Definition setInterval (task : Interval) : M S Ext nat :=
  fun m =>
    (Normal (nextTimer m),
     mkMachine (this m) (clock m) (entropy m)
       (timers m ++ [(nextTimer m, task)]) (Datatypes.S (nextTimer m))
       (subscribers m) (console m)).

Definition clearInterval (handle : nat) : M S Ext unit :=
  fun m =>
    (Normal tt,
     mkMachine (this m) (clock m) (entropy m)
       (filter (fun t => negb (Nat.eqb handle (fst t))) (timers m))
       (nextTimer m) (subscribers m) (console m)).

(** Calling a subscriber. *)
Definition invoke {A} (callback : Callback Ext A) (a : A) : M S Ext unit :=
  fun m =>
    let (r, ext) := callback a (subscribers m) in
    (r,
     mkMachine (this m) (clock m) (entropy m) (timers m) (nextTimer m)
       ext (console m)).

(** [for (const x of xs) { body x }] without [break]. *)
Fixpoint forOf {A} (xs : list A) (body : A -> M S Ext unit) : M S Ext unit :=
  match xs with
  | [] => ret tt
  | x :: r => bind (body x) (fun _ => forOf r body)
  end.

(** [xs.map(f)] for an effectful [f], left to right. *)
Fixpoint mapM {A B} (f : A -> M S Ext B) (xs : list A) : M S Ext (list B) :=
  match xs with
  | [] => ret []
  | x :: r => bind (f x) (fun y => bind (mapM f r) (fun ys => ret (y :: ys)))
  end.

End Monad.

Notation "x <- c ;; k" := (bind c (fun x => k))
  (at level 61, c at next level, right associativity).
Notation "c ;;; k" := (bind c (fun _ => k))
  (at level 61, right associativity).

(** The notification loop every stage uses:
    [for (const callback of callbacks) { try { callback(a) } catch (error) { console.error(label, error) } }] *)
Definition notifyCallbacks {S Ext A} (label : string)
    (callbacks : list (Callback Ext A)) (a : A) : M S Ext unit :=
  forOf callbacks (fun callback =>
    tryCatch (invoke callback a)
             (fun err => console_error label err)).
Arguments notifyCallbacks : simpl never.

(** [['a','b','c'][Math.floor(Math.random() * 3)]] *)
Definition pick {S Ext A} (choices : list A) : M S Ext (option A) :=
  r <- Math_random ;;
  ret (arrayAt choices (floorTimes r (Z.of_nat (List.length choices)))).

(* ================================================================= *)
(** ** [types.ts]: entities shared by the stages *)

Inductive EnvironmentType : Type := IT | OT | Cloud.

Definition showEnvironment (e : EnvironmentType) : string :=
  match e with IT => "IT" | OT => "OT" | Cloud => "Cloud" end.

Inductive SourceType : Type :=
| SIEM | IDS_IPS | Firewall | EDR | SCADA | PLC | HMI | CloudAPI | Other.

Definition showSourceType (t : SourceType) : string :=
  match t with
  | SIEM => "SIEM" | IDS_IPS => "IDS/IPS" | Firewall => "Firewall"
  | EDR => "EDR" | SCADA => "SCADA" | PLC => "PLC" | HMI => "HMI"
  | CloudAPI => "CloudAPI" | Other => "Other"
  end.

Inductive Protocol : Type := MQTT | OPC_UA | REST | SNMP | Syslog | OtherProtocol.

Inductive CredentialType : Type := API_KEY | OAUTH | BASIC | CERTIFICATE.

Record Credentials : Type := mkCredentials {
  cred_type : CredentialType;
  cred_value : string
}.

Record ConnectionDetails : Type := mkConnectionDetails {
  protocol : Protocol;
  endpoint : string;
  credentials : option Credentials;
  pollingInterval : option Q
}.

Inductive SourceStatus : Type := active | inactive | error.

Record DataSource : Type := mkDataSource {
  ds_id : string;
  ds_name : string;
  ds_type : SourceType;
  ds_environment : EnvironmentType;
  connectionDetails : ConnectionDetails;
  ds_status : SourceStatus;
  lastSyncTime : option Z;
  ds_createdAt : Z;
  ds_updatedAt : Z
}.

(* ================================================================= *)
(** ** Data ingestion ([DataIngestionService], analytics.ts 520-794) *)

Module Ingestion.

Record DataIngestionService (Ext : Type) : Type := mkService {
  dataSources : JsMap.t DataSource;
  collectionIntervals : JsMap.t nat;
  dataBuffer : JsMap.t (list JsFields);
  bufferSize : Number;
  dataCallbacks : list (Callback Ext (string * list JsFields))
}.

Section Service.
Context {Ext : Type}.

Notation Svc := (DataIngestionService Ext).
Notation Op := (M Svc Ext).

(** [new DataIngestionService()] *)
Definition initial : Svc :=
  mkService JsMap.empty JsMap.empty JsMap.empty (Finite 1000) [].

Definition with_dataSources (s : Svc) (x : JsMap.t DataSource) : Svc :=
  mkService x (collectionIntervals s) (dataBuffer s) (bufferSize s)
    (dataCallbacks s).

Definition with_collectionIntervals (s : Svc) (x : JsMap.t nat) : Svc :=
  mkService (dataSources s) x (dataBuffer s) (bufferSize s) (dataCallbacks s).

Definition with_dataBuffer (s : Svc) (x : JsMap.t (list JsFields)) : Svc :=
  mkService (dataSources s) (collectionIntervals s) x (bufferSize s)
    (dataCallbacks s).

Definition notFound (dataSourceId : string) : exn :=
  Error ("Data source with ID " +++ dataSourceId +++ " not found").

(** [pollingInterval] as a condition: present and not zero. *)
Definition hasPollingInterval (d : DataSource) : bool :=
  match pollingInterval (connectionDetails d) with
  | Some q => negb (Qeq_bool q 0)
  | None => false
  end.

Definition isActive (d : DataSource) : bool :=
  match ds_status d with active => true | _ => false end.

(** [(dataSource.connectionDetails.pollingInterval || 60) * 1000] *)
Definition delayOf (d : DataSource) : Q :=
  (if hasPollingInterval d
   then match pollingInterval (connectionDetails d) with
        | Some q => q
        | None => 60
        end
   else 60) * 1000.

Definition stopCollection (dataSourceId : string) : Op unit :=
  s <- getThis ;;
  match JsMap.get dataSourceId (collectionIntervals s) with
  | Some interval =>
      clearInterval interval ;;;
      putThis (with_collectionIntervals s
                 (JsMap.delete dataSourceId (collectionIntervals s)))
  | None => ret tt
  end.

Definition startCollection (dataSourceId : string) : Op unit :=
  s <- getThis ;;
  match JsMap.get dataSourceId (dataSources s) with
  | None => throw (notFound dataSourceId)
  | Some dataSource =>
      (if JsMap.has dataSourceId (collectionIntervals s)
       then stopCollection dataSourceId else ret tt) ;;;
      interval <- setInterval (mkInterval dataSourceId (delayOf dataSource)) ;;
      s' <- getThis ;;
      putThis (with_collectionIntervals s'
                 (JsMap.set dataSourceId interval (collectionIntervals s')))
  end.

Definition registerDataSource (dataSource : DataSource) : Op unit :=
  s <- getThis ;;
  putThis (with_dataBuffer
             (with_dataSources s
                (JsMap.set (ds_id dataSource) dataSource (dataSources s)))
             (JsMap.set (ds_id dataSource) [] (dataBuffer s))) ;;;
  if isActive dataSource && hasPollingInterval dataSource
  then startCollection (ds_id dataSource)
  else ret tt.

Definition updateDataSource (dataSource : DataSource) : Op unit :=
  s <- getThis ;;
  match JsMap.get (ds_id dataSource) (dataSources s) with
  | None => throw (notFound (ds_id dataSource))
  | Some existingSource =>
      (if JsMap.has (ds_id dataSource) (collectionIntervals s)
       then stopCollection (ds_id dataSource) else ret tt) ;;;
      s' <- getThis ;;
      putThis (with_dataSources s'
                 (JsMap.set (ds_id dataSource) dataSource (dataSources s'))) ;;;
      if isActive dataSource && hasPollingInterval dataSource
      then startCollection (ds_id dataSource)
      else ret tt
  end.

Definition removeDataSource (dataSourceId : string) : Op unit :=
  s <- getThis ;;
  (if JsMap.has dataSourceId (collectionIntervals s)
   then stopCollection dataSourceId else ret tt) ;;;
  s' <- getThis ;;
  putThis (with_dataBuffer
             (with_dataSources s' (JsMap.delete dataSourceId (dataSources s')))
             (JsMap.delete dataSourceId (dataBuffer s'))).

Definition onData (callback : Callback Ext (string * list JsFields)) : Op unit :=
  s <- getThis ;;
  putThis (mkService (dataSources s) (collectionIntervals s) (dataBuffer s)
             (bufferSize s) (dataCallbacks s ++ [callback])).

Definition notifyDataCallbacks (sourceId : string) (data : list JsFields)
  : Op unit :=
  s <- getThis ;;
  notifyCallbacks "Error in data callback:" (dataCallbacks s) (sourceId, data).

Definition getDataSources : Op (list DataSource) :=
  s <- getThis ;; ret (JsMap.values (dataSources s)).

Definition getDataSource (dataSourceId : string) : Op (option DataSource) :=
  s <- getThis ;; ret (JsMap.get dataSourceId (dataSources s)).

Definition getBufferedData (dataSourceId : string) : Op (list JsFields) :=
  s <- getThis ;;
  ret (match JsMap.get dataSourceId (dataBuffer s) with
       | Some buffer => buffer
       | None => []
       end).

Definition clearBuffer (dataSourceId : string) : Op unit :=
  s <- getThis ;;
  putThis (with_dataBuffer s (JsMap.set dataSourceId [] (dataBuffer s))).

Definition setBufferSize (size : Number) : Op unit :=
  s <- getThis ;;
  putThis (mkService (dataSources s) (collectionIntervals s) (dataBuffer s)
             size (dataCallbacks s)).

(** [length > capacity]: false when [capacity] is [NaN]. *)
Definition exceeds (length : Z) (capacity : Number) : bool :=
  match capacity with
  | Finite q => if Qlt_le_dec q (inject_Z length) then true else false
  | NaN => false
  | Infinity negative => negative
  end.

(** The integer part of a rational (rounding towards zero). *)
Definition truncate (q : Q) : Z :=
  if Qlt_le_dec q 0 then Qceiling q else Qfloor q.

(** How many elements [buffer.splice(0, length - capacity)] removes from a
    buffer of [length] elements: the difference, as a double, brought to an
    integer (ToIntegerOrInfinity) and clamped to [0, length]. *)
Definition spliceCount (length : Z) (capacity : Number) : Z :=
  match capacity with
  | Finite q =>
      Z.min (Z.max (truncate (Float64.round (inject_Z length - q))) 0) length
  | NaN => 0
  | Infinity negative => if negative then length else 0
  end.

(** [buffer.push(...collectedData)] followed by the trim
    [if (buffer.length > bufferSize) buffer.splice(0, buffer.length - bufferSize)]. *)
Definition pushAndTrim (capacity : Number) (buffer collectedData : list JsFields)
  : list JsFields :=
  let buffer := buffer ++ collectedData in
  let length := Z.of_nat (List.length buffer) in
  if exceeds length capacity
  then skipn (Z.to_nat (spliceCount length capacity)) buffer
  else buffer.

(** One simulated record ([simulateDataCollection], the body of its loop).
    Properties are written in source order, so the draws are consumed in that
    order. *)
Definition strOrUndefined (o : option string) : JsValue :=
  match o with Some s => JsString s | None => JsUndefined end.

Definition pickStr (choices : list string) : Op JsValue :=
  o <- pick choices ;; ret (strOrUndefined o).

(** [Math.floor(Math.random() * n)] *)
Definition randomBelow (n : Z) : Op Z :=
  r <- Math_random ;; ret (floorTimes r n).

Definition randomIP (net : string) : Op JsValue :=
  a <- randomBelow 255 ;;
  b <- randomBelow 255 ;;
  ret (JsString (net +++ showZ a +++ "." +++ showZ b)).

Definition extend (record : JsFields) (props : list (string * JsValue))
  : JsFields :=
  fold_left (fun o kv => setProp (fst kv) (snd kv) o) props record.

Definition simulateRecord (dataSource : DataSource) : Op JsFields :=
  timestamp <- Date_now ;;
  let record :=
    [("timestamp", JsDate timestamp);
     ("sourceId", JsString (ds_id dataSource));
     ("sourceName", JsString (ds_name dataSource))] in
  match ds_type dataSource with
  | SIEM =>
      eventType <- pickStr ["alert"; "log"; "audit"] ;;
      severity <- pickStr ["low"; "medium"; "high"; "critical"] ;;
      ret (extend record
             [("eventType", eventType); ("severity", severity);
              ("message", JsString ("SIEM event from " +++ ds_name dataSource))])
  | IDS_IPS =>
      protocol <- pickStr ["TCP"; "UDP"; "HTTP"; "HTTPS"] ;;
      sourceIP <- randomIP "192.168." ;;
      destinationIP <- randomIP "10.0." ;;
      severity <- pickStr ["low"; "medium"; "high"; "critical"] ;;
      ret (extend record
             [("eventType", JsString "intrusion"); ("protocol", protocol);
              ("sourceIP", sourceIP); ("destinationIP", destinationIP);
              ("severity", severity)])
  | Firewall =>
      action <- pickStr ["allow"; "deny"; "drop"] ;;
      protocol <- pickStr ["TCP"; "UDP"; "ICMP"] ;;
      sourceIP <- randomIP "192.168." ;;
      destinationIP <- randomIP "10.0." ;;
      sourcePort <- randomBelow 65535 ;;
      destinationPort <- randomBelow 65535 ;;
      ret (extend record
             [("action", action); ("protocol", protocol);
              ("sourceIP", sourceIP); ("destinationIP", destinationIP);
              ("sourcePort", JsNumber (inject_Z sourcePort));
              ("destinationPort", JsNumber (inject_Z destinationPort))])
  | SCADA | PLC | HMI =>
      device <- randomBelow 1000 ;;
      parameter <- pickStr ["temperature"; "pressure"; "level"; "flow"; "status"] ;;
      value <- Math_random ;;
      unit <- pickStr ["C"; "PSI"; "%"; "L/s"; "ON/OFF"] ;;
      ret (extend record
             [("deviceId", JsString ("DEV-" +++ showZ device));
              ("parameter", parameter);
              ("value", JsNumber (Float64.round (value * 100)));
              ("unit", unit)])
  | CloudAPI =>
      service <- pickStr ["EC2"; "S3"; "Lambda"; "Azure VM"; "GCP Compute"] ;;
      action <- pickStr ["create"; "read"; "update"; "delete"] ;;
      resource <- randomBelow 1000 ;;
      user <- randomBelow 100 ;;
      status <- pickStr ["success"; "failure"] ;;
      ret (extend record
             [("service", service); ("action", action);
              ("resource", JsString ("resource-" +++ showZ resource));
              ("user", JsString ("user-" +++ showZ user));
              ("status", status)])
  | EDR | Other =>
      ret (extend record
             [("type", JsString "generic");
              ("data", JsString ("Sample data from " +++ ds_name dataSource))])
  end.

(** [for (let i = 0; i < count; i++) records.push(record)] *)
Fixpoint simulateRecords (count : nat) (dataSource : DataSource)
  : Op (list JsFields) :=
  match count with
  | O => ret []
  | Datatypes.S n =>
      record <- simulateRecord dataSource ;;
      records <- simulateRecords n dataSource ;;
      ret (record :: records)
  end.

(** [simulateDataCollection]: 1 to 10 records, then the simulated network
    delay [Math.random() * 500], whose draw is consumed. *)
Definition simulateDataCollection (dataSource : DataSource)
  : Op (list JsFields) :=
  n <- randomBelow 10 ;;
  records <- simulateRecords (Z.to_nat (n + 1)) dataSource ;;
  delay <- Math_random ;;
  ret records.

(** [collectData], an [async] method, in the pieces its [await] cuts it
    into.  Before the [await]: the source is looked up, an unknown id throws. *)
Definition collectData_begin (dataSourceId : string) : Op DataSource :=
  s <- getThis ;;
  match JsMap.get dataSourceId (dataSources s) with
  | None => throw (notFound dataSourceId)
  | Some dataSource => ret dataSource
  end.

(** The rest of the [try] block, once the fetch has delivered
    [collectedData]; [dataSource] is the object read before the [await]. *)
Definition collectData_received (dataSourceId : string)
    (dataSource : DataSource) (collectedData : list JsFields) : Op unit :=
  s <- getThis ;;
  let buffer :=
    match JsMap.get dataSourceId (dataBuffer s) with
    | Some b => b
    | None => []
    end in
  putThis (with_dataBuffer s
             (JsMap.set dataSourceId
                (pushAndTrim (bufferSize s) buffer collectedData)
                (dataBuffer s))) ;;;
  notifyDataCallbacks dataSourceId collectedData ;;;
  now <- Date_now ;;
  s' <- getThis ;;
  let updatedSource :=
    mkDataSource (ds_id dataSource) (ds_name dataSource) (ds_type dataSource)
      (ds_environment dataSource) (connectionDetails dataSource)
      (ds_status dataSource) (Some now) (ds_createdAt dataSource)
      (ds_updatedAt dataSource) in
  putThis (with_dataSources s'
             (JsMap.set dataSourceId updatedSource (dataSources s'))).

(** The [catch] block. *)
Definition collectData_failed (dataSourceId : string)
    (dataSource : DataSource) (err : exn) : Op unit :=
  console_error ("Error collecting data from " +++ ds_name dataSource
                 +++ " (" +++ dataSourceId +++ "):") err ;;;
  s <- getThis ;;
  let updatedSource :=
    mkDataSource (ds_id dataSource) (ds_name dataSource) (ds_type dataSource)
      (ds_environment dataSource) (connectionDetails dataSource)
      error (lastSyncTime dataSource) (ds_createdAt dataSource)
      (ds_updatedAt dataSource) in
  putThis (with_dataSources s
             (JsMap.set dataSourceId updatedSource (dataSources s))).

(** One collection tick.  The awaited fetch is a parameter: it stands for
    [simulateDataCollection], the one the service uses, and for whatever
    else runs on the machine while the fetch is pending; it resolves with
    records or rejects. *)
Definition collectDataWith (fetch : DataSource -> Op (list JsFields))
    (dataSourceId : string) : Op unit :=
  dataSource <- collectData_begin dataSourceId ;;
  tryCatch
    (collectedData <- fetch dataSource ;;
     collectData_received dataSourceId dataSource collectedData)
    (collectData_failed dataSourceId dataSource).

Definition collectData : string -> Op unit :=
  collectDataWith simulateDataCollection.

End Service.
End Ingestion.

(** ** [dataSourceHelpers] (analytics.ts 800-869)

    Each helper reads the clock three times, in the order of the object
    literal: for the id, for [createdAt] and for [updatedAt].  The
    [pollingInterval] parameter has a default value, used when the argument
    is absent. *)

Module DataSourceHelpers.
Section Helpers.
Context {S Ext : Type}.

(** A parameter [pollingInterval: number = d]. *)
Definition orDefault (pollingInterval : option Q) (d : Q) : Q :=
  match pollingInterval with Some q => q | None => d end.

Definition createSIEMDataSource (name endpoint : string)
    (pollingInterval : option Q) : M S Ext DataSource :=
  now <- Date_now ;;
  createdAt <- Date_now ;;
  updatedAt <- Date_now ;;
  ret (mkDataSource ("siem-" +++ showZ now) name SIEM IT
         (mkConnectionDetails REST endpoint None
            (Some (orDefault pollingInterval 60)))
         active None createdAt updatedAt).

Definition createFirewallDataSource (name endpoint : string)
    (pollingInterval : option Q) : M S Ext DataSource :=
  now <- Date_now ;;
  createdAt <- Date_now ;;
  updatedAt <- Date_now ;;
  ret (mkDataSource ("firewall-" +++ showZ now) name Firewall IT
         (mkConnectionDetails SNMP endpoint None
            (Some (orDefault pollingInterval 60)))
         active None createdAt updatedAt).

Definition createSCADADataSource (name endpoint : string)
    (pollingInterval : option Q) : M S Ext DataSource :=
  now <- Date_now ;;
  createdAt <- Date_now ;;
  updatedAt <- Date_now ;;
  ret (mkDataSource ("scada-" +++ showZ now) name SCADA OT
         (mkConnectionDetails OPC_UA endpoint None
            (Some (orDefault pollingInterval 30)))
         active None createdAt updatedAt).

Definition createCloudDataSource (name endpoint : string)
    (credentials : Credentials) (pollingInterval : option Q)
  : M S Ext DataSource :=
  now <- Date_now ;;
  createdAt <- Date_now ;;
  updatedAt <- Date_now ;;
  ret (mkDataSource ("cloud-" +++ showZ now) name CloudAPI Cloud
         (mkConnectionDetails REST endpoint (Some credentials)
            (Some (orDefault pollingInterval 60)))
         active None createdAt updatedAt).

End Helpers.
End DataSourceHelpers.

(** ** [utils.ts]: [truncateString]

    A string is the sequence of its code units and [length] is an
    integer. *)

Module Utils.

(** [str.slice(0, end)]: a negative [end] counts from the end of the
    string. *)
Definition sliceFromStart (str : string) (end_ : Z) : string :=
  let len := Z.of_nat (String.length str) in
  let stop := if end_ <? 0 then Z.max (len + end_) 0 else Z.min end_ len in
  String.substring 0 (Z.to_nat stop) str.

Definition truncateString (str : string) (length : Z) : string :=
  if Z.of_nat (String.length str) <=? length then str
  else sliceFromStart str length +++ "...".

End Utils.

(* ================================================================= *)
(** ** Data processing ([DataProcessingService], dataProcessing.ts) *)

(** Strategies registered with a service (processors, enrichers, engines)
    are objects of their own: they run on the host without access to the
    service that calls them. *)
Definition Plugin (Ext A : Type) : Type := M unit Ext A.

Definition liftHost {S Ext A} (c : Plugin Ext A) : M S Ext A :=
  fun m =>
    let (r, h) :=
      c (mkMachine tt (clock m) (entropy m) (timers m) (nextTimer m)
           (subscribers m) (console m)) in
    (r,
     mkMachine (this m) (clock h) (entropy h) (timers h) (nextTimer h)
       (subscribers h) (console h)).

Module Processing.

Record SourceRef : Type := mkSourceRef {
  src_id : JsValue;
  src_name : JsValue;
  src_type : JsValue
}.

Record NormalizedData : Type := mkNormalizedData {
  nd_id : string;
  nd_timestamp : JsValue;
  nd_source : SourceRef;
  nd_data : JsFields;
  normalized : bool;
  enriched : option bool;
  enrichments : option JsFields
}.

Record ProcessedData : Type := mkProcessedData {
  pd_environment : EnvironmentType;
  pd_sourceType : string;
  originalCount : Z;
  normalizedCount : Z;
  enrichedCount : Z;
  pd_data : list NormalizedData;
  pd_timestamp : Z
}.

Record DataProcessor (Ext : Type) : Type := mkProcessor {
  normalize : list JsFields -> Plugin Ext (list NormalizedData)
}.

(** What [enrich] returns, and what it leaves in the array it was handed:
    it returns that very array, which holds [items] now, or it returns
    another array holding [items] and the array it was handed holds
    [behind]. *)
Inductive Enriched : Type :=
| SameArray (items : list NormalizedData)
| OtherArray (items : list NormalizedData) (behind : list NormalizedData).

Definition enrichedItems (e : Enriched) : list NormalizedData :=
  match e with
  | SameArray items => items
  | OtherArray items _ => items
  end.

(** What the array handed to [enrich] holds afterwards. *)
Definition leftBehind (e : Enriched) : list NormalizedData :=
  match e with
  | SameArray items => items
  | OtherArray _ behind => behind
  end.

Record DataEnricher (Ext : Type) : Type := mkEnricher {
  canEnrich : EnvironmentType -> string -> bool;
  enrich : list NormalizedData -> Plugin Ext Enriched
}.

Record DataProcessingService (Ext : Type) : Type := mkService {
  processors : JsMap.t (DataProcessor Ext);
  enrichers : JsMap.t (DataEnricher Ext);
  processingCallbacks : list (Callback Ext ProcessedData)
}.

Section Service.
Context {Ext : Type} `{JsRuntime}.

Notation Svc := (DataProcessingService Ext).
Notation Op := (M Svc Ext).

(** The record every built-in processor builds from a raw item; [prefix]
    and [payload] are what differs between them. *)
Definition normalizeItem (prefix : string) (payload : JsFields -> JsFields)
    (item : JsFields) : Plugin Ext NormalizedData :=
  now <- Date_now ;;
  r <- Math_random ;;
  timestamp <-
    (if truthy (prop "timestamp" item)
     then ret (prop "timestamp" item)
     else (t <- Date_now ;; ret (JsDate t))) ;;
  ret (mkNormalizedData
         (prefix +++ showZ now +++ "-" +++ randomSuffix r)
         timestamp
         (mkSourceRef
            (jsOr (prop "sourceId" item) (JsString "unknown"))
            (jsOr (prop "sourceName" item) (JsString "Unknown Source"))
            (jsOr (prop "sourceType" item) (JsString "unknown")))
         (payload item)
         true None None).

Definition defaultProcessor : DataProcessor Ext :=
  mkProcessor (mapM (normalizeItem "event-" (fun item => item))).

Definition environmentProcessor (prefix environment : string)
  : DataProcessor Ext :=
  mkProcessor
    (mapM (normalizeItem prefix
             (fun item => setProp "environment" (JsString environment) item))).

Definition itProcessor := environmentProcessor "it-event-" "IT".
Definition otProcessor := environmentProcessor "ot-event-" "OT".
Definition cloudProcessor := environmentProcessor "cloud-event-" "Cloud".

(** [{ ...item.enrichments, k: v }] *)
Definition addEnrichment (k : string) (v : JsValue) (item : NormalizedData)
  : NormalizedData :=
  mkNormalizedData (nd_id item) (nd_timestamp item) (nd_source item)
    (nd_data item) (normalized item) (Some true)
    (Some (setProp k v
             (match enrichments item with Some e => e | None => [] end))).

(** ['malware','c2','botnet'].slice(0, n) for an integer [n]. *)
Definition sliceTo (n : Z) (l : list string) : list string :=
  if n <? 0
  then firstn (Z.to_nat (Z.max 0 (Z.of_nat (List.length l) + n))) l
  else firstn (Z.to_nat n) l.

Definition threatIntelItem (item : NormalizedData) : Plugin Ext NormalizedData :=
  let hasIpAddress :=
    jsOr (prop "sourceIP" (nd_data item)) (prop "destinationIP" (nd_data item)) in
  if truthy hasIpAddress
  then
    malicious <- Math_random ;;
    score <- Math_random ;;
    listed <- Math_random ;;
    categories <-
      (if Qlt_le_dec listed (Float64.toQ Float64.lit_0_1)
       then (n <- Math_random ;;
             ret (sliceTo (floorTimes n 3 + 1) ["malware"; "c2"; "botnet"]))
       else ret []) ;;
    ret (addEnrichment "threatIntel"
           (JsObject
              [("malicious",
                JsBool (if Qlt_le_dec malicious (Float64.toQ Float64.lit_0_1)
                        then true else false));
               ("score", JsNumber (inject_Z (floorTimes score 100)));
               ("categories", JsArray (map JsString categories))])
           item)
  else ret item.

(** [data.map(f)]: a new array; [data] is left as it is. *)
Definition mapped (f : NormalizedData -> Plugin Ext NormalizedData)
    (data : list NormalizedData) : Plugin Ext Enriched :=
  items <- mapM f data ;; ret (OtherArray items data).

Definition threatIntel : DataEnricher Ext :=
  mkEnricher (fun _ _ => true) (mapped threatIntelItem).

Definition assetContextItem (item : NormalizedData) : Plugin Ext NormalizedData :=
  let deviceId :=
    jsOr (prop "deviceId" (nd_data item)) (prop "resource" (nd_data item)) in
  if truthy deviceId
  then
    criticality <- pick ["low"; "medium"; "high"; "critical"] ;;
    owner <- Math_random ;;
    location <- Math_random ;;
    ret (addEnrichment "assetContext"
           (JsObject
              [("criticality",
                match criticality with
                | Some c => JsString c
                | None => JsUndefined
                end);
               ("owner",
                JsString ("Department " +++ showZ (floorTimes owner 5 + 1)));
               ("location",
                JsString ("Location " +++ showZ (floorTimes location 3 + 1)))])
           item)
  else ret item.

Definition assetContext : DataEnricher Ext :=
  mkEnricher (fun _ _ => true) (mapped assetContextItem).

(** [new DataProcessingService()] *)
Definition initial : Svc := mkService JsMap.empty JsMap.empty [].

Definition registerProcessor (key : string) (processor : DataProcessor Ext)
  : Op unit :=
  s <- getThis ;;
  putThis (mkService (JsMap.set key processor (processors s)) (enrichers s)
             (processingCallbacks s)).

Definition registerEnricher (key : string) (enricher : DataEnricher Ext)
  : Op unit :=
  s <- getThis ;;
  putThis (mkService (processors s) (JsMap.set key enricher (enrichers s))
             (processingCallbacks s)).

Definition onProcessedData (callback : Callback Ext ProcessedData) : Op unit :=
  s <- getThis ;;
  putThis (mkService (processors s) (enrichers s)
             (processingCallbacks s ++ [callback])).

(** The registrations the module performs when it is loaded. *)
Definition registerDefaults : Op unit :=
  registerProcessor "IT" itProcessor ;;;
  registerProcessor "OT" otProcessor ;;;
  registerProcessor "Cloud" cloudProcessor ;;;
  registerEnricher "threat-intel" threatIntel ;;;
  registerEnricher "asset-context" assetContext.

(** The service as the module exports it. *)
Definition configured : Svc :=
  mkService
    [("IT", itProcessor); ("OT", otProcessor); ("Cloud", cloudProcessor)]
    [("threat-intel", threatIntel); ("asset-context", assetContext)]
    [].

(** [processors.get(key) || processors.get(environment) || defaultProcessor] *)
Definition selectProcessor (s : Svc) (environment : EnvironmentType)
    (sourceType : string) : DataProcessor Ext :=
  match JsMap.get (showEnvironment environment +++ ":" +++ sourceType)
          (processors s) with
  | Some p => p
  | None =>
      match JsMap.get (showEnvironment environment) (processors s) with
      | Some p => p
      | None => defaultProcessor
      end
  end.

(** The two arrays of [processData] during the enrichment loop:
    [normalizedData], and [enrichedData] when it is not [normalizedData]
    itself. *)
Record Arrays : Type := mkArrays {
  normalizedData : list NormalizedData;
  replacement : option (list NormalizedData)
}.

Definition enrichedData (a : Arrays) : list NormalizedData :=
  match replacement a with
  | Some items => items
  | None => normalizedData a
  end.

(** [enrichedData = enricher.enrich(enrichedData)]: as long as
    [enrichedData] is [normalizedData], what the enricher does to the array
    it is handed is done to [normalizedData]. *)
Definition assign (a : Arrays) (e : Enriched) : Arrays :=
  match replacement a, e with
  | None, SameArray items => mkArrays items None
  | None, OtherArray items behind => mkArrays behind (Some items)
  | Some _, _ => mkArrays (normalizedData a) (Some (enrichedItems e))
  end.

(** The enrichment loop of [processData]. *)
Fixpoint enrichAll (es : list (DataEnricher Ext))
    (environment : EnvironmentType) (sourceType : string)
    (a : Arrays) : Op Arrays :=
  match es with
  | [] => ret a
  | enricher :: r =>
      a' <-
        (if canEnrich enricher environment sourceType
         then (e <- liftHost (enrich enricher (enrichedData a)) ;;
               ret (assign a e))
         else ret a) ;;
      enrichAll r environment sourceType a'
  end.

(** [processData].  The counts are read when the batch is built, after the
    enrichers have run. *)
Definition processData (environment : EnvironmentType) (sourceType : string)
    (data : list JsFields) : Op ProcessedData :=
  s <- getThis ;;
  let processor := selectProcessor s environment sourceType in
  normalized <- liftHost (normalize processor data) ;;
  a <-
    enrichAll (JsMap.values (enrichers s)) environment sourceType
      (mkArrays normalized None) ;;
  timestamp <- Date_now ;;
  ret (mkProcessedData environment sourceType
         (Z.of_nat (List.length data))
         (Z.of_nat (List.length (normalizedData a)))
         (Z.of_nat (List.length (enrichedData a)))
         (enrichedData a) timestamp).

Definition notifyProcessingCallbacks (processedData : ProcessedData)
  : Op unit :=
  s <- getThis ;;
  notifyCallbacks "Error in processing callback:" (processingCallbacks s)
    processedData.

(** [handleNewData]; [dataSource] is what
    [dataIngestionService.getDataSource(sourceId)] returned. *)
Definition handleNewData (dataSource : option DataSource)
    (data : list JsFields) : Op unit :=
  match dataSource with
  | None => ret tt
  | Some d =>
      processedData <-
        processData (ds_environment d) (showSourceType (ds_type d)) data ;;
      notifyProcessingCallbacks processedData
  end.

End Service.
End Processing.

(* ================================================================= *)
(** ** Analytics ([AnalyticsService], analytics.ts 17-504) *)

Module Analytics.
Import Processing.

Record RiskFactors : Type := mkFactors {
  vulnerabilities : Z;
  threats : Z;
  compliance : Z;
  exposure : Z
}.

Inductive Trend : Type := increasing | decreasing | stable.

Record RiskScore : Type := mkRiskScore {
  rs_id : string;
  rs_assetId : option string;
  environmentType : option string;
  overallScore : Z;
  factors : RiskFactors;
  trend : option Trend;
  calculatedAt : Z
}.

Record Anomaly : Type := mkAnomaly {
  an_id : string;
  an_assetId : option string;
  an_dataSourceId : JsValue;
  an_type : option string;
  an_description : string;
  an_severity : option string;
  confidence : Z;
  relatedEvents : list string;
  an_status : string;
  detectedAt : Z;
  an_updatedAt : Z
}.

Record ComplianceControl : Type := mkControl {
  cc_id : string;
  cc_frameworkId : string;
  cc_controlId : string;
  cc_name : string;
  cc_description : string;
  cc_requirements : string;
  cc_status : option string;
  lastAssessedAt : Z
}.

Record ComplianceResult : Type := mkComplianceResult {
  compliant : bool;
  control : option ComplianceControl;
  details : string
}.

Record AnalyticsResult : Type := mkAnalyticsResult {
  ar_environment : EnvironmentType;
  ar_sourceType : string;
  ar_timestamp : Z;
  ar_riskScores : list RiskScore;
  ar_anomalies : list Anomaly;
  ar_complianceResults : list ComplianceResult
}.

Record RiskScoreEngine (Ext : Type) : Type := mkRiskEngine {
  engine_calculateRiskScores : list NormalizedData -> Plugin Ext (list RiskScore)
}.

Record AnomalyDetector (Ext : Type) : Type := mkDetector {
  detector_detectAnomalies : list NormalizedData -> Plugin Ext (list Anomaly)
}.

Record ComplianceMonitor (Ext : Type) : Type := mkMonitor {
  monitor_checkCompliance :
    list NormalizedData -> Plugin Ext (list ComplianceResult)
}.

Record AnalyticsService (Ext : Type) : Type := mkService {
  riskScoreEngines : JsMap.t (RiskScoreEngine Ext);
  anomalyDetectors : JsMap.t (AnomalyDetector Ext);
  complianceMonitors : JsMap.t (ComplianceMonitor Ext);
  analyticsCallbacks : list (Callback Ext AnalyticsResult);
  riskScores : JsMap.t RiskScore;
  anomalies : JsMap.t Anomaly;
  complianceStatus : JsMap.t ComplianceControl
}.

(** [Math.floor((v * w1) + (t * w2) + (c * w3) + (e * w4))] in doubles. *)
Definition weightedSum (w1 w2 w3 w4 : spec_float) (v t c e : Z) : spec_float :=
  Float64.add
    (Float64.add
       (Float64.add (Float64.mul (Float64.of_Z v) w1)
                    (Float64.mul (Float64.of_Z t) w2))
       (Float64.mul (Float64.of_Z c) w3))
    (Float64.mul (Float64.of_Z e) w4).

Definition weightedScore (w1 w2 w3 w4 : spec_float) (v t c e : Z) : Z :=
  Float64.floor (weightedSum w1 w2 w3 w4 v t c e).

Section Service.
Context {Ext : Type} `{JsRuntime}.

Notation Svc := (AnalyticsService Ext).
Notation Op := (M Svc Ext).

(** [Math.min(100, Math.floor(Math.random() * range) + base)] *)
Definition factor (range base : Z) : Plugin Ext Z :=
  r <- Math_random ;;
  ret (Z.min 100 (floorTimes r range + base)).

(** One score as every built-in engine computes it: four factors, the
    weighted overall score, the trend, then the id and the date. *)
Definition scoreFor (env : string)
    (vr vb tr tb cr cb er eb : Z) (w1 w2 w3 w4 : spec_float)
  : Plugin Ext RiskScore :=
  vulnerabilityFactor <- factor vr vb ;;
  threatFactor <- factor tr tb ;;
  complianceFactor <- factor cr cb ;;
  exposureFactor <- factor er eb ;;
  let overall :=
    weightedScore w1 w2 w3 w4
      vulnerabilityFactor threatFactor complianceFactor exposureFactor in
  trend <- pick [increasing; decreasing; stable] ;;
  now <- Date_now ;;
  calculatedAt <- Date_now ;;
  ret (mkRiskScore ("risk-" +++ env +++ "-" +++ showZ now) None (Some env)
         overall
         (mkFactors vulnerabilityFactor threatFactor complianceFactor
            exposureFactor)
         trend calculatedAt).

(** The group key [item.data.environment || 'unknown'], as a property name. *)
Definition environmentKey (item : NormalizedData) : string :=
  match jsOr (prop "environment" (nd_data item)) (JsString "unknown") with
  | JsString s => s
  | v => ToString v
  end.

(** [environmentData[env] = environmentData[env] || []; environmentData[env].push(item)] *)
Fixpoint groupPush (env : string) (item : NormalizedData)
    (groups : list (string * list NormalizedData))
  : list (string * list NormalizedData) :=
  match groups with
  | [] => [(env, [item])]
  | (k, items) :: r =>
      if String.eqb env k then (k, items ++ [item]) :: r
      else (k, items) :: groupPush env item r
  end.

Definition groupByEnvironment (data : list NormalizedData)
  : list (string * list NormalizedData) :=
  fold_left (fun groups item => groupPush (environmentKey item) item groups)
    data [].

(** The properties an object literal inherits from [Object.prototype]. *)
Definition objectPrototypeNames : list string :=
  ["constructor"; "__defineGetter__"; "__defineSetter__"; "hasOwnProperty";
   "__lookupGetter__"; "__lookupSetter__"; "isPrototypeOf";
   "propertyIsEnumerable"; "toString"; "valueOf"; "__proto__";
   "toLocaleString"].

Definition inherited (k : string) : bool :=
  existsb (String.eqb k) objectPrototypeNames.

(** The grouping loop of the default engine.  [environmentData] is an object
    literal: for a key it inherits, [environmentData[env] || []] is the
    inherited value (a function, or the prototype for [__proto__]), which
    has no [push], and the call throws a [TypeError] (the message is
    V8's). *)
Fixpoint groupItems (data : list NormalizedData)
    (environmentData : list (string * list NormalizedData))
  : Plugin Ext (list (string * list NormalizedData)) :=
  match data with
  | [] => ret environmentData
  | item :: rest =>
      let env := environmentKey item in
      if inherited env
      then throw (Error "environmentData[env].push is not a function")
      else groupItems rest (groupPush env item environmentData)
  end.

(** A property name that is an array index: the canonical decimal form of
    an integer below 2^32 - 1. *)
Definition arrayIndex (k : string) : option Z :=
  match NilZero.int_of_string k with
  | Some i =>
      let z := Z.of_int i in
      if String.eqb (showZ z) k && (0 <=? z) && (z <? 2 ^ 32 - 1)
      then Some z else None
  | None => None
  end.

Fixpoint insertByIndex {A} (i : Z) (x : A) (l : list (Z * A)) : list (Z * A) :=
  match l with
  | [] => [(i, x)]
  | (j, y) :: r =>
      if i <? j then (i, x) :: (j, y) :: r else (j, y) :: insertByIndex i x r
  end.

(** [Object.entries(o)]: array-index names in ascending order first, then
    the other names in creation order. *)
Definition objectEntries {A} (o : list (string * A)) : list (string * A) :=
  map snd
    (fold_left
       (fun acc kv =>
          match arrayIndex (fst kv) with
          | Some i => insertByIndex i kv acc
          | None => acc
          end) o [])
  ++ filter (fun kv => match arrayIndex (fst kv) with
                       | Some _ => false
                       | None => true
                       end) o.

Definition defaultRiskScoreEngine : RiskScoreEngine Ext :=
  mkRiskEngine (fun data =>
    environmentData <- groupItems data [] ;;
    mapM (fun group =>
            scoreFor (fst group) 50 20 40 10 30 40 20 30
              Float64.lit_0_3 Float64.lit_0_3 Float64.lit_0_2 Float64.lit_0_2)
         (objectEntries environmentData)).

Definition itRiskScoreEngine : RiskScoreEngine Ext :=
  mkRiskEngine (fun data =>
    score <- scoreFor "IT" 50 20 40 30 30 40 20 30
               Float64.lit_0_3 Float64.lit_0_3 Float64.lit_0_2 Float64.lit_0_2 ;;
    ret [score]).

Definition otRiskScoreEngine : RiskScoreEngine Ext :=
  mkRiskEngine (fun data =>
    score <- scoreFor "OT" 40 10 30 20 40 30 50 20
               Float64.lit_0_2 Float64.lit_0_2 Float64.lit_0_3 Float64.lit_0_3 ;;
    ret [score]).

Definition cloudRiskScoreEngine : RiskScoreEngine Ext :=
  mkRiskEngine (fun data =>
    score <- scoreFor "Cloud" 30 20 40 20 50 30 30 40
               Float64.lit_0_2 Float64.lit_0_3 Float64.lit_0_3 Float64.lit_0_2 ;;
    ret [score]).

Definition detectItem (item : NormalizedData) : Plugin Ext (list Anomaly) :=
  chance <- Math_random ;;
  if Qlt_le_dec chance (Float64.toQ Float64.lit_0_05)
  then
    now <- Date_now ;;
    r <- Math_random ;;
    type <- pick ["network"; "user"; "system"; "application"; "ot"; "cloud"] ;;
    severity <- pick ["critical"; "high"; "medium"; "low"] ;;
    c <- Math_random ;;
    detectedAt <- Date_now ;;
    updatedAt <- Date_now ;;
    ret [mkAnomaly ("anomaly-" +++ showZ now +++ "-" +++ randomSuffix r)
           None (src_id (nd_source item)) type
           ("Unusual activity detected in "
            +++ ToString (src_name (nd_source item)))
           severity (floorTimes c 30 + 70) [nd_id item] "new"
           detectedAt updatedAt]
  else ret [].

Definition defaultAnomalyDetector : AnomalyDetector Ext :=
  mkDetector (fun data =>
    found <- mapM detectItem data ;; ret (List.concat found)).

Definition controlCatalog : list (string * string * string) :=
  [("nist-csf", "ID.AM-1", "Physical devices inventory");
   ("nist-csf", "ID.AM-2", "Software platforms inventory");
   ("iso-27001", "A.8.1.1", "Asset inventory");
   ("iec-62443", "SR 1.1", "Security policy and procedures")].

Definition showStatus (status : option string) : string :=
  match status with Some s => s | None => "undefined" end.

Definition defaultComplianceMonitor : ComplianceMonitor Ext :=
  mkMonitor (fun data =>
    match data with
    | [] => ret []
    | _ :: _ =>
        chance <- Math_random ;;
        if Qlt_le_dec chance (Float64.toQ Float64.lit_0_1)
        then
          chosen <- pick controlCatalog ;;
          status <- pick ["compliant"; "non_compliant"; "partially_compliant";
                          "not_applicable"] ;;
          match chosen with
          | None =>
              throw (Error "Cannot read properties of undefined (reading 'frameworkId')")
          | Some (frameworkId, controlId, name) =>
              lastAssessedAt <- Date_now ;;
              ret [mkComplianceResult
                     (match status with
                      | Some s => String.eqb s "compliant"
                      | None => false
                      end)
                     (Some (mkControl (frameworkId +++ "-" +++ controlId)
                              frameworkId controlId name
                              ("Compliance control for " +++ name)
                              ("Requirements for " +++ name)
                              status lastAssessedAt))
                     ("Compliance check for " +++ name +++ " resulted in "
                      +++ showStatus status)]
          end
        else ret []
    end).

(** [new AnalyticsService()] *)
Definition initial : Svc :=
  mkService JsMap.empty JsMap.empty JsMap.empty [] JsMap.empty JsMap.empty
    JsMap.empty.

(** The service as the module exports it: the IT, OT and Cloud engines
    registered. *)
Definition configured : Svc :=
  mkService
    [("IT", itRiskScoreEngine); ("OT", otRiskScoreEngine);
     ("Cloud", cloudRiskScoreEngine)]
    JsMap.empty JsMap.empty [] JsMap.empty JsMap.empty JsMap.empty.

Definition with_riskScores (s : Svc) (x : JsMap.t RiskScore) : Svc :=
  mkService (riskScoreEngines s) (anomalyDetectors s) (complianceMonitors s)
    (analyticsCallbacks s) x (anomalies s) (complianceStatus s).

Definition with_anomalies (s : Svc) (x : JsMap.t Anomaly) : Svc :=
  mkService (riskScoreEngines s) (anomalyDetectors s) (complianceMonitors s)
    (analyticsCallbacks s) (riskScores s) x (complianceStatus s).

Definition with_complianceStatus (s : Svc) (x : JsMap.t ComplianceControl)
  : Svc :=
  mkService (riskScoreEngines s) (anomalyDetectors s) (complianceMonitors s)
    (analyticsCallbacks s) (riskScores s) (anomalies s) x.

Definition registerRiskScoreEngine (key : string) (engine : RiskScoreEngine Ext)
  : Op unit :=
  s <- getThis ;;
  putThis (mkService (JsMap.set key engine (riskScoreEngines s))
             (anomalyDetectors s) (complianceMonitors s)
             (analyticsCallbacks s) (riskScores s) (anomalies s)
             (complianceStatus s)).

Definition registerAnomalyDetector (key : string) (detector : AnomalyDetector Ext)
  : Op unit :=
  s <- getThis ;;
  putThis (mkService (riskScoreEngines s)
             (JsMap.set key detector (anomalyDetectors s))
             (complianceMonitors s) (analyticsCallbacks s) (riskScores s)
             (anomalies s) (complianceStatus s)).

Definition registerComplianceMonitor (key : string)
    (monitor : ComplianceMonitor Ext) : Op unit :=
  s <- getThis ;;
  putThis (mkService (riskScoreEngines s) (anomalyDetectors s)
             (JsMap.set key monitor (complianceMonitors s))
             (analyticsCallbacks s) (riskScores s) (anomalies s)
             (complianceStatus s)).

Definition onAnalyticsResult (callback : Callback Ext AnalyticsResult)
  : Op unit :=
  s <- getThis ;;
  putThis (mkService (riskScoreEngines s) (anomalyDetectors s)
             (complianceMonitors s) (analyticsCallbacks s ++ [callback])
             (riskScores s) (anomalies s) (complianceStatus s)).

(** [registry.get(key) || registry.get(environment) || fallback] *)
Definition select {A} (registry : JsMap.t A) (fallback : A)
    (environment : EnvironmentType) (sourceType : string) : A :=
  match JsMap.get (showEnvironment environment +++ ":" +++ sourceType)
          registry with
  | Some x => x
  | None =>
      match JsMap.get (showEnvironment environment) registry with
      | Some x => x
      | None => fallback
      end
  end.

(** The cache after [for (const score of newScores) riskScores.set(score.id, score)]. *)
Definition cacheScores (newScores : list RiskScore) (cache : JsMap.t RiskScore)
  : JsMap.t RiskScore :=
  fold_left (fun c score => JsMap.set (rs_id score) score c) newScores cache.

Definition calculateRiskScores (environment : EnvironmentType)
    (sourceType : string) (data : list NormalizedData) : Op (list RiskScore) :=
  s <- getThis ;;
  let engine :=
    select (riskScoreEngines s) defaultRiskScoreEngine environment sourceType in
  newScores <- liftHost (engine_calculateRiskScores engine data) ;;
  s' <- getThis ;;
  putThis (with_riskScores s' (cacheScores newScores (riskScores s'))) ;;;
  ret newScores.

Definition detectAnomalies (environment : EnvironmentType)
    (sourceType : string) (data : list NormalizedData) : Op (list Anomaly) :=
  s <- getThis ;;
  let detector :=
    select (anomalyDetectors s) defaultAnomalyDetector environment sourceType in
  newAnomalies <- liftHost (detector_detectAnomalies detector data) ;;
  s' <- getThis ;;
  putThis (with_anomalies s'
             (fold_left (fun c anomaly => JsMap.set (an_id anomaly) anomaly c)
                newAnomalies (anomalies s'))) ;;;
  ret newAnomalies.

Definition checkCompliance (environment : EnvironmentType)
    (sourceType : string) (data : list NormalizedData)
  : Op (list ComplianceResult) :=
  s <- getThis ;;
  let monitor :=
    select (complianceMonitors s) defaultComplianceMonitor environment
      sourceType in
  results <- liftHost (monitor_checkCompliance monitor data) ;;
  s' <- getThis ;;
  putThis (with_complianceStatus s'
             (fold_left
                (fun c result =>
                   match control result with
                   | Some ctl => JsMap.set (cc_id ctl) ctl c
                   | None => c
                   end)
                results (complianceStatus s'))) ;;;
  ret results.

Definition analyzeData (processedData : ProcessedData) : Op AnalyticsResult :=
  let environment := pd_environment processedData in
  let sourceType := pd_sourceType processedData in
  let data := pd_data processedData in
  riskScores <- calculateRiskScores environment sourceType data ;;
  anomalies <- detectAnomalies environment sourceType data ;;
  complianceResults <- checkCompliance environment sourceType data ;;
  timestamp <- Date_now ;;
  ret (mkAnalyticsResult environment sourceType timestamp riskScores anomalies
         complianceResults).

Definition notifyAnalyticsCallbacks (analyticsResult : AnalyticsResult)
  : Op unit :=
  s <- getThis ;;
  notifyCallbacks "Error in analytics callback:" (analyticsCallbacks s)
    analyticsResult.

Definition handleProcessedData (processedData : ProcessedData) : Op unit :=
  analyticsResult <- analyzeData processedData ;;
  notifyAnalyticsCallbacks analyticsResult.

Definition getRiskScore (id : string) : Op (option RiskScore) :=
  s <- getThis ;; ret (JsMap.get id (riskScores s)).

Definition getRiskScores : Op (list RiskScore) :=
  s <- getThis ;; ret (JsMap.values (riskScores s)).

Definition getAnomalies : Op (list Anomaly) :=
  s <- getThis ;; ret (JsMap.values (anomalies s)).

Definition getAnomaly (id : string) : Op (option Anomaly) :=
  s <- getThis ;; ret (JsMap.get id (anomalies s)).

Definition getComplianceStatus : Op (list ComplianceControl) :=
  s <- getThis ;; ret (JsMap.values (complianceStatus s)).

End Service.
End Analytics.

(* ================================================================= *)
(** ** Orchestration ([OrchestrationService], orchestration.ts 17-695) *)

Module Orchestration.
Import Analytics.

Inductive EventType : Type :=
| detection | assignment | status_change | comment | action | evidence.

Record IncidentEvent : Type := mkEvent {
  ev_id : string;
  ev_incidentId : string;
  ev_type : EventType;
  ev_description : string;
  ev_user : option string;
  ev_timestamp : Z
}.

Inductive IncidentStatus : Type :=
| new | assigned | investigating | contained | remediated | resolved | closed.

Record Incident : Type := mkIncident {
  inc_id : string;
  inc_title : string;
  inc_description : string;
  inc_severity : option string;
  inc_status : IncidentStatus;
  assignedTo : option string;
  affectedAssets : list string;
  relatedAnomalies : list string;
  timeline : list IncidentEvent;
  inc_createdAt : Z;
  inc_updatedAt : Z;
  resolvedAt : option Z
}.

Record PolicyAction : Type := mkPolicyAction {
  pa_id : string;
  pa_ruleId : string;
  pa_type : string;
  pa_parameters : JsFields
}.

Inductive RuleStatus : Type := rule_active | rule_inactive.

Record PolicyRule : Type := mkRule {
  rule_id : string;
  rule_policyId : string;
  rule_name : string;
  rule_description : string;
  condition : string;
  rule_actions : list PolicyAction;
  rule_status : RuleStatus
}.

Inductive PolicyType : Type := security | compliance_policy | operational.

Inductive PolicyEnvironment : Type :=
| only (e : EnvironmentType)
| all.

Inductive PolicyStatus : Type := policy_active | policy_inactive | draft.

Record Policy : Type := mkPolicy {
  pol_id : string;
  pol_name : string;
  pol_description : string;
  pol_type : PolicyType;
  pol_environment : PolicyEnvironment;
  rules : list PolicyRule;
  pol_status : PolicyStatus;
  pol_createdAt : Z;
  pol_updatedAt : Z
}.

Inductive PlaybookType : Type :=
| for_anomaly | for_compliance | for_incident | scheduled.

Record PlaybookTrigger : Type := mkTrigger {
  trigger_type : option string;
  trigger_severity : option string;
  trigger_frameworkId : option string;
  trigger_controlId : option string
}.

Record PlaybookStep : Type := mkStep {
  step_name : string;
  step_description : string;
  step_action : string;
  step_parameters : JsFields;
  critical : bool
}.

Record Playbook : Type := mkPlaybook {
  pb_id : string;
  pb_name : string;
  pb_description : string;
  pb_type : PlaybookType;
  triggers : list PlaybookTrigger;
  steps : list PlaybookStep;
  pb_createdAt : Z;
  pb_updatedAt : Z
}.

Record PlaybookActionResult : Type := mkActionResult {
  act_name : string;
  act_success : bool;
  act_error : option string;
  act_timestamp : Z
}.

Record PolicyActionResult : Type := mkPolicyActionResult {
  pact_type : string;
  pact_success : bool;
  pact_error : option string;
  pact_timestamp : Z
}.

Inductive ResultType : Type := playbook | policy.

Inductive ActionResults : Type :=
| PlaybookActions (results : list PlaybookActionResult)
| PolicyActions (results : list PolicyActionResult).

(** The [context] handed to an execution. *)
Inductive Context : Type :=
| AnomalyContext (anomaly : Anomaly)
| ComplianceContext (complianceIssue : ComplianceResult)
| AnalyticsContext (analyticsResult : AnalyticsResult).

Record OrchestrationResult : Type := mkResult {
  or_type : ResultType;
  or_name : string;
  or_success : bool;
  or_actions : ActionResults;
  startTime : Z;
  endTime : Z;
  duration : Z;
  or_context : Context
}.


Record OrchestrationService (Ext : Type) : Type := mkService {
  playbooks : JsMap.t Playbook;
  policies : JsMap.t Policy;
  incidents : JsMap.t Incident;
  orchestrationCallbacks : list (Callback Ext OrchestrationResult)
}.

(** [a === b] on optional strings ([undefined === undefined] holds). *)
Definition sameString (a b : option string) : bool :=
  match a, b with
  | Some x, Some y => String.eqb x y
  | None, None => true
  | _, _ => false
  end.

(** [incident.relatedAnomalies.includes(id)] *)
Definition includes (id : string) (l : list string) : bool :=
  existsb (String.eqb id) l.

Section Service.
Context {Ext : Type} `{JsRuntime}.

Notation Svc := (OrchestrationService Ext).
Notation Op := (M Svc Ext).

(** [new OrchestrationService()] *)
Definition initial : Svc := mkService JsMap.empty JsMap.empty JsMap.empty [].

Definition with_incidents (s : Svc) (x : JsMap.t Incident) : Svc :=
  mkService (playbooks s) (policies s) x (orchestrationCallbacks s).

Definition registerPlaybook (p : Playbook) : Op unit :=
  s <- getThis ;;
  putThis (mkService (JsMap.set (pb_id p) p (playbooks s)) (policies s)
             (incidents s) (orchestrationCallbacks s)).

Definition registerPolicy (p : Policy) : Op unit :=
  s <- getThis ;;
  putThis (mkService (playbooks s) (JsMap.set (pol_id p) p (policies s))
             (incidents s) (orchestrationCallbacks s)).

Definition onOrchestrationResult (callback : Callback Ext OrchestrationResult)
  : Op unit :=
  s <- getThis ;;
  putThis (mkService (playbooks s) (policies s) (incidents s)
             (orchestrationCallbacks s ++ [callback])).

Definition notifyOrchestrationCallbacks (result : OrchestrationResult)
  : Op unit :=
  s <- getThis ;;
  notifyCallbacks "Error in orchestration callback:"
    (orchestrationCallbacks s) result.

Definition matchesAnomaly (anomaly : Anomaly) (p : Playbook) : bool :=
  match pb_type p with
  | for_anomaly =>
      existsb (fun trigger =>
                 sameString (trigger_type trigger) (an_type anomaly)
                 && sameString (trigger_severity trigger) (an_severity anomaly))
        (triggers p)
  | _ => false
  end.

Definition findPlaybookForAnomaly (anomaly : Anomaly) : Op (option Playbook) :=
  s <- getThis ;;
  ret (find (matchesAnomaly anomaly) (JsMap.values (playbooks s))).

Definition matchesComplianceIssue (complianceResult : ComplianceResult)
    (p : Playbook) : bool :=
  match pb_type p with
  | for_compliance =>
      existsb (fun trigger =>
                 sameString (trigger_frameworkId trigger)
                   (option_map cc_frameworkId (control complianceResult)))
        (triggers p)
  | _ => false
  end.

Definition findPlaybookForComplianceIssue (complianceResult : ComplianceResult)
  : Op (option Playbook) :=
  s <- getThis ;;
  ret (find (matchesComplianceIssue complianceResult)
         (JsMap.values (playbooks s))).

(** [simulateActionExecution]: succeeds when [Math.random() > 0.05]. *)
Definition simulateActionExecution (step : PlaybookStep) (context : Context)
  : Op PlaybookActionResult :=
  r <- Math_random ;;
  let success :=
    if Qlt_le_dec (Float64.toQ Float64.lit_0_05) r then true else false in
  timestamp <- Date_now ;;
  ret (mkActionResult (step_name step) success
         (if success then None else Some "Simulated failure") timestamp).

(** The loop of [executePlaybook] over the steps still to run; [actions]
    are the results pushed so far.  [execute] is the step executor:
    [simulateActionExecution] in the service. *)
Fixpoint runSteps
    (execute : PlaybookStep -> Context -> Op PlaybookActionResult)
    (remaining : list PlaybookStep) (context : Context)
    (actions : list PlaybookActionResult) : Op (list PlaybookActionResult) :=
  match remaining with
  | [] => ret actions
  | step :: rest =>
      outcome <-
        tryCatch
          (actionResult <- execute step context ;;
           ret (actionResult, negb (act_success actionResult) && critical step))
          (fun err =>
             console_error ("Error executing step: " +++ step_name step) err ;;;
             timestamp <- Date_now ;;
             ret (mkActionResult (step_name step) false
                    (Some (messageOf err)) timestamp,
                  critical step)) ;;
      if snd outcome
      then ret (actions ++ [fst outcome])
      else runSteps execute rest context (actions ++ [fst outcome])
  end.

Definition executePlaybookWith
    (execute : PlaybookStep -> Context -> Op PlaybookActionResult)
    (p : Playbook) (context : Context) : Op OrchestrationResult :=
  startTime <- Date_now ;;
  actions <- runSteps execute (steps p) context [] ;;
  endTime <- Date_now ;;
  let success := forallb act_success actions in
  ret (mkResult playbook (pb_name p) success (PlaybookActions actions)
         startTime endTime (endTime - startTime) context).

Definition executePlaybook : Playbook -> Context -> Op OrchestrationResult :=
  executePlaybookWith simulateActionExecution.

(** [`prefix-${Date.now() + bump}-${Math.random().toString(36).substr(2, 9)}`] *)
Definition freshId (prefix : string) (bump : Z) : Op string :=
  now <- Date_now ;;
  r <- Math_random ;;
  ret (prefix +++ showZ (now + bump) +++ "-" +++ randomSuffix r).

Definition referencedBy (anomalyId : string) (incident : Incident) : bool :=
  includes anomalyId (relatedAnomalies incident).

Definition createOrUpdateIncident (anomaly : Anomaly)
    (playbookResult : OrchestrationResult) : Op unit :=
  s <- getThis ;;
  match find (referencedBy (an_id anomaly)) (JsMap.values (incidents s)) with
  | Some existingIncident =>
      updatedAt <- Date_now ;;
      eventId <- freshId "event-" 0 ;;
      timestamp <- Date_now ;;
      let updatedIncident :=
        mkIncident (inc_id existingIncident) (inc_title existingIncident)
          (inc_description existingIncident) (inc_severity existingIncident)
          (inc_status existingIncident) (assignedTo existingIncident)
          (affectedAssets existingIncident) (relatedAnomalies existingIncident)
          (timeline existingIncident
           ++ [mkEvent eventId (inc_id existingIncident) action
                 ("Executed playbook: " +++ or_name playbookResult) None
                 timestamp])
          (inc_createdAt existingIncident) updatedAt
          (resolvedAt existingIncident) in
      putThis (with_incidents s
                 (JsMap.set (inc_id existingIncident) updatedIncident
                    (incidents s)))
  | None =>
      id <- freshId "incident-" 0 ;;
      detectionId <- freshId "event-" 0 ;;
      detectionIncidentId <- freshId "incident-" 0 ;;
      detectionTimestamp <- Date_now ;;
      actionId <- freshId "event-" 1 ;;
      actionIncidentId <- freshId "incident-" 0 ;;
      actionTimestamp <- Date_now ;;
      createdAt <- Date_now ;;
      updatedAt <- Date_now ;;
      let newIncident :=
        mkIncident id ("Incident: " +++ an_description anomaly)
          ("Incident created from anomaly: " +++ an_description anomaly)
          (an_severity anomaly) new None [] [an_id anomaly]
          [mkEvent detectionId detectionIncidentId detection
             ("Anomaly detected: " +++ an_description anomaly) None
             detectionTimestamp;
           mkEvent actionId actionIncidentId action
             ("Executed playbook: " +++ or_name playbookResult) None
             actionTimestamp]
          createdAt updatedAt None in
      putThis (with_incidents s (JsMap.set id newIncident (incidents s)))
  end.

Definition respondToAnomaly (anomaly : Anomaly) : Op unit :=
  found <- findPlaybookForAnomaly anomaly ;;
  match found with
  | Some p =>
      result <- executePlaybook p (AnomalyContext anomaly) ;;
      createOrUpdateIncident anomaly result ;;;
      notifyOrchestrationCallbacks result
  | None => ret tt
  end.

Definition respondToComplianceIssue (complianceResult : ComplianceResult)
  : Op unit :=
  found <- findPlaybookForComplianceIssue complianceResult ;;
  match found with
  | Some p =>
      result <- executePlaybook p (ComplianceContext complianceResult) ;;
      notifyOrchestrationCallbacks result
  | None => ret tt
  end.

(** Stubbed in the source: [Math.random() < 0.2]. *)
Definition evaluateRuleCondition (rule : PolicyRule) (context : Context)
  : Op bool :=
  r <- Math_random ;;
  ret (if Qlt_le_dec r (Float64.toQ Float64.lit_0_2) then true else false).

Definition simulatePolicyActionExecution (a : PolicyAction) (context : Context)
  : Op PolicyActionResult :=
  r <- Math_random ;;
  let success :=
    if Qlt_le_dec (Float64.toQ Float64.lit_0_05) r then true else false in
  timestamp <- Date_now ;;
  ret (mkPolicyActionResult (pa_type a) success
         (if success then None else Some "Simulated failure") timestamp).

Definition executeRuleActions (p : Policy) (rule : PolicyRule)
    (context : Context) : Op OrchestrationResult :=
  startTime <- Date_now ;;
  actions <-
    mapM (fun a =>
            tryCatch (simulatePolicyActionExecution a context)
              (fun err =>
                 console_error ("Error executing action: " +++ pa_type a) err ;;;
                 timestamp <- Date_now ;;
                 ret (mkPolicyActionResult (pa_type a) false
                        (Some (messageOf err)) timestamp)))
      (rule_actions rule) ;;
  endTime <- Date_now ;;
  let success := forallb pact_success actions in
  ret (mkResult policy (pol_name p +++ ":" +++ rule_name rule) success
         (PolicyActions actions) startTime endTime (endTime - startTime)
         context).

Definition applicable (analyticsResult : AnalyticsResult) (p : Policy) : bool :=
  match pol_status p with
  | policy_active =>
      match pol_environment p with
      | all => true
      | only e =>
          String.eqb (showEnvironment e)
            (showEnvironment (ar_environment analyticsResult))
      end
  | _ => false
  end.

Definition enforcePolicies (analyticsResult : AnalyticsResult) : Op unit :=
  s <- getThis ;;
  let applicablePolicies :=
    filter (applicable analyticsResult) (JsMap.values (policies s)) in
  forOf applicablePolicies (fun p =>
    forOf (rules p) (fun rule =>
      match rule_status rule with
      | rule_active =>
          conditionMet <-
            evaluateRuleCondition rule (AnalyticsContext analyticsResult) ;;
          if conditionMet
          then
            result <-
              executeRuleActions p rule (AnalyticsContext analyticsResult) ;;
            notifyOrchestrationCallbacks result
          else ret tt
      | rule_inactive => ret tt
      end)).

Definition requiresResponse (anomaly : Anomaly) : bool :=
  sameString (an_severity anomaly) (Some "critical")
  || sameString (an_severity anomaly) (Some "high").

Definition handleAnalyticsResult (analyticsResult : AnalyticsResult)
  : Op unit :=
  forOf (ar_anomalies analyticsResult) (fun anomaly =>
    if requiresResponse anomaly then respondToAnomaly anomaly else ret tt) ;;;
  forOf (ar_complianceResults analyticsResult) (fun complianceResult =>
    if negb (compliant complianceResult)
       && match control complianceResult with Some _ => true | None => false end
    then respondToComplianceIssue complianceResult
    else ret tt) ;;;
  enforcePolicies analyticsResult.

Definition getIncidents : Op (list Incident) :=
  s <- getThis ;; ret (JsMap.values (incidents s)).

Definition getIncident (id : string) : Op (option Incident) :=
  s <- getThis ;; ret (JsMap.get id (incidents s)).

Definition updateIncident (incident : Incident) : Op unit :=
  updatedAt <- Date_now ;;
  s <- getThis ;;
  putThis (with_incidents s
             (JsMap.set (inc_id incident)
                (mkIncident (inc_id incident) (inc_title incident)
                   (inc_description incident) (inc_severity incident)
                   (inc_status incident) (assignedTo incident)
                   (affectedAssets incident) (relatedAnomalies incident)
                   (timeline incident) (inc_createdAt incident) updatedAt
                   (resolvedAt incident))
                (incidents s))).


Definition getPlaybooks : Op (list Playbook) :=
  s <- getThis ;; ret (JsMap.values (playbooks s)).

Definition getPlaybook (id : string) : Op (option Playbook) :=
  s <- getThis ;; ret (JsMap.get id (playbooks s)).

Definition getPolicies : Op (list Policy) :=
  s <- getThis ;; ret (JsMap.values (policies s)).

Definition getPolicy (id : string) : Op (option Policy) :=
  s <- getThis ;; ret (JsMap.get id (policies s)).

(** The sample "Ransomware Response" playbook the module registers. *)
Definition ransomwareResponse (createdAt updatedAt : Z) : Playbook :=
  mkPlaybook "ransomware-response" "Ransomware Response"
    "Automated response to ransomware detection" for_anomaly
    [mkTrigger (Some "network") (Some "critical") None None;
     mkTrigger (Some "system") (Some "critical") None None]
    [mkStep "Isolate Affected Systems"
       "Isolate affected systems from the network" "isolate"
       [("method", JsString "network")] true;
     mkStep "Capture Forensic Evidence"
       "Capture forensic evidence for investigation" "capture_evidence"
       [("type", JsString "memory_dump")] false;
     mkStep "Notify Security Team" "Send notification to security team"
       "notify"
       [("channel", JsString "email");
        ("recipients", JsArray [JsString "security@example.com"])] true;
     mkStep "Initiate Incident Response"
       "Create incident and assign to security team" "create_incident"
       [("severity", JsString "critical");
        ("assignee", JsString "security_team")] true]
    createdAt updatedAt.

(** The sample "Compliance Remediation" playbook. *)
Definition complianceRemediation (createdAt updatedAt : Z) : Playbook :=
  mkPlaybook "compliance-remediation" "Compliance Remediation"
    "Automated remediation for compliance issues" for_compliance
    [mkTrigger None None (Some "nist-csf") None;
     mkTrigger None None (Some "iso-27001") None]
    [mkStep "Document Compliance Issue" "Document the compliance issue"
       "document" [("format", JsString "detailed")] true;
     mkStep "Assign Remediation Task"
       "Assign remediation task to appropriate team" "assign_task"
       [("team", JsString "compliance")] true;
     mkStep "Schedule Follow-up Assessment"
       "Schedule follow-up assessment to verify remediation"
       "schedule_assessment" [("timeframe", JsString "7d")] false;
     mkStep "Notify Compliance Officer"
       "Send notification to compliance officer" "notify"
       [("channel", JsString "email");
        ("recipients", JsArray [JsString "compliance@example.com"])] true]
    createdAt updatedAt.

(** The sample policies.  A rule's [condition] text is never inspected
    ([evaluateRuleCondition] ignores it); it is kept without its quotation
    marks. *)
Definition networkSegmentation (createdAt updatedAt : Z) : Policy :=
  mkPolicy "network-segmentation" "Network Segmentation"
    "Policy for enforcing network segmentation between IT and OT" security all
    [mkRule "ns-rule-1" "network-segmentation"
       "Block Unauthorized IT-OT Traffic"
       "Block unauthorized traffic between IT and OT networks"
       "{source: IT, destination: OT, authorized: false}"
       [mkPolicyAction "ns-action-1" "ns-rule-1" "block"
          [("direction", JsString "both"); ("log", JsBool true)];
        mkPolicyAction "ns-action-2" "ns-rule-1" "alert"
          [("severity", JsString "high");
           ("message", JsString "Unauthorized IT-OT traffic detected")]]
       rule_active]
    policy_active createdAt updatedAt.

Definition cloudAccessControl (createdAt updatedAt : Z) : Policy :=
  mkPolicy "cloud-access-control" "Cloud Access Control"
    "Policy for enforcing access control to cloud resources" security
    (only Cloud)
    [mkRule "cac-rule-1" "cloud-access-control" "Enforce MFA for Admin Access"
       "Enforce multi-factor authentication for administrative access"
       "{role: admin, mfa: false}"
       [mkPolicyAction "cac-action-1" "cac-rule-1" "block"
          [("reason", JsString "MFA required")];
        mkPolicyAction "cac-action-2" "cac-rule-1" "notify"
          [("user", JsBool true); ("admin", JsBool true);
           ("message", JsString "MFA required for admin access")]]
       rule_active]
    policy_active createdAt updatedAt.

(** The registrations the module performs when it is loaded. *)
Definition registerSamples : Op unit :=
  c1 <- Date_now ;; u1 <- Date_now ;;
  registerPlaybook (ransomwareResponse c1 u1) ;;;
  c2 <- Date_now ;; u2 <- Date_now ;;
  registerPlaybook (complianceRemediation c2 u2) ;;;
  c3 <- Date_now ;; u3 <- Date_now ;;
  registerPolicy (networkSegmentation c3 u3) ;;;
  c4 <- Date_now ;; u4 <- Date_now ;;
  registerPolicy (cloudAccessControl c4 u4).

End Service.
End Orchestration.

(* ================================================================= *)
(** * Properties *)

(** Unfolding of the monad's plumbing. *)
Ltac run :=
  unfold bind, ret, throw, tryCatch, getThis, putThis, console_error,
    setInterval, clearInterval, invoke in *; cbn in *.

(** ** Doubles *)

Module Float64Facts.
Import Float64.
#[local] Open Scope Q_scope.

Lemma quantum_pos : (0 < quantum)%Z.
Proof. reflexivity. Qed.

Lemma nearestEven_bounds q :
  inject_Z (nearestEven q) <= q + (1 # 2)
  /\ q - (1 # 2) <= inject_Z (nearestEven q).
Proof.
  unfold nearestEven.
  pose proof (Qfloor_le q) as Hlo. pose proof (Qlt_floor q) as Hhi.
  rewrite inject_Z_plus in Hhi. change (inject_Z 1) with 1 in Hhi.
  destruct (q - inject_Z (Qfloor q) ?= 1 # 2) eqn:E.
  - apply Qeq_alt in E.
    destruct (Z.even (Qfloor q));
      [|rewrite inject_Z_plus; change (inject_Z 1) with 1]; split; lra.
  - apply Qlt_alt in E. split; lra.
  - apply Qgt_alt in E. rewrite inject_Z_plus. change (inject_Z 1) with 1.
    split; lra.
Qed.

Lemma nearestEven_Z z : nearestEven (inject_Z z) = z.
Proof.
  unfold nearestEven. rewrite Qfloor_Z.
  assert (E : (inject_Z z - inject_Z z ?= 1 # 2) = Lt)
    by (rewrite <- Qlt_alt; lra).
  now rewrite E.
Qed.

Lemma nearestEven_comp q q' : q == q' -> nearestEven q = nearestEven q'.
Proof.
  intros H. unfold nearestEven. rewrite (Qfloor_comp _ _ H).
  assert (E : (q - inject_Z (Qfloor q') ?= 1 # 2)
              = (q' - inject_Z (Qfloor q') ?= 1 # 2))
    by (apply Qcompare_comp; [now rewrite H|reflexivity]).
  now rewrite E.
Qed.

Lemma nearestEven_nonneg q : 0 <= q -> (0 <= nearestEven q)%Z.
Proof.
  intros H. destruct (nearestEven_bounds q) as [_ Hlo].
  assert (Hgt : inject_Z (-1) < inject_Z (nearestEven q))
    by (change (inject_Z (-1)) with (-1 # 1); lra).
  rewrite <- Zlt_Qlt in Hgt. lia.
Qed.

Lemma pow2_pos e : (0 <= e)%Z -> 0 < inject_Z (2 ^ e).
Proof.
  intros He. change 0%Q with (inject_Z 0). rewrite <- Zlt_Qlt. now apply Z.pow_pos_nonneg.
Qed.


(** In units of 2^-1074: rounding a non-negative [x] adds at most half a
    unit in the last place, which is at most [x * 2^-53] for a normal
    number and at most a half for a subnormal one. *)
Lemma scaled_upper x :
  0 <= x ->
  let e := Z.max (Z.log2 (Qfloor (Qabs x)) - 52) 0 in
  inject_Z (nearestEven (x / inject_Z (2 ^ e)) * 2 ^ e)
  <= x + x * (1 # 9007199254740992) + (1 # 2).
Proof.
  intros Hx e.
  assert (He : (0 <= e)%Z) by (unfold e; lia).
  assert (HP : 0 < inject_Z (2 ^ e)) by now apply pow2_pos.
  assert (H2 : inject_Z (2 ^ e) * (1 # 2)
               <= x * (1 # 9007199254740992) + (1 # 2)).
  { destruct (Z_le_gt_dec (Z.log2 (Qfloor (Qabs x)) - 52) 0) as [Hsub|Hnorm].
    - replace e with 0%Z by (unfold e; lia). change (inject_Z (2 ^ 0)) with 1.
      lra.
    - replace e with (Z.log2 (Qfloor (Qabs x)) - 52)%Z by (unfold e; lia).
      assert (HF : (0 < Qfloor (Qabs x))%Z).
      { destruct (Z_lt_le_dec 0 (Qfloor (Qabs x))) as [|Hle]; [assumption|].
        rewrite (Z.log2_nonpos _ Hle) in Hnorm. lia. }
      pose proof (Z.log2_spec _ HF) as [Hlog _].
      replace (Z.log2 (Qfloor (Qabs x)))
        with ((Z.log2 (Qfloor (Qabs x)) - 52) + 52)%Z in Hlog at 1 by lia.
      rewrite Z.pow_add_r in Hlog by lia.
      rewrite Zle_Qle, inject_Z_mult in Hlog.
      change (inject_Z (2 ^ 52)) with (4503599627370496 # 1) in Hlog.
      assert (Hfl : inject_Z (Qfloor (Qabs x)) <= x).
      { eapply Qle_trans; [apply Qfloor_le|].
        rewrite (Qabs_pos _ Hx). apply Qle_refl. }
      lra. }
  destruct (nearestEven_bounds (x / inject_Z (2 ^ e))) as [Hup _].
  rewrite inject_Z_mult.
  apply Qle_trans with ((x / inject_Z (2 ^ e) + (1 # 2)) * inject_Z (2 ^ e)).
  - apply Qmult_le_compat_r; [exact Hup|now apply Qlt_le_weak].
  - assert (E : (x / inject_Z (2 ^ e) + (1 # 2)) * inject_Z (2 ^ e)
                == x + inject_Z (2 ^ e) * (1 # 2)) by (field; lra).
    rewrite E. lra.
Qed.

Lemma round_nonneg q : 0 <= q -> 0 <= round q.
Proof.
  intros Hq. unfold round.
  assert (HQ : 0 < inject_Z quantum)
    by (change 0 with (inject_Z 0); rewrite <- Zlt_Qlt; apply quantum_pos).
  set (x := q * inject_Z quantum).
  assert (Hx : 0 <= x) by (unfold x; apply Qmult_le_0_compat; lra).
  set (e := Z.max (Z.log2 (Qfloor (Qabs x)) - 52) 0).
  assert (He : (0 <= e)%Z) by (unfold e; lia).
  apply Qle_shift_div_l; [exact HQ|]. rewrite Qmult_0_l.
  change 0 with (inject_Z 0). rewrite <- Zle_Qle.
  apply Z.mul_nonneg_nonneg; [|apply Z.pow_nonneg; lia].
  apply nearestEven_nonneg. apply Qle_shift_div_l; [now apply pow2_pos|].
  now rewrite Qmult_0_l.
Qed.

(** A double below 1 is at most 1 - 2^-53. *)
Lemma unit_below_one r :
  unit r -> r * (9007199254740992 # 1) <= 9007199254740991 # 1.
Proof.
  intros (Hround & H0 & H1).
  destruct (Qlt_le_dec r (1 # 2)) as [Hsmall|Hbig]; [lra|].
  unfold round in Hround.
  assert (HQ : 0 < inject_Z quantum)
    by (change 0 with (inject_Z 0); rewrite <- Zlt_Qlt; apply quantum_pos).
  set (x := r * inject_Z quantum) in *.
  assert (Hx : 0 <= x) by (unfold x; apply Qmult_le_0_compat; lra).
  assert (Hlo : inject_Z (2 ^ 1073) <= x).
  { unfold x, quantum. change (2 ^ 1074)%Z with (2 ^ 1073 * 2)%Z.
    rewrite inject_Z_mult. change (inject_Z 2) with 2.
    assert (Hp : 0 < inject_Z (2 ^ 1073)) by now apply pow2_pos.
    set (p := inject_Z (2 ^ 1073)) in *.
    assert (E : r * (p * 2) == p * (r * 2)) by ring. rewrite E.
    rewrite <- (Qmult_1_r p) at 1. apply Qmult_le_l; [exact Hp|lra]. }
  assert (Hhi : x < inject_Z (2 ^ 1074)).
  { unfold x. fold quantum. rewrite <- (Qmult_1_l (inject_Z quantum)) at 2.
    now apply Qmult_lt_r. }
  assert (Hlog : Z.log2 (Qfloor (Qabs x)) = 1073%Z).
  { apply Z.log2_unique; [lia|]. rewrite (Qfloor_comp _ _ (Qabs_pos _ Hx)).
    split.
    - rewrite <- (Qfloor_Z (2 ^ 1073)). now apply Qfloor_resp_le.
    - rewrite Zlt_Qlt. apply Qle_lt_trans with x; [apply Qfloor_le|].
      exact Hhi. }
  rewrite Hlog in Hround. change (Z.max (1073 - 52) 0) with 1021%Z in Hround.
  set (N := nearestEven (x / inject_Z (2 ^ 1021))) in *.
  rewrite inject_Z_mult in Hround.
  assert (HT : 0 < inject_Z (2 ^ 1021)) by now apply pow2_pos.
  assert (HN : inject_Z N == r * (9007199254740992 # 1)).
  { apply (Qmult_inj_r _ _ (inject_Z (2 ^ 1021))); [lra|].
    assert (EQ : inject_Z quantum
                 == (9007199254740992 # 1) * inject_Z (2 ^ 1021)).
    { unfold quantum. change (2 ^ 1074)%Z with (2 ^ 53 * 2 ^ 1021)%Z.
      rewrite inject_Z_mult. reflexivity. }
    assert (E2 : inject_Z N * inject_Z (2 ^ 1021)
                 == inject_Z N * inject_Z (2 ^ 1021) / inject_Z quantum
                    * inject_Z quantum) by (field; lra).
    rewrite E2, Hround, EQ. ring. }
  assert (HNlt : (N < 2 ^ 53)%Z).
  { rewrite Zlt_Qlt. change (inject_Z (2 ^ 53)) with (9007199254740992 # 1).
    rewrite HN. lra. }
  rewrite <- HN. change (9007199254740991 # 1) with (inject_Z (2 ^ 53 - 1)).
  rewrite <- Zle_Qle. lia.
Qed.

Lemma round_below q n :
  0 <= q -> (0 < n)%Z ->
  q * (9007199254740992 # 1) <= inject_Z n * (9007199254740991 # 1) ->
  round q < inject_Z n.
Proof.
  intros Hq Hn Hle. unfold round.
  assert (HQ : 0 < inject_Z quantum)
    by (change 0 with (inject_Z 0); rewrite <- Zlt_Qlt; apply quantum_pos).
  set (x := q * inject_Z quantum).
  assert (Hx : 0 <= x) by (unfold x; apply Qmult_le_0_compat; lra).
  pose proof (@scaled_upper x Hx) as Hup. cbv zeta in Hup.
  apply Qlt_shift_div_r; [exact HQ|].
  eapply Qle_lt_trans; [exact Hup|].
  assert (Hbig : (81129638414606681695789005144064 # 1) <= inject_Z quantum).
  { change (81129638414606681695789005144064 # 1) with (inject_Z (2 ^ 106)).
    rewrite <- Zle_Qle. unfold quantum. apply Z.pow_le_mono_r; lia. }
  assert (Hn1 : 1 <= inject_Z n)
    by (change 1 with (inject_Z 1); rewrite <- Zle_Qle; lia).
  assert (HA : inject_Z quantum <= inject_Z n * inject_Z quantum).
  { rewrite <- (Qmult_1_l (inject_Z quantum)) at 1.
    apply Qmult_le_compat_r; lra. }
  assert (Hxle : x * (9007199254740992 # 1)
                 <= inject_Z n * inject_Z quantum * (9007199254740991 # 1)).
  { unfold x.
    assert (E1 : q * inject_Z quantum * (9007199254740992 # 1)
                 == q * (9007199254740992 # 1) * inject_Z quantum) by ring.
    assert (E2 : inject_Z n * inject_Z quantum * (9007199254740991 # 1)
                 == inject_Z n * (9007199254740991 # 1) * inject_Z quantum)
      by ring.
    rewrite E1, E2. apply Qmult_le_compat_r; lra. }
  set (A := inject_Z n * inject_Z quantum) in *.
  lra.
Qed.


(** Integers below 2^53 are doubles. *)
Lemma round_Z z : (Z.abs z < 2 ^ 53)%Z -> round (inject_Z z) == inject_Z z.
Proof.
  intros Hz. destruct (Z.eq_dec z 0) as [->|Hne]; [vm_compute; reflexivity|].
  unfold round.
  assert (HQ : 0 < inject_Z quantum)
    by (change 0 with (inject_Z 0); rewrite <- Zlt_Qlt; apply quantum_pos).
  rewrite <- inject_Z_mult.
  change (Qabs (inject_Z (z * quantum))) with (inject_Z (Z.abs (z * quantum))).
  rewrite Qfloor_Z, Z.abs_mul, (Z.abs_eq quantum) by (unfold quantum; lia).
  replace (Z.log2 (Z.abs z * quantum)) with (1074 + Z.log2 (Z.abs z))%Z
    by (unfold quantum; rewrite Z.log2_mul_pow2; lia).
  assert (Hlog : (0 <= Z.log2 (Z.abs z) <= 52)%Z).
  { split; [apply Z.log2_nonneg|].
    assert (Z.log2 (Z.abs z) < 53)%Z; [|lia].
    apply Z.log2_lt_pow2; lia. }
  set (l := Z.log2 (Z.abs z)) in *.
  replace (Z.max (1074 + l - 52) 0) with (1022 + l)%Z by lia.
  assert (Hsplit : (z * quantum = z * 2 ^ (52 - l) * 2 ^ (1022 + l))%Z).
  { unfold quantum. rewrite <- Z.mul_assoc, <- Z.pow_add_r by lia.
    do 2 f_equal. lia. }
  assert (HP : 0 < inject_Z (2 ^ (1022 + l))) by (apply pow2_pos; lia).
  assert (E : inject_Z (z * quantum) / inject_Z (2 ^ (1022 + l))
              == inject_Z (z * 2 ^ (52 - l))).
  { rewrite Hsplit, inject_Z_mult. field. lra. }
  rewrite (nearestEven_comp E), nearestEven_Z, <- Hsplit, inject_Z_mult.
  field. lra.
Qed.

(** [round] against the multiplication of the binary64 specification, on
    sample products. *)
Lemma round_agrees_with_SpecFloat :
  forallb (fun ab => Qeq_bool (toQ (mul (fst ab) (snd ab)))
                       (round (toQ (fst ab) * toQ (snd ab))))
    [(lit_0_3, of_Z 10); (lit_0_1, of_Z 3); (lit_0_05, of_Z 20);
     (lit_0_3, lit_0_3); (lit_0_2, of_Z 65535); (lit_0_1, lit_0_05);
     (S754_finite false 9007199254740991 (-53), of_Z 10);
     (S754_finite false 9007199254740991 (-53), of_Z 255);
     (S754_finite false 1 (-1074), lit_0_3);
     (S754_finite true 5404319552844595 (-54), of_Z 7)]
  = true.
Proof. vm_compute. reflexivity. Qed.

(** [Float64.unit], decided by computation. *)
Definition isUnit (r : Q) : bool :=
  Qeq_bool (Float64.round r) r && Qle_bool 0 r && negb (Qle_bool 1 r).

Lemma isUnit_unit r : isUnit r = true -> Float64.unit r.
Proof.
  unfold isUnit, Float64.unit. intros Hc.
  apply andb_prop in Hc. destruct Hc as [Hc H1].
  apply andb_prop in Hc. destruct Hc as [H2 H3].
  split; [now apply Qeq_bool_iff|]. split; [now apply Qle_bool_iff|].
  apply Qnot_le_lt. intros Hle. apply Qle_bool_iff in Hle.
  rewrite Hle in H1. discriminate.
Qed.

End Float64Facts.

(** [Math.floor(Math.random() * n)] is an index below [n]. *)
Lemma floorTimes_bounds (r : Q) (n : Z) :
  Float64.unit r -> (0 < n)%Z -> (0 <= floorTimes r n < n)%Z.
Proof.
  intros Hr Hn. pose proof (@Float64Facts.unit_below_one r Hr) as Hb.
  destruct Hr as (_ & H0 & H1). unfold floorTimes.
  assert (Hn0 : (0 <= inject_Z n)%Q)
    by (change 0%Q with (inject_Z 0); rewrite <- Zle_Qle; lia).
  assert (Hq : (0 <= r * inject_Z n)%Q) by now apply Qmult_le_0_compat.
  split.
  - rewrite <- (Qfloor_Z 0). apply Qfloor_resp_le.
    now apply Float64Facts.round_nonneg.
  - rewrite Zlt_Qlt. eapply Qle_lt_trans; [apply Qfloor_le|].
    apply Float64Facts.round_below; [assumption|assumption|].
    assert (E1 : (r * inject_Z n * (9007199254740992 # 1)
                  == r * (9007199254740992 # 1) * inject_Z n)%Q) by ring.
    assert (E2 : (inject_Z n * (9007199254740991 # 1)
                  == (9007199254740991 # 1) * inject_Z n)%Q) by ring.
    rewrite E1, E2. now apply Qmult_le_compat_r.
Qed.

(** The product is rounded before the floor is taken: the draw [0.3] is a
    double just below 3/10, its exact product with 10 lies below 3, and
    [Math.floor(0.3 * 10)] is 3. *)
Lemma floorTimes_rounds :
  floorTimes (Float64.toQ Float64.lit_0_3) 10 = 3
  /\ Qfloor (Float64.toQ Float64.lit_0_3 * inject_Z 10) = 2
  /\ Float64Facts.isUnit (Float64.toQ Float64.lit_0_3) = true.
Proof. vm_compute. repeat split; reflexivity. Qed.

(** The same for long straight-line methods: only the plumbing and the
    projections of the machine are unfolded. *)
Ltac run_through :=
  cbv beta iota zeta delta
    [bind ret throw tryCatch getThis putThis Date_now Math_random
     console_error setInterval clearInterval invoke
     this clock entropy timers nextTimer subscribers console fst snd].

(* ================================================================= *)
(** ** The host: computations that only read the clock and draw numbers *)

Module HostFacts.
Section Facts.
Context {S Ext : Type}.

(** [m'] is [m] after some readings of the clock and some draws: the
    service, the timers, the subscribers and the console are untouched. *)
Definition Advances (m m' : Machine S Ext) : Prop :=
  this m' = this m
  /\ timers m' = timers m
  /\ nextTimer m' = nextTimer m
  /\ subscribers m' = subscribers m
  /\ console m' = console m
  /\ (exists i, forall n, clock m' n = clock m (i + n)%nat)
  /\ (exists j, forall n, entropy m' n = entropy m (j + n)%nat).

Definition hostOnly {A} (c : M S Ext A) : Prop :=
  forall m, exists a m', c m = (Normal a, m') /\ Advances m m'.

Lemma Advances_refl m : Advances m m.
Proof.
  repeat split; try reflexivity; exists 0%nat; reflexivity.
Qed.

Lemma Advances_trans m1 m2 m3 :
  Advances m1 m2 -> Advances m2 m3 -> Advances m1 m3.
Proof.
  intros (A1 & A2 & A3 & A4 & A5 & (i & Hi) & (j & Hj))
         (B1 & B2 & B3 & B4 & B5 & (i' & Hi') & (j' & Hj')).
  repeat split; try congruence.
  - exists (i + i')%nat. intros n. rewrite Hi', Hi. f_equal. lia.
  - exists (j + j')%nat. intros n. rewrite Hj', Hj. f_equal. lia.
Qed.

Lemma hostOnly_ret {A} (a : A) : hostOnly (ret a).
Proof. intros m. exists a, m. split; [reflexivity|apply Advances_refl]. Qed.

Lemma hostOnly_bind {A B} (c : M S Ext A) (k : A -> M S Ext B) :
  hostOnly c -> (forall a, hostOnly (k a)) -> hostOnly (bind c k).
Proof.
  intros Hc Hk m. destruct (Hc m) as (a & m1 & E1 & A1).
  destruct (Hk a m1) as (b & m2 & E2 & A2).
  exists b, m2. unfold bind. rewrite E1. split; [assumption|].
  eapply Advances_trans; eassumption.
Qed.

Lemma hostOnly_Date_now : hostOnly (@Date_now S Ext).
Proof.
  intros m. eexists _, _. split; [reflexivity|].
  repeat split; cbn; try reflexivity.
  - exists 1%nat. reflexivity.
  - exists 0%nat. reflexivity.
Qed.

Lemma hostOnly_Math_random : hostOnly (@Math_random S Ext).
Proof.
  intros m. eexists _, _. split; [reflexivity|].
  repeat split; cbn; try reflexivity.
  - exists 0%nat. reflexivity.
  - exists 1%nat. reflexivity.
Qed.

Lemma hostOnly_pick {A} (choices : list A) : hostOnly (@pick S Ext A choices).
Proof.
  unfold pick. apply hostOnly_bind; [apply hostOnly_Math_random|].
  intros. apply hostOnly_ret.
Qed.

Lemma hostOnly_mapM {A B} (f : A -> M S Ext B) (xs : list A) :
  (forall x, hostOnly (f x)) -> hostOnly (mapM f xs).
Proof.
  intros Hf. induction xs as [|x r IH]; cbn.
  - apply hostOnly_ret.
  - apply hostOnly_bind; [apply Hf|]. intros.
    apply hostOnly_bind; [apply IH|]. intros. apply hostOnly_ret.
Qed.

(** What the subscribers' state becomes when every callback runs on [a], in
    list order, whatever each of them returns or throws. *)
Fixpoint deliver {A} (callbacks : list (Callback Ext A)) (a : A) (ext : Ext)
  : Ext :=
  match callbacks with
  | [] => ext
  | callback :: r => deliver r a (snd (callback a ext))
  end.

(** What the notification loop writes: one line per callback that threw,
    with what it threw. *)
Fixpoint complaints {A} (label : string) (callbacks : list (Callback Ext A))
    (a : A) (ext : Ext) : list (string * exn) :=
  match callbacks with
  | [] => []
  | callback :: r =>
      match fst (callback a ext) with
      | Throws e => [(label, e)]
      | Normal _ => []
      end ++ complaints label r a (snd (callback a ext))
  end.

Lemma notifyCallbacks_run {A} label (callbacks : list (Callback Ext A)) a
    (m : Machine S Ext) :
  notifyCallbacks label callbacks a m =
  (Normal tt,
   mkMachine (this m) (clock m) (entropy m) (timers m) (nextTimer m)
     (deliver callbacks a (subscribers m))
     (console m ++ complaints label callbacks a (subscribers m))).
Proof.
  unfold notifyCallbacks. revert m.
  induction callbacks as [|cb r IH]; intros m; cbn.
  - rewrite app_nil_r. now destruct m.
  - unfold bind at 1. unfold tryCatch, invoke.
    destruct (cb a (subscribers m)) as [[[]|e] ext] eqn:E; cbn.
    + rewrite IH. cbn. reflexivity.
    + unfold console_error. rewrite IH. cbn. now rewrite <- app_assoc.
Qed.

Lemma deliver_fold {A} (callbacks : list (Callback Ext A)) a ext :
  deliver callbacks a ext
  = fold_left (fun e callback => snd (callback a e)) callbacks ext.
Proof.
  revert ext. induction callbacks as [|cb r IH]; intros ext; cbn; auto.
Qed.

End Facts.

Create HintDb host.
#[export] Hint Resolve hostOnly_ret hostOnly_Date_now hostOnly_Math_random
  hostOnly_pick Advances_refl : host.

End HostFacts.

Ltac host_only :=
  repeat match goal with
         | |- HostFacts.hostOnly (ret _) => apply HostFacts.hostOnly_ret
         | |- HostFacts.hostOnly Date_now => apply HostFacts.hostOnly_Date_now
         | |- HostFacts.hostOnly Math_random =>
             apply HostFacts.hostOnly_Math_random
         | |- HostFacts.hostOnly (pick _) => apply HostFacts.hostOnly_pick
         | |- HostFacts.hostOnly (bind _ _) =>
             apply HostFacts.hostOnly_bind; [|intros]
         end.

(* ================================================================= *)
(** ** Ingestion *)

Module IngestionFacts.
Import Ingestion.

Section Facts.
Context {Ext : Type}.
Notation Svc := (DataIngestionService Ext).

Lemma stopCollection_idle (m : Machine Svc Ext) (id : string) :
  JsMap.get id (collectionIntervals (this m)) = None ->
  stopCollection id m = (Normal tt, m).
Proof.
  intros H. unfold stopCollection. run. now rewrite H.
Qed.

(** What [stopCollection] leaves behind, whether or not a task runs. *)
Definition afterStop (id : string) (m : Machine Svc Ext) : Machine Svc Ext :=
  match JsMap.get id (collectionIntervals (this m)) with
  | Some h =>
      mkMachine
        (with_collectionIntervals (this m)
           (JsMap.delete id (collectionIntervals (this m))))
        (clock m) (entropy m)
        (filter (fun t => negb (Nat.eqb h (fst t))) (timers m))
        (nextTimer m) (subscribers m) (console m)
  | None => m
  end.

Lemma stopCollection_run (m : Machine Svc Ext) (id : string) :
  stopCollection id m = (Normal tt, afterStop id m).
Proof.
  unfold stopCollection, afterStop. run.
  now destruct (JsMap.get id (collectionIntervals (this m))).
Qed.

Lemma stopIfRunning_run (m : Machine Svc Ext) (id : string) :
  (if JsMap.has id (collectionIntervals (this m))
   then stopCollection id else ret tt) m = (Normal tt, afterStop id m).
Proof.
  unfold JsMap.has. destruct (JsMap.get id (collectionIntervals (this m))) eqn:E.
  - apply stopCollection_run.
  - unfold afterStop. now rewrite E.
Qed.

Lemma afterStop_intervals (m : Machine Svc Ext) (id other : string) :
  other <> id ->
  JsMap.get other (collectionIntervals (this (afterStop id m)))
  = JsMap.get other (collectionIntervals (this m)).
Proof.
  intros Hne. unfold afterStop.
  destruct (JsMap.get id (collectionIntervals (this m))); [|reflexivity].
  cbn. apply JsMap.get_delete_ne. congruence.
Qed.

Lemma afterStop_frame (m : Machine Svc Ext) (id : string) :
  dataSources (this (afterStop id m)) = dataSources (this m)
  /\ dataBuffer (this (afterStop id m)) = dataBuffer (this m)
  /\ bufferSize (this (afterStop id m)) = bufferSize (this m)
  /\ dataCallbacks (this (afterStop id m)) = dataCallbacks (this m)
  /\ subscribers (afterStop id m) = subscribers m.
Proof.
  unfold afterStop.
  destruct (JsMap.get id (collectionIntervals (this m))); cbn; auto.
Qed.

Lemma afterStop_timers (m : Machine Svc Ext) (id : string) h task :
  JsMap.get id (collectionIntervals (this m)) <> Some h ->
  (In (h, task) (timers (afterStop id m)) <-> In (h, task) (timers m)).
Proof.
  intros Hne. unfold afterStop.
  destruct (JsMap.get id (collectionIntervals (this m))) as [h0|]; [|tauto].
  cbn. rewrite filter_In. cbn. split; [tauto|]. intros Hin. split; [assumption|].
  destruct (Nat.eqb h0 h) eqn:E; [|reflexivity].
  apply Nat.eqb_eq in E. congruence.
Qed.

Lemma removeDataSource_run (m : Machine Svc Ext) (id : string) :
  removeDataSource id m =
  (Normal tt,
   let m1 := afterStop id m in
   mkMachine
     (with_dataBuffer
        (with_dataSources (this m1) (JsMap.delete id (dataSources (this m1))))
        (JsMap.delete id (dataBuffer (this m1))))
     (clock m1) (entropy m1) (timers m1) (nextTimer m1) (subscribers m1)
     (console m1)).
Proof.
  unfold removeDataSource. unfold bind at 1. unfold getThis at 1.
  unfold bind at 1. rewrite stopIfRunning_run. now run.
Qed.

(** C10. [stopCollection], [removeDataSource] and [getBufferedData] return
    normally on every id: [stopCollection] changes nothing when the id has no
    running task, [removeDataSource] leaves the interval entry, the timer and
    the buffer of every other source as they were, and [getBufferedData]
    yields the empty list for an id without a buffer; [updateDataSource] and
    [startCollection] throw "not found" for an unregistered id and leave the
    whole machine as it was. *)
Theorem unknown_ids (m : Machine Svc Ext) (id : string) :
  (exists m', stopCollection id m = (Normal tt, m'))
  /\ (JsMap.get id (collectionIntervals (this m)) = None ->
      stopCollection id m = (Normal tt, m))
  /\ (exists m',
        removeDataSource id m = (Normal tt, m')
        /\ (forall other, other <> id ->
              JsMap.get other (collectionIntervals (this m'))
              = JsMap.get other (collectionIntervals (this m))
              /\ JsMap.get other (dataBuffer (this m'))
                 = JsMap.get other (dataBuffer (this m))
              /\ JsMap.get other (dataSources (this m'))
                 = JsMap.get other (dataSources (this m)))
        /\ (forall h task,
              JsMap.get id (collectionIntervals (this m)) <> Some h ->
              (In (h, task) (timers m') <-> In (h, task) (timers m))))
  /\ (exists buffer, getBufferedData id m = (Normal buffer, m))
  /\ (JsMap.get id (dataBuffer (this m)) = None ->
      getBufferedData id m = (Normal [], m))
  /\ (JsMap.get id (dataSources (this m)) = None ->
      (forall dataSource, ds_id dataSource = id ->
         updateDataSource dataSource m = (Throws (notFound id), m))
      /\ startCollection id m = (Throws (notFound id), m)).
Proof.
  split; [eexists; apply stopCollection_run|].
  split; [apply stopCollection_idle|].
  split.
  { eexists. split; [apply removeDataSource_run|]. cbn.
    destruct (afterStop_frame m id) as (Hs & Hb & _).
    split.
    - intros other Hne. rewrite Hs, Hb.
      rewrite !JsMap.get_delete_ne by congruence.
      now rewrite afterStop_intervals.
    - intros h task Hh. now apply afterStop_timers. }
  split; [eexists; unfold getBufferedData; run; reflexivity|].
  split.
  { intros H. unfold getBufferedData. run. now rewrite H. }
  intros H. split.
  - intros dataSource <-. unfold updateDataSource. run. now rewrite H.
  - unfold startCollection. run. now rewrite H.
Qed.

Lemma collectData_received_run (m : Machine Svc Ext) id ds batch :
  collectData_received id ds batch m =
  (Normal tt,
   mkMachine
     (with_dataSources
        (with_dataBuffer (this m)
           (JsMap.set id
              (pushAndTrim (bufferSize (this m))
                 (match JsMap.get id (dataBuffer (this m)) with
                  | Some b => b
                  | None => []
                  end) batch)
              (dataBuffer (this m))))
        (JsMap.set id
           (mkDataSource (ds_id ds) (ds_name ds) (ds_type ds)
              (ds_environment ds) (connectionDetails ds) (ds_status ds)
              (Some (clock m 0%nat)) (ds_createdAt ds) (ds_updatedAt ds))
           (dataSources (this m))))
     (fun n => clock m (Datatypes.S n)) (entropy m) (timers m) (nextTimer m)
     (HostFacts.deliver (dataCallbacks (this m)) (id, batch) (subscribers m))
     (console m
      ++ HostFacts.complaints "Error in data callback:"
           (dataCallbacks (this m)) (id, batch) (subscribers m))).
Proof.
  unfold collectData_received, notifyDataCallbacks.
  unfold bind, getThis, putThis, Date_now. cbn.
  rewrite HostFacts.notifyCallbacks_run. reflexivity.
Qed.

(** A list that stands for an array: an array holds fewer than 2^32
    elements. *)
Definition arraySized {A} (l : list A) : Prop :=
  Z.of_nat (List.length l) < 2 ^ 32.

Lemma inject_Z_minus (a b : Z) : (inject_Z a - inject_Z b)%Q = inject_Z (a - b).
Proof.
  unfold Qminus, Qplus, Qopp, inject_Z. cbn. f_equal. lia.
Qed.

Lemma truncate_round_Z (z : Z) :
  0 <= z < 2 ^ 53 -> truncate (Float64.round (inject_Z z)) = z.
Proof.
  intros Hz.
  assert (E : (Float64.round (inject_Z z) == inject_Z z)%Q)
    by (apply Float64Facts.round_Z; lia).
  unfold truncate. destruct (Qlt_le_dec _ 0) as [Hneg|_].
  - rewrite E in Hneg. change 0%Q with (inject_Z 0) in Hneg.
    rewrite <- Zlt_Qlt in Hneg. lia.
  - rewrite (Qfloor_comp _ _ E). apply Qfloor_Z.
Qed.

(** For a capacity that is an integer, the comparison and the number of
    elements removed are those of integer arithmetic. *)
Lemma exceeds_whole (length capacity : Z) :
  exceeds length (Finite (inject_Z capacity)) = (capacity <? length).
Proof.
  unfold exceeds. destruct (Qlt_le_dec _ _) as [Hlt|Hle].
  - rewrite <- Zlt_Qlt in Hlt. symmetry. now apply Z.ltb_lt.
  - rewrite <- Zle_Qle in Hle. symmetry. now apply Z.ltb_ge.
Qed.

Lemma spliceCount_whole (length capacity : Z) :
  0 <= capacity < length -> length < 2 ^ 53 ->
  spliceCount length (Finite (inject_Z capacity)) = length - capacity.
Proof.
  intros Hc Hl. unfold spliceCount.
  rewrite inject_Z_minus, truncate_round_Z by lia. lia.
Qed.

Lemma pushAndTrim_suffix capacity (buffer batch : list JsFields) :
  0 <= capacity ->
  arraySized (buffer ++ batch) ->
  exists dropped,
    buffer ++ batch
    = dropped ++ pushAndTrim (Finite (inject_Z capacity)) buffer batch
    /\ Z.of_nat (List.length
                   (pushAndTrim (Finite (inject_Z capacity)) buffer batch))
       <= capacity
    /\ (capacity < Z.of_nat (List.length (buffer ++ batch)) ->
        Z.of_nat (List.length
                    (pushAndTrim (Finite (inject_Z capacity)) buffer batch))
        = capacity)
    /\ (Z.of_nat (List.length (buffer ++ batch)) <= capacity ->
        dropped = []).
Proof.
  intros Hcap Hsize. unfold pushAndTrim, arraySized in *.
  set (all := buffer ++ batch) in *.
  rewrite exceeds_whole.
  destruct (capacity <? Z.of_nat (List.length all)) eqn:E.
  - apply Z.ltb_lt in E. rewrite spliceCount_whole by lia.
    exists (firstn (Z.to_nat (Z.of_nat (List.length all) - capacity)) all).
    rewrite firstn_skipn. split; [reflexivity|].
    rewrite length_skipn. repeat split; lia.
  - exists []. apply Z.ltb_ge in E.
    repeat split; auto; lia.
Qed.

(** C7, as the code has it.  A collection tick whose fetch delivers
    [batch], when [bufferSize] is a non-negative integer: the buffer of the
    source that was ticked is what remains of (old buffer followed by
    batch) after dropping records from the front only, it holds at most
    [bufferSize] records and exactly [bufferSize] when the appended batch
    overflowed it, nothing is dropped otherwise, and the subscribers were
    run, in registration order, on the fetched batch itself.  The buffers
    of the other sources are left as they are, whatever they hold.  A new
    service has capacity 1000. *)
Theorem tick_buffer_bounded
    (fetch : DataSource -> M Svc Ext (list JsFields))
    (m m1 : Machine Svc Ext) id ds batch capacity :
  JsMap.get id (dataSources (this m)) = Some ds ->
  fetch ds m = (Normal batch, m1) ->
  bufferSize (this m1) = Finite (inject_Z capacity) ->
  0 <= capacity ->
  arraySized (match JsMap.get id (dataBuffer (this m1)) with
              | Some b => b | None => [] end ++ batch) ->
  exists m' kept dropped,
    collectDataWith fetch id m = (Normal tt, m')
    /\ bufferSize (this m') = bufferSize (this m1)
    /\ JsMap.get id (dataBuffer (this m')) = Some kept
    /\ fst (getBufferedData id m1) = Normal (
         match JsMap.get id (dataBuffer (this m1)) with
         | Some b => b | None => [] end)
    /\ match JsMap.get id (dataBuffer (this m1)) with
       | Some b => b | None => [] end ++ batch = dropped ++ kept
    /\ Z.of_nat (List.length kept) <= capacity
    /\ (capacity < Z.of_nat (List.length (dropped ++ kept)) ->
        Z.of_nat (List.length kept) = capacity)
    /\ (Z.of_nat (List.length (dropped ++ kept)) <= capacity ->
        dropped = [])
    /\ (forall other, other <> id ->
          JsMap.get other (dataBuffer (this m'))
          = JsMap.get other (dataBuffer (this m1)))
    /\ subscribers m'
       = fold_left (fun ext callback => snd (callback (id, batch) ext))
           (dataCallbacks (this m1)) (subscribers m1)
    /\ bufferSize (@initial Ext) = Finite 1000.
Proof.
  intros Hds Hfetch Hsize Hcap Harray.
  destruct (pushAndTrim_suffix
              (match JsMap.get id (dataBuffer (this m1)) with
               | Some b => b | None => [] end) batch Hcap Harray)
    as (dropped & Hsplit & Hlen & Hfull & Hnone).
  eexists _, _, dropped.
  split.
  { unfold collectDataWith, collectData_begin.
    unfold bind at 1. unfold bind at 1. unfold getThis at 1. rewrite Hds.
    unfold ret at 1. unfold tryCatch. unfold bind at 1. rewrite Hfetch.
    rewrite collectData_received_run. reflexivity. }
  cbn. rewrite Hsize. split; [reflexivity|].
  split; [apply JsMap.get_set_eq|].
  split; [reflexivity|].
  split; [exact Hsplit|].
  split; [exact Hlen|].
  rewrite <- Hsplit.
  split; [exact Hfull|].
  split; [exact Hnone|].
  split; [|split; [|reflexivity]].
  - intros other Hne. apply JsMap.get_set_ne. congruence.
  - apply HostFacts.deliver_fold.
Qed.

(** The fetch the service uses never rejects: when the first draw is a
    double of [0,1) it delivers 1 to 10 records and touches nothing but the
    clock and the draws. *)
Lemma simulateRecord_hostOnly ds :
  HostFacts.hostOnly (@simulateRecord Ext ds).
Proof.
  unfold simulateRecord, pickStr, randomIP, randomBelow.
  destruct (ds_type ds); host_only.
Qed.

Lemma simulateRecords_length count ds (m : Machine Svc Ext) :
  exists records m',
    simulateRecords count ds m = (Normal records, m')
    /\ HostFacts.Advances m m'
    /\ List.length records = count.
Proof.
  revert m. induction count as [|n IH]; intros m; cbn [simulateRecords].
  - exists [], m. repeat split; try reflexivity; exists 0%nat; reflexivity.
  - destruct (simulateRecord_hostOnly ds m) as (record & m1 & E1 & A1).
    destruct (IH m1) as (records & m2 & E2 & A2 & Hlen).
    exists (record :: records), m2. unfold bind. rewrite E1, E2.
    split; [reflexivity|]. split; [|cbn; now rewrite Hlen].
    eapply HostFacts.Advances_trans; eassumption.
Qed.

Lemma simulateDataCollection_delivers ds (m : Machine Svc Ext) :
  Float64.unit (entropy m 0%nat) ->
  exists batch m',
    simulateDataCollection ds m = (Normal batch, m')
    /\ this m' = this m
    /\ subscribers m' = subscribers m
    /\ timers m' = timers m
    /\ (1 <= List.length batch <= 10)%nat.
Proof.
  intros Hr. unfold simulateDataCollection, randomBelow.
  unfold bind at 1. unfold bind at 1. unfold Math_random at 1.
  unfold ret at 1. unfold bind at 1.
  match goal with
  | |- context [simulateRecords ?c ds ?m1] =>
      destruct (simulateRecords_length c ds m1)
        as (records & m2 & E & (A1 & A2 & _ & A4 & _) & Hlen)
  end.
  rewrite E. run. eexists _, _. split; [reflexivity|]. cbn in *.
  repeat split; auto; rewrite Hlen;
    pose proof (@floorTimes_bounds (entropy m 0%nat) 10 Hr eq_refl); lia.
Qed.

(** C9. A collection tick whose fetch rejects: the tick ends normally and
    writes one line to the console; the source is stored as it was read at
    the start of the tick with [status] set to [error], so that
    [lastSyncTime] and every other field are those read at the start (what
    was done to the stored source while the fetch was pending is
    overwritten); every other source, all buffers, the interval table, the
    host's timers and the subscribers' state are as the failed fetch left
    them: no subscriber is called and no task is scheduled. *)
Theorem fetch_failure
    (fetch : DataSource -> M Svc Ext (list JsFields))
    (m m1 : Machine Svc Ext) id ds e :
  JsMap.get id (dataSources (this m)) = Some ds ->
  fetch ds m = (Throws e, m1) ->
  exists m',
    collectDataWith fetch id m = (Normal tt, m')
    /\ JsMap.get id (dataSources (this m'))
       = Some (mkDataSource (ds_id ds) (ds_name ds) (ds_type ds)
                 (ds_environment ds) (connectionDetails ds) error
                 (lastSyncTime ds) (ds_createdAt ds) (ds_updatedAt ds))
    /\ (forall other, other <> id ->
          JsMap.get other (dataSources (this m'))
          = JsMap.get other (dataSources (this m1)))
    /\ dataBuffer (this m') = dataBuffer (this m1)
    /\ collectionIntervals (this m') = collectionIntervals (this m1)
    /\ bufferSize (this m') = bufferSize (this m1)
    /\ dataCallbacks (this m') = dataCallbacks (this m1)
    /\ timers m' = timers m1
    /\ nextTimer m' = nextTimer m1
    /\ subscribers m' = subscribers m1
    /\ (forall n, clock m' n = clock m1 n)
    /\ (forall n, entropy m' n = entropy m1 n)
    /\ console m'
       = console m1
         ++ [("Error collecting data from " +++ ds_name ds +++ " (" +++ id
              +++ "):", e)].
Proof.
  intros Hds Hfetch.
  eexists. split.
  { unfold collectDataWith, collectData_begin.
    unfold bind at 1. unfold bind at 1. unfold getThis at 1. rewrite Hds.
    unfold ret at 1. unfold tryCatch. unfold bind at 1. rewrite Hfetch.
    unfold collectData_failed. run. reflexivity. }
  cbn. split; [apply JsMap.get_set_eq|].
  split; [|repeat split; reflexivity].
  intros other Hne. apply JsMap.get_set_ne. congruence.
Qed.

End Facts.
End IngestionFacts.

(** *** A concrete tick: a SCADA source with capacity 2 *)

Module IngestionExample.
Import Ingestion.

Definition scada : DataSource :=
  mkDataSource "scada-1" "Plant A" SCADA OT
    (mkConnectionDetails OPC_UA "opc.tcp://plant-a" None (Some (30 # 1)))
    active None 0 0.

Definition plc : DataSource :=
  mkDataSource "plc-1" "Plant B" PLC OT
    (mkConnectionDetails OPC_UA "opc.tcp://plant-b" None (Some (30 # 1)))
    active None 0 0.

Definition reading (n : Z) : JsFields :=
  [("sourceId", JsString "scada-1"); ("value", JsNumber (inject_Z n))].

(** A subscriber that counts the records it is given and then throws. *)
Definition counting : Callback nat (string * list JsFields) :=
  fun batch seen =>
    (Throws (Error "subscriber failed"), (seen + List.length (snd batch))%nat).

Definition service : DataIngestionService nat :=
  mkService [("scada-1", scada)] [("scada-1", 1%nat)]
    [("scada-1", [reading 1; reading 2])] (Finite 2) [counting].

Definition machine : Machine (DataIngestionService nat) nat :=
  mkMachine service (fun n => 1000 + Z.of_nat n) (fun _ => 1 # 2)
    [(1%nat, mkInterval "scada-1" (30000 # 1))] 2%nat 0%nat [].

Definition delivers : DataSource -> M (DataIngestionService nat) nat (list JsFields) :=
  fun _ => ret [reading 3].

Definition rejects : DataSource -> M (DataIngestionService nat) nat (list JsFields) :=
  fun _ => throw (Error "connection refused").

Lemma tick_buffer_bounded_witness :
  exists m',
    collectDataWith delivers "scada-1" machine = (Normal tt, m')
    /\ JsMap.get "scada-1" (dataBuffer (this m')) = Some [reading 2; reading 3]
    /\ subscribers m' = 1%nat.
Proof.
  destruct (@IngestionFacts.tick_buffer_bounded nat delivers machine machine
              "scada-1" scada [reading 3] 2 eq_refl eq_refl eq_refl)
    as (m' & kept & dropped & Hrun & _ & Hkept & _ & _ & _ & _ & _ & _ & Hsubs
        & _).
  - lia.
  - unfold IngestionFacts.arraySized. cbn. lia.
  - exists m'. split; [exact Hrun|].
    split; [|exact Hsubs].
    rewrite Hkept. f_equal.
    assert (E := Hrun). vm_compute in E. injection E as E. subst m'.
    vm_compute in Hkept. now injection Hkept as <-.
Defined.

(** Two sources with buffered records, under capacities given through
    [setBufferSize]. *)
Definition plant (capacity : Number) : Machine (DataIngestionService nat) nat :=
  snd (setBufferSize capacity
         (mkMachine
            (mkService [("scada-1", scada); ("plc-1", plc)] []
               [("scada-1", [reading 1; reading 2]);
                ("plc-1", [reading 4; reading 5; reading 6])]
               (Finite 1000) [])
            (fun n => 1000 + Z.of_nat n) (fun _ => 1 # 2) [] 0%nat 0%nat [])).

Definition buffered (id : string) (m : Machine (DataIngestionService nat) nat)
  : option (list JsFields) :=
  JsMap.get id (dataBuffer (this m)).

(** C7 fails as stated.  After [setBufferSize(1)] a tick of one source
    trims its buffer and leaves the three records of the other source in
    place; after [setBufferSize(-1)] the tick empties the buffer, which
    then holds 0 records, more than -1; after [setBufferSize(2.5)] the tick
    removes nothing ([splice(0, 0.5)]) and the buffer holds 3 records; and
    after [setBufferSize(NaN)] nothing is ever removed. *)
Lemma capacity_not_enforced :
  (fst (collectDataWith delivers "scada-1" (plant (Finite 1))) = Normal tt
   /\ buffered "scada-1"
        (snd (collectDataWith delivers "scada-1" (plant (Finite 1))))
      = Some [reading 3]
   /\ buffered "plc-1"
        (snd (collectDataWith delivers "scada-1" (plant (Finite 1))))
      = Some [reading 4; reading 5; reading 6])
  /\ (bufferSize (this (plant (Finite (-1)))) = Finite (-1)
      /\ buffered "scada-1"
           (snd (collectDataWith delivers "scada-1" (plant (Finite (-1)))))
         = Some [])
  /\ buffered "scada-1"
       (snd (collectDataWith delivers "scada-1" (plant (Finite (5 # 2)))))
     = Some [reading 1; reading 2; reading 3]
  /\ buffered "scada-1"
       (snd (collectDataWith delivers "scada-1" (plant NaN)))
     = Some [reading 1; reading 2; reading 3].
Proof. vm_compute. repeat split; reflexivity. Qed.

Lemma fetch_failure_witness :
  exists m',
    collectDataWith rejects "scada-1" machine = (Normal tt, m')
    /\ option_map ds_status (JsMap.get "scada-1" (dataSources (this m')))
       = Some error
    /\ dataBuffer (this m') = dataBuffer service
    /\ timers m' = timers machine
    /\ subscribers m' = 0%nat.
Proof.
  destruct (@IngestionFacts.fetch_failure nat rejects machine machine
              "scada-1" scada (Error "connection refused") eq_refl eq_refl)
    as (m' & Hrun & Hget & _ & Hbuf & _ & _ & _ & Htimers & _ & Hsubs & _).
  exists m'. split; [exact Hrun|].
  rewrite Hget. cbn. repeat split; assumption.
Defined.

End IngestionExample.

(* ================================================================= *)
(** ** Notification of subscribers, at the four stages *)

Module NotifyFacts.

(** A notification that runs [callbacks] on [a]: it ends normally whatever
    the callbacks do, leaves the service alone, has run every callback, in
    list order, on [a] (the subscribers' state is the fold of all of them),
    and has written one console line per callback that threw. *)
Definition Contained {S Ext A} (label : string) (notify : M S Ext unit)
    (callbacks : list (Callback Ext A)) (a : A) (m : Machine S Ext) : Prop :=
  exists m',
    notify m = (Normal tt, m')
    /\ this m' = this m
    /\ subscribers m'
       = fold_left (fun ext callback => snd (callback a ext)) callbacks
           (subscribers m)
    /\ console m'
       = console m ++ HostFacts.complaints label callbacks a (subscribers m)
    /\ (List.length (HostFacts.complaints label callbacks a (subscribers m))
        <= List.length callbacks)%nat.

Lemma complaints_length {Ext A} label (callbacks : list (Callback Ext A)) a ext :
  (List.length (HostFacts.complaints label callbacks a ext)
   <= List.length callbacks)%nat.
Proof.
  revert ext. induction callbacks as [|cb r IH]; intros ext; cbn; [lia|].
  rewrite length_app. specialize (IH (snd (cb a ext))).
  destruct (fst (cb a ext)); cbn; lia.
Qed.

Lemma notifyCallbacks_Contained {S Ext A} label
    (callbacks : list (Callback Ext A)) a (m : Machine S Ext) :
  Contained label (notifyCallbacks label callbacks a) callbacks a m.
Proof.
  eexists. split; [apply HostFacts.notifyCallbacks_run|]. cbn.
  split; [reflexivity|]. split; [apply HostFacts.deliver_fold|].
  split; [reflexivity|]. apply complaints_length.
Qed.

(** C8. At each of the four stages the notification of subscribers ends
    normally for every list of callbacks, throwing or not, and every
    registered callback has been run, in registration order, on the same
    batch or result. *)
Theorem subscriber_exceptions_contained (Ext : Type) :
  (forall (m : Machine (Ingestion.DataIngestionService Ext) Ext) sourceId data,
     Contained "Error in data callback:"
       (Ingestion.notifyDataCallbacks sourceId data)
       (Ingestion.dataCallbacks (this m)) (sourceId, data) m)
  /\ (forall (m : Machine (Processing.DataProcessingService Ext) Ext) processed,
        Contained "Error in processing callback:"
          (Processing.notifyProcessingCallbacks processed)
          (Processing.processingCallbacks (this m)) processed m)
  /\ (forall (m : Machine (Analytics.AnalyticsService Ext) Ext) result,
        Contained "Error in analytics callback:"
          (Analytics.notifyAnalyticsCallbacks result)
          (Analytics.analyticsCallbacks (this m)) result m)
  /\ (forall (m : Machine (Orchestration.OrchestrationService Ext) Ext) result,
        Contained "Error in orchestration callback:"
          (Orchestration.notifyOrchestrationCallbacks result)
          (Orchestration.orchestrationCallbacks (this m)) result m).
Proof.
  repeat split; intros;
    match goal with
    | |- Contained ?l _ ?cbs ?a ?m =>
        exact (notifyCallbacks_Contained l cbs a m)
    end.
Qed.

End NotifyFacts.

(* ================================================================= *)
(** ** Playbook execution *)

Module PlaybookFacts.
Import Analytics Orchestration.

Section Facts.
Context {Ext : Type}.
Notation Svc := (OrchestrationService Ext).

(** The result recorded for a step whose execution threw [e]; [t] is the
    time read in the [catch] block. *)
Definition failure (step : PlaybookStep) (e : exn) (t : Z)
  : PlaybookActionResult :=
  mkActionResult (step_name step) false (Some (messageOf e)) t.

(** The machine after the [catch] block: one line on the console and one
    reading of the clock. *)
Definition caught (step : PlaybookStep) (e : exn) (m : Machine Svc Ext)
  : Machine Svc Ext :=
  mkMachine (this m) (fun n => clock m (Datatypes.S n)) (entropy m) (timers m)
    (nextTimer m) (subscribers m)
    (console m ++ [("Error executing step: " +++ step_name step, e)]).

(** [Ran execute context steps m results m']: starting on [m], the steps
    are handed to [execute] one after the other, each on the machine its
    predecessor left; [results] are what [execute] returned, in that order
    (for a step on which it threw, the failure recorded in its place); the
    run stops after the first step that is critical and failed, and after
    the last step otherwise; [m'] is the machine it stops on. *)
Inductive Ran
    (execute : PlaybookStep -> Context -> M Svc Ext PlaybookActionResult)
    (context : Context)
  : list PlaybookStep -> Machine Svc Ext ->
    list PlaybookActionResult -> Machine Svc Ext -> Prop :=
| ran_all m : Ran execute context [] m [] m
| ran_next step rest m result m1 results m' :
    execute step context m = (Normal result, m1) ->
    act_success result = true \/ critical step = false ->
    Ran execute context rest m1 results m' ->
    Ran execute context (step :: rest) m (result :: results) m'
| ran_halt step rest m result m1 :
    execute step context m = (Normal result, m1) ->
    act_success result = false ->
    critical step = true ->
    Ran execute context (step :: rest) m [result] m1
| ran_caught step rest m e m1 results m' :
    execute step context m = (Throws e, m1) ->
    critical step = false ->
    Ran execute context rest (caught step e m1) results m' ->
    Ran execute context (step :: rest) m
      (failure step e (clock m1 0%nat) :: results) m'
| ran_caught_halt step rest m e m1 :
    execute step context m = (Throws e, m1) ->
    critical step = true ->
    Ran execute context (step :: rest) m
      [failure step e (clock m1 0%nat)] (caught step e m1).

Lemma runSteps_Ran execute remaining context :
  forall actions (m : Machine Svc Ext),
  exists results m',
    runSteps execute remaining context actions m
    = (Normal (actions ++ results), m')
    /\ Ran execute context remaining m results m'.
Proof.
  induction remaining as [|step rest IH]; intros actions m.
  - exists [], m. cbn. rewrite app_nil_r. split; [reflexivity|constructor].
  - cbn [runSteps]. unfold bind at 1. unfold tryCatch.
    unfold bind at 1.
    destruct (execute step context m) as [[result|e] m1] eqn:E.
    + unfold ret at 1. cbn [snd fst].
      destruct (act_success result) eqn:Hs; cbn [negb andb].
      * destruct (IH (actions ++ [result]) m1) as (results & m' & Hrun & Hran).
        exists (result :: results), m'. rewrite Hrun, <- app_assoc.
        split; [reflexivity|].
        eapply ran_next; eauto.
      * destruct (critical step) eqn:Hc.
        -- exists [result], m1. split; [reflexivity|].
           eapply ran_halt; eauto.
        -- destruct (IH (actions ++ [result]) m1) as (results & m' & Hrun & Hran).
           exists (result :: results), m'. rewrite Hrun, <- app_assoc.
           split; [reflexivity|].
           eapply ran_next; eauto.
    + unfold bind at 1. unfold console_error at 1. unfold bind at 1.
      unfold Date_now at 1. unfold ret at 1.
      cbn [snd fst this clock entropy timers nextTimer subscribers console].
      fold (caught step e m1). fold (failure step e (clock m1 0%nat)).
      destruct (critical step) eqn:Hc.
      * exists [failure step e (clock m1 0%nat)], (caught step e m1).
        split; [reflexivity|]. now apply ran_caught_halt.
      * destruct (IH (actions ++ [failure step e (clock m1 0%nat)])
                    (caught step e m1)) as (results & m' & Hrun & Hran).
        exists (failure step e (clock m1 0%nat) :: results), m'.
        rewrite Hrun, <- app_assoc. split; [reflexivity|].
        now apply ran_caught.
Qed.

(** A run reports at most one result per step, and one per step when no
    critical step failed. *)
Lemma Ran_length execute context steps (m : Machine Svc Ext) results m' :
  Ran execute context steps m results m' ->
  (List.length results <= List.length steps)%nat
  /\ ((forall r, In r results -> act_success r = true) ->
      List.length results = List.length steps).
Proof.
  induction 1 as [m|step rest m result m1 results m' E Hgo Hran [IH1 IH2]
                 |step rest m result m1 E Hfail Hcrit
                 |step rest m e m1 results m' E Hcrit Hran [IH1 IH2]
                 |step rest m e m1 E Hcrit]; cbn.
  - split; [lia|reflexivity].
  - split; [lia|]. intros Hall. rewrite IH2; [reflexivity|].
    intros r Hin. apply Hall. now right.
  - split; [lia|]. intros Hall.
    specialize (Hall result (or_introl eq_refl)). congruence.
  - split; [lia|]. intros Hall.
    specialize (Hall _ (or_introl eq_refl)). discriminate.
  - split; [lia|]. intros Hall.
    specialize (Hall _ (or_introl eq_refl)). discriminate.
Qed.

(** C6. [executePlaybook] reads the start time, runs the steps and reads
    the end time.  The actions of its result are exactly the results of the
    run: what the step executor returned for the steps, in list order, each
    step executed on the machine the previous one left, up to and including
    the first step that is critical and failed (by its result or by
    throwing), and for all steps otherwise.  [success] is the conjunction
    of the actions' [success].  This holds for every step executor;
    [executePlaybook] itself uses [simulateActionExecution]. *)
Theorem executePlaybook_attempts_in_order
    (execute : PlaybookStep -> Context -> M Svc Ext PlaybookActionResult)
    (p : Playbook) (context : Context) (m : Machine Svc Ext) :
  exists result results m1,
    executePlaybookWith execute p context m
    = (Normal result, snd (Date_now m1))
    /\ Ran execute context (steps p) (snd (Date_now m)) results m1
    /\ or_actions result = PlaybookActions results
    /\ (startTime result, endTime result) = (clock m 0%nat, clock m1 0%nat)
    /\ (List.length results <= List.length (steps p))%nat
    /\ or_success result = forallb act_success results
    /\ (or_success result = true <->
        forall r, In r results -> act_success r = true)
    /\ (or_success result = true ->
        List.length results = List.length (steps p)).
Proof.
  unfold executePlaybookWith.
  unfold bind at 1.
  assert (Estart : Date_now m = (Normal (clock m 0%nat), snd (Date_now m)))
    by reflexivity.
  rewrite Estart. unfold bind at 1.
  destruct (runSteps_Ran execute (steps p) context [] (snd (Date_now m)))
    as (results & m1 & Hrun & Hran).
  rewrite Hrun. cbn [app].
  destruct (Ran_length Hran) as [Hlen Hall].
  exists (mkResult playbook (pb_name p) (forallb act_success results)
            (PlaybookActions results) (clock m 0%nat) (clock m1 0%nat)
            (clock m1 0%nat - clock m 0%nat) context), results, m1.
  split; [reflexivity|]. split; [exact Hran|].
  cbn [or_actions startTime endTime or_success].
  repeat split; auto.
  - intros Hok r Hin. rewrite forallb_forall in Hok. now apply Hok.
  - intros Hok. apply forallb_forall. exact Hok.
  - intros Hok. apply Hall. intros r Hin.
    rewrite forallb_forall in Hok. now apply Hok.
Qed.

End Facts.
End PlaybookFacts.

(* ================================================================= *)
(** ** Processing: the enrichment chain and the record count *)

Module ProcessingFacts.
Import Processing.

Section Facts.
Context {Ext : Type} `{JsRuntime}.
Notation Svc := (DataProcessingService Ext).

(** An enricher that, whenever it returns, returns as many records as it
    was handed and leaves as many in the array it was handed. *)
Definition preservesCount (e : DataEnricher Ext) : Prop :=
  forall data h out h',
    enrich e data h = (Normal out, h') ->
    List.length (enrichedItems out) = List.length data
    /\ List.length (leftBehind out) = List.length data.

Lemma liftHost_hostOnly {S A} (c : Plugin Ext A) :
  HostFacts.hostOnly c -> HostFacts.hostOnly (@liftHost S Ext A c).
Proof.
  intros Hc m. unfold liftHost.
  destruct (Hc (mkMachine tt (clock m) (entropy m) (timers m) (nextTimer m)
                  (subscribers m) (console m)))
    as (a & h & E & (_ & A2 & A3 & A4 & A5 & A6 & A7)).
  rewrite E. eexists _, _. split; [reflexivity|].
  repeat split; cbn; auto.
Qed.

Lemma mapM_length {S A B} (f : A -> M S Ext B) xs m ys m' :
  mapM f xs m = (Normal ys, m') -> List.length ys = List.length xs.
Proof.
  revert m ys m'. induction xs as [|x r IH]; intros m ys m'; cbn.
  - unfold ret. now intros [= <- _].
  - unfold bind at 1. destruct (f x m) as [[y|e] m1]; [|discriminate].
    unfold bind at 1. destruct (mapM f r m1) as [[ys'|e] m2] eqn:E;
      [|discriminate].
    unfold ret. intros [= <- _]. cbn. f_equal. eapply IH. exact E.
Qed.

Lemma mapped_preservesCount canEnrich f :
  preservesCount (mkEnricher canEnrich (mapped f)).
Proof.
  intros data h out h'. cbn [enrich]. unfold mapped. unfold bind at 1.
  destruct (mapM f data h) as [[items|e] h1] eqn:E; [|discriminate].
  unfold ret. intros [= <- _]. cbn. split; [|reflexivity].
  eapply mapM_length. exact E.
Qed.

Lemma threatIntel_preservesCount : preservesCount threatIntel.
Proof. apply mapped_preservesCount. Qed.

Lemma assetContext_preservesCount : preservesCount assetContext.
Proof. apply mapped_preservesCount. Qed.

Lemma normalizeItem_hostOnly prefix payload item :
  HostFacts.hostOnly (@normalizeItem Ext _ prefix payload item).
Proof.
  unfold normalizeItem. host_only.
  destruct (truthy (prop "timestamp" item)); host_only.
Qed.

Lemma threatIntelItem_hostOnly item :
  HostFacts.hostOnly (@threatIntelItem Ext item).
Proof.
  unfold threatIntelItem.
  destruct (truthy _); host_only.
  destruct (Qlt_le_dec _ _); host_only.
Qed.

Lemma assetContextItem_hostOnly item :
  HostFacts.hostOnly (@assetContextItem Ext item).
Proof.
  unfold assetContextItem.
  destruct (truthy _); host_only.
Qed.

Lemma liftHost_Normal {S A} (c : Plugin Ext A) (m : Machine S Ext) a h :
  c (mkMachine tt (clock m) (entropy m) (timers m) (nextTimer m)
       (subscribers m) (console m)) = (Normal a, h) ->
  liftHost c m
  = (Normal a,
     mkMachine (this m) (clock h) (entropy h) (timers h) (nextTimer h)
       (subscribers h) (console h)).
Proof. intros E. unfold liftHost. now rewrite E. Qed.

Lemma liftHost_inv {S A} (c : Plugin Ext A) (m : Machine S Ext) a m' :
  liftHost c m = (Normal a, m') ->
  exists h,
    c (mkMachine tt (clock m) (entropy m) (timers m) (nextTimer m)
         (subscribers m) (console m)) = (Normal a, h)
    /\ this m' = this m.
Proof.
  unfold liftHost.
  destruct (c _) as [r h] eqn:E. intros [= -> <-]. exists h. now split.
Qed.

(** Both arrays keep their length when an enricher that preserves the
    count has run. *)
Lemma assign_lengths (a : Arrays) (e : Enriched) :
  List.length (enrichedItems e) = List.length (enrichedData a) ->
  List.length (leftBehind e) = List.length (enrichedData a) ->
  List.length (normalizedData (assign a e)) = List.length (normalizedData a)
  /\ List.length (enrichedData (assign a e)) = List.length (enrichedData a).
Proof.
  destruct a as [normalized [other|]], e as [items|items behind];
    unfold assign, enrichedData; cbn; intros H1 H2; split; congruence.
Qed.

(** The enrichment loop keeps both lengths when every enricher it applies
    preserves the count. *)
Lemma enrichAll_length es environment sourceType :
  (forall e, In e es -> canEnrich e environment sourceType = true ->
             preservesCount e) ->
  forall a (m : Machine Svc Ext) a' m',
    enrichAll es environment sourceType a m = (Normal a', m') ->
    List.length (normalizedData a') = List.length (normalizedData a)
    /\ List.length (enrichedData a') = List.length (enrichedData a).
Proof.
  induction es as [|e r IH]; intros Hes a m a' m'; cbn [enrichAll].
  - unfold ret. intros [= <- _]. split; reflexivity.
  - unfold bind at 1.
    destruct (canEnrich e environment sourceType) eqn:Hcan.
    + unfold bind at 1.
      destruct (liftHost (enrich e (enrichedData a)) m) as [[out|err] m1] eqn:E;
        [|discriminate].
      unfold ret at 1. intros Hrest.
      apply IH in Hrest; [|intros; apply Hes; cbn; auto].
      apply liftHost_inv in E. destruct E as (h & E & _).
      destruct (Hes e (or_introl eq_refl) Hcan _ _ _ _ E) as [H1 H2].
      destruct (assign_lengths a out H1 H2) as [L1 L2].
      destruct Hrest as [R1 R2]. split; congruence.
    + unfold ret at 1. intros Hrest.
      apply IH in Hrest; [assumption|intros; apply Hes; cbn; auto].
Qed.

Lemma enrichAll_this es environment sourceType :
  forall a (m : Machine Svc Ext) a' m',
    enrichAll es environment sourceType a m = (Normal a', m') ->
    this m' = this m.
Proof.
  induction es as [|e r IH]; intros a m a' m'; cbn [enrichAll].
  - unfold ret. now intros [= _ <-].
  - unfold bind at 1.
    destruct (canEnrich e environment sourceType).
    + unfold bind at 1.
      destruct (liftHost (enrich e (enrichedData a)) m) as [[out|err] m1] eqn:E;
        [|discriminate].
      unfold ret at 1. intros Hrest. apply IH in Hrest. rewrite Hrest.
      apply liftHost_inv in E. now destruct E as (h & _ & E).
    + unfold ret at 1. apply IH.
Qed.

(** With enrichers that run on the host only, the loop returns. *)
Lemma enrichAll_hostOnly es environment sourceType :
  (forall e data, In e es -> HostFacts.hostOnly (enrich e data)) ->
  forall a, HostFacts.hostOnly (@enrichAll Ext es environment sourceType a).
Proof.
  induction es as [|e r IH]; intros Hes a; cbn [enrichAll].
  - apply HostFacts.hostOnly_ret.
  - apply HostFacts.hostOnly_bind.
    + destruct (canEnrich e environment sourceType).
      * apply HostFacts.hostOnly_bind; [|intros; apply HostFacts.hostOnly_ret].
        apply liftHost_hostOnly. apply Hes. now left.
      * apply HostFacts.hostOnly_ret.
    + intros a'. apply IH. intros; apply Hes; now right.
Qed.

Lemma mapped_hostOnly f data :
  (forall item, HostFacts.hostOnly (f item)) ->
  HostFacts.hostOnly (@mapped Ext f data).
Proof.
  intros Hf. unfold mapped. apply HostFacts.hostOnly_bind.
  - now apply HostFacts.hostOnly_mapM.
  - intros. apply HostFacts.hostOnly_ret.
Qed.

Lemma builtin_processor_hostOnly (environment : EnvironmentType) sourceType data :
  HostFacts.hostOnly
    (normalize (selectProcessor (@configured Ext _) environment sourceType) data).
Proof.
  assert (Hp : forall prefix payload,
             HostFacts.hostOnly
               (mapM (@normalizeItem Ext _ prefix payload) data)).
  { intros. apply HostFacts.hostOnly_mapM. intros.
    apply normalizeItem_hostOnly. }
  unfold selectProcessor, configured.
  destruct environment; cbn; apply Hp.
Qed.

(** C3, as the code has it.  [processData] reads both counts after the
    enrichers have run.  In every service state in which each registered
    enricher whose [canEnrich] passes returns as many records as it is
    handed and leaves as many in the array it is handed, every batch
    [processData] emits has [enrichedCount] equal to [normalizedCount].
    The built-in enrichers threat-intel and asset-context are such
    enrichers, and with the processors and enrichers the module registers
    [processData] emits a batch for every input, with both counts equal to
    the number of raw records. *)
Theorem enrichment_preserves_count :
  (forall (m : Machine Svc Ext) environment sourceType data,
     (forall e, In e (JsMap.values (enrichers (this m))) ->
                canEnrich e environment sourceType = true ->
                preservesCount e) ->
     forall processed m',
       processData environment sourceType data m = (Normal processed, m') ->
       enrichedCount processed = normalizedCount processed)
  /\ preservesCount threatIntel
  /\ preservesCount assetContext
  /\ (forall (m : Machine Svc Ext) environment sourceType data,
        this m = configured ->
        exists processed m',
          processData environment sourceType data m = (Normal processed, m')
          /\ normalizedCount processed = Z.of_nat (List.length data)
          /\ enrichedCount processed = Z.of_nat (List.length data)).
Proof.
  split; [|split; [apply threatIntel_preservesCount|
                   split; [apply assetContext_preservesCount|]]].
  - intros m environment sourceType data Hes processed m'.
    unfold processData. unfold bind at 1. unfold getThis at 1.
    unfold bind at 1.
    destruct (liftHost _ m) as [[normalized|e] m1] eqn:E1; [|discriminate].
    apply liftHost_inv in E1. destruct E1 as (h & _ & Hthis).
    unfold bind at 1.
    destruct (enrichAll _ _ _ _ m1) as [[a|e] m2] eqn:E2; [|discriminate].
    apply enrichAll_length in E2; [|exact Hes]. destruct E2 as [L1 L2].
    run. intros [= <- _]. cbn [enrichedCount normalizedCount].
    rewrite L1, L2. reflexivity.
  - intros m environment sourceType data Hthis.
    unfold processData. unfold bind at 1. unfold getThis at 1. rewrite Hthis.
    unfold bind at 1.
    destruct (liftHost_hostOnly (S := Svc)
                (builtin_processor_hostOnly environment sourceType data) m)
      as (normalized & m1 & E1 & A1).
    rewrite E1. unfold bind at 1.
    assert (Hlen1 : List.length normalized = List.length data).
    { apply liftHost_inv in E1. destruct E1 as (h & E1 & _).
      unfold selectProcessor, configured in E1.
      destruct environment; cbn in E1; eapply mapM_length; exact E1. }
    destruct (@enrichAll_hostOnly
                (JsMap.values (enrichers (@configured Ext _)))
                environment sourceType) with (a := mkArrays normalized None)
                                             (m := m1)
      as (a & m2 & E2 & A2).
    { intros e d [<-|[<-|[]]]; cbn [enrich threatIntel assetContext];
        apply mapped_hostOnly; intros.
      - apply threatIntelItem_hostOnly.
      - apply assetContextItem_hostOnly. }
    rewrite E2.
    assert (Hlen2 : List.length (normalizedData a) = List.length normalized
                    /\ List.length (enrichedData a) = List.length normalized).
    { eapply enrichAll_length in E2; [exact E2|].
      intros e [<-|[<-|[]]] _.
      - apply threatIntel_preservesCount.
      - apply assetContext_preservesCount. }
    destruct Hlen2 as [L1 L2].
    run. eexists _, _. split; [reflexivity|].
    cbn [enrichedCount normalizedCount].
    rewrite L1, L2, Hlen1. auto.
Qed.

End Facts.
End ProcessingFacts.

(* ================================================================= *)
(** ** Analytics: the risk-score cache and the weighted score *)

Module AnalyticsFacts.
Import Processing Analytics.

(** *** The cache *)

Lemma cacheScores_get (id : string) (newScores : list RiskScore) :
  forall cache,
    (exists stored,
        JsMap.get id (cacheScores newScores cache) = Some stored
        /\ In stored newScores /\ rs_id stored = id)
    \/ (JsMap.get id (cacheScores newScores cache) = JsMap.get id cache
        /\ ~ In id (map rs_id newScores)).
Proof.
  induction newScores as [|x r IH]; intros cache; cbn.
  - right. auto.
  - destruct (IH (JsMap.set (rs_id x) x cache))
      as [(stored & Hget & Hin & Hid)|(Hget & Hnotin)].
    + left. exists stored. auto.
    + destruct (string_dec (rs_id x) id) as [E|E].
      * left. exists x. subst id. unfold cacheScores in Hget.
        rewrite JsMap.get_set_eq in Hget. auto.
      * right. unfold cacheScores in Hget.
        rewrite JsMap.get_set_ne in Hget by assumption.
        split; [assumption|]. intros [H|H]; congruence.
Qed.

Section Cache.
Context {Ext : Type} `{JsRuntime}.
Notation Svc := (AnalyticsService Ext).

Lemma calculateRiskScores_cache (m : Machine Svc Ext) environment sourceType
    data newScores m' :
  calculateRiskScores environment sourceType data m = (Normal newScores, m') ->
  riskScores (this m') = cacheScores newScores (riskScores (this m)).
Proof.
  unfold calculateRiskScores. unfold bind at 1. unfold getThis at 1.
  unfold bind at 1.
  destruct (liftHost _ m) as [[scores|e] m1] eqn:E; [|discriminate].
  apply ProcessingFacts.liftHost_inv in E. destruct E as (h & _ & Hthis).
  run. intros [= <- <-]. cbn. now rewrite Hthis.
Qed.

(** C5, as the code has it.  An invocation of [calculateRiskScores] that
    returns [newScores] leaves the cache as the old cache with every new
    score stored under its id: no id is removed, an entry whose id is not
    the id of a new score is unchanged, and the entry under the id of a new
    score is a new score with that id, replacing what was there. *)
Theorem risk_cache_update (m : Machine Svc Ext) environment sourceType data
    newScores m' :
  calculateRiskScores environment sourceType data m = (Normal newScores, m') ->
  (forall id, JsMap.has id (riskScores (this m)) = true ->
              JsMap.has id (riskScores (this m')) = true)
  /\ (forall id, ~ In id (map rs_id newScores) ->
                 JsMap.get id (riskScores (this m'))
                 = JsMap.get id (riskScores (this m)))
  /\ (forall score, In score newScores ->
        exists stored,
          JsMap.get (rs_id score) (riskScores (this m')) = Some stored
          /\ In stored newScores /\ rs_id stored = rs_id score).
Proof.
  intros Hrun. apply calculateRiskScores_cache in Hrun. rewrite Hrun.
  repeat split.
  - intros id. unfold JsMap.has.
    destruct (cacheScores_get id newScores (riskScores (this m)))
      as [(stored & -> & _)|(-> & _)]; auto.
  - intros id Hnotin.
    destruct (cacheScores_get id newScores (riskScores (this m)))
      as [(stored & _ & Hin & Hid)|(Hget & _)]; [|assumption].
    exfalso. apply Hnotin. subst id. now apply in_map.
  - intros score Hin.
    destruct (cacheScores_get (rs_id score) newScores (riskScores (this m)))
      as [(stored & Hget & Hin' & Hid)|(_ & Hnotin)].
    + exists stored. auto.
    + exfalso. apply Hnotin. now apply in_map.
Qed.

End Cache.

(** *** The weighted score *)

(** The floor of [0.3*v + 0.3*t + 0.2*c + 0.2*e] over the rationals, and
    the same for the other engines' weights (in tenths). *)
Definition exactScore (a b c d : Z) (f : RiskFactors) : Z :=
  Qfloor ((a # 10) * inject_Z (vulnerabilities f)
          + (b # 10) * inject_Z (threats f)
          + (c # 10) * inject_Z (compliance f)
          + (d # 10) * inject_Z (exposure f))%Q.

Lemma exactScore_div a b c d f :
  exactScore a b c d f
  = (a * vulnerabilities f + b * threats f + c * compliance f + d * exposure f)
    / 10.
Proof.
  unfold exactScore.
  rewrite (Qfloor_comp _
             ((a * vulnerabilities f + b * threats f + c * compliance f
               + d * exposure f) # 10)).
  - reflexivity.
  - unfold Qeq, Qplus, Qmult, inject_Z. cbn. ring.
Qed.

Definition rangeZ (lo count : Z) : list Z :=
  map (fun i => lo + Z.of_nat i) (seq 0 (Z.to_nat count)).

Lemma rangeZ_In lo count x : lo <= x < lo + count -> In x (rangeZ lo count).
Proof.
  intros Hx. unfold rangeZ. apply in_map_iff.
  exists (Z.to_nat (x - lo)). split; [lia|].
  apply in_seq. lia.
Qed.

(** A reachable partial sum: the exact weighted sum in tenths, and the
    double the code has computed for it. *)
Definition Point : Type := Z * spec_float.

Definition point_eqb (a b : Point) : bool :=
  Z.eqb (fst a) (fst b) && Float64.eqb (snd a) (snd b).

Fixpoint dedup (l : list Point) : list Point :=
  match l with
  | [] => []
  | x :: r => let d := dedup r in if existsb (point_eqb x) d then d else x :: d
  end.

Definition start (iw : Z) (w : spec_float) (R : list Z) : list Point :=
  dedup (map (fun x => (iw * x, Float64.mul (Float64.of_Z x) w)) R).

Definition extendWith (S : list Point) (iw : Z) (w : spec_float) (R : list Z)
  : list Point :=
  dedup (flat_map
           (fun p => map (fun x => (fst p + iw * x,
                                    Float64.add (snd p)
                                      (Float64.mul (Float64.of_Z x) w))) R)
           S).

Definition reach (i1 : Z) (w1 : spec_float) (R1 : list Z)
    (i2 : Z) (w2 : spec_float) (R2 : list Z)
    (i3 : Z) (w3 : spec_float) (R3 : list Z)
    (i4 : Z) (w4 : spec_float) (R4 : list Z) : list Point :=
  extendWith (extendWith (extendWith (start i1 w1 R1) i2 w2 R2) i3 w3 R3)
    i4 w4 R4.

Lemma Float64_eqb_eq x y : Float64.eqb x y = true -> x = y.
Proof.
  destruct x, y; cbn; try discriminate; auto.
  - intros E. apply Bool.eqb_prop in E. now subst.
  - intros E. apply Bool.eqb_prop in E. now subst.
  - intros E. apply andb_prop in E. destruct E as [E E3].
    apply andb_prop in E. destruct E as [E1 E2].
    apply Bool.eqb_prop in E1. apply Pos.eqb_eq in E2. apply Z.eqb_eq in E3.
    now subst.
Qed.

Lemma point_eqb_eq a b : point_eqb a b = true -> a = b.
Proof.
  destruct a, b. unfold point_eqb. cbn. intros E.
  apply andb_prop in E. destruct E as [E1 E2].
  apply Z.eqb_eq in E1. apply Float64_eqb_eq in E2. now subst.
Qed.

Lemma dedup_In x l : In x l -> In x (dedup l).
Proof.
  induction l as [|y r IH]; cbn; [tauto|].
  intros [->|Hin].
  - destruct (existsb (point_eqb x) (dedup r)) eqn:E; [|now left].
    apply existsb_exists in E. destruct E as (z & Hz & Heq).
    apply point_eqb_eq in Heq. now subst.
  - destruct (existsb (point_eqb y) (dedup r)); [auto|right; auto].
Qed.

Lemma extendWith_In S iw w R p x :
  In p S -> In x R ->
  In (fst p + iw * x, Float64.add (snd p) (Float64.mul (Float64.of_Z x) w))
     (extendWith S iw w R).
Proof.
  intros Hp Hx. apply dedup_In. apply in_flat_map. exists p.
  split; [assumption|]. apply in_map_iff. exists x. auto.
Qed.

Lemma reach_complete i1 w1 R1 i2 w2 R2 i3 w3 R3 i4 w4 R4 v t c e :
  In v R1 -> In t R2 -> In c R3 -> In e R4 ->
  In (i1 * v + i2 * t + i3 * c + i4 * e, weightedSum w1 w2 w3 w4 v t c e)
     (reach i1 w1 R1 i2 w2 R2 i3 w3 R3 i4 w4 R4).
Proof.
  intros Hv Ht Hc He. unfold reach, weightedSum.
  apply (extendWith_In _ i4 w4 _
           (i1 * v + i2 * t + i3 * c, _) e); [|assumption].
  apply (extendWith_In _ i3 w3 _ (i1 * v + i2 * t, _) c); [|assumption].
  apply (extendWith_In _ i2 w2 _ (i1 * v, _) t); [|assumption].
  unfold start. apply dedup_In. apply in_map_iff. exists v. auto.
Qed.

(** What is checked at every reachable sum: the double is finite, its floor
    is the exact floor or one less, and lies in [0,100]. *)
Definition nearExact (p : Point) : bool :=
  let o := Float64.floor (snd p) in
  let x := fst p / 10 in
  Float64.is_finite (snd p)
  && (x - 1 <=? o) && (o <=? x) && (0 <=? o) && (o <=? 100).

Lemma default_points :
  forallb nearExact
    (reach 3 Float64.lit_0_3 (rangeZ 20 50) 3 Float64.lit_0_3 (rangeZ 10 40)
           2 Float64.lit_0_2 (rangeZ 40 30) 2 Float64.lit_0_2 (rangeZ 30 20))
  = true.
Proof. vm_cast_no_check (eq_refl true). Qed.

Lemma it_points :
  forallb nearExact
    (reach 3 Float64.lit_0_3 (rangeZ 20 50) 3 Float64.lit_0_3 (rangeZ 30 40)
           2 Float64.lit_0_2 (rangeZ 40 30) 2 Float64.lit_0_2 (rangeZ 30 20))
  = true.
Proof. vm_cast_no_check (eq_refl true). Qed.

Lemma ot_points :
  forallb nearExact
    (reach 2 Float64.lit_0_2 (rangeZ 10 40) 2 Float64.lit_0_2 (rangeZ 20 30)
           3 Float64.lit_0_3 (rangeZ 30 40) 3 Float64.lit_0_3 (rangeZ 20 50))
  = true.
Proof. vm_cast_no_check (eq_refl true). Qed.

Lemma cloud_points :
  forallb nearExact
    (reach 2 Float64.lit_0_2 (rangeZ 20 30) 3 Float64.lit_0_3 (rangeZ 20 40)
           3 Float64.lit_0_3 (rangeZ 30 50) 2 Float64.lit_0_2 (rangeZ 40 30))
  = true.
Proof. vm_cast_no_check (eq_refl true). Qed.

Lemma literals_nearest :
  Float64.div (Float64.of_Z 3) (Float64.of_Z 10) = Float64.lit_0_3
  /\ Float64.div (Float64.of_Z 2) (Float64.of_Z 10) = Float64.lit_0_2.
Proof. split; vm_compute; reflexivity. Qed.

Section Scores.
Context {Ext : Type} `{JsRuntime}.

(** Every draw the host still has to deliver is a [Math.random()] value: a
    double of [0,1). *)
Definition GoodEntropy {S} (m : Machine S Ext) : Prop :=
  forall n, Float64.unit (entropy m n).

(** No record of the batch has a group key that an object literal
    inherits. *)
Definition groupable (data : list NormalizedData) : bool :=
  forallb (fun item => negb (inherited (environmentKey item))) data.

(** The grouping loop returns the groups when every key is an own key, and
    throws at the first inherited key otherwise. *)
Lemma groupItems_run (data : list NormalizedData) groups (h : Machine unit Ext) :
  groupItems data groups h
  = if groupable data
    then (Normal
            (fold_left
               (fun groups item => groupPush (environmentKey item) item groups)
               data groups), h)
    else (Throws (Error "environmentData[env].push is not a function"), h).
Proof.
  revert groups. induction data as [|item rest IH]; intros groups;
    cbn [groupItems groupable forallb fold_left]; [reflexivity|].
  destruct (inherited (environmentKey item)); cbn [negb andb];
    [reflexivity|apply IH].
Qed.

(** What holds of a score computed with weights [a/10 .. d/10]: the overall
    score is the floor of the sum evaluated in doubles, that is the floor
    of the exact sum or one less, and an integer of [0,100]. *)
Definition ScoreOK (a b c d : Z) (w1 w2 w3 w4 : spec_float) (s : RiskScore)
  : Prop :=
  overallScore s
  = weightedScore w1 w2 w3 w4 (vulnerabilities (factors s))
      (threats (factors s)) (compliance (factors s)) (exposure (factors s))
  /\ exactScore a b c d (factors s) - 1 <= overallScore s
     <= exactScore a b c d (factors s)
  /\ 0 <= overallScore s <= 100.

Lemma factor_value (range base : Z) (r : Q) :
  Float64.unit r -> 0 < range -> base + range <= 101 ->
  In (Z.min 100 (floorTimes r range + base)) (rangeZ base range).
Proof.
  intros Hunit Hr Hb. pose proof (floorTimes_bounds Hunit Hr).
  apply rangeZ_In. lia.
Qed.

Lemma scoreFor_spec env vr vb tr tb cr cb er eb a b c d w1 w2 w3 w4
    (h : Machine unit Ext) :
  GoodEntropy h ->
  0 < vr -> vb + vr <= 101 -> 0 < tr -> tb + tr <= 101 ->
  0 < cr -> cb + cr <= 101 -> 0 < er -> eb + er <= 101 ->
  forallb nearExact
    (reach a w1 (rangeZ vb vr) b w2 (rangeZ tb tr) c w3 (rangeZ cb cr)
           d w4 (rangeZ eb er)) = true ->
  exists score h',
    scoreFor env vr vb tr tb cr cb er eb w1 w2 w3 w4 h = (Normal score, h')
    /\ GoodEntropy h'
    /\ ScoreOK a b c d w1 w2 w3 w4 score.
Proof.
  intros Hgood Hvr Hvb Htr Htb Hcr Hcb Her Heb Hall.
  unfold scoreFor, factor, pick. run.
  eexists _, _. split; [reflexivity|]. split.
  { intros n. cbn. apply Hgood. }
  unfold ScoreOK. rewrite exactScore_div. cbn.
  split; [reflexivity|].
  rewrite forallb_forall in Hall.
  match goal with
  | |- context [weightedScore w1 w2 w3 w4 ?v ?t ?c' ?e] =>
      assert (Hv : In v (rangeZ vb vr))
        by (apply factor_value; auto; apply Hgood);
      assert (Ht : In t (rangeZ tb tr))
        by (apply factor_value; auto; apply Hgood);
      assert (Hc : In c' (rangeZ cb cr))
        by (apply factor_value; auto; apply Hgood);
      assert (He : In e (rangeZ eb er))
        by (apply factor_value; auto; apply Hgood);
      pose proof (Hall _ (@reach_complete a w1 _ b w2 _ c w3 _ d w4 _ _ _ _ _
                               Hv Ht Hc He))
        as Hchk
  end.
  unfold nearExact in Hchk. cbn [fst snd] in Hchk.
  repeat (apply andb_prop in Hchk; destruct Hchk as [Hchk ?]).
  unfold weightedScore. lia.
Qed.

Lemma mapM_Forall {S A B} (Inv : Machine S Ext -> Prop) (P : B -> Prop)
    (f : A -> M S Ext B) (xs : list A) :
  (forall x m, Inv m -> exists y m', f x m = (Normal y, m') /\ Inv m' /\ P y) ->
  forall m, Inv m ->
    exists ys m', mapM f xs m = (Normal ys, m') /\ Inv m' /\ Forall P ys.
Proof.
  intros Hf. induction xs as [|x r IH]; intros m Hm; cbn.
  - exists [], m. repeat split; auto.
  - destruct (Hf x m Hm) as (y & m1 & E1 & Hm1 & Py).
    destruct (IH m1 Hm1) as (ys & m2 & E2 & Hm2 & Pys).
    exists (y :: ys), m2. unfold bind. rewrite E1, E2.
    repeat split; auto.
Qed.

(** C4, as the code has it.  On a host whose draws are doubles of [0,1):
    each score a built-in engine returns has an overall score that is the
    floor of the weighted sum as evaluated in double precision, which is
    the floor of the exact weighted sum of the four factors or one less,
    and an integer of [0,100].  The IT, OT and Cloud engines return one
    score for every batch.  The default engine returns its scores when no
    record has a group key that an object literal inherits from
    [Object.prototype] (such as ['constructor'] or ['toString']); it throws
    a [TypeError] and draws nothing when one has.  The weights are 0.3,
    0.3, 0.2, 0.2 for the default and the IT engine, 0.2, 0.2, 0.3, 0.3 for
    OT and 0.2, 0.3, 0.3, 0.2 for Cloud. *)
Theorem overall_score_bounds (h : Machine unit Ext)
    (data : list NormalizedData) :
  GoodEntropy h ->
  (forall scores h',
      engine_calculateRiskScores defaultRiskScoreEngine data h
      = (Normal scores, h') ->
      Forall (ScoreOK 3 3 2 2 Float64.lit_0_3 Float64.lit_0_3
                Float64.lit_0_2 Float64.lit_0_2) scores)
  /\ (groupable data = true ->
      exists scores h',
        engine_calculateRiskScores defaultRiskScoreEngine data h
        = (Normal scores, h'))
  /\ (groupable data = false ->
      engine_calculateRiskScores defaultRiskScoreEngine data h
      = (Throws (Error "environmentData[env].push is not a function"), h))
  /\ (exists scores h',
         engine_calculateRiskScores itRiskScoreEngine data h
         = (Normal scores, h')
         /\ Forall (ScoreOK 3 3 2 2 Float64.lit_0_3 Float64.lit_0_3
                      Float64.lit_0_2 Float64.lit_0_2) scores)
  /\ (exists scores h',
         engine_calculateRiskScores otRiskScoreEngine data h
         = (Normal scores, h')
         /\ Forall (ScoreOK 2 2 3 3 Float64.lit_0_2 Float64.lit_0_2
                      Float64.lit_0_3 Float64.lit_0_3) scores)
  /\ (exists scores h',
         engine_calculateRiskScores cloudRiskScoreEngine data h
         = (Normal scores, h')
         /\ Forall (ScoreOK 2 3 3 2 Float64.lit_0_2 Float64.lit_0_3
                      Float64.lit_0_3 Float64.lit_0_2) scores).
Proof.
  intros Hgood.
  assert (Hdefault :
            forall groups,
            exists scores h',
              mapM (fun group =>
                      scoreFor (fst group) 50 20 40 10 30 40 20 30
                        Float64.lit_0_3 Float64.lit_0_3 Float64.lit_0_2
                        Float64.lit_0_2)
                (objectEntries (A := list NormalizedData) groups) h
              = (Normal scores, h')
              /\ Forall (ScoreOK 3 3 2 2 Float64.lit_0_3 Float64.lit_0_3
                           Float64.lit_0_2 Float64.lit_0_2) scores).
  { intros groups.
    destruct (mapM_Forall (S := unit) GoodEntropy
                (ScoreOK 3 3 2 2 Float64.lit_0_3 Float64.lit_0_3
                   Float64.lit_0_2 Float64.lit_0_2)
                (fun group =>
                   scoreFor (fst group) 50 20 40 10 30 40 20 30
                     Float64.lit_0_3 Float64.lit_0_3 Float64.lit_0_2
                     Float64.lit_0_2)
                (objectEntries (A := list NormalizedData) groups))
      with (m := h) as (scores & h' & E & _ & Hall); [|assumption|].
    + intros group m Hm.
      apply scoreFor_spec with (a := 3) (b := 3) (c := 2) (d := 2);
        try lia; [assumption|exact default_points].
    + exists scores, h'. auto. }
  cbn [engine_calculateRiskScores defaultRiskScoreEngine].
  unfold bind at 1 2 3. rewrite groupItems_run.
  split; [|split; [|split; [|split; [|split]]]].
  - intros scores h'. destruct (groupable data); [|discriminate].
    destruct (Hdefault
                (fold_left
                   (fun groups item =>
                      groupPush (environmentKey item) item groups) data []))
      as (scores0 & h0 & E & Hall).
    rewrite E. now intros [= <- _].
  - intros ->.
    destruct (Hdefault
                (fold_left
                   (fun groups item =>
                      groupPush (environmentKey item) item groups) data []))
      as (scores0 & h0 & E & Hall).
    eauto.
  - now intros ->.
  - cbn [engine_calculateRiskScores itRiskScoreEngine].
    destruct (@scoreFor_spec "IT" 50 20 40 30 30 40 20 30 3 3 2 2
                Float64.lit_0_3 Float64.lit_0_3 Float64.lit_0_2
                Float64.lit_0_2 h Hgood)
      as (score & h' & E & _ & Hok); try lia; [exact it_points|].
    exists [score], h'. unfold bind. rewrite E. split; [reflexivity|].
    now constructor.
  - cbn [engine_calculateRiskScores otRiskScoreEngine].
    destruct (@scoreFor_spec "OT" 40 10 30 20 40 30 50 20 2 2 3 3
                Float64.lit_0_2 Float64.lit_0_2 Float64.lit_0_3
                Float64.lit_0_3 h Hgood)
      as (score & h' & E & _ & Hok); try lia; [exact ot_points|].
    exists [score], h'. unfold bind. rewrite E. split; [reflexivity|].
    now constructor.
  - cbn [engine_calculateRiskScores cloudRiskScoreEngine].
    destruct (@scoreFor_spec "Cloud" 30 20 40 20 50 30 30 40 2 3 3 2
                Float64.lit_0_2 Float64.lit_0_3 Float64.lit_0_3
                Float64.lit_0_2 h Hgood)
      as (score & h' & E & _ & Hok); try lia; [exact cloud_points|].
    exists [score], h'. unfold bind. rewrite E. split; [reflexivity|].
    now constructor.
Qed.

End Scores.
End AnalyticsFacts.

(* ================================================================= *)
(** ** Orchestration: incidents *)

Module OrchestrationFacts.
Import Analytics Orchestration.

Section Facts.
Context {Ext : Type} `{JsRuntime}.
Notation Svc := (OrchestrationService Ext).

(** *** Computations that leave the service alone *)

(** [m'] is [m] with the clock read some more; the service is the same.
    (Subscribers may have run and numbers may have been drawn.) *)
Definition Later (m m' : Machine Svc Ext) : Prop :=
  this m' = this m /\ exists i, forall n, clock m' n = clock m (i + n)%nat.

Definition steady {A} (c : M Svc Ext A) : Prop :=
  forall m, exists a m', c m = (Normal a, m') /\ Later m m'.

Lemma Later_refl m : Later m m.
Proof. split; [reflexivity|]. exists 0%nat. reflexivity. Qed.

Lemma Later_trans m1 m2 m3 : Later m1 m2 -> Later m2 m3 -> Later m1 m3.
Proof.
  intros (A1 & i & Hi) (B1 & j & Hj). split; [congruence|].
  exists (i + j)%nat. intros n. rewrite Hj, Hi. f_equal. lia.
Qed.

Lemma steady_ret {A} (a : A) : steady (ret a).
Proof. intros m. exists a, m. split; [reflexivity|apply Later_refl]. Qed.

Lemma steady_bind {A B} (c : M Svc Ext A) (k : A -> M Svc Ext B) :
  steady c -> (forall a, steady (k a)) -> steady (bind c k).
Proof.
  intros Hc Hk m. destruct (Hc m) as (a & m1 & E1 & L1).
  destruct (Hk a m1) as (b & m2 & E2 & L2).
  exists b, m2. unfold bind. rewrite E1. split; [assumption|].
  eapply Later_trans; eassumption.
Qed.

Lemma hostOnly_steady {A} (c : M Svc Ext A) : HostFacts.hostOnly c -> steady c.
Proof.
  intros Hc m. destruct (Hc m) as (a & m' & E & (A1 & _ & _ & _ & _ & A6 & _)).
  exists a, m'. split; [assumption|]. split; assumption.
Qed.

Lemma steady_getThis : steady (@getThis Svc Ext).
Proof. intros m. exists (this m), m. split; [reflexivity|apply Later_refl]. Qed.

Lemma steady_notify (result : OrchestrationResult) :
  steady (notifyOrchestrationCallbacks result).
Proof.
  intros m. unfold notifyOrchestrationCallbacks. unfold bind, getThis.
  rewrite HostFacts.notifyCallbacks_run. eexists _, _.
  split; [reflexivity|]. split; [reflexivity|]. exists 0%nat. reflexivity.
Qed.

Lemma steady_forOf {A} (xs : list A) (body : A -> M Svc Ext unit) :
  (forall x, steady (body x)) -> steady (forOf xs body).
Proof.
  intros Hb. induction xs as [|x r IH]; cbn.
  - apply steady_ret.
  - apply steady_bind; [apply Hb|]. intros _. exact IH.
Qed.

Lemma hostOnly_tryCatch {S A} (c : M S Ext A) (h : exn -> M S Ext A) :
  HostFacts.hostOnly c -> HostFacts.hostOnly (tryCatch c h).
Proof.
  intros Hc m. destruct (Hc m) as (a & m' & E & Adv).
  exists a, m'. unfold tryCatch. rewrite E. auto.
Qed.

Lemma simulateActionExecution_hostOnly step context :
  HostFacts.hostOnly (@simulateActionExecution Ext step context).
Proof. unfold simulateActionExecution. host_only. Qed.

Lemma runSteps_hostOnly remaining context :
  forall actions,
    HostFacts.hostOnly
      (@runSteps Ext simulateActionExecution remaining context actions).
Proof.
  induction remaining as [|step rest IH]; intros actions; cbn [runSteps].
  - host_only.
  - apply HostFacts.hostOnly_bind.
    + apply hostOnly_tryCatch. host_only.
      apply simulateActionExecution_hostOnly.
    + intros outcome. destruct (snd outcome); [host_only|apply IH].
Qed.

Lemma executePlaybook_hostOnly p context :
  HostFacts.hostOnly (@executePlaybook Ext p context).
Proof.
  unfold executePlaybook, executePlaybookWith. host_only.
  apply runSteps_hostOnly.
Qed.

Lemma executePlaybook_name p context (m : Machine Svc Ext) result m' :
  executePlaybook p context m = (Normal result, m') ->
  or_name result = pb_name p.
Proof.
  unfold executePlaybook, executePlaybookWith.
  unfold bind at 1. unfold Date_now at 1. unfold bind at 1.
  destruct (runSteps _ _ _ _ _) as [[actions|e] m1]; [|discriminate].
  run. now intros [= <- _].
Qed.

Lemma executeRuleActions_hostOnly p rule context :
  HostFacts.hostOnly (@executeRuleActions Ext p rule context).
Proof.
  unfold executeRuleActions. host_only.
  apply HostFacts.hostOnly_mapM. intros act. apply hostOnly_tryCatch.
  unfold simulatePolicyActionExecution. host_only.
Qed.

Lemma steady_respondToComplianceIssue complianceResult :
  steady (respondToComplianceIssue complianceResult).
Proof.
  unfold respondToComplianceIssue, findPlaybookForComplianceIssue.
  apply steady_bind.
  - apply steady_bind; [apply steady_getThis|]. intros. apply steady_ret.
  - intros [p|]; [|apply steady_ret].
    apply steady_bind.
    + apply hostOnly_steady, executePlaybook_hostOnly.
    + intros. apply steady_notify.
Qed.

Lemma steady_enforcePolicies analyticsResult :
  steady (enforcePolicies analyticsResult).
Proof.
  unfold enforcePolicies. apply steady_bind; [apply steady_getThis|].
  intros s. apply steady_forOf. intros p. apply steady_forOf. intros rule.
  destruct (rule_status rule); [|apply steady_ret].
  apply steady_bind.
  - apply hostOnly_steady. unfold evaluateRuleCondition. host_only.
  - intros [|]; [|apply steady_ret].
    apply steady_bind.
    + apply hostOnly_steady, executeRuleActions_hostOnly.
    + intros. apply steady_notify.
Qed.

(** *** The incident map *)

Lemma set_split {V} k (v old : V) (m : JsMap.t V) :
  JsMap.get k m = Some old ->
  exists l1 l2,
    m = l1 ++ (k, old) :: l2 /\ JsMap.set k v m = l1 ++ (k, v) :: l2.
Proof.
  induction m as [|[k' v'] r IH]; cbn; [discriminate|].
  destruct (String.eqb k k') eqn:E.
  - apply String.eqb_eq in E. subst k'. intros [= ->]. now exists [], r.
  - intros Hget. destruct (IH Hget) as (l1 & l2 & -> & ->).
    now exists ((k', v') :: l1), l2.
Qed.

Lemma set_new {V} k (v : V) (m : JsMap.t V) :
  JsMap.get k m = None -> JsMap.set k v m = m ++ [(k, v)].
Proof.
  induction m as [|[k' v'] r IH]; cbn; [reflexivity|].
  destruct (String.eqb k k'); [discriminate|]. intros Hget. now rewrite IH.
Qed.

Lemma In_set {V} x k (v : V) (m : JsMap.t V) :
  In x (JsMap.set k v m) -> x = (k, v) \/ In x m.
Proof.
  induction m as [|[k' v'] r IH]; cbn.
  - intros [<-|[]]. now left.
  - destruct (String.eqb k k'); cbn.
    + intros [<-|Hin]; auto.
    + intros [<-|Hin]; auto. destruct (IH Hin); auto.
Qed.

(** Keys are distinct and every incident is stored under its own id. *)
Definition WellKeyed (m : JsMap.t Incident) : Prop :=
  JsMap.wf m /\ forall k inc, In (k, inc) m -> inc_id inc = k.

(** The stored incidents whose [relatedAnomalies] contain [anomalyId], in
    the order of the map. *)
Definition referencing (anomalyId : string) (m : JsMap.t Incident)
  : list Incident :=
  filter (referencedBy anomalyId) (JsMap.values m).

Lemma WellKeyed_empty : WellKeyed JsMap.empty.
Proof. split; [apply JsMap.wf_empty|intros k inc []]. Qed.

Lemma WellKeyed_set k inc m :
  WellKeyed m -> inc_id inc = k -> WellKeyed (JsMap.set k inc m).
Proof.
  intros [Hwf Hkey] Hid. split; [now apply JsMap.wf_set|].
  intros k' inc' Hin. apply In_set in Hin. destruct Hin as [[= -> ->]|Hin].
  - assumption.
  - now apply Hkey.
Qed.

Lemma WellKeyed_find P m e :
  WellKeyed m -> find P (JsMap.values m) = Some e ->
  JsMap.get (inc_id e) m = Some e.
Proof.
  intros [Hwf Hkey] Hfind. apply find_some in Hfind. destruct Hfind as [Hin _].
  unfold JsMap.values in Hin. apply in_map_iff in Hin.
  destruct Hin as ([k e'] & He & Hin). cbn in He. subst e'.
  rewrite (Hkey _ _ Hin). now apply JsMap.In_get.
Qed.

Lemma find_filter_single {A} (P : A -> bool) l e :
  find P l = Some e -> (List.length (filter P l) <= 1)%nat -> filter P l = [e].
Proof.
  induction l as [|x r IH]; cbn; [discriminate|].
  destruct (P x) eqn:E.
  - intros [= ->]. cbn. intros Hlen.
    destruct (filter P r); [reflexivity|cbn in Hlen; lia].
  - auto.
Qed.

Lemma find_None_filter {A} (P : A -> bool) l :
  find P l = None -> filter P l = [].
Proof.
  induction l as [|x r IH]; cbn; [reflexivity|].
  destruct (P x); [discriminate|auto].
Qed.

Lemma filter_head_find {A} (P : A -> bool) l x r :
  filter P l = x :: r -> find P l = Some x.
Proof.
  induction l as [|y l' IH]; cbn; [discriminate|].
  destruct (P y); [now intros [= ->]|auto].
Qed.

Lemma app_eq_single {A} (l1 l2 : list A) x :
  l1 ++ l2 = [x] -> (l1 = [] /\ l2 = [x]) \/ (l1 = [x] /\ l2 = []).
Proof.
  destruct l1 as [|a l1]; cbn; [auto|].
  intros [= -> E]. apply app_eq_nil in E. destruct E as [-> ->]. auto.
Qed.

(** Storing an incident that references [anomalyId], in a map where nothing
    references it or only the incident stored under the same key does,
    leaves exactly that incident referencing it. *)
Lemma referencing_set anomalyId k inc m :
  referencedBy anomalyId inc = true ->
  referencing anomalyId m = []
  \/ (exists old, JsMap.get k m = Some old /\ referencing anomalyId m = [old]) ->
  referencing anomalyId (JsMap.set k inc m) = [inc].
Proof.
  intros Hinc Hm. unfold referencing in *.
  destruct (JsMap.get k m) as [old0|] eqn:Hget.
  - destruct (@set_split _ k inc old0 m Hget) as (l1 & l2 & Hm1 & Hset).
    rewrite Hset. rewrite Hm1 in Hm. unfold JsMap.values in *.
    rewrite !map_app, !filter_app in *. cbn in *. rewrite Hinc.
    assert (Hnil : filter (referencedBy anomalyId) (map snd l1) = []
                   /\ filter (referencedBy anomalyId) (map snd l2) = []).
    { destruct Hm as [Hm|(old & [= <-] & Hm)].
      - apply app_eq_nil in Hm. destruct Hm as [-> Hm].
        destruct (referencedBy anomalyId old0); [discriminate|]. auto.
      - destruct (referencedBy anomalyId old0) eqn:Hold.
        + apply app_eq_single in Hm. destruct Hm as [[-> Hm]|[_ Hm]];
            [|discriminate].
          now injection Hm as ->.
        + assert (Hin : In old0 (filter (referencedBy anomalyId) (map snd l1)
                                 ++ filter (referencedBy anomalyId) (map snd l2)))
            by (rewrite Hm; now left).
          apply in_app_iff in Hin.
          destruct Hin as [Hin|Hin]; apply filter_In in Hin;
            destruct Hin; congruence. }
    destruct Hnil as [-> ->]. reflexivity.
  - destruct Hm as [Hm|(old & Hold & _)]; [|discriminate].
    rewrite (@set_new _ k inc m Hget). unfold JsMap.values in *.
    rewrite map_app, filter_app, Hm. cbn. now rewrite Hinc.
Qed.

(** [existingIncident] with one more event and a new [updatedAt]. *)
Definition withEvent (incident : Incident) (event : IncidentEvent)
    (updatedAt : Z) : Incident :=
  mkIncident (inc_id incident) (inc_title incident) (inc_description incident)
    (inc_severity incident) (inc_status incident) (assignedTo incident)
    (affectedAssets incident) (relatedAnomalies incident)
    (timeline incident ++ [event]) (inc_createdAt incident) updatedAt
    (resolvedAt incident).

Lemma createOrUpdateIncident_update (m : Machine Svc Ext) anomaly result e :
  find (referencedBy (an_id anomaly)) (JsMap.values (incidents (this m)))
  = Some e ->
  exists event,
    createOrUpdateIncident anomaly result m
    = (Normal tt,
       mkMachine
         (with_incidents (this m)
            (JsMap.set (inc_id e) (withEvent e event (clock m 0%nat))
               (incidents (this m))))
         (fun n => clock m (3 + n)%nat) (fun n => entropy m (1 + n)%nat)
         (timers m) (nextTimer m) (subscribers m) (console m))
    /\ ev_type event = action
    /\ ev_incidentId event = inc_id e
    /\ ev_description event = "Executed playbook: " +++ or_name result
    /\ ev_timestamp event = clock m 2%nat.
Proof.
  intros Hfind. unfold createOrUpdateIncident.
  unfold bind at 1. unfold getThis at 1. rewrite Hfind.
  unfold freshId. run_through. eexists. split; [reflexivity|].
  repeat split; reflexivity.
Qed.

(** The id [createOrUpdateIncident] generates for a new incident when it
    starts on [m]: [`incident-${Date.now()}-${...}`] with its first reading
    of the clock and its first draw. *)
Definition nextIncidentId (m : Machine Svc Ext) : string :=
  "incident-" +++ showZ (clock m 0%nat + 0) +++ "-"
  +++ randomSuffix (entropy m 0%nat).

Lemma createOrUpdateIncident_create (m : Machine Svc Ext) anomaly result :
  find (referencedBy (an_id anomaly)) (JsMap.values (incidents (this m)))
  = None ->
  exists inc detected acted,
    createOrUpdateIncident anomaly result m
    = (Normal tt,
       mkMachine
         (with_incidents (this m)
            (JsMap.set (inc_id inc) inc (incidents (this m))))
         (fun n => clock m (9 + n)%nat) (fun n => entropy m (5 + n)%nat)
         (timers m) (nextTimer m) (subscribers m) (console m))
    /\ relatedAnomalies inc = [an_id anomaly]
    /\ inc_severity inc = an_severity anomaly
    /\ inc_status inc = new
    /\ timeline inc = [detected; acted]
    /\ ev_type detected = detection
    /\ ev_timestamp detected = clock m 3%nat
    /\ ev_type acted = action
    /\ ev_description acted = "Executed playbook: " +++ or_name result
    /\ ev_timestamp acted = clock m 6%nat
    /\ inc_id inc = nextIncidentId m.
Proof.
  intros Hfind. unfold createOrUpdateIncident.
  unfold bind at 1. unfold getThis at 1. rewrite Hfind.
  unfold freshId. run_through.
  eexists (mkIncident _ _ _ _ _ _ _ _ _ _ _ _), _, _.
  split; [reflexivity|]. repeat split; reflexivity.
Qed.

(** *** The response to one anomaly *)

Lemma respondToAnomaly_unmatched (m : Machine Svc Ext) anomaly :
  find (matchesAnomaly anomaly) (JsMap.values (playbooks (this m))) = None ->
  respondToAnomaly anomaly m = (Normal tt, m).
Proof.
  intros Hnone. unfold respondToAnomaly, findPlaybookForAnomaly. run.
  now rewrite Hnone.
Qed.

(** With a matching playbook the response ends normally; it leaves the
    registries alone, and the incident map is the old one with either the
    first incident that references the anomaly extended by one [action]
    event, or, when none references it, a new incident stored under the id
    generated once the playbook has run.  [i] counts the clock readings
    taken. *)
Lemma respondToAnomaly_run (m : Machine Svc Ext) anomaly p :
  find (matchesAnomaly anomaly) (JsMap.values (playbooks (this m))) = Some p ->
  exists m' i,
    respondToAnomaly anomaly m = (Normal tt, m')
    /\ (forall n, clock m' n = clock m (i + n)%nat)
    /\ playbooks (this m') = playbooks (this m)
    /\ policies (this m') = policies (this m)
    /\ orchestrationCallbacks (this m') = orchestrationCallbacks (this m)
    /\ ((exists e event j j',
            find (referencedBy (an_id anomaly))
              (JsMap.values (incidents (this m))) = Some e
            /\ incidents (this m')
               = JsMap.set (inc_id e) (withEvent e event (clock m j))
                   (incidents (this m))
            /\ ev_type event = action
            /\ ev_incidentId event = inc_id e
            /\ ev_description event = "Executed playbook: " +++ pb_name p
            /\ ev_timestamp event = clock m j'
            /\ (j' < i)%nat)
        \/ (exists inc detected acted j1 j2,
              find (referencedBy (an_id anomaly))
                (JsMap.values (incidents (this m))) = None
              /\ incidents (this m')
                 = JsMap.set (inc_id inc) inc (incidents (this m))
              /\ relatedAnomalies inc = [an_id anomaly]
              /\ inc_severity inc = an_severity anomaly
              /\ inc_status inc = new
              /\ timeline inc = [detected; acted]
              /\ ev_type detected = detection
              /\ ev_type acted = action
              /\ ev_timestamp detected = clock m j1
              /\ ev_timestamp acted = clock m j2
              /\ (j1 <= j2)%nat /\ (j2 < i)%nat
              /\ inc_id inc
                 = nextIncidentId
                     (snd (executePlaybook p (AnomalyContext anomaly) m)))).
Proof.
  intros Hp. unfold respondToAnomaly, findPlaybookForAnomaly.
  unfold bind at 1. unfold bind at 1. unfold getThis at 1. unfold ret at 1.
  rewrite Hp. unfold bind at 1.
  destruct (executePlaybook_hostOnly p (AnomalyContext anomaly) m)
    as (result & m1 & E1 & (A1 & A2 & A3 & A4 & A5 & (i1 & Hclock) & _)).
  rewrite E1. cbn [snd]. apply executePlaybook_name in E1.
  unfold bind at 1.
  destruct (find (referencedBy (an_id anomaly))
              (JsMap.values (incidents (this m)))) as [e|] eqn:Hfind.
  - destruct (@createOrUpdateIncident_update m1 anomaly result e)
      as (event & E2 & T1 & T2 & T3 & T4); [now rewrite A1|].
    rewrite E2. unfold notifyOrchestrationCallbacks.
    unfold bind at 1. unfold getThis at 1.
    rewrite HostFacts.notifyCallbacks_run.
    eexists _, (i1 + 3)%nat. split; [reflexivity|].
    cbn [this clock with_incidents incidents playbooks policies
         orchestrationCallbacks].
    split; [intros n; rewrite Hclock; f_equal; lia|].
    rewrite A1. repeat (split; [reflexivity|]).
    left. exists e, event, (i1 + 0)%nat, (i1 + 2)%nat.
    rewrite <- !Hclock, <- E1. repeat split; auto. lia.
  - destruct (@createOrUpdateIncident_create m1 anomaly result)
      as (inc & detected & acted & E2 & R1 & R2 & R3 & R4 & T1 & T2 & T3 & T4
          & T5 & Hid);
      [now rewrite A1|].
    rewrite E2. unfold notifyOrchestrationCallbacks.
    unfold bind at 1. unfold getThis at 1.
    rewrite HostFacts.notifyCallbacks_run.
    eexists _, (i1 + 9)%nat. split; [reflexivity|].
    cbn [this clock with_incidents incidents playbooks policies
         orchestrationCallbacks].
    split; [intros n; rewrite Hclock; f_equal; lia|].
    rewrite A1. repeat (split; [reflexivity|]).
    right. exists inc, detected, acted, (i1 + 3)%nat, (i1 + 6)%nat.
    rewrite <- !Hclock. repeat split; auto; lia.
Qed.

Lemma referencedBy_withEvent id e event t :
  referencedBy id (withEvent e event t) = referencedBy id e.
Proof. reflexivity. Qed.

(** *** The loop over the anomalies of a delivery *)

(** The body of the loop of [handleAnalyticsResult] over the anomalies. *)
Definition respond (anomaly : Anomaly) : M Svc Ext unit :=
  if requiresResponse anomaly then respondToAnomaly anomaly else ret tt.

(** The anomaly is answered: it is critical or high and a registered
    playbook matches it. *)
Definition answered (m : Machine Svc Ext) (anomaly : Anomaly) : bool :=
  requiresResponse anomaly
  && match find (matchesAnomaly anomaly)
             (JsMap.values (playbooks (this m))) with
     | Some _ => true
     | None => false
     end.

(** The id generated when the anomaly is handled on [m], if an incident is
    created for it: it is answered and no stored incident references it. *)
Definition created (anomaly : Anomaly) (m : Machine Svc Ext) : list string :=
  if requiresResponse anomaly
  then match find (matchesAnomaly anomaly)
               (JsMap.values (playbooks (this m))),
             find (referencedBy (an_id anomaly))
               (JsMap.values (incidents (this m))) with
       | Some p, None =>
           [nextIncidentId (snd (executePlaybook p (AnomalyContext anomaly) m))]
       | _, _ => []
       end
  else [].

(** The ids generated for the incidents created while [pending] is handled
    from [m] on, each with the incident map it is written to. *)
Fixpoint creations (pending : list Anomaly) (m : Machine Svc Ext)
  : list (string * JsMap.t Incident) :=
  match pending with
  | [] => []
  | anomaly :: rest =>
      map (fun id => (id, incidents (this m))) (created anomaly m)
      ++ creations rest (snd (respond anomaly m))
  end.

(** No id generated while [pending] is handled is the id of an incident
    stored at that moment. *)
Definition FreshIds (pending : list Anomaly) (m : Machine Svc Ext) : Prop :=
  Forall (fun c => JsMap.get (fst c) (snd c) = None) (creations pending m).

(** *** Histories *)

(** [inc'] is [inc] with events added at the end of its timeline only. *)
Definition Kept (inc inc' : Incident) : Prop :=
  inc_id inc' = inc_id inc
  /\ relatedAnomalies inc' = relatedAnomalies inc
  /\ exists suffix, timeline inc' = timeline inc ++ suffix.


Definition MonotoneClock (m : Machine Svc Ext) : Prop :=
  forall i j, (i <= j)%nat -> clock m i <= clock m j.

(** Every stored timeline is in non-decreasing timestamp order and lies in
    the past of the clock. *)
Definition TimeOrdered (m : Machine Svc Ext) : Prop :=
  forall k inc,
    In (k, inc) (incidents (this m)) ->
    StronglySorted Z.le (map ev_timestamp (timeline inc))
    /\ Forall (fun t => t <= clock m 0%nat) (map ev_timestamp (timeline inc)).

Lemma Kept_refl inc : Kept inc inc.
Proof. repeat split. exists []. now rewrite app_nil_r. Qed.

Lemma Kept_trans a b c : Kept a b -> Kept b c -> Kept a c.
Proof.
  intros (A1 & A2 & s1 & A3) (B1 & B2 & s2 & B3).
  repeat split; try congruence.
  exists (s1 ++ s2). now rewrite B3, A3, app_assoc.
Qed.

Lemma Kept_withEvent inc event t : Kept inc (withEvent inc event t).
Proof. repeat split. now exists [event]. Qed.

Lemma StronglySorted_snoc (l : list Z) (x : Z) :
  StronglySorted Z.le l -> Forall (fun t => t <= x) l ->
  StronglySorted Z.le (l ++ [x]).
Proof.
  induction 1 as [|y l Hs IH Hy]; intros Hall; cbn.
  - repeat constructor.
  - inversion Hall as [|? ? Hyx Hall']; subst.
    constructor; [now apply IH|].
    apply Forall_app. split; [assumption|]. now constructor.
Qed.



(** What one response does to the stored incidents: every stored incident
    is kept under its key, extended or not, unless the response creates an
    incident and the id generated for it is that key. *)
Lemma respondToAnomaly_step (m : Machine Svc Ext) anomaly :
  WellKeyed (incidents (this m)) ->
  exists m' i,
    respondToAnomaly anomaly m = (Normal tt, m')
    /\ (forall n, clock m' n = clock m (i + n)%nat)
    /\ WellKeyed (incidents (this m'))
    /\ playbooks (this m') = playbooks (this m)
    /\ (forall k inc,
          JsMap.get k (incidents (this m)) = Some inc ->
          exists inc',
            JsMap.get k (incidents (this m')) = Some inc'
            /\ (Kept inc inc'
                \/ (relatedAnomalies inc' = [an_id anomaly]
                    /\ exists p,
                         find (matchesAnomaly anomaly)
                           (JsMap.values (playbooks (this m))) = Some p
                         /\ find (referencedBy (an_id anomaly))
                              (JsMap.values (incidents (this m))) = None
                         /\ k = nextIncidentId
                                  (snd (executePlaybook p
                                          (AnomalyContext anomaly) m)))))
    /\ (MonotoneClock m -> TimeOrdered m -> TimeOrdered m')
    /\ (forall p,
          find (matchesAnomaly anomaly) (JsMap.values (playbooks (this m)))
          = Some p ->
          exists inc,
            In inc (JsMap.values (incidents (this m')))
            /\ referencedBy (an_id anomaly) inc = true).
Proof.
  intros Hkeyed.
  destruct (find (matchesAnomaly anomaly) (JsMap.values (playbooks (this m))))
    as [p|] eqn:Hp.
  2:{ exists m, 0%nat. rewrite (respondToAnomaly_unmatched _ _ Hp).
      split; [reflexivity|]. split; [reflexivity|]. split; [exact Hkeyed|].
      split; [reflexivity|].
      split; [|split; [auto|discriminate]].
      intros k inc Hget. exists inc. split; [assumption|].
      left. apply Kept_refl. }
  destruct (respondToAnomaly_run m anomaly Hp)
    as (m' & i & Erun & Hclock & Hpb & _ & _ & Hinc).
  exists m', i. split; [exact Erun|]. split; [exact Hclock|].
  destruct Hinc as [(e & event & j & j' & Hfind & Hset & _ & _ & _ & Tts & Hj)
                   |(inc & d & a & j1 & j2 & Hfind & Hset & Hrel & _ & _ & Htl
                     & _ & _ & Td & Ta & Hj12 & Hj2 & Hid)].
  - pose proof (WellKeyed_find _ Hkeyed Hfind) as Hget.
    rewrite Hset. split; [now apply WellKeyed_set|].
    split; [exact Hpb|]. split; [|split].
    + intros k inc Hk. destruct (string_dec (inc_id e) k) as [<-|Hne].
      * rewrite JsMap.get_set_eq. eexists. split; [reflexivity|].
        left. rewrite Hget in Hk. injection Hk as <-. apply Kept_withEvent.
      * rewrite JsMap.get_set_ne by assumption. exists inc.
        split; [assumption|]. left. apply Kept_refl.
    + intros Hmono Hord k inc Hin. rewrite Hset in Hin.
      apply In_set in Hin. destruct Hin as [[= -> ->]|Hin].
      * apply JsMap.get_In in Hget. destruct (Hord _ _ Hget) as [Hs Hb].
        cbn. rewrite map_app. cbn. rewrite Tts. split.
        -- apply StronglySorted_snoc; [assumption|].
           eapply Forall_impl; [|exact Hb]. cbn. intros t Ht.
           specialize (Hmono 0%nat j'). lia.
        -- apply Forall_app. split.
           ++ eapply Forall_impl; [|exact Hb]. cbn. intros t Ht.
              rewrite Hclock. specialize (Hmono 0%nat (i + 0)%nat). lia.
           ++ constructor; [|constructor]. rewrite Hclock.
              apply Hmono. lia.
      * destruct (Hord _ _ Hin) as [Hs Hb]. split; [assumption|].
        eapply Forall_impl; [|exact Hb]. cbn. intros t Ht.
        rewrite Hclock. specialize (Hmono 0%nat (i + 0)%nat). lia.
    + intros p' _. exists (withEvent e event (clock m j)). split.
      * unfold JsMap.values. apply in_map_iff.
        exists (inc_id e, withEvent e event (clock m j)). split; [reflexivity|].
        apply JsMap.get_In. apply JsMap.get_set_eq.
      * rewrite referencedBy_withEvent. apply find_some in Hfind. tauto.
  - rewrite Hset. split; [now apply WellKeyed_set|].
    split; [exact Hpb|]. split; [|split].
    + intros k inc0 Hk. destruct (string_dec (inc_id inc) k) as [<-|Hne].
      * rewrite JsMap.get_set_eq. exists inc. split; [reflexivity|].
        right. split; [exact Hrel|]. exists p. auto.
      * rewrite JsMap.get_set_ne by assumption. exists inc0.
        split; [assumption|]. left. apply Kept_refl.
    + intros Hmono Hord k inc0 Hin. rewrite Hset in Hin.
      apply In_set in Hin. destruct Hin as [[= -> ->]|Hin].
      * rewrite Htl. cbn. rewrite Td, Ta, Hclock. split.
        -- repeat constructor. apply Hmono. assumption.
        -- repeat constructor; apply Hmono; lia.
      * destruct (Hord _ _ Hin) as [Hs Hb]. split; [assumption|].
        eapply Forall_impl; [|exact Hb]. cbn. intros t Ht.
        rewrite Hclock. specialize (Hmono 0%nat (i + 0)%nat). lia.
    + intros p' _. exists inc. split.
      * unfold JsMap.values. apply in_map_iff.
        exists (inc_id inc, inc). split; [reflexivity|].
        apply JsMap.get_In. apply JsMap.get_set_eq.
      * unfold referencedBy, includes. rewrite Hrel. cbn.
        now rewrite String.eqb_refl.
Qed.

(** The same for the body of the loop. *)
Lemma respond_step (m : Machine Svc Ext) anomaly :
  WellKeyed (incidents (this m)) ->
  exists m' i,
    respond anomaly m = (Normal tt, m')
    /\ (forall n, clock m' n = clock m (i + n)%nat)
    /\ WellKeyed (incidents (this m'))
    /\ playbooks (this m') = playbooks (this m)
    /\ (forall k inc,
          JsMap.get k (incidents (this m)) = Some inc ->
          exists inc',
            JsMap.get k (incidents (this m')) = Some inc'
            /\ (Kept inc inc'
                \/ (relatedAnomalies inc' = [an_id anomaly]
                    /\ In k (created anomaly m))))
    /\ (MonotoneClock m -> TimeOrdered m -> TimeOrdered m')
    /\ (answered m anomaly = true ->
        exists inc,
          In inc (JsMap.values (incidents (this m')))
          /\ referencedBy (an_id anomaly) inc = true).
Proof.
  intros Hkeyed. unfold respond, answered, created.
  destruct (requiresResponse anomaly).
  - destruct (@respondToAnomaly_step m anomaly Hkeyed)
      as (m' & i & E & Hc & Hk & Hpb & Hkept & Hord & Href).
    exists m', i. repeat (split; [assumption|]). split; [|split].
    + intros k inc Hget. destruct (Hkept k inc Hget) as (inc' & Hget' & Hcase).
      exists inc'. split; [exact Hget'|].
      destruct Hcase as [Hcase|(Hrel & p & Hp & Hnone & ->)]; [now left|].
      right. split; [exact Hrel|]. rewrite Hp, Hnone. now left.
    + exact Hord.
    + cbn [andb]. destruct (find (matchesAnomaly anomaly) _) as [p|] eqn:Hp;
        [|discriminate].
      intros _. now apply (Href p).
  - exists m, 0%nat.
    split; [reflexivity|]. split; [reflexivity|]. split; [exact Hkeyed|].
    split; [reflexivity|]. split; [|split; [auto|discriminate]].
    intros k inc Hk. exists inc. split; [assumption|].
    left. apply Kept_refl.
Qed.


(** What follows the loop over the anomalies leaves the service as it
    is. *)
Lemma after_anomalies_steady (r : AnalyticsResult) :
  steady
    (forOf (ar_complianceResults r)
       (fun complianceResult =>
          if negb (compliant complianceResult)
             && match control complianceResult with
                | Some _ => true
                | None => false
                end
          then respondToComplianceIssue complianceResult
          else ret tt) ;;;
     enforcePolicies r).
Proof.
  apply steady_bind.
  - apply steady_forOf. intros c.
    destruct (negb (compliant c) && _);
      [apply steady_respondToComplianceIssue|apply steady_ret].
  - intros _. apply steady_enforcePolicies.
Qed.

(** [handleAnalyticsResult] is the loop over the anomalies followed by
    computations that leave the service as it is. *)
Lemma handleAnalyticsResult_run (m m1 : Machine Svc Ext) r :
  forOf (ar_anomalies r) respond m = (Normal tt, m1) ->
  exists m2, handleAnalyticsResult r m = (Normal tt, m2) /\ Later m1 m2.
Proof.
  intros Hloop. unfold handleAnalyticsResult.
  change (fun anomaly : Anomaly =>
            if requiresResponse anomaly then respondToAnomaly anomaly
            else ret tt) with respond.
  unfold bind at 1. rewrite Hloop.
  destruct (after_anomalies_steady r m1) as ([] & m2 & E & L).
  exists m2. auto.
Qed.



(** *** At most one incident per anomaly *)

(** No anomaly is referenced by two stored incidents. *)
Definition Unique (m : JsMap.t Incident) : Prop :=
  forall id, (List.length (referencing id m) <= 1)%nat.

Lemma referencing_set_same id k inc old m :
  JsMap.get k m = Some old ->
  referencedBy id inc = referencedBy id old ->
  List.length (referencing id (JsMap.set k inc m))
  = List.length (referencing id m).
Proof.
  intros Hget Hsame. unfold referencing.
  destruct (@set_split _ k inc old m Hget) as (l1 & l2 & -> & ->).
  unfold JsMap.values. rewrite !map_app, !filter_app. cbn.
  rewrite Hsame, !length_app. now destruct (referencedBy id old).
Qed.

Lemma referencing_set_le id k inc m :
  referencedBy id inc = false ->
  (List.length (referencing id (JsMap.set k inc m))
   <= List.length (referencing id m))%nat.
Proof.
  intros Hno. unfold referencing.
  destruct (JsMap.get k m) as [old|] eqn:Hget.
  - destruct (@set_split _ k inc old m Hget) as (l1 & l2 & -> & ->).
    unfold JsMap.values. rewrite !map_app, !filter_app. cbn.
    rewrite Hno. rewrite !length_app.
    destruct (referencedBy id old); cbn; lia.
  - rewrite (@set_new _ k inc m Hget). unfold JsMap.values.
    rewrite map_app, filter_app. cbn. rewrite Hno, app_nil_r. lia.
Qed.

Lemma respondToAnomaly_unique (m : Machine Svc Ext) anomaly m' :
  WellKeyed (incidents (this m)) -> Unique (incidents (this m)) ->
  respondToAnomaly anomaly m = (Normal tt, m') ->
  Unique (incidents (this m')).
Proof.
  intros Hkeyed Huniq Erun.
  destruct (find (matchesAnomaly anomaly) (JsMap.values (playbooks (this m))))
    as [p|] eqn:Hp.
  2:{ rewrite (respondToAnomaly_unmatched _ _ Hp) in Erun.
      now injection Erun as <-. }
  destruct (respondToAnomaly_run m anomaly Hp)
    as (m1 & i & Erun1 & _ & _ & _ & _ & Hinc).
  rewrite Erun in Erun1. injection Erun1 as <-.
  destruct Hinc as [(e & event & j & j' & Hfind & Hset & _)
                   |(inc & d & a & j1 & j2 & Hfind & Hset & Hrel & _)];
    rewrite Hset; intros id.
  - rewrite (@referencing_set_same id (inc_id e) _ e);
      [apply Huniq|now apply (WellKeyed_find _ Hkeyed Hfind)|reflexivity].
  - destruct (string_dec id (an_id anomaly)) as [->|Hne].
    + rewrite referencing_set; [cbn; lia| |left; now apply find_None_filter].
      unfold referencedBy, includes. rewrite Hrel. cbn.
      now rewrite String.eqb_refl.
    + etransitivity; [apply referencing_set_le|apply Huniq].
      unfold referencedBy, includes. rewrite Hrel. cbn.
      apply String.eqb_neq in Hne. now rewrite Hne.
Qed.

Lemma respond_unique (m : Machine Svc Ext) anomaly m' :
  WellKeyed (incidents (this m)) -> Unique (incidents (this m)) ->
  respond anomaly m = (Normal tt, m') ->
  Unique (incidents (this m')).
Proof.
  intros Hkeyed Huniq. unfold respond.
  destruct (requiresResponse anomaly).
  - now apply respondToAnomaly_unique.
  - unfold ret. now intros [= <-].
Qed.

(** Deliveries keep the store keyed by id and free of duplicates, and so
    does the empty store they start from: the premise of C1 holds in every
    store that only deliveries have written. *)
Lemma deliveries_keep_unique (m : Machine Svc Ext) r :
  WellKeyed (incidents (this m)) -> Unique (incidents (this m)) ->
  exists m',
    handleAnalyticsResult r m = (Normal tt, m')
    /\ WellKeyed (incidents (this m')) /\ Unique (incidents (this m')).
Proof.
  intros Hkeyed Huniq.
  assert (Hloop : forall (pending : list Anomaly) (m0 : Machine Svc Ext),
             WellKeyed (incidents (this m0)) -> Unique (incidents (this m0)) ->
             exists m1,
               forOf pending respond m0 = (Normal tt, m1)
               /\ WellKeyed (incidents (this m1))
               /\ Unique (incidents (this m1))).
  { induction pending as [|a l IH]; intros m0 Hk Hu; cbn [forOf].
    - exists m0. auto.
    - unfold bind at 1.
      destruct (@respond_step m0 a Hk) as (m1 & i & E & _ & Hk1 & _).
      rewrite E. apply IH; [assumption|].
      eapply respond_unique; [exact Hk|exact Hu|exact E]. }
  destruct (Hloop (ar_anomalies r) m Hkeyed Huniq) as (m1 & E1 & Hk1 & Hu1).
  destruct (@handleAnalyticsResult_run _ _ r E1) as (m' & E & (Hthis & _)).
  exists m'. rewrite Hthis. auto.
Qed.

Lemma initial_unique :
  WellKeyed (incidents (@Orchestration.initial Ext))
  /\ Unique (incidents (@Orchestration.initial Ext)).
Proof. split; [apply WellKeyed_empty|intros id; cbn; lia]. Qed.

(** [updateIncident] keeps the store keyed by id, whatever it is given. *)
Lemma updateIncident_WellKeyed (m : Machine Svc Ext) incident :
  WellKeyed (incidents (this m)) ->
  exists m',
    updateIncident incident m = (Normal tt, m')
    /\ WellKeyed (incidents (this m')).
Proof.
  intros Hkeyed. unfold updateIncident. run_through.
  eexists. split; [reflexivity|]. cbn. now apply WellKeyed_set.
Qed.

(** *** Deliveries of several anomalies *)

(** [incident] with [events] at the end of its timeline and a new
    [updatedAt]. *)
Definition withEvents (incident : Incident) (events : list IncidentEvent)
    (updatedAt : Z) : Incident :=
  mkIncident (inc_id incident) (inc_title incident) (inc_description incident)
    (inc_severity incident) (inc_status incident) (assignedTo incident)
    (affectedAssets incident) (relatedAnomalies incident)
    (timeline incident ++ events) (inc_createdAt incident) updatedAt
    (resolvedAt incident).

Lemma withEvents_nil inc : withEvents inc [] (inc_updatedAt inc) = inc.
Proof. destruct inc. unfold withEvents. cbn. now rewrite app_nil_r. Qed.

Lemma withEvents_withEvents inc events1 t1 events2 t2 :
  withEvents (withEvents inc events1 t1) events2 t2
  = withEvents inc (events1 ++ events2) t2.
Proof. unfold withEvents. cbn. now rewrite <- app_assoc. Qed.

Lemma answered_later (m m' : Machine Svc Ext) x :
  playbooks (this m') = playbooks (this m) -> answered m' x = answered m x.
Proof. intros Hpb. unfold answered. now rewrite Hpb. Qed.

Lemma stored_values (m : JsMap.t Incident) k inc :
  JsMap.get k m = Some inc -> In inc (JsMap.values m).
Proof.
  intros Hget. unfold JsMap.values. apply in_map_iff.
  exists (k, inc). split; [reflexivity|]. now apply JsMap.get_In.
Qed.

Lemma values_stored (m : JsMap.t Incident) inc :
  WellKeyed m -> In inc (JsMap.values m) ->
  JsMap.get (inc_id inc) m = Some inc.
Proof.
  intros [Hwf Hkey] Hin. unfold JsMap.values in Hin. apply in_map_iff in Hin.
  destruct Hin as ([k inc'] & He & Hin). cbn in He. subst inc'.
  rewrite (Hkey _ _ Hin). now apply JsMap.In_get.
Qed.

Lemma referencing_one id (m : JsMap.t Incident) inc :
  Unique m -> In inc (JsMap.values m) -> referencedBy id inc = true ->
  referencing id m = [inc].
Proof.
  intros Hu Hin Hby. specialize (Hu id). unfold referencing in *.
  assert (Hmem : In inc (filter (referencedBy id) (JsMap.values m)))
    by (apply filter_In; auto).
  destruct (filter (referencedBy id) (JsMap.values m)) as [|x [|y l]].
  - destruct Hmem.
  - destruct Hmem as [->|[]]. reflexivity.
  - cbn in Hu. lia.
Qed.

(** Where no anomaly is referenced twice, the incident [find] returns is
    the only one that references the anomaly. *)
Lemma unique_at (m : JsMap.t Incident) id e k inc :
  WellKeyed m -> Unique m ->
  find (referencedBy id) (JsMap.values m) = Some e ->
  JsMap.get k m = Some inc -> referencedBy id inc = true -> k = inc_id e.
Proof.
  intros Hk Hu Hfind Hget Hby.
  pose proof (find_filter_single _ _ Hfind (Hu id)) as Hone.
  assert (Hmem : In inc (filter (referencedBy id) (JsMap.values m))).
  { apply filter_In. split; [|assumption]. eapply stored_values; eassumption. }
  rewrite Hone in Hmem. destruct Hmem as [<-|[]].
  destruct Hk as [_ Hk]. symmetry. apply Hk. now apply JsMap.get_In.
Qed.

(** The first delivery, when no generated id is taken: every stored incident
    is kept, and every answered anomaly is referenced afterwards. *)
Lemma first_delivery_loop (pending : list Anomaly) :
  forall m : Machine Svc Ext,
    WellKeyed (incidents (this m)) -> Unique (incidents (this m)) ->
    FreshIds pending m ->
    exists m1,
      forOf pending respond m = (Normal tt, m1)
      /\ WellKeyed (incidents (this m1)) /\ Unique (incidents (this m1))
      /\ playbooks (this m1) = playbooks (this m)
      /\ (forall k inc,
            JsMap.get k (incidents (this m)) = Some inc ->
            exists inc',
              JsMap.get k (incidents (this m1)) = Some inc' /\ Kept inc inc')
      /\ (forall x,
            In x pending -> answered m x = true ->
            exists inc,
              In inc (JsMap.values (incidents (this m1)))
              /\ referencedBy (an_id x) inc = true).
Proof.
  induction pending as [|a l IH]; intros m Hk Hu Hfresh.
  - exists m. cbn. split; [reflexivity|]. split; [exact Hk|].
    split; [exact Hu|]. split; [reflexivity|]. split.
    + intros k inc Hget. exists inc. split; [assumption|apply Kept_refl].
    + intros x [].
  - cbn [forOf]. unfold bind at 1.
    destruct (@respond_step m a Hk)
      as (m' & i & E & _ & Hk' & Hpb & Hkept & _ & Href).
    rewrite E.
    unfold FreshIds in Hfresh. cbn [creations] in Hfresh.
    apply Forall_app in Hfresh. destruct Hfresh as [Hnow Hrest].
    rewrite E in Hrest. cbn [snd] in Hrest.
    destruct (IH m' Hk' (@respond_unique m a m' Hk Hu E) Hrest)
      as (m1 & E1 & Hk1 & Hu1 & Hpb1 & Hkept1 & Href1).
    exists m1. split; [exact E1|]. split; [exact Hk1|]. split; [exact Hu1|].
    split; [congruence|]. split.
    + intros k inc Hget.
      destruct (Hkept k inc Hget) as (inc' & Hget' & [HK|[_ Hgen]]).
      * destruct (Hkept1 k inc' Hget') as (inc'' & Hget'' & HK').
        exists inc''. split; [assumption|]. eapply Kept_trans; eassumption.
      * exfalso. rewrite Forall_forall in Hnow.
        specialize (Hnow (k, incidents (this m))). cbn [fst snd] in Hnow.
        rewrite Hnow in Hget; [discriminate|].
        apply in_map_iff. exists k. auto.
    + intros x [<-|Hin] Hans.
      * destruct (Href Hans) as (inc & Hin & Hby).
        apply (@values_stored _ _ Hk') in Hin.
        destruct (Hkept1 _ _ Hin) as (inc' & Hget' & (_ & Hrel & _)).
        exists inc'. split; [eapply stored_values; eassumption|].
        unfold referencedBy in *. now rewrite Hrel.
      * apply Href1; [assumption|]. now rewrite (@answered_later m m' _ Hpb).
Qed.

(** The response to an anomaly that an incident references already: the
    keys stay, and the one incident that references it gets one [action]
    event. *)
Lemma respond_again (m : Machine Svc Ext) a :
  WellKeyed (incidents (this m)) -> Unique (incidents (this m)) ->
  (answered m a = true ->
   exists inc,
     In inc (JsMap.values (incidents (this m)))
     /\ referencedBy (an_id a) inc = true) ->
  exists m',
    respond a m = (Normal tt, m')
    /\ playbooks (this m') = playbooks (this m)
    /\ JsMap.keys (incidents (this m')) = JsMap.keys (incidents (this m))
    /\ forall k inc,
         JsMap.get k (incidents (this m)) = Some inc ->
         exists events updatedAt,
           JsMap.get k (incidents (this m'))
           = Some (withEvents inc events updatedAt)
           /\ (events = [] -> updatedAt = inc_updatedAt inc)
           /\ Forall (fun e => ev_type e = action
                               /\ ev_incidentId e = inc_id inc) events
           /\ List.length events
              = if answered m a && referencedBy (an_id a) inc
                then 1%nat else 0%nat.
Proof.
  intros Hk Hu Hex.
  assert (Hsame : forall m0 : Machine Svc Ext,
             this m0 = this m ->
             answered m a = false ->
             forall k inc,
               JsMap.get k (incidents (this m)) = Some inc ->
               exists events updatedAt,
                 JsMap.get k (incidents (this m0))
                 = Some (withEvents inc events updatedAt)
                 /\ (events = [] -> updatedAt = inc_updatedAt inc)
                 /\ Forall (fun e => ev_type e = action
                                     /\ ev_incidentId e = inc_id inc) events
                 /\ List.length events
                    = if answered m a && referencedBy (an_id a) inc
                      then 1%nat else 0%nat).
  { intros m0 -> -> k inc Hget. exists [], (inc_updatedAt inc).
    rewrite withEvents_nil. auto. }
  unfold respond. unfold answered in Hex.
  destruct (requiresResponse a) eqn:Hreq.
  - destruct (find (matchesAnomaly a) (JsMap.values (playbooks (this m))))
      as [p|] eqn:Hp.
    + destruct (Hex eq_refl) as (old & Hin & Hby).
      destruct (respondToAnomaly_run m a Hp)
        as (m' & i & E & _ & Hpb & _ & _ & Hinc).
      exists m'. split; [exact E|]. split; [exact Hpb|].
      destruct Hinc as [(e & event & j & j' & Hfind & Hset & Ty & Tid & _)
                       |(inc & d & ac & j1 & j2 & Hfind & _)].
      2:{ exfalso. pose proof (find_none _ _ Hfind _ Hin). congruence. }
      pose proof (WellKeyed_find _ Hk Hfind) as Hget. rewrite Hset. split.
      { rewrite JsMap.keys_set. unfold JsMap.has. now rewrite Hget. }
      assert (Hans : answered m a = true)
        by (unfold answered; now rewrite Hreq, Hp).
      rewrite Hans. cbn [andb].
      intros k inc Hgetk. destruct (string_dec (inc_id e) k) as [<-|Hne].
      * rewrite JsMap.get_set_eq. rewrite Hget in Hgetk. injection Hgetk as <-.
        exists [event], (clock m j). split; [reflexivity|].
        split; [discriminate|]. split; [repeat constructor; assumption|].
        apply find_some in Hfind. destruct Hfind as [_ ->]. reflexivity.
      * rewrite JsMap.get_set_ne by assumption.
        exists [], (inc_updatedAt inc). rewrite withEvents_nil.
        split; [assumption|]. split; [reflexivity|]. split; [constructor|].
        destruct (referencedBy (an_id a) inc) eqn:Hby'; [|reflexivity].
        exfalso. apply Hne. symmetry. eapply unique_at; eassumption.
    + rewrite (respondToAnomaly_unmatched _ _ Hp). exists m.
      split; [reflexivity|]. split; [reflexivity|]. split; [reflexivity|].
      apply Hsame; [reflexivity|]. unfold answered. now rewrite Hreq, Hp.
  - exists m. split; [reflexivity|]. split; [reflexivity|].
    split; [reflexivity|].
    apply Hsame; [reflexivity|]. unfold answered. now rewrite Hreq.
Qed.

(** The loop over the anomalies, when every answered one is referenced
    already: no incident is created, and every stored incident gets one
    [action] event per answered anomaly of the list that it references. *)
Lemma redelivery_loop (pending : list Anomaly) :
  forall m : Machine Svc Ext,
    WellKeyed (incidents (this m)) -> Unique (incidents (this m)) ->
    (forall x,
        In x pending -> answered m x = true ->
        exists inc,
          In inc (JsMap.values (incidents (this m)))
          /\ referencedBy (an_id x) inc = true) ->
    exists m2,
      forOf pending respond m = (Normal tt, m2)
      /\ JsMap.keys (incidents (this m2)) = JsMap.keys (incidents (this m))
      /\ Unique (incidents (this m2))
      /\ forall k inc,
           JsMap.get k (incidents (this m)) = Some inc ->
           exists events updatedAt,
             JsMap.get k (incidents (this m2))
             = Some (withEvents inc events updatedAt)
             /\ (events = [] -> updatedAt = inc_updatedAt inc)
             /\ Forall (fun e => ev_type e = action
                                 /\ ev_incidentId e = inc_id inc) events
             /\ List.length events
                = List.length
                    (filter (fun x => answered m x
                                      && referencedBy (an_id x) inc)
                       pending).
Proof.
  induction pending as [|a l IH]; intros m Hk Hu Hex.
  - exists m. cbn [forOf]. split; [reflexivity|]. split; [reflexivity|].
    split; [exact Hu|].
    intros k inc Hget. exists [], (inc_updatedAt inc).
    rewrite withEvents_nil. auto.
  - cbn [forOf]. unfold bind at 1.
    destruct (@respond_again m a Hk Hu (Hex a (or_introl eq_refl)))
      as (m' & E & Hpb & Hkeys & Hev).
    destruct (@respond_step m a Hk) as (m0 & i & E0 & _ & Hk' & _).
    rewrite E in E0. injection E0 as <-.
    pose proof (@respond_unique m a m' Hk Hu E) as Hu'.
    rewrite E.
    assert (Hex' : forall x,
               In x l -> answered m' x = true ->
               exists inc,
                 In inc (JsMap.values (incidents (this m')))
                 /\ referencedBy (an_id x) inc = true).
    { intros x Hin Hans. rewrite (@answered_later m m' _ Hpb) in Hans.
      destruct (Hex x (or_intror Hin) Hans) as (inc & Hin' & Hby).
      apply (@values_stored _ _ Hk) in Hin'.
      destruct (Hev _ _ Hin') as (events & t & Hget' & _).
      exists (withEvents inc events t).
      split; [eapply stored_values; eassumption|exact Hby]. }
    destruct (IH m' Hk' Hu' Hex') as (m2 & E2 & Hkeys2 & Hu2 & Hev2).
    exists m2. split; [exact E2|]. split; [congruence|]. split; [exact Hu2|].
    intros k inc Hget.
    destruct (Hev k inc Hget) as (ev1 & t1 & Hget1 & Ht1 & Hall1 & Hlen1).
    destruct (Hev2 k _ Hget1) as (ev2 & t2 & Hget2 & Ht2 & Hall2 & Hlen2).
    exists (ev1 ++ ev2), t2. rewrite <- (@withEvents_withEvents inc ev1 t1 ev2 t2).
    split; [exact Hget2|]. split; [|split].
    + intros Hnil. apply app_eq_nil in Hnil. destruct Hnil as [-> ->].
      rewrite (Ht2 eq_refl). cbn. now apply Ht1.
    + apply Forall_app. split; assumption.
    + rewrite length_app, Hlen1, Hlen2. cbn [filter].
      rewrite (@filter_ext _
                 (fun x => answered m' x
                           && referencedBy (an_id x) (withEvents inc ev1 t1))
                 (fun x => answered m x && referencedBy (an_id x) inc));
        [|intros x; now rewrite (@answered_later m m' x Hpb)].
      now destruct (answered m a && referencedBy (an_id a) inc).
Qed.

(** C1, as the code has it.  A delivery of any number of anomalies into a
    store whose incidents are kept under their own ids, where no anomaly is
    referenced by two incidents and no incident id generated during the
    delivery is the id of an incident stored at that moment.  The delivery
    and its repetition end normally, and
    - after the delivery, every anomaly of it that is critical or high and
      matches a registered anomaly playbook is referenced by exactly one
      stored incident;
    - the repetition creates no incident: the keys of the incident map stay
      as they are, and every stored incident is the same with one [action]
      event of its own appended for each answered anomaly of the delivery
      that it references (and a new [updatedAt] if there is one), so that
      the one incident of an answered anomaly gets at least one, and
      exactly one when it references no other answered anomaly of the
      delivery and the delivery holds the anomaly once. *)
Theorem anomaly_incident_idempotent (m : Machine Svc Ext)
    (r : AnalyticsResult) :
  WellKeyed (incidents (this m)) ->
  Unique (incidents (this m)) ->
  FreshIds (ar_anomalies r) m ->
  exists m1 m2,
    handleAnalyticsResult r m = (Normal tt, m1)
    /\ handleAnalyticsResult r m1 = (Normal tt, m2)
    /\ JsMap.keys (incidents (this m2)) = JsMap.keys (incidents (this m1))
    /\ (forall anomaly,
          In anomaly (ar_anomalies r) -> answered m anomaly = true ->
          exists incident events updatedAt,
            referencing (an_id anomaly) (incidents (this m1)) = [incident]
            /\ referencing (an_id anomaly) (incidents (this m2))
               = [withEvents incident events updatedAt]
            /\ events <> [])
    /\ (forall k inc,
          JsMap.get k (incidents (this m1)) = Some inc ->
          exists events updatedAt,
            JsMap.get k (incidents (this m2))
            = Some (withEvents inc events updatedAt)
            /\ (events = [] -> updatedAt = inc_updatedAt inc)
            /\ Forall (fun e => ev_type e = action
                                /\ ev_incidentId e = inc_id inc) events
            /\ List.length events
               = List.length
                   (filter (fun x => answered m x
                                     && referencedBy (an_id x) inc)
                      (ar_anomalies r))).
Proof.
  intros Hk Hu Hfresh.
  destruct (@first_delivery_loop (ar_anomalies r) m Hk Hu Hfresh)
    as (ma & Ea & Hka & Hua & Hpba & _ & Hrefa).
  destruct (@handleAnalyticsResult_run _ _ r Ea) as (m1 & E1 & (L1 & _)).
  rewrite <- L1 in Hka, Hua, Hpba, Hrefa.
  assert (Hex : forall x,
             In x (ar_anomalies r) -> answered m1 x = true ->
             exists inc,
               In inc (JsMap.values (incidents (this m1)))
               /\ referencedBy (an_id x) inc = true).
  { intros x Hin Hans. apply Hrefa; [assumption|].
    now rewrite <- (@answered_later m m1 _ Hpba). }
  destruct (@redelivery_loop (ar_anomalies r) m1 Hka Hua Hex)
    as (mb & Eb & Hkeys & Hub & Hev).
  destruct (@handleAnalyticsResult_run _ _ r Eb) as (m2 & E2 & (L2 & _)).
  assert (Hev' : forall k inc,
             JsMap.get k (incidents (this m1)) = Some inc ->
             exists events updatedAt,
               JsMap.get k (incidents (this mb))
               = Some (withEvents inc events updatedAt)
               /\ (events = [] -> updatedAt = inc_updatedAt inc)
               /\ Forall (fun e => ev_type e = action
                                   /\ ev_incidentId e = inc_id inc) events
               /\ List.length events
                  = List.length
                      (filter (fun x => answered m x
                                        && referencedBy (an_id x) inc)
                         (ar_anomalies r))).
  { intros k inc Hget.
    destruct (Hev k inc Hget) as (events & t & Hget' & Ht & Hall & Hlen).
    exists events, t. repeat (split; [assumption|]). rewrite Hlen.
    f_equal. apply filter_ext. intros x.
    now rewrite (@answered_later m m1 _ Hpba). }
  exists m1, m2. rewrite L2.
  split; [exact E1|]. split; [exact E2|]. split; [exact Hkeys|].
  split; [|exact Hev'].
  intros x Hin Hans.
  destruct (Hrefa x Hin Hans) as (inc & Hin' & Hby).
  pose proof (@values_stored _ _ Hka Hin') as Hget.
  destruct (Hev' _ _ Hget) as (events & t & Hget' & _ & _ & Hlen).
  exists inc, events, t.
  split; [now apply referencing_one|].
  split; [apply referencing_one;
          [assumption|eapply stored_values; eassumption|exact Hby]|].
  intros ->. cbn [List.length] in Hlen.
  assert (Hmem : In x (filter (fun x0 => answered m x0
                                         && referencedBy (an_id x0) inc)
                         (ar_anomalies r))).
  { apply filter_In. split; [assumption|]. now rewrite Hans, Hby. }
  destruct (filter _ (ar_anomalies r)); [destruct Hmem|discriminate].
Qed.

End Facts.
End OrchestrationFacts.

(* ================================================================= *)
(** * Concrete runs *)

Module Examples.
Import Processing Analytics Orchestration.

(** A runtime for the examples: any rendering will do. *)
#[local] Instance runtime : JsRuntime :=
  {| ToString := fun _ => "[object Object]";
     toString36 := fun r =>
       "0." +++ showZ (Qnum r) +++ "x" +++ showZ (Z.pos (Qden r)) |}.

(** A clock that advances by one millisecond per reading, and one that
    stands still within the millisecond. *)
Definition ticking : nat -> Z := fun n => 1700000000000 + Z.of_nat n.
Definition standing : nat -> Z := fun _ => 1700000000000.

Definition hostWith {S} (s : S) (clock : nat -> Z) (entropy : nat -> Q)
  : Machine S unit :=
  mkMachine s clock entropy [] 0%nat tt [].

(** *** Orchestration *)

(** The service after the module's registrations; every draw is 0.5, so
    every simulated step succeeds. *)
Definition orchestration : Machine (OrchestrationService unit) unit :=
  snd (registerSamples
         (hostWith (@Orchestration.initial unit) ticking (fun _ => 1 # 2))).

Definition intrusion : Anomaly :=
  mkAnomaly "anomaly-1" None (JsString "siem-1") (Some "network")
    "Unusual activity detected in SIEM" (Some "critical") 90 ["event-1"]
    "new" 1700000000000 1700000000000.

Definition delivery : AnalyticsResult :=
  mkAnalyticsResult IT "SIEM" 1700000000000 [] [intrusion] [].

Definition operatorIncident (id : string) : Incident :=
  mkIncident id "Manual incident" "Entered by an operator" (Some "high")
    assigned (Some "analyst") [] ["anomaly-1"] [] 0 0 None.

(** The operator stores two incidents for the same anomaly. *)
Definition duplicated : Machine (OrchestrationService unit) unit :=
  snd (updateIncident (operatorIncident "inc-2")
         (snd (updateIncident (operatorIncident "inc-1") orchestration))).

(** C1 fails as stated: after [updateIncident] has stored two incidents
    that reference the anomaly, handling the anomaly leaves two stored
    incidents that reference it. *)
Lemma two_incidents_for_one_anomaly :
  fst (updateIncident (operatorIncident "inc-1") orchestration) = Normal tt
  /\ fst (updateIncident (operatorIncident "inc-2")
            (snd (updateIncident (operatorIncident "inc-1") orchestration)))
     = Normal tt
  /\ requiresResponse intrusion = true
  /\ option_map pb_name
       (find (matchesAnomaly intrusion)
          (JsMap.values (playbooks (this duplicated))))
     = Some "Ransomware Response"
  /\ fst (handleAnalyticsResult delivery duplicated) = Normal tt
  /\ map inc_id
       (OrchestrationFacts.referencing "anomaly-1"
          (incidents (this (snd (handleAnalyticsResult delivery duplicated)))))
     = ["inc-1"; "inc-2"].
Proof. vm_compute. repeat split; reflexivity. Qed.

(** A second anomaly of the same kind, and one that needs no response. *)
Definition lateral : Anomaly :=
  mkAnomaly "anomaly-2" None (JsString "siem-1") (Some "network")
    "Lateral movement detected in SIEM" (Some "critical") 80 ["event-2"]
    "new" 1700000000000 1700000000000.

Definition noise : Anomaly :=
  mkAnomaly "anomaly-3" None (JsString "siem-1") (Some "network")
    "Port scan" (Some "low") 10 ["event-3"] "new" 1700000000000 1700000000000.

Definition mixedDelivery : AnalyticsResult :=
  mkAnalyticsResult IT "SIEM" 1700000000000 [] [intrusion; noise; lateral] [].

(** The service when the clock stands still and every draw is the same:
    every generated id is the same. *)
Definition stalled : Machine (OrchestrationService unit) unit :=
  snd (registerSamples
         (hostWith (@Orchestration.initial unit) standing (fun _ => 1 # 2))).

(** The premise of C1 on generated ids is needed: when the two incidents of
    one delivery get the same id, the second replaces the first, and no
    incident references the first anomaly. *)
Lemma colliding_ids_replace_incident :
  fst (handleAnalyticsResult mixedDelivery stalled) = Normal tt
  /\ map (fun c => fst c)
       (OrchestrationFacts.creations (ar_anomalies mixedDelivery) stalled)
     = ["incident-1700000000000-1x2"; "incident-1700000000000-1x2"]
  /\ map relatedAnomalies
       (JsMap.values
          (incidents (this (snd (handleAnalyticsResult mixedDelivery stalled)))))
     = [["anomaly-2"]]
  /\ OrchestrationFacts.referencing "anomaly-1"
       (incidents (this (snd (handleAnalyticsResult mixedDelivery stalled))))
     = [].
Proof. vm_compute. repeat split; reflexivity. Qed.

Lemma anomaly_incident_idempotent_witness :
  exists m1 m2 first second,
    handleAnalyticsResult mixedDelivery orchestration = (Normal tt, m1)
    /\ handleAnalyticsResult mixedDelivery m1 = (Normal tt, m2)
    /\ JsMap.keys (incidents (this m2)) = JsMap.keys (incidents (this m1))
    /\ OrchestrationFacts.referencing (an_id intrusion) (incidents (this m1))
       = [first]
    /\ OrchestrationFacts.referencing (an_id lateral) (incidents (this m1))
       = [second]
    /\ (exists events updatedAt,
          OrchestrationFacts.referencing (an_id intrusion)
            (incidents (this m2))
          = [OrchestrationFacts.withEvents first events updatedAt]
          /\ events <> [])
    /\ (exists events updatedAt,
          OrchestrationFacts.referencing (an_id lateral)
            (incidents (this m2))
          = [OrchestrationFacts.withEvents second events updatedAt]
          /\ events <> []).
Proof.
  assert (Hfresh : OrchestrationFacts.FreshIds (ar_anomalies mixedDelivery)
                     orchestration)
    by (vm_compute; repeat constructor).
  assert (Hunique : OrchestrationFacts.Unique
                      (incidents (this orchestration)))
    by (intros id; cbn; lia).
  destruct (@OrchestrationFacts.anomaly_incident_idempotent unit runtime
              orchestration mixedDelivery OrchestrationFacts.WellKeyed_empty
              Hunique Hfresh)
    as (m1 & m2 & E1 & E2 & Hkeys & Hone & _).
  destruct (Hone intrusion (or_introl eq_refl) eq_refl)
    as (first & ev1 & t1 & R1 & R1' & N1).
  destruct (Hone lateral (or_intror (or_intror (or_introl eq_refl))) eq_refl)
    as (second & ev2 & t2 & R2 & R2' & N2).
  exists m1, m2, first, second.
  split; [exact E1|]. split; [exact E2|]. split; [exact Hkeys|].
  split; [exact R1|]. split; [exact R2|].
  split; [exists ev1, t1|exists ev2, t2]; split; assumption.
Defined.

(** The incident the first delivery created, and what an operator may hand
    to [updateIncident] and [addIncidentEvent] afterwards. *)
Definition afterDelivery : Machine (OrchestrationService unit) unit :=
  snd (handleAnalyticsResult delivery orchestration).

Definition created : Incident :=
  hd (operatorIncident "none") (JsMap.values (incidents (this afterDelivery))).





(** A host on which the first simulated step fails. *)
Definition unlucky : Machine (OrchestrationService unit) unit :=
  hostWith (@Orchestration.initial unit) ticking (fun _ => 1 # 64).

Lemma executePlaybook_attempts_in_order_witness :
  exists result results m1,
    executePlaybook (ransomwareResponse 0 0) (AnomalyContext intrusion) unlucky
    = (Normal result, snd (Date_now m1))
    /\ PlaybookFacts.Ran simulateActionExecution (AnomalyContext intrusion)
         (steps (ransomwareResponse 0 0)) (snd (Date_now unlucky)) results m1
    /\ or_actions result = PlaybookActions results
    /\ or_success result = forallb act_success results.
Proof.
  destruct (@PlaybookFacts.executePlaybook_attempts_in_order unit
              simulateActionExecution (ransomwareResponse 0 0)
              (AnomalyContext intrusion) unlucky)
    as (result & results & m1 & E & Hran & Hact & _ & _ & Hok & _).
  exists result, results, m1. auto.
Defined.

(** *** Processing *)

(** Two enrichers somebody registers: one returns a new array with the
    first record only, [data => data.slice(0, 1)]; the other returns a copy
    and empties the array it is handed,
    [data => { const out = data.slice(); data.length = 0; return out; }]. *)
Definition sampler : DataEnricher unit :=
  mkEnricher (fun _ _ => true)
    (fun data => ret (OtherArray (firstn 1 data) data)).

Definition drainer : DataEnricher unit :=
  mkEnricher (fun _ _ => true) (fun data => ret (OtherArray data [])).

Definition processing : Machine (DataProcessingService unit) unit :=
  snd (registerEnricher "sampler" sampler
         (hostWith (@Processing.configured unit runtime) ticking
            (fun _ => 1 # 2))).

Definition draining : Machine (DataProcessingService unit) unit :=
  snd (registerEnricher "drainer" drainer
         (hostWith (@Processing.initial unit) ticking (fun _ => 1 # 2))).

Definition packet (n : Z) : JsFields :=
  [("sourceId", JsString "ids-1"); ("sourceIP", JsString ("192.168.0." +++ showZ n))].

(** C3 fails as stated: with a registered enricher that returns fewer
    records, the emitted batch has [normalizedCount] 2 and [enrichedCount]
    1; with one that empties the array it is handed, [normalizedCount] 0
    and [enrichedCount] 2. *)
Lemma registered_enricher_drops_records :
  fst (registerEnricher "sampler" sampler
         (hostWith (@Processing.configured unit runtime) ticking
            (fun _ => 1 # 2))) = Normal tt
  /\ match fst (processData IT "IDS/IPS" [packet 1; packet 2] processing) with
     | Normal processed =>
         (originalCount processed, normalizedCount processed,
          enrichedCount processed) = (2, 2, 1)
     | Throws _ => False
     end
  /\ fst (registerEnricher "drainer" drainer
            (hostWith (@Processing.initial unit) ticking (fun _ => 1 # 2)))
     = Normal tt
  /\ match fst (processData IT "IDS/IPS" [packet 1; packet 2] draining) with
     | Normal processed =>
         (originalCount processed, normalizedCount processed,
          enrichedCount processed) = (2, 0, 2)
     | Throws _ => False
     end.
Proof. vm_compute. repeat split; reflexivity. Qed.

(** *** Analytics *)

(** Draws that give the factors 20, 14, 43 and 31. *)
Definition draws : nat -> Q :=
  fun n =>
    nth n [0 # 1; Float64.toQ Float64.lit_0_1; Float64.toQ Float64.lit_0_1;
           Float64.toQ Float64.lit_0_05] (0 # 1).

Definition observed : NormalizedData :=
  mkNormalizedData "it-event-1" (JsDate 1700000000000)
    (mkSourceRef (JsString "siem-1") (JsString "SIEM") (JsString "unknown"))
    [("environment", JsString "IT")] true None None.

(** C4 fails as stated: for the factors 20, 14, 43 and 31 the exact sum
    0.3*20 + 0.3*14 + 0.2*43 + 0.2*31 is 25, and the default engine and the
    IT engine (factors 20, 34, 43, 31, exact sum 31) return 24 and 30. *)
Lemma score_below_exact_floor :
  match fst (engine_calculateRiskScores (@defaultRiskScoreEngine unit runtime)
               [observed] (hostWith tt standing draws)) with
  | Normal [score] =>
      (factors score, overallScore score,
       AnalyticsFacts.exactScore 3 3 2 2 (factors score))
      = (mkFactors 20 14 43 31, 24, 25)
  | _ => False
  end
  /\ match fst (engine_calculateRiskScores (@itRiskScoreEngine unit)
                  [] (hostWith tt standing draws)) with
     | Normal [score] =>
         (factors score, overallScore score,
          AnalyticsFacts.exactScore 3 3 2 2 (factors score))
         = (mkFactors 20 34 43 31, 30, 31)
     | _ => False
     end.
Proof. vm_compute. split; reflexivity. Qed.

Lemma overall_score_bounds_witness :
  exists scores h',
    engine_calculateRiskScores (@itRiskScoreEngine unit) [observed]
      (hostWith tt standing draws) = (Normal scores, h')
    /\ Forall (AnalyticsFacts.ScoreOK 3 3 2 2 Float64.lit_0_3 Float64.lit_0_3
                 Float64.lit_0_2 Float64.lit_0_2) scores.
Proof.
  refine (proj1 (proj2 (proj2 (proj2
            (@AnalyticsFacts.overall_score_bounds unit runtime
               (hostWith tt standing draws) [observed] _))))).
  intros n. unfold hostWith, draws. cbn [entropy].
  apply Float64Facts.isUnit_unit.
  do 4 (destruct n as [|n]; [vm_compute; reflexivity|]).
  destruct n; vm_compute; reflexivity.
Defined.

(** The analytics service within one millisecond: two batches of the same
    environment, with different draws. *)
Definition analytics : Machine (AnalyticsService unit) unit :=
  hostWith (@Analytics.configured unit) standing
    (fun n => if (n <? 5)%nat then 0 # 1 else 1 # 2).

Definition firstBatch : Completion (list RiskScore)
                        * Machine (AnalyticsService unit) unit :=
  calculateRiskScores IT "SIEM" [observed] analytics.

Notation secondBatch :=
  (calculateRiskScores IT "SIEM" [observed] (snd firstBatch)).

(** C5 fails as stated: the second invocation within the same millisecond
    produces the id of the first one, and the cached entry is replaced. *)
Lemma cached_score_overwritten :
  option_map overallScore
    (JsMap.get "risk-IT-1700000000000" (riskScores (this (snd firstBatch))))
  = Some 29
  /\ option_map (fun l => map rs_id l)
       (match fst secondBatch with Normal l => Some l | Throws _ => None end)
     = Some ["risk-IT-1700000000000"]
  /\ option_map overallScore
       (JsMap.get "risk-IT-1700000000000"
          (riskScores (this (snd secondBatch))))
     = Some 47.
Proof. vm_compute. repeat split; reflexivity. Qed.

Definition scoresOf (c : Completion (list RiskScore)) : list RiskScore :=
  match c with Normal l => l | Throws _ => [] end.

Lemma scoresOf_eta {S} (x : Completion (list RiskScore) * Machine S unit) :
  (exists l, fst x = Normal l) -> x = (Normal (scoresOf (fst x)), snd x).
Proof.
  destruct x as [[l|e] m]; cbn; intros [l' E]; [reflexivity|discriminate].
Qed.

Lemma risk_cache_update_witness :
  (forall id,
      JsMap.has id (riskScores (this (snd firstBatch))) = true ->
      JsMap.has id (riskScores (this (snd secondBatch))) = true)
  /\ (forall id,
        ~ In id (map rs_id (scoresOf (fst secondBatch))) ->
        JsMap.get id (riskScores (this (snd secondBatch)))
        = JsMap.get id (riskScores (this (snd firstBatch))))
  /\ (forall score,
        In score (scoresOf (fst secondBatch)) ->
        exists stored,
          JsMap.get (rs_id score) (riskScores (this (snd secondBatch)))
          = Some stored
          /\ In stored (scoresOf (fst secondBatch))
          /\ rs_id stored = rs_id score).
Proof.
  refine (@AnalyticsFacts.risk_cache_update unit runtime (snd firstBatch)
            IT "SIEM" [observed] (scoresOf (fst secondBatch))
            (snd secondBatch) _).
  apply (scoresOf_eta secondBatch). vm_compute. eexists. reflexivity.
Defined.

End Examples.

(* ================================================================= *)
(** * The rest of the services *)

(** ** Ingestion: registration and the collection timers *)

Module SchedulingFacts.
Import Ingestion.

Section Facts.
Context {Ext : Type}.
Notation Svc := (DataIngestionService Ext).

(** What [startCollection] leaves behind for a registered source: the old
    timer of the source is cleared, a new one is scheduled under the next
    handle and recorded. *)
Definition afterStart (id : string) (ds : DataSource) (m : Machine Svc Ext)
  : Machine Svc Ext :=
  let m1 := IngestionFacts.afterStop id m in
  mkMachine
    (with_collectionIntervals (this m1)
       (JsMap.set id (nextTimer m1) (collectionIntervals (this m1))))
    (clock m1) (entropy m1)
    (timers m1 ++ [(nextTimer m1, mkInterval id (delayOf ds))])
    (Datatypes.S (nextTimer m1)) (subscribers m1) (console m1).

Lemma startCollection_run (m : Machine Svc Ext) id ds :
  JsMap.get id (dataSources (this m)) = Some ds ->
  startCollection id m = (Normal tt, afterStart id ds m).
Proof.
  intros Hds. unfold startCollection. unfold bind at 1. unfold getThis at 1.
  rewrite Hds. unfold bind at 1. rewrite IngestionFacts.stopIfRunning_run.
  reflexivity.
Qed.

(** The first two statements of [registerDataSource]. *)
Definition stored (d : DataSource) (m : Machine Svc Ext) : Machine Svc Ext :=
  mkMachine
    (with_dataBuffer
       (with_dataSources (this m)
          (JsMap.set (ds_id d) d (dataSources (this m))))
       (JsMap.set (ds_id d) [] (dataBuffer (this m))))
    (clock m) (entropy m) (timers m) (nextTimer m) (subscribers m)
    (console m).

Lemma registerDataSource_run (m : Machine Svc Ext) d :
  registerDataSource d m =
  (Normal tt,
   if isActive d && hasPollingInterval d
   then afterStart (ds_id d) d (stored d m)
   else stored d m).
Proof.
  unfold registerDataSource. unfold bind at 1. unfold getThis at 1.
  unfold bind at 1. unfold putThis at 1.
  destruct (isActive d && hasPollingInterval d); [|reflexivity].
  apply startCollection_run. cbn. apply JsMap.get_set_eq.
Qed.

(** [updateDataSource] up to the restart. *)
Definition replaced (d : DataSource) (m : Machine Svc Ext) : Machine Svc Ext :=
  let m1 := IngestionFacts.afterStop (ds_id d) m in
  mkMachine
    (with_dataSources (this m1) (JsMap.set (ds_id d) d (dataSources (this m1))))
    (clock m1) (entropy m1) (timers m1) (nextTimer m1) (subscribers m1)
    (console m1).

Lemma updateDataSource_run (m : Machine Svc Ext) d old :
  JsMap.get (ds_id d) (dataSources (this m)) = Some old ->
  updateDataSource d m =
  (Normal tt,
   if isActive d && hasPollingInterval d
   then afterStart (ds_id d) d (replaced d m)
   else replaced d m).
Proof.
  intros Hold. unfold updateDataSource. unfold bind at 1. unfold getThis at 1.
  rewrite Hold. unfold bind at 1. rewrite IngestionFacts.stopIfRunning_run.
  unfold bind at 1. unfold getThis at 1. unfold bind at 1. unfold putThis at 1.
  fold (replaced d m).
  destruct (isActive d && hasPollingInterval d); [|reflexivity].
  apply startCollection_run. cbn. apply JsMap.get_set_eq.
Qed.

(** *** Every timer is recorded, every record is live *)

(** The timers of the host and the interval table of the service agree:
    a timer is recorded under the source it collects from, a recorded handle
    is a timer of the host, it belongs to a registered source, and no handle
    is used twice. *)
Definition Tracked (m : Machine Svc Ext) : Prop :=
  (forall h task,
      In (h, task) (timers m) ->
      JsMap.get (iv_dataSourceId task) (collectionIntervals (this m)) = Some h
      /\ (h < nextTimer m)%nat)
  /\ (forall id h,
        JsMap.get id (collectionIntervals (this m)) = Some h ->
        (exists delay, In (h, mkInterval id delay) (timers m))
        /\ JsMap.get id (dataSources (this m)) <> None)
  /\ NoDup (map fst (timers m)).

(** The timers that collect from [id]. *)
Definition timersOf (id : string) (m : Machine Svc Ext)
  : list (nat * Interval) :=
  filter (fun t => String.eqb (iv_dataSourceId (snd t)) id) (timers m).

Lemma NoDup_fst_filter {A B} (f : A * B -> bool) (l : list (A * B)) :
  NoDup (map fst l) -> NoDup (map fst (filter f l)).
Proof.
  induction l as [|x r IH]; cbn; [auto|].
  intros Hnd. inversion Hnd as [|? ? Hnotin Hnd']; subst.
  destruct (f x); cbn; [|now apply IH].
  constructor; [|now apply IH].
  intros Hin. apply Hnotin. apply in_map_iff in Hin.
  destruct Hin as (y & Hy & Hin). apply filter_In in Hin.
  rewrite <- Hy. apply in_map. tauto.
Qed.

Lemma NoDup_fst_same {A B} (l : list (A * B)) k a b :
  NoDup (map fst l) -> In (k, a) l -> In (k, b) l -> a = b.
Proof.
  induction l as [|[k' c] r IH]; cbn; [tauto|].
  intros Hnd Ha Hb. inversion Hnd as [|? ? Hnotin Hnd']; subst.
  destruct Ha as [Ha|Ha], Hb as [Hb|Hb].
  - congruence.
  - injection Ha as -> ->. exfalso. apply Hnotin.
    change k with (fst (k, b)). now apply in_map.
  - injection Hb as -> ->. exfalso. apply Hnotin.
    change k with (fst (k, a)). now apply in_map.
  - now apply IH.
Qed.

Lemma NoDup_snoc_fresh (l : list nat) (n : nat) :
  NoDup l -> (forall h, In h l -> (h < n)%nat) -> NoDup (l ++ [n]).
Proof.
  induction l as [|x r IH]; cbn; intros Hnd Hlt.
  - constructor; [tauto|constructor].
  - inversion Hnd as [|? ? Hnotin Hnd']; subst.
    constructor.
    + rewrite in_app_iff. cbn. intros [Hin|[Heq|[]]]; [tauto|].
      specialize (Hlt x (or_introl eq_refl)). lia.
    + apply IH; auto.
Qed.

Lemma afterStop_idle (m : Machine Svc Ext) id :
  JsMap.get id (collectionIntervals (this (IngestionFacts.afterStop id m)))
  = None.
Proof.
  unfold IngestionFacts.afterStop.
  destruct (JsMap.get id (collectionIntervals (this m))) eqn:E; [|assumption].
  cbn. apply JsMap.get_delete_eq.
Qed.

Lemma afterStop_Tracked (m : Machine Svc Ext) id :
  Tracked m -> Tracked (IngestionFacts.afterStop id m).
Proof.
  intros (Hlive & Hrec & Hnd). unfold IngestionFacts.afterStop.
  destruct (JsMap.get id (collectionIntervals (this m))) as [h0|] eqn:E;
    [|exact (conj Hlive (conj Hrec Hnd))].
  assert (Hother : forall id' h, JsMap.get id' (collectionIntervals (this m))
                                 = Some h -> id' <> id -> h <> h0).
  { intros id' h Hget Hne ->.
    destruct (Hrec id' h0 Hget) as ((d1 & H1) & _).
    destruct (Hrec id h0 E) as ((d2 & H2) & _).
    pose proof (@NoDup_fst_same _ _ _ _ _ _ Hnd H1 H2) as Heq.
    injection Heq as ->. congruence. }
  split; [|split]; cbn.
  - intros h task Hin. apply filter_In in Hin. destruct Hin as [Hin Hne].
    cbn in Hne. destruct (Hlive h task Hin) as [Hget Hlt].
    split; [|assumption].
    rewrite JsMap.get_delete_ne; [assumption|].
    intros Heq. rewrite <- Heq, E in Hget. injection Hget as <-.
    now rewrite Nat.eqb_refl in Hne.
  - intros id' h Hget.
    destruct (String.eqb id id') eqn:Eid.
    { apply String.eqb_eq in Eid. subst id'.
      now rewrite JsMap.get_delete_eq in Hget. }
    apply String.eqb_neq in Eid.
    rewrite JsMap.get_delete_ne in Hget by assumption.
    destruct (Hrec id' h Hget) as ((delay & Hin) & Hsrc).
    split; [|assumption].
    exists delay. apply filter_In. split; [assumption|]. cbn.
    apply Bool.negb_true_iff. apply Nat.eqb_neq.
    intros ->. eapply Hother; eauto.
  - now apply NoDup_fst_filter.
Qed.

Lemma afterStart_Tracked (m : Machine Svc Ext) id ds :
  JsMap.get id (dataSources (this m)) = Some ds ->
  Tracked m -> Tracked (afterStart id ds m).
Proof.
  intros Hds Hm. pose proof (afterStop_Tracked id Hm) as (Hlive & Hrec & Hnd).
  pose proof (afterStop_idle m id) as Hidle.
  destruct (IngestionFacts.afterStop_frame m id) as (Hsrc & _).
  unfold afterStart. set (m1 := IngestionFacts.afterStop id m) in *.
  split; [|split]; cbn.
  - intros h task Hin. apply in_app_iff in Hin. destruct Hin as [Hin|[Hin|[]]].
    + destruct (Hlive h task Hin) as [Hget Hlt]. split; [|lia].
      rewrite JsMap.get_set_ne; [assumption|].
      intros Heq. rewrite <- Heq in Hget. congruence.
    + injection Hin as <- <-. cbn. split; [apply JsMap.get_set_eq|lia].
  - intros id' h Hget.
    destruct (String.eqb id id') eqn:Eid.
    + apply String.eqb_eq in Eid. subst id'.
      rewrite JsMap.get_set_eq in Hget. injection Hget as <-.
      split; [|rewrite Hsrc; congruence].
      exists (delayOf ds). apply in_app_iff. right. now left.
    + apply String.eqb_neq in Eid.
      rewrite JsMap.get_set_ne in Hget by assumption.
      destruct (Hrec id' h Hget) as ((delay & Hin) & Hs).
      split; [|assumption]. exists delay. apply in_app_iff. now left.
  - rewrite map_app. cbn. apply NoDup_snoc_fresh; [assumption|].
    intros h Hin. apply in_map_iff in Hin. destruct Hin as ([h' task] & <- & Hin).
    now destruct (Hlive h' task Hin).
Qed.

Lemma stored_Tracked (m : Machine Svc Ext) d : Tracked m -> Tracked (stored d m).
Proof.
  intros (Hlive & Hrec & Hnd). split; [|split]; cbn; [assumption| |assumption].
  intros id h Hget. destruct (Hrec id h Hget) as (Hin & Hsrc).
  split; [assumption|].
  destruct (String.eqb (ds_id d) id) eqn:E.
  - apply String.eqb_eq in E. subst id. now rewrite JsMap.get_set_eq.
  - apply String.eqb_neq in E. now rewrite JsMap.get_set_ne.
Qed.

Lemma replaced_Tracked (m : Machine Svc Ext) d :
  Tracked m -> Tracked (replaced d m).
Proof.
  intros Hm. pose proof (afterStop_Tracked (ds_id d) Hm) as (Hlive & Hrec & Hnd).
  unfold replaced. split; [|split]; cbn; [assumption| |assumption].
  intros id h Hget. destruct (Hrec id h Hget) as (Hin & Hsrc).
  split; [assumption|].
  destruct (String.eqb (ds_id d) id) eqn:E.
  - apply String.eqb_eq in E. subst id. now rewrite JsMap.get_set_eq.
  - apply String.eqb_neq in E. now rewrite JsMap.get_set_ne.
Qed.

Lemma removed_Tracked (m : Machine Svc Ext) id m' :
  Tracked m -> removeDataSource id m = (Normal tt, m') -> Tracked m'.
Proof.
  intros Hm. rewrite IngestionFacts.removeDataSource_run.
  intros [= <-].
  pose proof (afterStop_Tracked id Hm) as (Hlive & Hrec & Hnd).
  pose proof (afterStop_idle m id) as Hidle.
  split; [|split]; cbn; [assumption| |assumption].
  intros id' h Hget. destruct (Hrec id' h Hget) as (Hin & Hsrc).
  split; [assumption|].
  rewrite JsMap.get_delete_ne; [assumption|]. intros <-. congruence.
Qed.

(** No timer collects from a source without a recorded handle. *)
Lemma timersOf_idle (m : Machine Svc Ext) id :
  Tracked m ->
  JsMap.get id (collectionIntervals (this m)) = None ->
  timersOf id m = [].
Proof.
  intros (Hlive & _) Hidle. unfold timersOf.
  destruct (filter _ (timers m)) as [|[h task] r] eqn:E; [reflexivity|].
  assert (Hin : In (h, task) (filter
             (fun t => String.eqb (iv_dataSourceId (snd t)) id) (timers m)))
    by (rewrite E; now left).
  apply filter_In in Hin. destruct Hin as [Hin Hid]. cbn in Hid.
  apply String.eqb_eq in Hid. destruct (Hlive h task Hin) as [Hget _].
  congruence.
Qed.

Lemma filter_filter_absorb {A} (f g : A -> bool) (l : list A) :
  (forall x, In x l -> f x = true -> g x = true) ->
  filter f (filter g l) = filter f l.
Proof.
  induction l as [|x r IH]; cbn; [reflexivity|]. intros Hfg.
  destruct (g x) eqn:Eg; cbn.
  - rewrite IH; [reflexivity|]. intros y Hy. apply Hfg. now right.
  - destruct (f x) eqn:Ef.
    + rewrite (Hfg x (or_introl eq_refl) Ef) in Eg. discriminate.
    + apply IH. intros y Hy. apply Hfg. now right.
Qed.

(** Stopping one source leaves the timers of the others alone. *)
Lemma timersOf_afterStop (m : Machine Svc Ext) id other :
  Tracked m -> other <> id ->
  timersOf other (IngestionFacts.afterStop id m) = timersOf other m.
Proof.
  intros (Hlive & Hrec & Hnd) Hne. unfold timersOf, IngestionFacts.afterStop.
  destruct (JsMap.get id (collectionIntervals (this m))) as [h0|] eqn:E;
    [|reflexivity].
  cbn. apply filter_filter_absorb. intros [h task] Hin Hid. cbn in *.
  apply String.eqb_eq in Hid. apply Bool.negb_true_iff. apply Nat.eqb_neq.
  intros ->. destruct (Hlive h task Hin) as [Hget _].
  destruct (Hrec id h E) as ((d & Hin') & _).
  pose proof (@NoDup_fst_same _ _ _ _ _ _ Hnd Hin Hin') as Heq.
  subst task. cbn in Hid. congruence.
Qed.

Lemma timersOf_snoc_other (l : list (nat * Interval)) h id delay other :
  other <> id ->
  filter (fun t => String.eqb (iv_dataSourceId (snd t)) other)
    (l ++ [(h, mkInterval id delay)])
  = filter (fun t => String.eqb (iv_dataSourceId (snd t)) other) l.
Proof.
  intros Hne. rewrite filter_app. cbn.
  destruct (String.eqb id other) eqn:E; [|apply app_nil_r].
  apply String.eqb_eq in E. congruence.
Qed.

Lemma timersOf_afterStart (m : Machine Svc Ext) id ds :
  Tracked m ->
  timersOf id (afterStart id ds m) = [(nextTimer m, mkInterval id (delayOf ds))]
  /\ (forall other, other <> id ->
        timersOf other (afterStart id ds m) = timersOf other m).
Proof.
  intros Hm. pose proof (afterStop_Tracked id Hm) as Hm1.
  assert (Hnone : timersOf id (IngestionFacts.afterStop id m) = [])
    by (apply timersOf_idle; [exact Hm1|apply afterStop_idle]).
  assert (Hnext : nextTimer (IngestionFacts.afterStop id m) = nextTimer m).
  { unfold IngestionFacts.afterStop.
    now destruct (JsMap.get id (collectionIntervals (this m))). }
  unfold timersOf in *. unfold afterStart. cbn. split.
  - rewrite filter_app, Hnone. cbn. rewrite String.eqb_refl.
    now rewrite Hnext.
  - intros other Hne. rewrite timersOf_snoc_other by assumption.
    now apply timersOf_afterStop.
Qed.

Lemma afterStart_frame (m : Machine Svc Ext) id ds :
  dataSources (this (afterStart id ds m)) = dataSources (this m)
  /\ dataBuffer (this (afterStart id ds m)) = dataBuffer (this m)
  /\ bufferSize (this (afterStart id ds m)) = bufferSize (this m)
  /\ dataCallbacks (this (afterStart id ds m)) = dataCallbacks (this m)
  /\ subscribers (afterStart id ds m) = subscribers m.
Proof.
  destruct (IngestionFacts.afterStop_frame m id) as (H1 & H2 & H3 & H4 & H5).
  unfold afterStart, with_collectionIntervals.
  cbn [this dataSources dataBuffer bufferSize dataCallbacks subscribers].
  auto.
Qed.

(** The delay of a timer: [pollingInterval] seconds, 60 when it is absent
    or zero. *)
Lemma delayOf_spec (ds : DataSource) :
  (hasPollingInterval ds = false -> delayOf ds = (60 * 1000)%Q)
  /\ (forall q, pollingInterval (connectionDetails ds) = Some q ->
                hasPollingInterval ds = true -> delayOf ds = (q * 1000)%Q).
Proof.
  unfold delayOf, hasPollingInterval.
  destruct (pollingInterval (connectionDetails ds)) as [q|]; split;
    try discriminate; try reflexivity.
  - now intros ->.
  - intros q' [= ->] ->. reflexivity.
Qed.

(** X1. Registration stores the source under its id with an empty buffer, even
    over a source that has records buffered; it never throws.  A source that
    is active with a polling interval is polled from then on; for any other
    source the timers and the interval table are left alone, so a task
    already running for that id keeps running. *)
Theorem register_then_get (m : Machine Svc Ext) d :
  exists m',
    registerDataSource d m = (Normal tt, m')
    /\ getDataSource (ds_id d) m' = (Normal (Some d), m')
    /\ getBufferedData (ds_id d) m' = (Normal [], m')
    /\ (forall other, other <> ds_id d ->
          JsMap.get other (dataSources (this m'))
          = JsMap.get other (dataSources (this m))
          /\ JsMap.get other (dataBuffer (this m'))
             = JsMap.get other (dataBuffer (this m))
          /\ JsMap.get other (collectionIntervals (this m'))
             = JsMap.get other (collectionIntervals (this m)))
    /\ (isActive d && hasPollingInterval d = false ->
        timers m' = timers m
        /\ collectionIntervals (this m') = collectionIntervals (this m))
    /\ (isActive d && hasPollingInterval d = true ->
        JsMap.get (ds_id d) (collectionIntervals (this m'))
        = Some (nextTimer m)
        /\ In (nextTimer m, mkInterval (ds_id d) (delayOf d)) (timers m')).
Proof.
  eexists. split; [apply registerDataSource_run|].
  assert (Hnext : nextTimer (IngestionFacts.afterStop (ds_id d) (stored d m))
                  = nextTimer m).
  { unfold IngestionFacts.afterStop.
    now destruct (JsMap.get _ (collectionIntervals (this (stored d m)))). }
  destruct (IngestionFacts.afterStop_frame (stored d m) (ds_id d))
    as (Hsrc & Hbuf & _).
  unfold getDataSource, getBufferedData, bind, getThis, ret.
  destruct (isActive d && hasPollingInterval d); cbn [this afterStart].
  - unfold with_collectionIntervals. cbn [dataSources dataBuffer
      collectionIntervals]. rewrite Hsrc, Hbuf. cbn.
    rewrite !JsMap.get_set_eq.
    split; [reflexivity|]. split; [reflexivity|]. split.
    + intros other Hne. rewrite !JsMap.get_set_ne by congruence.
      now rewrite IngestionFacts.afterStop_intervals.
    + split; [discriminate|]. intros _. rewrite Hnext.
      split; [reflexivity|]. apply in_app_iff. right. now left.
  - cbn. rewrite !JsMap.get_set_eq.
    split; [reflexivity|]. split; [reflexivity|]. split.
    + intros other Hne. now rewrite !JsMap.get_set_ne by congruence.
    + split; [auto|discriminate].
Qed.

(** X2. Starting the collection of a registered source, again or for the first
    time, leaves exactly one timer that collects from it, scheduled under a
    new handle with the delay of the source; the timers of the other
    sources are those there were. *)
Theorem restart_leaves_one_timer (m : Machine Svc Ext) id ds :
  Tracked m ->
  JsMap.get id (dataSources (this m)) = Some ds ->
  exists m',
    startCollection id m = (Normal tt, m')
    /\ Tracked m'
    /\ timersOf id m' = [(nextTimer m, mkInterval id (delayOf ds))]
    /\ JsMap.get id (collectionIntervals (this m')) = Some (nextTimer m)
    /\ (forall other, other <> id -> timersOf other m' = timersOf other m)
    /\ (hasPollingInterval ds = false -> delayOf ds = (60 * 1000)%Q)
    /\ (forall q, pollingInterval (connectionDetails ds) = Some q ->
                  hasPollingInterval ds = true -> delayOf ds = (q * 1000)%Q).
Proof.
  intros Hm Hds. exists (afterStart id ds m).
  split; [now apply startCollection_run|].
  split; [now apply afterStart_Tracked|].
  destruct (timersOf_afterStart id ds Hm) as (Hone & Hothers).
  split; [exact Hone|]. split.
  { cbn. rewrite JsMap.get_set_eq. f_equal. unfold IngestionFacts.afterStop.
    now destruct (JsMap.get id (collectionIntervals (this m))). }
  split; [exact Hothers|]. apply delayOf_spec.
Qed.

(** X3. Stopping a collection, removing a source, and updating a source to one
    that is not active or has no polling interval, each leave no timer that
    collects from it and no recorded handle; a removed source is gone with
    its buffer. *)
Theorem stop_leaves_no_timer (m : Machine Svc Ext) id :
  Tracked m ->
  (exists m',
      stopCollection id m = (Normal tt, m')
      /\ Tracked m'
      /\ timersOf id m' = []
      /\ JsMap.get id (collectionIntervals (this m')) = None
      /\ dataSources (this m') = dataSources (this m)
      /\ dataBuffer (this m') = dataBuffer (this m))
  /\ (exists m',
        removeDataSource id m = (Normal tt, m')
        /\ Tracked m'
        /\ timersOf id m' = []
        /\ JsMap.get id (collectionIntervals (this m')) = None
        /\ getDataSource id m' = (Normal None, m')
        /\ getBufferedData id m' = (Normal [], m'))
  /\ (forall d old,
        ds_id d = id ->
        JsMap.get id (dataSources (this m)) = Some old ->
        isActive d && hasPollingInterval d = false ->
        exists m',
          updateDataSource d m = (Normal tt, m')
          /\ Tracked m'
          /\ timersOf id m' = []
          /\ JsMap.get id (collectionIntervals (this m')) = None
          /\ getDataSource id m' = (Normal (Some d), m')).
Proof.
  intros Hm.
  pose proof (afterStop_Tracked id Hm) as Hm1.
  pose proof (afterStop_idle m id) as Hidle.
  destruct (IngestionFacts.afterStop_frame m id) as (Hsrc & Hbuf & _).
  split; [|split].
  - exists (IngestionFacts.afterStop id m).
    split; [apply IngestionFacts.stopCollection_run|].
    split; [assumption|]. split; [now apply timersOf_idle|]. auto.
  - pose proof (IngestionFacts.removeDataSource_run m id) as Hrun.
    destruct (removeDataSource id m) as [c m'] eqn:Erun.
    injection Hrun as -> Hm'. exists m'. split; [reflexivity|].
    assert (Hr : Tracked m') by (eapply removed_Tracked; [exact Hm|exact Erun]).
    assert (Hidle' : JsMap.get id (collectionIntervals (this m')) = None)
      by (rewrite Hm'; exact Hidle).
    split; [exact Hr|].
    split; [now apply timersOf_idle|].
    split; [exact Hidle'|].
    assert (Hs : JsMap.get id (dataSources (this m')) = None)
      by (rewrite Hm'; apply JsMap.get_delete_eq).
    assert (Hb : JsMap.get id (dataBuffer (this m')) = None)
      by (rewrite Hm'; apply JsMap.get_delete_eq).
    unfold getDataSource, getBufferedData, bind, getThis, ret.
    now rewrite Hs, Hb.
  - intros d old <- Hold Hoff.
    exists (replaced d m). split.
    { erewrite updateDataSource_run by exact Hold. now rewrite Hoff. }
    pose proof (replaced_Tracked d Hm) as Hr.
    split; [exact Hr|].
    split; [apply timersOf_idle; [exact Hr|exact Hidle]|].
    split; [exact Hidle|].
    unfold getDataSource, bind, getThis, ret. cbn.
    now rewrite JsMap.get_set_eq.
Qed.

(** X4. Updating a registered source replaces it and keeps every buffer,
    its own included; an active source with a polling interval is polled
    again, by one timer with the new delay. *)
Theorem update_keeps_buffer (m : Machine Svc Ext) d old :
  Tracked m ->
  JsMap.get (ds_id d) (dataSources (this m)) = Some old ->
  exists m',
    updateDataSource d m = (Normal tt, m')
    /\ getDataSource (ds_id d) m' = (Normal (Some d), m')
    /\ dataBuffer (this m') = dataBuffer (this m)
    /\ bufferSize (this m') = bufferSize (this m)
    /\ (forall other, other <> ds_id d ->
          JsMap.get other (dataSources (this m'))
          = JsMap.get other (dataSources (this m))
          /\ timersOf other m' = timersOf other m)
    /\ (isActive d && hasPollingInterval d = true ->
        timersOf (ds_id d) m'
        = [(nextTimer m, mkInterval (ds_id d) (delayOf d))]).
Proof.
  intros Hm Hold.
  destruct (IngestionFacts.afterStop_frame m (ds_id d))
    as (Hsrc & Hbuf & Hsize & _).
  pose proof (replaced_Tracked d Hm) as Hr.
  assert (Hrt : forall other, timersOf other (replaced d m)
                = timersOf other (IngestionFacts.afterStop (ds_id d) m))
    by reflexivity.
  assert (Hnext : nextTimer (replaced d m) = nextTimer m).
  { unfold replaced, IngestionFacts.afterStop. cbn.
    now destruct (JsMap.get (ds_id d) (collectionIntervals (this m))). }
  assert (Hrs : dataSources (this (replaced d m))
                = JsMap.set (ds_id d) d (dataSources (this m)))
    by (unfold replaced; cbn [this dataSources with_dataSources];
        now rewrite Hsrc).
  assert (Hrb : dataBuffer (this (replaced d m)) = dataBuffer (this m))
    by exact Hbuf.
  assert (Hrz : bufferSize (this (replaced d m)) = bufferSize (this m))
    by exact Hsize.
  destruct (isActive d && hasPollingInterval d) eqn:Eon.
  - destruct (timersOf_afterStart (ds_id d) d Hr) as (Hone & Hothers).
    destruct (afterStart_frame (replaced d m) (ds_id d) d)
      as (Hsrc' & Hbuf' & Hsize' & _).
    exists (afterStart (ds_id d) d (replaced d m)). split.
    { erewrite updateDataSource_run by exact Hold. now rewrite Eon. }
    unfold getDataSource, bind, getThis, ret.
    rewrite Hsrc', Hbuf', Hsize', Hrs, Hrb, Hrz, JsMap.get_set_eq.
    split; [reflexivity|]. split; [reflexivity|]. split; [reflexivity|].
    split.
    + intros other Hne. rewrite JsMap.get_set_ne by congruence.
      split; [reflexivity|].
      rewrite Hothers, Hrt by assumption. now apply timersOf_afterStop.
    + intros _. now rewrite Hone, Hnext.
  - exists (replaced d m). split.
    { erewrite updateDataSource_run by exact Hold. now rewrite Eon. }
    unfold getDataSource, bind, getThis, ret.
    rewrite Hrs, Hrb, Hrz, JsMap.get_set_eq.
    split; [reflexivity|]. split; [reflexivity|]. split; [reflexivity|].
    split; [|discriminate].
    intros other Hne. rewrite JsMap.get_set_ne by congruence.
    split; [reflexivity|]. rewrite Hrt. now apply timersOf_afterStop.
Qed.

(** *** The simulated fetch and the tick that uses it *)

(** A raw record names the source it was collected from, by id and by
    name; it has a timestamp and no [sourceType] property. *)
Definition Tagged (ds : DataSource) (record : JsFields) : Prop :=
  prop "sourceId" record = JsString (ds_id ds)
  /\ prop "sourceName" record = JsString (ds_name ds)
  /\ prop "sourceType" record = JsUndefined
  /\ exists t, prop "timestamp" record = JsDate t.

Lemma simulateRecord_tagged ds (m : Machine Svc Ext) :
  exists record m',
    simulateRecord ds m = (Normal record, m')
    /\ Tagged ds record
    /\ HostFacts.Advances m m'.
Proof.
  destruct (IngestionFacts.simulateRecord_hostOnly ds m)
    as (record & m' & E & A).
  exists record, m'. split; [exact E|]. split; [|exact A].
  revert E. unfold simulateRecord, pickStr, randomIP, randomBelow, pick.
  destruct (ds_type ds); run_through; intros [= <- _]; cbn;
    (split; [reflexivity|split; [reflexivity|split; [reflexivity|]]];
     eexists; reflexivity).
Qed.

Lemma simulateRecords_tagged count ds (m : Machine Svc Ext) :
  exists records m',
    simulateRecords count ds m = (Normal records, m')
    /\ HostFacts.Advances m m'
    /\ List.length records = count
    /\ Forall (Tagged ds) records.
Proof.
  revert m. induction count as [|n IH]; intros m; cbn [simulateRecords].
  - exists [], m. split; [reflexivity|].
    split; [apply HostFacts.Advances_refl|]. split; [reflexivity|constructor].
  - destruct (simulateRecord_tagged ds m) as (record & m1 & E1 & T1 & A1).
    destruct (IH m1) as (records & m2 & E2 & A2 & Hlen & Hall).
    exists (record :: records), m2. unfold bind. rewrite E1, E2.
    split; [reflexivity|].
    split; [eapply HostFacts.Advances_trans; eassumption|].
    split; [cbn; now rewrite Hlen|now constructor].
Qed.

Lemma simulateDataCollection_run ds (m : Machine Svc Ext) :
  exists batch m',
    simulateDataCollection ds m = (Normal batch, m')
    /\ HostFacts.Advances m m'
    /\ List.length batch = Z.to_nat (floorTimes (entropy m 0%nat) 10 + 1)
    /\ Forall (Tagged ds) batch.
Proof.
  unfold simulateDataCollection, randomBelow.
  unfold bind at 1. unfold bind at 1.
  destruct (HostFacts.hostOnly_Math_random m) as (n & m0 & E0 & A0).
  rewrite E0. unfold ret at 1. unfold bind at 1.
  assert (Hn : n = entropy m 0%nat) by (now injection E0 as <- _).
  destruct (simulateRecords_tagged (Z.to_nat (floorTimes n 10 + 1)) ds m0)
    as (records & m1 & E1 & A1 & Hlen & Hall).
  rewrite E1. unfold bind at 1.
  destruct (HostFacts.hostOnly_Math_random m1) as (delay & m2 & E2 & A2).
  rewrite E2. exists records, m2. split; [reflexivity|].
  split.
  { eapply HostFacts.Advances_trans; [exact A0|].
    eapply HostFacts.Advances_trans; eassumption. }
  split; [now rewrite Hlen, Hn|exact Hall].
Qed.

Lemma collectData_known (m m1 : Machine Svc Ext) id ds batch :
  JsMap.get id (dataSources (this m)) = Some ds ->
  simulateDataCollection ds m = (Normal batch, m1) ->
  collectData id m = collectData_received id ds batch m1.
Proof.
  intros Hds Hfetch. unfold collectData, collectDataWith, collectData_begin.
  unfold bind at 1. unfold bind at 1. unfold getThis at 1. rewrite Hds.
  unfold ret at 1. unfold tryCatch. unfold bind at 1. rewrite Hfetch.
  now rewrite IngestionFacts.collectData_received_run.
Qed.

(** X5. The fetch the service ships delivers records that carry the id and the
    name of the source and a timestamp, but no [sourceType], as many as the
    first draw decides, [Math.floor(Math.random() * 10) + 1] with the
    product taken in double precision: 1 to 10 when the draw is a double of
    [0,1).  It never rejects and touches nothing but the clock and the
    draws. *)
Theorem simulated_batch_tagged ds (m : Machine Svc Ext) :
  exists batch m',
    simulateDataCollection ds m = (Normal batch, m')
    /\ HostFacts.Advances m m'
    /\ Forall (Tagged ds) batch
    /\ List.length batch = Z.to_nat (floorTimes (entropy m 0%nat) 10 + 1)
    /\ (Float64.unit (entropy m 0%nat) ->
        (1 <= List.length batch <= 10)%nat).
Proof.
  destruct (simulateDataCollection_run ds m)
    as (batch & m' & E & A & Hlen & Hall).
  exists batch, m'. repeat (split; [assumption|]).
  intros Hunit. rewrite Hlen.
  pose proof (@floorTimes_bounds (entropy m 0%nat) 10 Hunit eq_refl). lia.
Qed.

(** X6. A tick of the shipped service.  For an unregistered id it throws (the
    promise rejects) and changes nothing.  For a registered source it ends
    normally and never takes the error path: the source is stored again
    with [lastSyncTime] set to a reading of the clock and its status and
    every other field as read at the start, the buffer receives the batch,
    the subscribers are run on it, and no timer is touched. *)
Theorem shipped_tick (m : Machine Svc Ext) id :
  (JsMap.get id (dataSources (this m)) = None ->
   collectData id m = (Throws (notFound id), m))
  /\ (forall ds,
        JsMap.get id (dataSources (this m)) = Some ds ->
        exists m' batch t,
          collectData id m = (Normal tt, m')
          /\ Forall (Tagged ds) batch
          /\ JsMap.get id (dataSources (this m'))
             = Some (mkDataSource (ds_id ds) (ds_name ds) (ds_type ds)
                       (ds_environment ds) (connectionDetails ds)
                       (ds_status ds) (Some t) (ds_createdAt ds)
                       (ds_updatedAt ds))
          /\ (exists i, t = clock m i)
          /\ JsMap.get id (dataBuffer (this m'))
             = Some (pushAndTrim (bufferSize (this m))
                       (match JsMap.get id (dataBuffer (this m)) with
                        | Some b => b
                        | None => []
                        end) batch)
          /\ subscribers m'
             = fold_left (fun ext callback => snd (callback (id, batch) ext))
                 (dataCallbacks (this m)) (subscribers m)
          /\ timers m' = timers m
          /\ collectionIntervals (this m') = collectionIntervals (this m)).
Proof.
  split.
  - intros Hnone. unfold collectData, collectDataWith, collectData_begin.
    unfold bind at 1. unfold bind at 1. unfold getThis at 1.
    now rewrite Hnone.
  - intros ds Hds.
    destruct (simulateDataCollection_run ds m)
      as (batch & m1 & E & (A1 & A2 & A3 & A4 & A5 & (i & Hi) & _) & _ & Hall).
    eexists _, batch, (clock m1 0%nat). split.
    { rewrite (@collectData_known m m1 id ds batch Hds E).
      apply IngestionFacts.collectData_received_run. }
    cbn. rewrite A1, A2, A4, !JsMap.get_set_eq.
    split; [exact Hall|]. split; [reflexivity|].
    split; [exists (i + 0)%nat; apply Hi|].
    split; [reflexivity|].
    split; [apply HostFacts.deliver_fold|]. split; reflexivity.
Qed.

(** *** The timers stay tracked *)

(** The calls a client can make, and the tick the host makes. *)
Inductive Call : Type :=
| Register (dataSource : DataSource)
| Update (dataSource : DataSource)
| Remove (dataSourceId : string)
| Start (dataSourceId : string)
| Stop (dataSourceId : string)
| Tick (dataSourceId : string)
| ClearBuffer (dataSourceId : string)
| SetBufferSize (size : Number)
| OnData (callback : Callback Ext (string * list JsFields)).

Definition perform (call : Call) : M Svc Ext unit :=
  match call with
  | Register d => registerDataSource d
  | Update d => updateDataSource d
  | Remove id => removeDataSource id
  | Start id => startCollection id
  | Stop id => stopCollection id
  | Tick id => collectData id
  | ClearBuffer id => clearBuffer id
  | SetBufferSize size => setBufferSize size
  | OnData callback => onData callback
  end.

Lemma Tracked_ext (m m' : Machine Svc Ext) :
  timers m' = timers m ->
  nextTimer m' = nextTimer m ->
  collectionIntervals (this m') = collectionIntervals (this m) ->
  (forall id, JsMap.get id (dataSources (this m)) <> None ->
              JsMap.get id (dataSources (this m')) <> None) ->
  Tracked m -> Tracked m'.
Proof.
  intros Ht Hn Hi Hs (Hlive & Hrec & Hnd). unfold Tracked.
  rewrite Ht, Hn, Hi. split; [assumption|]. split; [|assumption].
  intros id h Hget. destruct (Hrec id h Hget). auto.
Qed.

(** X7. Whatever is called, and whether it returns or throws: every timer of
    the host is recorded by the service under the source it collects from,
    every recorded handle is a timer of the host and belongs to a registered
    source, and no handle is used twice.  In particular no timer is left
    behind for a removed source, and none runs unrecorded. *)
Theorem timers_stay_tracked (call : Call) (m : Machine Svc Ext) :
  Tracked m -> Tracked (snd (perform call m)).
Proof.
  intros Hm. destruct call as [d|d|id|id|id|id|id|size|callback];
    cbn [perform].
  - rewrite registerDataSource_run. cbn [snd].
    destruct (isActive d && hasPollingInterval d).
    + apply afterStart_Tracked; [apply JsMap.get_set_eq|].
      now apply stored_Tracked.
    + now apply stored_Tracked.
  - destruct (JsMap.get (ds_id d) (dataSources (this m))) as [old|] eqn:E.
    + erewrite updateDataSource_run by exact E. cbn [snd].
      destruct (isActive d && hasPollingInterval d).
      * apply afterStart_Tracked; [apply JsMap.get_set_eq|].
        now apply replaced_Tracked.
      * now apply replaced_Tracked.
    + unfold updateDataSource, bind, getThis, throw. now rewrite E.
  - pose proof (IngestionFacts.removeDataSource_run m id) as Hrun.
    destruct (removeDataSource id m) as [c m'] eqn:Erun.
    injection Hrun as -> _. cbn [snd].
    eapply removed_Tracked; [exact Hm|exact Erun].
  - destruct (JsMap.get id (dataSources (this m))) as [ds|] eqn:E.
    + erewrite startCollection_run by exact E. now apply afterStart_Tracked.
    + unfold startCollection, bind, getThis, throw. now rewrite E.
  - rewrite IngestionFacts.stopCollection_run. now apply afterStop_Tracked.
  - destruct (JsMap.get id (dataSources (this m))) as [ds|] eqn:E.
    + destruct (simulateDataCollection_run ds m)
        as (batch & m1 & E1 & (A1 & A2 & A3 & _) & _).
      rewrite (@collectData_known m m1 id ds batch E E1).
      rewrite IngestionFacts.collectData_received_run. cbn [snd].
      apply Tracked_ext with (m := m); cbn; try congruence.
      intros id' Hsrc. rewrite A1.
      destruct (String.eqb id id') eqn:Eid.
      * apply String.eqb_eq in Eid. subst id'. now rewrite JsMap.get_set_eq.
      * apply String.eqb_neq in Eid. now rewrite JsMap.get_set_ne.
    + unfold collectData, collectDataWith, collectData_begin.
      unfold bind at 1. unfold bind at 1. unfold getThis at 1.
      now rewrite E.
  - apply Tracked_ext with (m := m); auto.
  - apply Tracked_ext with (m := m); auto.
  - apply Tracked_ext with (m := m); auto.
Qed.

(** *** Sources made by [dataSourceHelpers] *)

Lemma register_active (m : Machine Svc Ext) d q :
  ds_status d = active ->
  pollingInterval (connectionDetails d) = Some q ->
  exists m',
    registerDataSource d m = (Normal tt, m')
    /\ JsMap.get (ds_id d) (dataSources (this m')) = Some d
    /\ if Qeq_bool q 0
       then timers m' = timers m
       else In (nextTimer m, mkInterval (ds_id d) (q * 1000)) (timers m').
Proof.
  intros Hactive Hq. eexists. split; [apply registerDataSource_run|].
  assert (Hon : isActive d && hasPollingInterval d = negb (Qeq_bool q 0)).
  { unfold isActive, hasPollingInterval. now rewrite Hactive, Hq. }
  assert (Hdelay : Qeq_bool q 0 = false -> delayOf d = (q * 1000)%Q).
  { intros Hnz. unfold delayOf, hasPollingInterval. now rewrite Hq, Hnz. }
  rewrite Hon. destruct (Qeq_bool q 0); cbn [negb].
  - split; [apply JsMap.get_set_eq|reflexivity].
  - destruct (afterStart_frame (stored d m) (ds_id d) d) as (Hsrc & _).
    rewrite Hsrc. split; [apply JsMap.get_set_eq|].
    rewrite <- Hdelay by reflexivity.
    unfold afterStart. cbn [timers]. apply in_app_iff. right. left.
    f_equal. unfold IngestionFacts.afterStop.
    now destruct (JsMap.get _ (collectionIntervals (this (stored d m)))).
Qed.

(** What a helper and the registration of its result amount to: a source
    of the helper's type and environment, active, whose id is the helper's
    prefix followed by the time of the call, polled every [pollingInterval]
    seconds ([default] when the argument is absent); when the interval
    given is zero the source is registered as active and never polled. *)
Definition registersPolled (create : option Q -> M Svc Ext DataSource)
    (prefix : string) (type : SourceType) (environment : EnvironmentType)
    (default : Q) : Prop :=
  forall pollingInterval (m : Machine Svc Ext),
    exists d m1 m',
      create pollingInterval m = (Normal d, m1)
      /\ ds_id d = prefix +++ showZ (clock m 0%nat)
      /\ (ds_type d, ds_environment d, ds_status d)
         = (type, environment, active)
      /\ (timers m1, nextTimer m1, this m1) = (timers m, nextTimer m, this m)
      /\ registerDataSource d m1 = (Normal tt, m')
      /\ JsMap.get (ds_id d) (dataSources (this m')) = Some d
      /\ let seconds := DataSourceHelpers.orDefault pollingInterval default in
         if Qeq_bool seconds 0
         then timers m' = timers m
         else In (nextTimer m, mkInterval (ds_id d) (seconds * 1000))
                (timers m').

Ltac helper_registers :=
  let m' := fresh "m'" in
  let Hrun := fresh "Hrun" in
  let Hget := fresh "Hget" in
  let Htimers := fresh "Htimers" in
  intros ? ?; run_through;
  match goal with
  | |- exists d m1 m2, (Normal ?d0, ?m0) = _ /\ _ =>
      destruct (@register_active m0 d0 _ eq_refl eq_refl)
        as (m' & Hrun & Hget & Htimers);
      exists d0, m0, m'
  end;
  repeat (split; [reflexivity|]); split; [exact Hrun|];
  split; [exact Hget|exact Htimers].

(** X8. The four helpers make sources that are polled once registered: a SIEM
    and a firewall source of the IT environment and a cloud API source of
    the Cloud environment every 60 seconds by default, a SCADA source of
    the OT environment every 30; the id is the helper's prefix followed by
    the time of the call.  A polling interval of zero leaves the source
    registered as active and never polled. *)
Theorem helper_sources_polled (name endpoint : string) :
  registersPolled (DataSourceHelpers.createSIEMDataSource name endpoint)
    "siem-" SIEM IT 60
  /\ registersPolled (DataSourceHelpers.createFirewallDataSource name endpoint)
       "firewall-" Firewall IT 60
  /\ registersPolled (DataSourceHelpers.createSCADADataSource name endpoint)
       "scada-" SCADA OT 30
  /\ (forall credentials,
        registersPolled
          (DataSourceHelpers.createCloudDataSource name endpoint credentials)
          "cloud-" CloudAPI Cloud 60).
Proof.
  split; [|split; [|split; [|intros credentials]]]; unfold registersPolled.
  - unfold DataSourceHelpers.createSIEMDataSource. helper_registers.
  - unfold DataSourceHelpers.createFirewallDataSource. helper_registers.
  - unfold DataSourceHelpers.createSCADADataSource. helper_registers.
  - unfold DataSourceHelpers.createCloudDataSource. helper_registers.
Qed.

End Facts.
End SchedulingFacts.

(** *** The SCADA source of the example, restarted, stopped and updated *)

Module SchedulingExample.
Import Ingestion IngestionExample SchedulingFacts.

Lemma machine_Tracked : Tracked machine.
Proof.
  split; [|split].
  - intros h task [E|[]]. injection E as <- <-. split; [reflexivity|cbn; lia].
  - intros id h Hget. cbn in Hget.
    destruct (String.eqb id "scada-1") eqn:E; [|discriminate].
    apply String.eqb_eq in E. subst id. injection Hget as <-.
    split; [eexists; left; reflexivity|discriminate].
  - repeat constructor. cbn. tauto.
Qed.

(** The same source, switched off. *)
Definition idle : DataSource :=
  mkDataSource "scada-1" "Plant A" SCADA OT
    (mkConnectionDetails OPC_UA "opc.tcp://plant-a" None (Some (30 # 1)))
    inactive None 0 0.

Lemma restart_leaves_one_timer_witness :
  exists m',
    startCollection "scada-1" machine = (Normal tt, m')
    /\ timersOf "scada-1" m' = [(2%nat, mkInterval "scada-1" (delayOf scada))].
Proof.
  destruct (@restart_leaves_one_timer nat machine "scada-1" scada
              machine_Tracked eq_refl)
    as (m' & Hrun & _ & Hone & _).
  exists m'. split; [exact Hrun|exact Hone].
Defined.

Lemma stop_leaves_no_timer_witness :
  exists m',
    stopCollection "scada-1" machine = (Normal tt, m')
    /\ timersOf "scada-1" m' = [].
Proof.
  destruct (@stop_leaves_no_timer nat machine "scada-1" machine_Tracked)
    as ((m' & Hrun & _ & Hnone & _) & _).
  exists m'. split; [exact Hrun|exact Hnone].
Defined.

Lemma update_keeps_buffer_witness :
  exists m',
    updateDataSource idle machine = (Normal tt, m')
    /\ dataBuffer (this m') = [("scada-1", [reading 1; reading 2])].
Proof.
  destruct (@update_keeps_buffer nat machine idle scada machine_Tracked
              eq_refl)
    as (m' & Hrun & _ & Hbuf & _).
  exists m'. split; [exact Hrun|exact Hbuf].
Defined.

Lemma timers_stay_tracked_witness :
  Tracked (snd (perform (Remove "scada-1") machine)).
Proof.
  apply (@timers_stay_tracked nat (Remove "scada-1") machine machine_Tracked).
Defined.

End SchedulingExample.

(* ================================================================= *)
(** ** Plain objects and effectful maps *)

Module JsFacts.

Lemma prop_setProp_eq k v o : prop k (setProp k v o) = v.
Proof.
  induction o as [|[k' v'] r IH]; cbn.
  - now rewrite String.eqb_refl.
  - destruct (String.eqb k k') eqn:E; cbn.
    + now rewrite String.eqb_refl.
    + now rewrite E.
Qed.

Lemma prop_setProp_ne k k' v o : k' <> k -> prop k' (setProp k v o) = prop k' o.
Proof.
  intros Hne. induction o as [|[k0 v0] r IH]; cbn.
  - destruct (String.eqb k' k) eqn:E; [|reflexivity].
    apply String.eqb_eq in E. congruence.
  - destruct (String.eqb k k0) eqn:E; cbn.
    + apply String.eqb_eq in E. subst k0.
      destruct (String.eqb k' k) eqn:E'; [|reflexivity].
      apply String.eqb_eq in E'. congruence.
    + now rewrite IH.
Qed.

(** One step of a sequence, and one reading of the clock. *)
Lemma bind_Normal {S Ext A B} (c : M S Ext A) (k : A -> M S Ext B) m a m1 :
  c m = (Normal a, m1) -> bind c k m = k a m1.
Proof. intros E. unfold bind. now rewrite E. Qed.

Definition tick {S Ext} (m : Machine S Ext) : Machine S Ext :=
  mkMachine (this m) (fun n => clock m (Datatypes.S n)) (entropy m) (timers m)
    (nextTimer m) (subscribers m) (console m).

Lemma Date_now_run {S Ext} (m : Machine S Ext) :
  Date_now m = (Normal (clock m 0%nat), tick m).
Proof. reflexivity. Qed.

(** [xs.map(f)] relates each input to its output, in order. *)
Lemma mapM_Forall2 {S Ext A B} (Inv : Machine S Ext -> Prop)
    (R : A -> B -> Prop) (f : A -> M S Ext B) (xs : list A) :
  (forall x m, Inv m ->
     exists y m', f x m = (Normal y, m') /\ Inv m' /\ R x y) ->
  forall m, Inv m ->
    exists ys m', mapM f xs m = (Normal ys, m') /\ Inv m' /\ Forall2 R xs ys.
Proof.
  intros Hf. induction xs as [|x r IH]; intros m Hm; cbn.
  - exists [], m. repeat split; auto.
  - destruct (Hf x m Hm) as (y & m1 & E1 & Hm1 & Rxy).
    destruct (IH m1 Hm1) as (ys & m2 & E2 & Hm2 & Rs).
    exists (y :: ys), m2. unfold bind. rewrite E1, E2.
    repeat split; auto.
Qed.

Lemma Forall2_trans {A B C} (R1 : A -> B -> Prop) (R2 : B -> C -> Prop)
    (R : A -> C -> Prop) xs ys zs :
  (forall x y z, R1 x y -> R2 y z -> R x z) ->
  Forall2 R1 xs ys -> Forall2 R2 ys zs -> Forall2 R xs zs.
Proof.
  intros Hcomp H1. revert zs. induction H1 as [|x y xs ys Hxy _ IH];
    intros zs H2; inversion H2; subst; constructor; eauto.
Qed.

Lemma arrayAt_In {A} (l : list A) i :
  0 <= i < Z.of_nat (List.length l) ->
  exists x, arrayAt l i = Some x /\ In x l.
Proof.
  intros Hi. unfold arrayAt. destruct (i <? 0) eqn:E; [lia|].
  destruct (nth_error l (Z.to_nat i)) as [x|] eqn:En.
  - exists x. split; [reflexivity|]. eapply nth_error_In; eauto.
  - apply nth_error_None in En. lia.
Qed.

(** A choice among [choices] by a draw of [0,1) is one of them. *)
Lemma choice_In {A} (choices : list A) (r : Q) :
  Float64.unit r -> choices <> [] ->
  exists x,
    arrayAt choices (floorTimes r (Z.of_nat (List.length choices))) = Some x
    /\ In x choices.
Proof.
  intros Hunit Hne. apply arrayAt_In. apply floorTimes_bounds; auto.
  destruct choices; [congruence|cbn; lia].
Qed.

(** The keys of the registries: [`${environment}:${sourceType}`] names one
    environment and one source type, and is never an environment name. *)
Lemma key_inj e t e' t' :
  showEnvironment e +++ ":" +++ t = showEnvironment e' +++ ":" +++ t' ->
  e = e' /\ t = t'.
Proof.
  destruct e, e'; cbn; intros E; try discriminate; injection E; auto.
Qed.

Lemma key_not_environment e e' t :
  showEnvironment e <> showEnvironment e' +++ ":" +++ t.
Proof. destruct e, e'; cbn; discriminate. Qed.

Lemma showEnvironment_inj e e' : showEnvironment e = showEnvironment e' -> e = e'.
Proof. destruct e, e'; cbn; intros E; try discriminate; reflexivity. Qed.

End JsFacts.

(* ================================================================= *)
(** ** Processing: the choice of a processor, normalization, enrichment *)

Module NormalizationFacts.
Import Processing.

Section Facts.
Context {Ext : Type} `{JsRuntime}.
Notation Svc := (DataProcessingService Ext).

(** X9. A processor registered for one environment and source type is the one
    used for that pair from then on, and for no other pair; a processor
    registered for an environment is used for every source type of that
    environment that has no processor of its own, and for no other
    environment. *)
Theorem processor_precedence (m : Machine Svc Ext) environment processor :
  (forall sourceType,
      exists m',
        registerProcessor (showEnvironment environment +++ ":" +++ sourceType)
          processor m = (Normal tt, m')
        /\ selectProcessor (this m') environment sourceType = processor
        /\ (forall e t, (e, t) <> (environment, sourceType) ->
              selectProcessor (this m') e t = selectProcessor (this m) e t)
        /\ enrichers (this m') = enrichers (this m))
  /\ (exists m',
        registerProcessor (showEnvironment environment) processor m
        = (Normal tt, m')
        /\ (forall t,
              selectProcessor (this m') environment t
              = match JsMap.get (showEnvironment environment +++ ":" +++ t)
                        (processors (this m)) with
                | Some specific => specific
                | None => processor
                end)
        /\ (forall e t, e <> environment ->
              selectProcessor (this m') e t = selectProcessor (this m) e t)).
Proof.
  split.
  - intros sourceType. eexists. split; [reflexivity|]. cbn.
    unfold selectProcessor. cbn. rewrite JsMap.get_set_eq.
    split; [reflexivity|]. split; [|reflexivity].
    intros e t Hne.
    rewrite !JsMap.get_set_ne; [reflexivity| |].
    + intros E. symmetry in E. now apply JsFacts.key_not_environment in E.
    + intros E. apply JsFacts.key_inj in E. destruct E as [-> ->]. congruence.
  - eexists. split; [reflexivity|]. cbn. unfold selectProcessor. cbn. split.
    + intros t. rewrite JsMap.get_set_eq.
      rewrite JsMap.get_set_ne by apply JsFacts.key_not_environment.
      reflexivity.
    + intros e t Hne.
      rewrite !JsMap.get_set_ne; [reflexivity| |].
      * intros E. apply JsFacts.showEnvironment_inj in E. congruence.
      * apply JsFacts.key_not_environment.
Qed.

(** *** What the built-in processors make of a raw record *)

(** The normalized record of [item]: flagged as normalized and not
    enriched, its source fields read from the item with their defaults, its
    timestamp the item's when that is truthy and the time of processing
    otherwise, its data the item as [payload] leaves it. *)
Definition NormalizedFrom (payload : JsFields -> JsFields) (item : JsFields)
    (r : NormalizedData) : Prop :=
  nd_data r = payload item
  /\ (normalized r, enriched r, enrichments r) = (true, None, None)
  /\ nd_source r
     = mkSourceRef (jsOr (prop "sourceId" item) (JsString "unknown"))
         (jsOr (prop "sourceName" item) (JsString "Unknown Source"))
         (jsOr (prop "sourceType" item) (JsString "unknown"))
  /\ if truthy (prop "timestamp" item)
     then nd_timestamp r = prop "timestamp" item
     else exists t, nd_timestamp r = JsDate t.

Lemma normalizeItem_spec prefix payload item (h : Machine unit Ext) :
  exists r h',
    normalizeItem prefix payload item h = (Normal r, h')
    /\ NormalizedFrom payload item r.
Proof.
  unfold normalizeItem, NormalizedFrom.
  destruct (truthy (prop "timestamp" item)); run_through;
    eexists _, _; (split; [reflexivity|]); cbn;
    repeat (split; [reflexivity|]); [reflexivity|eexists; reflexivity].
Qed.

Lemma normalize_spec prefix payload data (h : Machine unit Ext) :
  exists out h',
    mapM (normalizeItem prefix payload) data h = (Normal out, h')
    /\ Forall2 (NormalizedFrom payload) data out.
Proof.
  destruct (@JsFacts.mapM_Forall2 unit Ext _ _ (fun _ => True)
              (NormalizedFrom payload) (normalizeItem prefix payload) data)
    with (m := h) as (out & h' & E & _ & Hall); [|exact I|eauto].
  intros x m _. destruct (normalizeItem_spec prefix payload x m)
    as (r & m' & E & Hr). eauto.
Qed.

(** X10. Every built-in processor returns one normalized record per raw record,
    in order, and never throws.  The default processor keeps the raw record
    as the data; the IT, OT and Cloud processors set its [environment]
    property to their own environment, whatever the raw record said, and
    keep every other property. *)
Theorem builtin_normalizers (data : list JsFields) (h : Machine unit Ext) :
  (exists out h',
      normalize defaultProcessor data h = (Normal out, h')
      /\ Forall2 (NormalizedFrom (fun item => item)) data out)
  /\ (forall processor environment,
        In (processor, environment)
           [(itProcessor, "IT"); (otProcessor, "OT"); (cloudProcessor, "Cloud")] ->
        exists out h',
          normalize processor data h = (Normal out, h')
          /\ Forall2
               (fun item r =>
                  NormalizedFrom (setProp "environment" (JsString environment))
                    item r
                  /\ prop "environment" (nd_data r) = JsString environment
                  /\ (forall k, k <> "environment" ->
                        prop k (nd_data r) = prop k item))
               data out).
Proof.
  split; [apply normalize_spec|].
  assert (Hp : forall prefix environment,
             exists out h',
               normalize (environmentProcessor prefix environment) data h
               = (Normal out, h')
               /\ Forall2
                    (fun item r =>
                       NormalizedFrom
                         (setProp "environment" (JsString environment)) item r
                       /\ prop "environment" (nd_data r) = JsString environment
                       /\ (forall k, k <> "environment" ->
                             prop k (nd_data r) = prop k item))
                    data out).
  { intros prefix environment.
    destruct (normalize_spec prefix
                (setProp "environment" (JsString environment)) data h)
      as (out & h' & E & Hall).
    exists out, h'. split; [exact E|].
    eapply Forall2_impl; [|exact Hall].
    intros item r Hr. split; [exact Hr|].
    destruct Hr as (-> & _). split.
    - apply JsFacts.prop_setProp_eq.
    - intros k Hk. now apply JsFacts.prop_setProp_ne. }
  intros processor environment [E|[E|[E|[]]]]; injection E as <- <-; apply Hp.
Qed.

(** X11. Records collected by the shipped fetch and normalized by any built-in
    processor: the source type of every one of them is ['unknown'], since
    no raw record has a [sourceType]; the source id and name are those of
    the data source, unless they are empty, in which case they read
    ['unknown'] and ['Unknown Source']; the timestamp is the time of
    collection. *)
Theorem collected_source_fields (ds : DataSource)
    (m : Machine (Ingestion.DataIngestionService Ext) Ext) :
  exists batch m1,
    Ingestion.simulateDataCollection ds m = (Normal batch, m1)
    /\ forall processor,
         In processor [defaultProcessor; itProcessor; otProcessor;
                       cloudProcessor] ->
         forall h : Machine unit Ext,
         exists out h',
           normalize processor batch h = (Normal out, h')
           /\ List.length out = List.length batch
           /\ Forall
                (fun r =>
                   src_type (nd_source r) = JsString "unknown"
                   /\ src_id (nd_source r)
                      = JsString (if String.eqb (ds_id ds) ""
                                  then "unknown" else ds_id ds)
                   /\ src_name (nd_source r)
                      = JsString (if String.eqb (ds_name ds) ""
                                  then "Unknown Source" else ds_name ds)
                   /\ exists t, nd_timestamp r = JsDate t)
                out.
Proof.
  destruct (SchedulingFacts.simulateDataCollection_run ds m)
    as (batch & m1 & E & _ & _ & Hall).
  exists batch, m1. split; [exact E|].
  assert (Hp : forall prefix payload (h : Machine unit Ext),
             exists out h',
               mapM (normalizeItem prefix payload) batch h = (Normal out, h')
               /\ List.length out = List.length batch
               /\ Forall
                    (fun r =>
                       src_type (nd_source r) = JsString "unknown"
                       /\ src_id (nd_source r)
                          = JsString (if String.eqb (ds_id ds) ""
                                      then "unknown" else ds_id ds)
                       /\ src_name (nd_source r)
                          = JsString (if String.eqb (ds_name ds) ""
                                      then "Unknown Source" else ds_name ds)
                       /\ exists t, nd_timestamp r = JsDate t)
                    out).
  { intros prefix payload h.
    destruct (normalize_spec prefix payload batch h) as (out & h' & En & Hn).
    exists out, h'. split; [exact En|].
    split; [symmetry; eapply Forall2_length; exact Hn|].
    clear En E. induction Hn as [|item r items rs Hr _ IH]; constructor.
    - inversion Hall as [|? ? (Hid & Hname & Htype & (t & Ht)) _]; subst.
      destruct Hr as (_ & _ & Hsrc & Hts).
      rewrite Hsrc, Hid, Hname, Htype, Ht in *. cbn in *.
      unfold jsOr. cbn.
      split; [reflexivity|].
      split; [now destruct (String.eqb (ds_id ds) "")|].
      split; [now destruct (String.eqb (ds_name ds) "")|].
      exists t. exact Hts.
    - apply IH. now inversion Hall. }
  intros processor [<-|[<-|[<-|[<-|[]]]]] h; apply Hp.
Qed.

(** *** What the built-in enrichers add *)

(** [r] is [item] with the enrichment [key] added when [trigger] holds of
    the item, with a value of the given shape, and [item] itself
    otherwise. *)
Definition EnrichedWhen (key : string) (trigger : NormalizedData -> bool)
    (Shape : JsValue -> Prop) (item r : NormalizedData) : Prop :=
  if trigger item
  then exists v, Shape v /\ r = addEnrichment key v item
  else r = item.

(** [item.data.sourceIP || item.data.destinationIP] *)
Definition hasIpAddress (item : NormalizedData) : bool :=
  truthy (jsOr (prop "sourceIP" (nd_data item))
               (prop "destinationIP" (nd_data item))).

(** [item.data.deviceId || item.data.resource] *)
Definition hasDevice (item : NormalizedData) : bool :=
  truthy (jsOr (prop "deviceId" (nd_data item)) (prop "resource" (nd_data item))).

Definition ThreatIntel (v : JsValue) : Prop :=
  exists malicious score n,
    v = JsObject
          [("malicious", JsBool malicious);
           ("score", JsNumber (inject_Z score));
           ("categories",
            JsArray (map JsString (firstn n ["malware"; "c2"; "botnet"])))]
    /\ 0 <= score < 100
    /\ (n <= 3)%nat.

Definition AssetContext (v : JsValue) : Prop :=
  exists criticality department location,
    v = JsObject
          [("criticality", JsString criticality);
           ("owner", JsString ("Department " +++ showZ department));
           ("location", JsString ("Location " +++ showZ location))]
    /\ In criticality ["low"; "medium"; "high"; "critical"]
    /\ 1 <= department <= 5
    /\ 1 <= location <= 3.

Lemma sliceTo_nonneg n l : 0 <= n -> sliceTo n l = firstn (Z.to_nat n) l.
Proof.
  intros Hn. unfold sliceTo. destruct (n <? 0) eqn:E; [lia|reflexivity].
Qed.

Lemma threatIntelItem_spec item (h : Machine unit Ext) :
  AnalyticsFacts.GoodEntropy h ->
  exists r h',
    threatIntelItem item h = (Normal r, h')
    /\ AnalyticsFacts.GoodEntropy h'
    /\ EnrichedWhen "threatIntel" hasIpAddress ThreatIntel item r.
Proof.
  intros Hgood. unfold threatIntelItem, EnrichedWhen, hasIpAddress.
  destruct (truthy _); [|exists item, h; auto].
  destruct h as [[] clk ent tms nt subs cons].
  assert (Hent : forall n, Float64.unit (ent n)) by exact Hgood.
  pose proof (@floorTimes_bounds _ 100 (Hent 1%nat) eq_refl) as Hscore.
  pose proof (@floorTimes_bounds _ 3 (Hent 3%nat) eq_refl) as Hcount.
  run_through.
  destruct (Qlt_le_dec (ent 2%nat) (Float64.toQ Float64.lit_0_1)); run_through;
    eexists _, _; (split; [reflexivity|]);
    (split; [intros n; cbn; apply Hent|]).
  - eexists. split; [|reflexivity].
    eexists _, _, (Z.to_nat (floorTimes (ent 3%nat) 3 + 1)).
    rewrite sliceTo_nonneg by lia.
    split; [reflexivity|]. split; [exact Hscore|lia].
  - eexists. split; [|reflexivity].
    eexists _, _, 0%nat. split; [reflexivity|]. split; [exact Hscore|lia].
Qed.

Lemma assetContextItem_spec item (h : Machine unit Ext) :
  AnalyticsFacts.GoodEntropy h ->
  exists r h',
    assetContextItem item h = (Normal r, h')
    /\ AnalyticsFacts.GoodEntropy h'
    /\ EnrichedWhen "assetContext" hasDevice AssetContext item r.
Proof.
  intros Hgood. unfold assetContextItem, EnrichedWhen, hasDevice.
  destruct (truthy _); [|exists item, h; auto].
  destruct h as [[] clk ent tms nt subs cons].
  assert (Hent : forall n, Float64.unit (ent n)) by exact Hgood.
  pose proof (@floorTimes_bounds _ 5 (Hent 1%nat) eq_refl) as Howner.
  pose proof (@floorTimes_bounds _ 3 (Hent 2%nat) eq_refl) as Hloc.
  destruct (@JsFacts.choice_In string ["low"; "medium"; "high"; "critical"]
              (ent 0%nat) (Hent 0%nat)) as (c & Hc & Hin); [discriminate|].
  unfold pick. run_through. cbn [List.length Z.of_nat Pos.of_succ_nat
    Pos.succ] in *. rewrite Hc.
  eexists _, _. split; [reflexivity|].
  split; [intros n; cbn; apply Hent|].
  eexists. split; [|reflexivity].
  exists c, (floorTimes (ent 1%nat) 5 + 1), (floorTimes (ent 2%nat) 3 + 1).
  split; [reflexivity|]. split; [exact Hin|]. lia.
Qed.

(** X12. On a host whose draws are doubles of [0,1) the built-in enrichers
    never throw and return a new array with one record per record, in
    order, leaving the array they are handed as it is.  threat-intel touches the
    records that have a source or destination IP and no other, asset-context
    those that have a device id or a resource; a touched record keeps its
    id, timestamp, source and data, is flagged as enriched, and gains one
    enrichment (a threat score of 0 to 99 with up to three categories, or
    an asset context) beside those it had. *)
Theorem builtin_enrichers_add (data : list NormalizedData)
    (h : Machine unit Ext) :
  AnalyticsFacts.GoodEntropy h ->
  (exists out h',
      enrich threatIntel data h = (Normal (OtherArray out data), h')
      /\ Forall2 (EnrichedWhen "threatIntel" hasIpAddress ThreatIntel) data out)
  /\ (exists out h',
        enrich assetContext data h = (Normal (OtherArray out data), h')
        /\ Forall2 (EnrichedWhen "assetContext" hasDevice AssetContext)
             data out)
  /\ (forall key v item,
        (nd_id (addEnrichment key v item),
         nd_timestamp (addEnrichment key v item),
         nd_source (addEnrichment key v item),
         nd_data (addEnrichment key v item),
         normalized (addEnrichment key v item))
        = (nd_id item, nd_timestamp item, nd_source item, nd_data item,
           normalized item)
        /\ enriched (addEnrichment key v item) = Some true
        /\ exists e,
             enrichments (addEnrichment key v item) = Some e
             /\ prop key e = v
             /\ forall k, k <> key ->
                  prop k e
                  = prop k (match enrichments item with
                            | Some e0 => e0
                            | None => []
                            end)).
Proof.
  intros Hgood. split; [|split].
  - destruct (@JsFacts.mapM_Forall2 unit Ext _ _
                (@AnalyticsFacts.GoodEntropy Ext unit)
                (EnrichedWhen "threatIntel" hasIpAddress ThreatIntel)
                threatIntelItem data)
      with (m := h) as (out & h' & E & _ & Hall); [|exact Hgood|].
    + intros x m Hm. apply threatIntelItem_spec; exact Hm.
    + exists out, h'. split; [|exact Hall].
      cbn [enrich threatIntel]. unfold mapped, bind. now rewrite E.
  - destruct (@JsFacts.mapM_Forall2 unit Ext _ _
                (@AnalyticsFacts.GoodEntropy Ext unit)
                (EnrichedWhen "assetContext" hasDevice AssetContext)
                assetContextItem data)
      with (m := h) as (out & h' & E & _ & Hall); [|exact Hgood|].
    + intros x m Hm. apply assetContextItem_spec; exact Hm.
    + exists out, h'. split; [|exact Hall].
      cbn [enrich assetContext]. unfold mapped, bind. now rewrite E.
  - intros key v item. split; [reflexivity|]. split; [reflexivity|].
    eexists. split; [reflexivity|].
    split; [apply JsFacts.prop_setProp_eq|].
    intros k Hk. now apply JsFacts.prop_setProp_ne.
Qed.

(** *** From collection to enrichment, on the service as shipped *)

Lemma GoodEntropy_Advances {S} (m m' : Machine S Ext) :
  HostFacts.Advances m m' ->
  AnalyticsFacts.GoodEntropy m -> AnalyticsFacts.GoodEntropy m'.
Proof.
  intros (_ & _ & _ & _ & _ & _ & (j & Hj)) Hgood n. rewrite Hj. apply Hgood.
Qed.

(** A plugin that only reads the clock and draws, run from a service: what
    it returns on the host is what the service gets, and the draws left
    are draws of [0,1) again. *)
Lemma liftHost_good {S A} (c : Plugin Ext A) (P : A -> Prop)
    (m : Machine S Ext) :
  HostFacts.hostOnly c ->
  (forall h a h',
      AnalyticsFacts.GoodEntropy h -> c h = (Normal a, h') -> P a) ->
  AnalyticsFacts.GoodEntropy m ->
  exists a m',
    liftHost c m = (Normal a, m')
    /\ P a
    /\ this m' = this m
    /\ AnalyticsFacts.GoodEntropy m'
    /\ subscribers m' = subscribers m.
Proof.
  intros Hc HP Hgood.
  destruct (ProcessingFacts.liftHost_hostOnly (S := S) Hc m)
    as (a & m' & E & Hadv).
  exists a, m'. split; [exact E|].
  destruct (ProcessingFacts.liftHost_inv _ _ E) as (h & Eh & Hthis).
  split; [eapply HP; [|exact Eh]; exact Hgood|]. split; [exact Hthis|].
  split; [eapply GoodEntropy_Advances; eassumption|].
  now destruct Hadv as (_ & _ & _ & Hsubs & _).
Qed.

Lemma Forall2_Forall {A B} (P : A -> Prop) (R : A -> B -> Prop)
    (Q : B -> Prop) xs ys :
  (forall x y, P x -> R x y -> Q y) ->
  Forall P xs -> Forall2 R xs ys -> Forall Q ys.
Proof.
  intros HQ HP HR. induction HR as [|x y xs ys Hxy _ IH]; constructor.
  - eapply HQ; [|exact Hxy]. now inversion HP.
  - apply IH. now inversion HP.
Qed.

(** Whether the raw records of a source of type [t] carry an IP address,
    and whether they carry a device id or a resource. *)
Definition carriesIp (t : SourceType) : bool :=
  match t with IDS_IPS | Firewall => true | _ => false end.

Definition carriesDevice (t : SourceType) : bool :=
  match t with SCADA | PLC | HMI | CloudAPI => true | _ => false end.

Definition Carries (t : SourceType) (record : JsFields) : Prop :=
  truthy (jsOr (prop "sourceIP" record) (prop "destinationIP" record))
  = carriesIp t
  /\ truthy (jsOr (prop "deviceId" record) (prop "resource" record))
     = carriesDevice t.

Lemma simulateRecord_carries ds
    (m : Machine (Ingestion.DataIngestionService Ext) Ext) :
  exists record m',
    Ingestion.simulateRecord ds m = (Normal record, m')
    /\ Carries (ds_type ds) record.
Proof.
  destruct (IngestionFacts.simulateRecord_hostOnly ds m)
    as (record & m' & E & _).
  exists record, m'. split; [exact E|].
  revert E. unfold Ingestion.simulateRecord, Ingestion.pickStr,
    Ingestion.randomIP, Ingestion.randomBelow, pick, Carries.
  destruct (ds_type ds); run_through; intros [= <- _]; cbn;
    split; reflexivity.
Qed.

Lemma simulateRecords_carries count ds
    (m : Machine (Ingestion.DataIngestionService Ext) Ext) :
  exists records m',
    Ingestion.simulateRecords count ds m = (Normal records, m')
    /\ Forall (Carries (ds_type ds)) records.
Proof.
  revert m. induction count as [|n IH]; intros m;
    cbn [Ingestion.simulateRecords].
  - exists [], m. split; [reflexivity|constructor].
  - destruct (simulateRecord_carries ds m) as (record & m1 & E1 & C1).
    destruct (IH m1) as (records & m2 & E2 & Hall).
    exists (record :: records), m2. unfold bind. rewrite E1, E2.
    split; [reflexivity|now constructor].
Qed.

Lemma simulateDataCollection_carries ds
    (m : Machine (Ingestion.DataIngestionService Ext) Ext) :
  exists batch m',
    Ingestion.simulateDataCollection ds m = (Normal batch, m')
    /\ Forall (Carries (ds_type ds)) batch.
Proof.
  unfold Ingestion.simulateDataCollection, Ingestion.randomBelow.
  unfold bind at 1. unfold bind at 1. unfold Math_random at 1.
  unfold ret at 1. unfold bind at 1.
  match goal with
  | |- context [Ingestion.simulateRecords ?c ds ?m1] =>
      destruct (simulateRecords_carries c ds m1) as (records & m2 & E & Hall)
  end.
  rewrite E. unfold bind, Math_random, ret.
  eexists _, _. split; [reflexivity|exact Hall].
Qed.

(** The enrichments a processed record has, by the type of the source it
    was collected from. *)
Definition EnrichedAs (t : SourceType) (r : NormalizedData) : Prop :=
  if carriesIp t
  then enriched r = Some true
       /\ exists v, ThreatIntel v /\ enrichments r = Some [("threatIntel", v)]
  else if carriesDevice t
  then enriched r = Some true
       /\ exists v, AssetContext v /\ enrichments r = Some [("assetContext", v)]
  else enriched r = None /\ enrichments r = None.

Lemma configured_processor (environment : EnvironmentType) sourceType :
  exists prefix,
    selectProcessor (@configured Ext _) environment sourceType
    = environmentProcessor prefix (showEnvironment environment).
Proof.
  unfold selectProcessor, configured.
  destruct environment; cbn; eexists; reflexivity.
Qed.

(** The batch [processData] emits on the service as shipped: the records
    normalized by the processor of the environment, then passed through
    threat-intel, then through asset-context. *)
Lemma configured_processData (m : Machine Svc Ext) environment sourceType data :
  AnalyticsFacts.GoodEntropy m ->
  processors (this m) = processors configured ->
  enrichers (this m) = enrichers configured ->
  exists processed m' normalizedItems withIntel,
    processData environment sourceType data m = (Normal processed, m')
    /\ Forall2
         (NormalizedFrom
            (setProp "environment" (JsString (showEnvironment environment))))
         data normalizedItems
    /\ Forall2 (EnrichedWhen "threatIntel" hasIpAddress ThreatIntel)
         normalizedItems withIntel
    /\ Forall2 (EnrichedWhen "assetContext" hasDevice AssetContext)
         withIntel (pd_data processed)
    /\ enrichedCount processed = Z.of_nat (List.length (pd_data processed))
    /\ (pd_environment processed, pd_sourceType processed,
        originalCount processed, normalizedCount processed)
       = (environment, sourceType, Z.of_nat (List.length data),
          Z.of_nat (List.length normalizedItems))
    /\ this m' = this m
    /\ subscribers m' = subscribers m
    /\ AnalyticsFacts.GoodEntropy m'.
Proof.
  intros Hgood Hprocessors Henrichers.
  destruct (configured_processor environment sourceType) as (prefix & Hsel).
  unfold processData. unfold bind at 1. unfold getThis at 1.
  unfold selectProcessor in *. rewrite Hprocessors, Henrichers, Hsel.
  unfold bind at 1.
  destruct (@liftHost_good Svc _
              (normalize (environmentProcessor prefix
                            (showEnvironment environment)) data)
              (Forall2
                 (NormalizedFrom
                    (setProp "environment"
                       (JsString (showEnvironment environment)))) data) m)
    as (normalizedItems & m1 & E1 & Hn & Ht1 & Hg1 & Hs1).
  { apply HostFacts.hostOnly_mapM. intros.
    apply ProcessingFacts.normalizeItem_hostOnly. }
  { intros h a h' _ E.
    destruct (normalize_spec prefix
                (setProp "environment" (JsString (showEnvironment environment)))
                data h) as (out & h2 & E2 & Hall).
    assert (Heq : (Normal a, h') = (Normal out, h2))
      by (rewrite <- E; exact E2).
    now injection Heq as -> _. }
  { exact Hgood. }
  rewrite E1. unfold bind at 1.
  cbn [JsMap.values map snd enrichers configured enrichAll canEnrich
       threatIntel assetContext enrich enrichedData replacement
       Processing.normalizedData].
  unfold bind at 1. unfold bind at 1.
  destruct (@liftHost_good Svc _ (mapped threatIntelItem normalizedItems)
              (fun e =>
                 exists out,
                   e = OtherArray out normalizedItems
                   /\ Forall2
                        (EnrichedWhen "threatIntel" hasIpAddress ThreatIntel)
                        normalizedItems out) m1)
    as (e2 & m2 & E2 & (withIntel & -> & Hi) & Ht2 & Hg2 & Hs2).
  { apply ProcessingFacts.mapped_hostOnly. intros.
    apply ProcessingFacts.threatIntelItem_hostOnly. }
  { intros h a h' Hh E.
    destruct (@JsFacts.mapM_Forall2 unit Ext _ _
                (@AnalyticsFacts.GoodEntropy Ext unit)
                (EnrichedWhen "threatIntel" hasIpAddress ThreatIntel)
                threatIntelItem normalizedItems)
      with (m := h) as (out & h2 & E' & _ & Hall);
      [intros x h0 Hh0; apply threatIntelItem_spec; exact Hh0|exact Hh|].
    unfold mapped, bind in E. rewrite E' in E. unfold ret in E.
    injection E as <- _. exists out. auto. }
  { exact Hg1. }
  rewrite E2. unfold ret at 1.
  cbn [assign replacement enrichedData Processing.normalizedData].
  unfold bind at 1. unfold bind at 1.
  destruct (@liftHost_good Svc _ (mapped assetContextItem withIntel)
              (fun e =>
                 exists out,
                   e = OtherArray out withIntel
                   /\ Forall2
                        (EnrichedWhen "assetContext" hasDevice AssetContext)
                        withIntel out) m2)
    as (e3 & m3 & E3 & (out & -> & Ha) & Ht3 & Hg3 & Hs3).
  { apply ProcessingFacts.mapped_hostOnly. intros.
    apply ProcessingFacts.assetContextItem_hostOnly. }
  { intros h a h' Hh E.
    destruct (@JsFacts.mapM_Forall2 unit Ext _ _
                (@AnalyticsFacts.GoodEntropy Ext unit)
                (EnrichedWhen "assetContext" hasDevice AssetContext)
                assetContextItem withIntel)
      with (m := h) as (out & h2 & E' & _ & Hall);
      [intros x h0 Hh0; apply assetContextItem_spec; exact Hh0|exact Hh|].
    unfold mapped, bind in E. rewrite E' in E. unfold ret in E.
    injection E as <- _. exists out. auto. }
  { exact Hg2. }
  rewrite E3. unfold ret at 1.
  cbn [assign replacement enrichedData Processing.normalizedData
       enrichedItems].
  unfold ret at 1. unfold bind, Date_now, ret.
  eexists _, _, normalizedItems, withIntel. split; [reflexivity|].
  cbn [pd_data enrichedCount pd_environment pd_sourceType originalCount
       normalizedCount this subscribers].
  repeat (split; [solve [auto]|]).
  split; [congruence|]. split; [congruence|exact Hg3].
Qed.

(** X13. Which enrichment a collected record gets on the service as shipped is
    decided by the type of its source: records of an IDS/IPS or a firewall
    get a threat-intelligence enrichment and nothing else, records of a
    SCADA, PLC, HMI or cloud API source get an asset context and nothing
    else, and records of any other source (SIEM, EDR, Other) come out
    without any enrichment.  The batch emitted has one record per
    collected record. *)
Theorem enrichment_by_source_type (ds : DataSource)
    (mi : Machine (Ingestion.DataIngestionService Ext) Ext)
    (m : Machine Svc Ext) :
  AnalyticsFacts.GoodEntropy m ->
  this m = configured ->
  exists batch mi' processed m',
    Ingestion.simulateDataCollection ds mi = (Normal batch, mi')
    /\ processData (ds_environment ds) (showSourceType (ds_type ds)) batch m
       = (Normal processed, m')
    /\ Forall (EnrichedAs (ds_type ds)) (pd_data processed)
    /\ enrichedCount processed = Z.of_nat (List.length batch).
Proof.
  intros Hgood Hthis.
  destruct (simulateDataCollection_carries ds mi) as (batch & mi' & E & Hall).
  destruct (@configured_processData m (ds_environment ds)
              (showSourceType (ds_type ds)) batch Hgood
              (f_equal (@processors Ext) Hthis)
              (f_equal (@enrichers Ext) Hthis))
    as (processed & m' & normalizedItems & withIntel & Ep & Hn & Hi & Ha & Hc
        & _).
  exists batch, mi', processed, m'. split; [exact E|]. split; [exact Ep|].
  assert (Hchain : Forall2
            (fun item r =>
               exists r0 r1,
                 NormalizedFrom
                   (setProp "environment"
                      (JsString (showEnvironment (ds_environment ds)))) item r0
                 /\ EnrichedWhen "threatIntel" hasIpAddress ThreatIntel r0 r1
                 /\ EnrichedWhen "assetContext" hasDevice AssetContext r1 r)
            batch (pd_data processed)).
  { eapply JsFacts.Forall2_trans with
      (R2 := fun r0 r =>
               exists r1,
                 EnrichedWhen "threatIntel" hasIpAddress ThreatIntel r0 r1
                 /\ EnrichedWhen "assetContext" hasDevice AssetContext r1 r);
      [|exact Hn|].
    - intros x y z Hxy (r1 & H1 & H2). exists y, r1. auto.
    - eapply JsFacts.Forall2_trans; [|exact Hi|exact Ha].
      intros x y z Hxy Hyz. exists y. auto. }
  split.
  - eapply Forall2_Forall; [|exact Hall|exact Hchain].
    intros item r (Hip & Hdev) (r0 & r1 & (Hdata & Hflags & _) & H1 & H2).
    injection Hflags as _ Hen0 Hes0.
    assert (Hip0 : hasIpAddress r0 = carriesIp (ds_type ds)).
    { unfold hasIpAddress. rewrite Hdata.
      rewrite !JsFacts.prop_setProp_ne by discriminate. exact Hip. }
    assert (Hdev0 : hasDevice r0 = carriesDevice (ds_type ds)).
    { unfold hasDevice. rewrite Hdata.
      rewrite !JsFacts.prop_setProp_ne by discriminate. exact Hdev. }
    unfold EnrichedWhen in H1, H2. unfold EnrichedAs.
    rewrite Hip0 in H1.
    destruct (carriesIp (ds_type ds)) eqn:Eip.
    + destruct H1 as (v & Hv & ->).
      assert (Hd1 : hasDevice (addEnrichment "threatIntel" v r0) = false).
      { change (hasDevice (addEnrichment "threatIntel" v r0))
          with (hasDevice r0). rewrite Hdev0.
        revert Eip. unfold carriesIp, carriesDevice.
        now destruct (ds_type ds). }
      rewrite Hd1 in H2. subst r. cbn. rewrite Hes0. cbn.
      split; [reflexivity|]. exists v. auto.
    + subst r1. rewrite Hdev0 in H2.
      destruct (carriesDevice (ds_type ds)).
      * destruct H2 as (v & Hv & ->). cbn. rewrite Hes0. cbn.
        split; [reflexivity|]. exists v. auto.
      * subst r. auto.
  - rewrite Hc. f_equal. symmetry. eapply Forall2_length. exact Hchain.
Qed.

(** X14. New data from the ingestion layer, on a service with the shipped
    processors and enrichers and any subscribers, on a host whose draws are
    doubles of [0,1).  Data of an unknown source is dropped and nothing happens.
    Otherwise every subscriber is run once, in registration order, on one
    batch that carries the environment and the type of the source and as
    many records as were collected, the three counts being that number;
    the service itself is left as it was. *)
Theorem new_data_is_delivered (m : Machine Svc Ext) (data : list JsFields) :
  AnalyticsFacts.GoodEntropy m ->
  processors (this m) = processors configured ->
  enrichers (this m) = enrichers configured ->
  handleNewData None data m = (Normal tt, m)
  /\ forall d,
       exists processed m',
         handleNewData (Some d) data m = (Normal tt, m')
         /\ (pd_environment processed, pd_sourceType processed)
            = (ds_environment d, showSourceType (ds_type d))
         /\ (originalCount processed, normalizedCount processed,
             enrichedCount processed)
            = (Z.of_nat (List.length data), Z.of_nat (List.length data),
               Z.of_nat (List.length data))
         /\ List.length (pd_data processed) = List.length data
         /\ this m' = this m
         /\ subscribers m'
            = fold_left (fun ext callback => snd (callback processed ext))
                (processingCallbacks (this m)) (subscribers m).
Proof.
  intros Hgood Hprocessors Henrichers. split; [reflexivity|]. intros d.
  destruct (@configured_processData m (ds_environment d)
              (showSourceType (ds_type d)) data Hgood Hprocessors Henrichers)
    as (processed & m1 & normalizedItems & withIntel & Ep & Hn & Hi & Ha & Hc
        & Hfields & Hthis & Hsubs & _).
  injection Hfields as Henv Htype Horiginal Hnormalized.
  assert (Hlen : List.length (pd_data processed) = List.length data).
  { apply Forall2_length in Hn, Hi, Ha. congruence. }
  exists processed. eexists. split.
  { cbn [handleNewData]. erewrite JsFacts.bind_Normal by exact Ep.
    unfold notifyProcessingCallbacks.
    erewrite JsFacts.bind_Normal by reflexivity.
    apply HostFacts.notifyCallbacks_run. }
  cbn [this subscribers]. rewrite Hthis, Hsubs.
  split; [now rewrite Henv, Htype|]. split.
  { rewrite Horiginal, Hnormalized, Hc, Hlen.
    apply Forall2_length in Hn. now rewrite Hn. }
  split; [exact Hlen|]. split; [reflexivity|].
  apply HostFacts.deliver_fold.
Qed.

End Facts.
End NormalizationFacts.

(** *** A SCADA batch through the shipped processing service *)

Module NormalizationExample.
Import Processing NormalizationFacts.

#[local] Existing Instance Examples.runtime.

Definition host : Machine unit nat :=
  mkMachine tt Examples.ticking (fun _ => 1 # 2) [] 0%nat 0%nat [].

Definition shipped : Machine (DataProcessingService nat) nat :=
  mkMachine configured Examples.ticking (fun _ => 1 # 2) [] 0%nat 0%nat [].

Lemma host_good : AnalyticsFacts.GoodEntropy host.
Proof.
  intros n. apply Float64Facts.isUnit_unit. vm_compute. reflexivity.
Qed.

Lemma shipped_good : AnalyticsFacts.GoodEntropy shipped.
Proof.
  intros n. apply Float64Facts.isUnit_unit. vm_compute. reflexivity.
Qed.

Lemma builtin_enrichers_add_witness :
  exists out h',
    enrich threatIntel [Examples.observed] host
    = (Normal (OtherArray out [Examples.observed]), h')
    /\ List.length out = 1%nat.
Proof.
  destruct (@builtin_enrichers_add nat [Examples.observed] host host_good)
    as ((out & h' & E & Hall) & _).
  exists out, h'. split; [exact E|].
  apply Forall2_length in Hall. now rewrite <- Hall.
Defined.

Lemma enrichment_by_source_type_witness :
  exists batch mi' processed m',
    Ingestion.simulateDataCollection IngestionExample.scada
      IngestionExample.machine = (Normal batch, mi')
    /\ processData OT "SCADA" batch shipped = (Normal processed, m')
    /\ Forall (EnrichedAs SCADA) (pd_data processed)
    /\ enrichedCount processed = Z.of_nat (List.length batch).
Proof.
  exact (@enrichment_by_source_type nat _ IngestionExample.scada
           IngestionExample.machine shipped shipped_good eq_refl).
Defined.

Lemma new_data_is_delivered_witness :
  exists processed m',
    handleNewData (Some IngestionExample.scada) [IngestionExample.reading 1]
      shipped = (Normal tt, m')
    /\ (pd_environment processed, pd_sourceType processed) = (OT, "SCADA")
    /\ enrichedCount processed = 1.
Proof.
  destruct (@new_data_is_delivered nat _ shipped [IngestionExample.reading 1]
              shipped_good eq_refl eq_refl)
    as (_ & Hsome).
  destruct (Hsome IngestionExample.scada)
    as (processed & m' & Hrun & Hfields & Hcounts & _).
  exists processed, m'. split; [exact Hrun|]. split; [exact Hfields|].
  now injection Hcounts.
Defined.

End NormalizationExample.

(* ================================================================= *)
(** ** Analytics: the built-in detector, monitor and engines, the caches *)

Module DetectionFacts.
Import Processing Analytics.

Section Facts.
Context {Ext : Type} `{JsRuntime}.
Notation Svc := (AnalyticsService Ext).

(** *** The default anomaly detector *)

(** An anomaly raised for [item]: it names the record as its only related
    event and the record's source as its data source, it is new, its
    confidence is 70 to 99, its type and severity are among those the
    detector knows. *)
Definition Flags (item : NormalizedData) (a : Anomaly) : Prop :=
  relatedEvents a = [nd_id item]
  /\ an_dataSourceId a = src_id (nd_source item)
  /\ (an_status a, an_assetId a) = ("new", None)
  /\ 70 <= confidence a < 100
  /\ (exists t, an_type a = Some t
                /\ In t ["network"; "user"; "system"; "application"; "ot";
                         "cloud"])
  /\ (exists s, an_severity a = Some s
                /\ In s ["critical"; "high"; "medium"; "low"]).

(** What the detector finds in one record: nothing, or one anomaly. *)
Definition Detected (item : NormalizedData) (found : list Anomaly) : Prop :=
  found = [] \/ exists a, found = [a] /\ Flags item a.

Lemma detectItem_spec item (h : Machine unit Ext) :
  AnalyticsFacts.GoodEntropy h ->
  exists found h',
    detectItem item h = (Normal found, h')
    /\ AnalyticsFacts.GoodEntropy h'
    /\ Detected item found.
Proof.
  intros Hgood. unfold detectItem, Detected.
  destruct h as [[] clk ent tms nt subs cons].
  assert (Hent : forall n, Float64.unit (ent n)) by exact Hgood.
  unfold bind at 1. unfold Math_random at 1. cbn [entropy clock this timers
    nextTimer subscribers console].
  destruct (Qlt_le_dec (ent 0%nat) (Float64.toQ Float64.lit_0_05)).
  2:{ eexists _, _. split; [reflexivity|].
      split; [intros n; cbn; apply Hent|now left]. }
  destruct (@JsFacts.choice_In string
              ["network"; "user"; "system"; "application"; "ot"; "cloud"]
              (ent 2%nat) (Hent 2%nat)) as (t & Ht & Htin); [discriminate|].
  destruct (@JsFacts.choice_In string ["critical"; "high"; "medium"; "low"]
              (ent 3%nat) (Hent 3%nat)) as (s & Hs & Hsin); [discriminate|].
  pose proof (@floorTimes_bounds _ 30 (Hent 4%nat) eq_refl) as Hconf.
  unfold pick. run_through. rewrite Ht, Hs.
  eexists _, _. split; [reflexivity|].
  split; [intros n; cbn; apply Hent|]. right. eexists. split; [reflexivity|].
  unfold Flags. cbn.
  split; [reflexivity|]. split; [reflexivity|]. split; [reflexivity|].
  split; [lia|]. split; [exists t; auto|exists s; auto].
Qed.

Lemma concat_length_le {A B} (R : A -> list B -> Prop) xs ls :
  (forall x l, R x l -> (List.length l <= 1)%nat) ->
  Forall2 R xs ls -> (List.length (List.concat ls) <= List.length xs)%nat.
Proof.
  intros HR Hall. induction Hall as [|x l xs ls Hxl _ IH]; cbn; [lia|].
  rewrite length_app. specialize (HR x l Hxl). lia.
Qed.

(** X15. On a host whose draws are doubles of [0,1) the default detector never throws.
    What it returns is, record by record and in the order of the batch,
    nothing or one anomaly raised for that record: at most as many
    anomalies as records, none for an empty batch. *)
Theorem default_detector_flags (data : list NormalizedData)
    (h : Machine unit Ext) :
  AnalyticsFacts.GoodEntropy h ->
  exists anomalies h' found,
    detector_detectAnomalies defaultAnomalyDetector data h
    = (Normal anomalies, h')
    /\ anomalies = List.concat found
    /\ Forall2 Detected data found
    /\ (List.length anomalies <= List.length data)%nat.
Proof.
  intros Hgood.
  destruct (@JsFacts.mapM_Forall2 unit Ext _ _
              (@AnalyticsFacts.GoodEntropy Ext unit) Detected
              detectItem data)
    with (m := h) as (found & h' & E & _ & Hall); [|exact Hgood|].
  { intros x m Hm. apply detectItem_spec; exact Hm. }
  exists (List.concat found), h', found.
  split; [cbn; unfold bind; rewrite E; reflexivity|].
  split; [reflexivity|]. split; [exact Hall|].
  eapply concat_length_le; [|exact Hall].
  intros x l [->|(a & -> & _)]; cbn; lia.
Qed.

(** *** The default compliance monitor and the status cache *)

Definition statuses : list string :=
  ["compliant"; "non_compliant"; "partially_compliant"; "not_applicable"].

(** The ids under which the controls of the catalog are cached. *)
Definition catalogIds : list string :=
  map (fun entry => fst (fst entry) +++ "-" +++ snd (fst entry)) controlCatalog.

(** One assessment of a control of the catalog. *)
Definition Assessed (r : ComplianceResult) : Prop :=
  exists entry status t,
    In entry controlCatalog
    /\ In status statuses
    /\ control r
       = Some (mkControl (fst (fst entry) +++ "-" +++ snd (fst entry))
                 (fst (fst entry)) (snd (fst entry)) (snd entry)
                 ("Compliance control for " +++ snd entry)
                 ("Requirements for " +++ snd entry) (Some status) t)
    /\ compliant r = String.eqb status "compliant"
    /\ details r
       = "Compliance check for " +++ snd entry +++ " resulted in " +++ status.

Lemma defaultComplianceMonitor_spec data (h : Machine unit Ext) :
  AnalyticsFacts.GoodEntropy h ->
  exists results h',
    monitor_checkCompliance defaultComplianceMonitor data h
    = (Normal results, h')
    /\ AnalyticsFacts.GoodEntropy h'
    /\ subscribers h' = subscribers h
    /\ (data = [] -> results = [] /\ h' = h)
    /\ (results = [] \/ exists r, results = [r] /\ Assessed r).
Proof.
  intros Hgood. unfold defaultComplianceMonitor, monitor_checkCompliance.
  destruct data as [|item rest].
  { exists [], h. split; [reflexivity|]. split; [exact Hgood|].
    split; [reflexivity|]. split; [auto|now left]. }
  destruct h as [[] clk ent tms nt subs cons].
  assert (Hent : forall n, Float64.unit (ent n)) by exact Hgood.
  unfold bind at 1. unfold Math_random at 1. cbn [entropy clock this timers
    nextTimer subscribers console].
  destruct (Qlt_le_dec (ent 0%nat) (Float64.toQ Float64.lit_0_1)).
  2:{ eexists _, _. split; [reflexivity|].
      split; [intros n; cbn; apply Hent|]. split; [reflexivity|].
      split; [discriminate|now left]. }
  destruct (@JsFacts.choice_In _ controlCatalog (ent 1%nat) (Hent 1%nat))
    as ([[frameworkId controlId] name] & Hc & Hcin); [discriminate|].
  destruct (@JsFacts.choice_In _ statuses (ent 2%nat) (Hent 2%nat))
    as (status & Hs & Hsin); [discriminate|].
  unfold statuses in Hs.
  unfold pick. run_through. rewrite Hc, Hs.
  eexists _, _. split; [reflexivity|].
  split; [intros n; cbn; apply Hent|]. split; [reflexivity|].
  split; [discriminate|].
  right. eexists. split; [reflexivity|].
  exists (frameworkId, controlId, name), status. eexists.
  split; [exact Hcin|]. split; [exact Hsin|]. cbn.
  split; [reflexivity|]. split; reflexivity.
Qed.

(** X16. On a host whose draws are doubles of [0,1) the default monitor never throws.
    For an empty batch it returns nothing and draws nothing; otherwise it
    returns nothing or one assessment of one control of its catalog, found
    compliant exactly when the status drawn is ['compliant']. *)
Theorem default_monitor_assesses (data : list NormalizedData)
    (h : Machine unit Ext) :
  AnalyticsFacts.GoodEntropy h ->
  exists results h',
    monitor_checkCompliance defaultComplianceMonitor data h
    = (Normal results, h')
    /\ (data = [] -> results = [] /\ h' = h)
    /\ (results = [] \/ exists r, results = [r] /\ Assessed r)
    /\ Forall (fun r => exists c, control r = Some c
                                  /\ In (cc_id c) catalogIds) results.
Proof.
  intros Hgood.
  destruct (defaultComplianceMonitor_spec data Hgood)
    as (results & h' & E & _ & _ & Hempty & Hres).
  exists results, h'. repeat (split; [assumption|]).
  destruct Hres as [->|(r & -> & entry & status & t & Hin & _ & Hc & _)];
    constructor; [|constructor].
  eexists. split; [exact Hc|]. cbn [cc_id]. unfold catalogIds.
  apply in_map_iff. exists entry. auto.
Qed.

(** The status cache holds controls of the catalog only, each once. *)
Definition Catalogued (cache : JsMap.t ComplianceControl) : Prop :=
  JsMap.wf cache /\ incl (JsMap.keys cache) catalogIds.

(** X17. As long as no compliance monitor is registered, the status cache holds
    the latest assessment of each control assessed so far and never more
    than the four controls of the catalog, however many batches are
    analysed. *)
Theorem compliance_status_bounded (m : Machine Svc Ext) environment sourceType
    data :
  AnalyticsFacts.GoodEntropy m ->
  complianceMonitors (this m) = JsMap.empty ->
  Catalogued (complianceStatus (this m)) ->
  exists results m' listed,
    checkCompliance environment sourceType data m = (Normal results, m')
    /\ AnalyticsFacts.GoodEntropy m'
    /\ complianceMonitors (this m') = JsMap.empty
    /\ Catalogued (complianceStatus (this m'))
    /\ getComplianceStatus m' = (Normal listed, m')
    /\ (List.length listed <= 4)%nat
    /\ Forall (fun r => exists c, control r = Some c
                                  /\ JsMap.get (cc_id c)
                                       (complianceStatus (this m')) = Some c)
         results.
Proof.
  intros Hgood Hnone (Hwf & Hincl).
  destruct m as [s clk ent tms nt subs cons].
  cbn [this] in Hnone, Hwf, Hincl.
  destruct (@defaultComplianceMonitor_spec data
              (mkMachine tt clk ent tms nt subs cons) Hgood)
    as (results & h' & E & Hg' & _ & _ & Hres).
  unfold checkCompliance. unfold bind at 1. unfold getThis at 1.
  cbn [this]. unfold select. rewrite Hnone. cbn [JsMap.get JsMap.empty].
  unfold bind at 1.
  rewrite (@ProcessingFacts.liftHost_Normal Ext Svc _ _
             (mkMachine s clk ent tms nt subs cons) results h' E).
  unfold getComplianceStatus. run_through.
  cbn [complianceStatus with_complianceStatus complianceMonitors].
  match goal with
  | |- context [fold_left ?f results ?c] => set (cache := fold_left f results c)
  end.
  assert (Hcat : Catalogued cache
                 /\ Forall (fun r => exists c, control r = Some c
                                      /\ JsMap.get (cc_id c) cache = Some c)
                      results).
  { subst cache.
    destruct Hres as [->|(r & -> & entry & status & t & Hin & _ & Hc & _)];
      cbn [fold_left].
    - split; [now split|constructor].
    - rewrite Hc. cbn [cc_id]. split; [split|].
      + now apply JsMap.wf_set.
      + rewrite JsMap.keys_set. destruct (JsMap.has _ _); [assumption|].
        apply incl_app; [assumption|]. intros k [<-|[]].
        unfold catalogIds. apply in_map_iff. exists entry. auto.
      + constructor; [|constructor]. eexists. split; [exact Hc|].
        cbn [cc_id]. apply JsMap.get_set_eq. }
  destruct Hcat as ((Hwf' & Hincl') & Hstored).
  eexists _, _, _. split; [reflexivity|].
  split; [exact Hg'|]. split; [exact Hnone|]. split; [now split|].
  split; [reflexivity|]. split; [|exact Hstored].
  unfold JsMap.values. rewrite length_map.
  rewrite <- (length_map fst). change (map fst cache) with (JsMap.keys cache).
  apply (NoDup_incl_length Hwf') in Hincl'. exact Hincl'.
Qed.

(** *** One analysis, stage by stage *)

(** The host a plugin runs on when a service calls it, and the machine of
    the service once the plugin has returned. *)
Definition hostOf {S} (m : Machine S Ext) : Machine unit Ext :=
  mkMachine tt (clock m) (entropy m) (timers m) (nextTimer m) (subscribers m)
    (console m).

Definition onHost {S} (s : S) (h : Machine unit Ext) : Machine S Ext :=
  mkMachine s (clock h) (entropy h) (timers h) (nextTimer h) (subscribers h)
    (console h).

Lemma liftHost_run {S A} (c : Plugin Ext A) (m : Machine S Ext) :
  liftHost c m = (fst (c (hostOf m)), onHost (this m) (snd (c (hostOf m)))).
Proof. unfold liftHost, hostOf, onHost. now destruct (c _). Qed.

Lemma hostOf_onHost {S} (s : S) (h : Machine unit Ext) : hostOf (onHost s h) = h.
Proof. now destruct h as [[] ? ? ? ? ? ?]. Qed.

(** The caches after a batch of anomalies, and after a batch of results. *)
Definition cacheAnomalies (newAnomalies : list Anomaly)
    (cache : JsMap.t Anomaly) : JsMap.t Anomaly :=
  fold_left (fun c anomaly => JsMap.set (an_id anomaly) anomaly c)
    newAnomalies cache.

Definition cacheControls (results : list ComplianceResult)
    (cache : JsMap.t ComplianceControl) : JsMap.t ComplianceControl :=
  fold_left
    (fun c result =>
       match control result with
       | Some ctl => JsMap.set (cc_id ctl) ctl c
       | None => c
       end)
    results cache.

Lemma calculateRiskScores_run (m : Machine Svc Ext) environment sourceType
    data r h' :
  engine_calculateRiskScores
    (select (riskScoreEngines (this m)) defaultRiskScoreEngine environment
       sourceType) data (hostOf m) = (r, h') ->
  calculateRiskScores environment sourceType data m
  = match r with
    | Normal scores =>
        (Normal scores,
         onHost (with_riskScores (this m)
                   (cacheScores scores (riskScores (this m))))
           h')
    | Throws e => (Throws e, onHost (this m) h')
    end.
Proof.
  intros E. unfold calculateRiskScores. unfold bind at 1. unfold getThis at 1.
  unfold bind at 1. rewrite liftHost_run, E. now destruct r.
Qed.

Lemma detectAnomalies_run (m : Machine Svc Ext) environment sourceType
    data r h' :
  detector_detectAnomalies
    (select (anomalyDetectors (this m)) defaultAnomalyDetector environment
       sourceType) data (hostOf m) = (r, h') ->
  detectAnomalies environment sourceType data m
  = match r with
    | Normal found =>
        (Normal found,
         onHost (with_anomalies (this m)
                   (cacheAnomalies found (anomalies (this m)))) h')
    | Throws e => (Throws e, onHost (this m) h')
    end.
Proof.
  intros E. unfold detectAnomalies. unfold bind at 1. unfold getThis at 1.
  unfold bind at 1. rewrite liftHost_run, E. now destruct r.
Qed.

Lemma checkCompliance_run (m : Machine Svc Ext) environment sourceType
    data r h' :
  monitor_checkCompliance
    (select (complianceMonitors (this m)) defaultComplianceMonitor environment
       sourceType) data (hostOf m) = (r, h') ->
  checkCompliance environment sourceType data m
  = match r with
    | Normal results =>
        (Normal results,
         onHost (with_complianceStatus (this m)
                   (cacheControls results (complianceStatus (this m)))) h')
    | Throws e => (Throws e, onHost (this m) h')
    end.
Proof.
  intros E. unfold checkCompliance. unfold bind at 1. unfold getThis at 1.
  unfold bind at 1. rewrite liftHost_run, E. now destruct r.
Qed.

(** Caching keeps the last anomaly of each id. *)
Lemma cacheAnomalies_get (id : string) (found : list Anomaly) :
  forall cache,
    (exists stored,
        JsMap.get id (cacheAnomalies found cache) = Some stored
        /\ In stored found /\ an_id stored = id)
    \/ (JsMap.get id (cacheAnomalies found cache) = JsMap.get id cache
        /\ ~ In id (map an_id found)).
Proof.
  induction found as [|x r IH]; intros cache; cbn.
  - right. auto.
  - destruct (IH (JsMap.set (an_id x) x cache))
      as [(stored & Hget & Hin & Hid)|(Hget & Hnotin)].
    + left. exists stored. auto.
    + destruct (string_dec (an_id x) id) as [E|E].
      * left. exists x. subst id. unfold cacheAnomalies in Hget.
        rewrite JsMap.get_set_eq in Hget. auto.
      * right. unfold cacheAnomalies in Hget.
        rewrite JsMap.get_set_ne in Hget by assumption.
        split; [assumption|]. intros [Hx|Hx]; congruence.
Qed.

(** X18. A failure in the middle of an analysis.  When the engine selected for
    the batch has returned its scores and the detector selected for it
    throws, [handleProcessedData] throws what the detector threw: the
    scores are in the cache already and stay there, the anomaly cache and
    the compliance status are as before, and no subscriber is called. *)
Theorem analysis_aborts_after_scores (m : Machine Svc Ext)
    (processedData : ProcessedData) scores h1 e h2 :
  engine_calculateRiskScores
    (select (riskScoreEngines (this m)) defaultRiskScoreEngine
       (pd_environment processedData) (pd_sourceType processedData))
    (pd_data processedData) (hostOf m) = (Normal scores, h1) ->
  detector_detectAnomalies
    (select (anomalyDetectors (this m)) defaultAnomalyDetector
       (pd_environment processedData) (pd_sourceType processedData))
    (pd_data processedData) h1 = (Throws e, h2) ->
  exists m',
    handleProcessedData processedData m = (Throws e, m')
    /\ riskScores (this m')
       = cacheScores scores (riskScores (this m))
    /\ anomalies (this m') = anomalies (this m)
    /\ complianceStatus (this m') = complianceStatus (this m)
    /\ (subscribers m', console m') = (subscribers h2, console h2).
Proof.
  intros Escores Edetect.
  unfold handleProcessedData, analyzeData. unfold bind at 1. unfold bind at 1.
  rewrite (calculateRiskScores_run _ _ _ _ Escores). unfold bind at 1.
  erewrite detectAnomalies_run
    by (cbn [this onHost with_riskScores anomalyDetectors];
        rewrite hostOf_onHost; exact Edetect).
  eexists. split; [reflexivity|]. cbn. auto.
Qed.

(** *** The analysis of a batch on the service as shipped *)

(** The service as the module leaves it: the IT, OT and Cloud engines
    registered, no detector and no monitor registered. *)
Definition Shipped (s : Svc) : Prop :=
  riskScoreEngines s = riskScoreEngines configured
  /\ anomalyDetectors s = JsMap.empty
  /\ complianceMonitors s = JsMap.empty.

Lemma scoreFor_named env vr vb tr tb cr cb er eb w1 w2 w3 w4
    (h : Machine unit Ext) :
  exists score h',
    scoreFor env vr vb tr tb cr cb er eb w1 w2 w3 w4 h = (Normal score, h')
    /\ HostFacts.Advances h h'
    /\ environmentType score = Some env
    /\ exists t, rs_id score = "risk-" +++ env +++ "-" +++ showZ t.
Proof.
  assert (Hhost : HostFacts.hostOnly
                    (@scoreFor Ext env vr vb tr tb cr cb er eb w1 w2 w3 w4))
    by (unfold scoreFor, factor; host_only).
  destruct (Hhost h) as (score & h' & E & Hadv).
  exists score, h'. split; [exact E|]. split; [exact Hadv|].
  clear Hadv Hhost. revert E. destruct h as [[] clk ent tms nt subs cons].
  unfold scoreFor, factor, pick. run_through. intros [= <- _].
  split; [reflexivity|eexists; reflexivity].
Qed.

Lemma shipped_engine (environment : EnvironmentType) sourceType :
  select (riskScoreEngines (@configured Ext)) defaultRiskScoreEngine
    environment sourceType
  = match environment with
    | IT => itRiskScoreEngine
    | OT => otRiskScoreEngine
    | Cloud => cloudRiskScoreEngine
    end.
Proof. destruct environment; reflexivity. Qed.

Lemma shipped_scores (environment : EnvironmentType) sourceType data
    (h : Machine unit Ext) :
  exists score h',
    engine_calculateRiskScores
      (select (riskScoreEngines (@configured Ext)) defaultRiskScoreEngine
         environment sourceType) data h = (Normal [score], h')
    /\ HostFacts.Advances h h'
    /\ environmentType score = Some (showEnvironment environment)
    /\ exists t,
         rs_id score
         = "risk-" +++ showEnvironment environment +++ "-" +++ showZ t.
Proof.
  rewrite shipped_engine.
  destruct environment;
    cbn [engine_calculateRiskScores itRiskScoreEngine otRiskScoreEngine
         cloudRiskScoreEngine showEnvironment];
    unfold bind at 1;
    match goal with
    | |- context [scoreFor ?env ?vr ?vb ?tr ?tb ?cr ?cb ?er ?eb ?w1 ?w2 ?w3 ?w4 h] =>
        destruct (scoreFor_named env vr vb tr tb cr cb er eb w1 w2 w3 w4 h)
          as (score & h' & E & Hadv & Henv & Hid)
    end;
    rewrite E; exists score, h'; auto.
Qed.

Lemma detectItem_hostOnly item : HostFacts.hostOnly (@detectItem Ext _ item).
Proof.
  unfold detectItem. host_only. destruct (Qlt_le_dec _ _); host_only.
Qed.

Lemma default_detector_run data (h : Machine unit Ext) :
  AnalyticsFacts.GoodEntropy h ->
  exists found h',
    detector_detectAnomalies defaultAnomalyDetector data h
    = (Normal (List.concat found), h')
    /\ HostFacts.Advances h h'
    /\ Forall2 Detected data found.
Proof.
  intros Hgood.
  destruct (@JsFacts.mapM_Forall2 unit Ext _ _
              (@AnalyticsFacts.GoodEntropy Ext unit) Detected
              detectItem data)
    with (m := h) as (found & h' & E & _ & Hall); [|exact Hgood|].
  { intros x m Hm. apply detectItem_spec; exact Hm. }
  destruct (HostFacts.hostOnly_mapM detectItem data detectItem_hostOnly h)
    as (found' & h2 & E' & Hadv).
  rewrite E in E'. injection E' as <- <-.
  exists found, h'. split; [cbn; unfold bind; rewrite E; reflexivity|].
  auto.
Qed.

(** X19. One analysis on the service as shipped, on a host whose draws are
    doubles of [0,1): it never throws and calls no subscriber; it yields exactly one
    risk score, that of the engine of the batch's environment whatever the
    records say, at most one anomaly per record, in record order, and at
    most one assessment of a catalog control; and everything it yields can
    be asked back from the caches afterwards (for anomalies that share an
    id, the last one). *)
Theorem shipped_analysis (m : Machine Svc Ext) (processedData : ProcessedData) :
  AnalyticsFacts.GoodEntropy m ->
  Shipped (this m) ->
  exists result m' score found,
    analyzeData processedData m = (Normal result, m')
    /\ AnalyticsFacts.GoodEntropy m'
    /\ Shipped (this m')
    /\ subscribers m' = subscribers m
    /\ (ar_environment result, ar_sourceType result)
       = (pd_environment processedData, pd_sourceType processedData)
    /\ ar_riskScores result = [score]
    /\ environmentType score
       = Some (showEnvironment (pd_environment processedData))
    /\ getRiskScore (rs_id score) m' = (Normal (Some score), m')
    /\ ar_anomalies result = List.concat found
    /\ Forall2 Detected (pd_data processedData) found
    /\ (forall a,
          In a (ar_anomalies result) ->
          exists stored,
            getAnomaly (an_id a) m' = (Normal (Some stored), m')
            /\ In stored (ar_anomalies result)
            /\ an_id stored = an_id a)
    /\ (ar_complianceResults result = []
        \/ exists r c,
             ar_complianceResults result = [r]
             /\ Assessed r
             /\ control r = Some c
             /\ JsMap.get (cc_id c) (complianceStatus (this m')) = Some c).
Proof.
  intros Hgood (Hengines & Hdetectors & Hmonitors).
  set (environment := pd_environment processedData).
  set (sourceType := pd_sourceType processedData).
  set (data := pd_data processedData).
  destruct (shipped_scores environment sourceType data (hostOf m))
    as (score & h1 & E1 & A1 & Henv & _).
  assert (Hg1 : AnalyticsFacts.GoodEntropy h1)
    by (eapply NormalizationFacts.GoodEntropy_Advances; [exact A1|exact Hgood]).
  destruct (default_detector_run data Hg1) as (found & h2 & E2 & A2 & Hfound).
  assert (Hg2 : AnalyticsFacts.GoodEntropy h2)
    by (eapply NormalizationFacts.GoodEntropy_Advances; [exact A2|exact Hg1]).
  destruct (defaultComplianceMonitor_spec data Hg2)
    as (results & h3 & E3 & Hg3 & Hsubs3 & _ & Hres).
  assert (Hsubs : subscribers h3 = subscribers m).
  { destruct A1 as (_ & _ & _ & S1 & _). destruct A2 as (_ & _ & _ & S2 & _).
    rewrite Hsubs3, S2, S1. reflexivity. }
  rewrite <- Hengines in E1.
  assert (E2' : detector_detectAnomalies
                  (select (anomalyDetectors (this m)) defaultAnomalyDetector
                     environment sourceType) data h1
                = (Normal (List.concat found), h2))
    by (rewrite Hdetectors; exact E2).
  assert (E3' : monitor_checkCompliance
                  (select (complianceMonitors (this m))
                     defaultComplianceMonitor environment sourceType) data h2
                = (Normal results, h3))
    by (rewrite Hmonitors; exact E3).
  unfold analyzeData. fold environment sourceType data.
  unfold bind at 1. rewrite (calculateRiskScores_run _ _ _ _ E1).
  unfold bind at 1.
  erewrite detectAnomalies_run
    by (cbn [this onHost with_riskScores anomalyDetectors];
        rewrite hostOf_onHost; exact E2').
  unfold bind at 1.
  erewrite checkCompliance_run
    by (cbn [this onHost with_riskScores with_anomalies complianceMonitors];
        rewrite hostOf_onHost; exact E3').
  unfold bind, Date_now, ret.
  eexists _, _, score, found. split; [reflexivity|].
  unfold getRiskScore, getAnomaly, bind, getThis, ret.
  cbn [this clock entropy timers nextTimer subscribers console onHost
       with_riskScores with_anomalies with_complianceStatus
       riskScoreEngines anomalyDetectors complianceMonitors
       analyticsCallbacks riskScores anomalies complianceStatus
       ar_environment ar_sourceType ar_riskScores ar_anomalies
       ar_complianceResults].
  split; [exact Hg3|]. split; [now repeat split|]. split; [exact Hsubs|].
  split; [reflexivity|]. split; [reflexivity|]. split; [exact Henv|].
  split.
  { cbn [cacheScores fold_left]. now rewrite JsMap.get_set_eq. }
  split; [reflexivity|]. split; [exact Hfound|]. split.
  - intros a Hin.
    destruct (cacheAnomalies_get (an_id a) (List.concat found)
                (anomalies (this m)))
      as [(stored & Hget & Hin' & Hid)|(_ & Hnotin)].
    + exists stored. rewrite Hget. auto.
    + exfalso. apply Hnotin. now apply in_map.
  - destruct Hres as [->|(r & -> & Hr)]; [now left|right].
    destruct Hr as (entry & status & t & Hin & Hst & Hc & Hrest).
    eexists r, _. split; [reflexivity|].
    split; [exists entry, status, t; auto|]. split; [exact Hc|].
    cbn [cacheControls fold_left]. rewrite Hc. apply JsMap.get_set_eq.
Qed.

End Facts.
End DetectionFacts.

(** *** One SIEM record through the analytics service *)

Module DetectionExample.
Import Processing Analytics DetectionFacts.

#[local] Existing Instance Examples.runtime.

Definition quiet : Machine unit unit :=
  Examples.hostWith tt Examples.standing (fun _ => 1 # 2).

Lemma quiet_good : AnalyticsFacts.GoodEntropy quiet.
Proof.
  intros n. apply Float64Facts.isUnit_unit. vm_compute. reflexivity.
Qed.

Lemma analytics_good : AnalyticsFacts.GoodEntropy Examples.analytics.
Proof.
  intros n. unfold Examples.analytics, Examples.hostWith. cbn [entropy].
  apply Float64Facts.isUnit_unit.
  destruct (n <? 5)%nat; vm_compute; reflexivity.
Qed.

Definition batch : ProcessedData :=
  mkProcessedData IT "SIEM" 1 1 1 [Examples.observed] 1700000000000.

(** The shipped service with a detector for IT that fails. *)
Definition failing : Machine (AnalyticsService unit) unit :=
  Examples.hostWith
    (mkService (riskScoreEngines configured)
       [("IT", mkDetector (fun _ => throw (Error "detector failed")))]
       JsMap.empty [] JsMap.empty JsMap.empty JsMap.empty)
    Examples.standing (fun _ => 1 # 2).

Lemma default_detector_flags_witness :
  exists anomalies h',
    detector_detectAnomalies defaultAnomalyDetector [Examples.observed] quiet
    = (Normal anomalies, h')
    /\ (List.length anomalies <= 1)%nat.
Proof.
  destruct (@default_detector_flags unit _ [Examples.observed] quiet quiet_good)
    as (anomalies & h' & found & E & _ & _ & Hlen).
  exists anomalies, h'. split; [exact E|exact Hlen].
Defined.

Lemma default_monitor_assesses_witness :
  exists results h',
    monitor_checkCompliance defaultComplianceMonitor [Examples.observed] quiet
    = (Normal results, h')
    /\ (results = [] \/ exists r, results = [r] /\ Assessed r).
Proof.
  destruct (@default_monitor_assesses unit [Examples.observed] quiet quiet_good)
    as (results & h' & E & _ & Hres & _).
  exists results, h'. split; [exact E|exact Hres].
Defined.

Lemma compliance_status_bounded_witness :
  exists results m' listed,
    checkCompliance IT "SIEM" [Examples.observed] Examples.analytics
    = (Normal results, m')
    /\ getComplianceStatus m' = (Normal listed, m')
    /\ (List.length listed <= 4)%nat.
Proof.
  destruct (@compliance_status_bounded unit Examples.analytics IT "SIEM"
              [Examples.observed] analytics_good eq_refl)
    as (results & m' & listed & E & _ & _ & _ & Hlist & Hlen & _).
  - split; [apply JsMap.wf_empty|intros k []].
  - exists results, m', listed. auto.
Defined.

Lemma analysis_aborts_after_scores_witness :
  exists m',
    handleProcessedData batch failing = (Throws (Error "detector failed"), m')
    /\ anomalies (this m') = JsMap.empty.
Proof.
  destruct (@shipped_scores unit _ IT "SIEM" [Examples.observed]
              (hostOf failing)) as (score & h1 & E1 & _).
  destruct (@analysis_aborts_after_scores unit _ failing batch [score] h1
              (Error "detector failed") h1 E1 eq_refl)
    as (m' & Hrun & _ & Hanomalies & _).
  exists m'. split; [exact Hrun|exact Hanomalies].
Defined.

Lemma shipped_analysis_witness :
  exists result m' score,
    analyzeData batch Examples.analytics = (Normal result, m')
    /\ ar_riskScores result = [score]
    /\ environmentType score = Some "IT".
Proof.
  destruct (@shipped_analysis unit _ Examples.analytics batch analytics_good)
    as (result & m' & score & found & E & _ & _ & _ & _ & Hscores & Henv & _).
  - repeat split.
  - exists result, m', score. auto.
Defined.

End DetectionExample.

(* ================================================================= *)
(** ** Orchestration: what triggers a response, and what a response is *)

Module ResponseFacts.
Import Analytics Orchestration.

Section Facts.
Context {Ext : Type} `{JsRuntime}.
Notation Svc := (OrchestrationService Ext).

(** *** Deliveries that leave the service as it is *)

Lemma anomalies_skipped (anomalies : list Anomaly) (m : Machine Svc Ext) :
  (forall a, In a anomalies -> requiresResponse a = true ->
             find (matchesAnomaly a) (JsMap.values (playbooks (this m)))
             = None) ->
  forOf anomalies
    (fun anomaly =>
       if requiresResponse anomaly then respondToAnomaly anomaly else ret tt) m
  = (Normal tt, m).
Proof.
  induction anomalies as [|a rest IH]; intros Hskip; cbn [forOf];
    [reflexivity|].
  unfold bind at 1.
  assert (Ha : (if requiresResponse a then respondToAnomaly a else ret tt) m
               = (Normal tt, m)).
  { destruct (requiresResponse a) eqn:E; [|reflexivity].
    apply OrchestrationFacts.respondToAnomaly_unmatched.
    apply Hskip; [now left|exact E]. }
  rewrite Ha. apply IH. intros b Hb. apply Hskip. now right.
Qed.

(** X20. A delivery none of whose anomalies of severity critical or high matches
    a registered playbook leaves the whole service as it was: no incident
    is created or touched, whatever the severities, the compliance results
    and the policies are.  Compliance issues and policies never reach the
    incidents. *)
Theorem incidents_need_matched_anomaly (m : Machine Svc Ext)
    (analyticsResult : AnalyticsResult) :
  (forall a, In a (ar_anomalies analyticsResult) ->
             requiresResponse a = true ->
             find (matchesAnomaly a) (JsMap.values (playbooks (this m)))
             = None) ->
  exists m',
    handleAnalyticsResult analyticsResult m = (Normal tt, m')
    /\ this m' = this m
    /\ getIncidents m' = (Normal (JsMap.values (incidents (this m))), m').
Proof.
  intros Hskip. unfold handleAnalyticsResult. unfold bind at 1.
  rewrite (anomalies_skipped _ _ Hskip).
  assert (Hrest : @OrchestrationFacts.steady Ext unit
            (forOf (ar_complianceResults analyticsResult)
               (fun complianceResult =>
                  if negb (compliant complianceResult)
                     && match control complianceResult with
                        | Some _ => true
                        | None => false
                        end
                  then respondToComplianceIssue complianceResult
                  else ret tt) ;;;
             enforcePolicies analyticsResult)).
  { apply OrchestrationFacts.steady_bind.
    - apply OrchestrationFacts.steady_forOf. intros c.
      destruct (negb (compliant c) && _);
        [apply OrchestrationFacts.steady_respondToComplianceIssue
        |apply OrchestrationFacts.steady_ret].
    - intros _. apply OrchestrationFacts.steady_enforcePolicies. }
  destruct (Hrest m) as ([] & m' & E & (Hthis & _)).
  exists m'. split; [exact E|]. split; [exact Hthis|].
  unfold getIncidents, bind, getThis, ret. now rewrite Hthis.
Qed.

(** *** The playbooks the module registers *)

(** X21. The sample playbooks answer critical anomalies of type network or
    system, and compliance issues of the frameworks nist-csf and iso-27001,
    and nothing else: an anomaly of severity high is looked up, since it
    requires a response, and never matched, and so is an issue with a
    control of iec-62443. *)
Theorem sample_playbooks_trigger (m0 : Machine Svc Ext) :
  this m0 = initial ->
  exists m ransomware remediation,
    registerSamples m0 = (Normal tt, m)
    /\ ransomware = ransomwareResponse (clock m0 0%nat) (clock m0 1%nat)
    /\ remediation = complianceRemediation (clock m0 2%nat) (clock m0 3%nat)
    /\ getPlaybooks m = (Normal [ransomware; remediation], m)
    /\ incidents (this m) = JsMap.empty
    /\ (forall anomaly,
          findPlaybookForAnomaly anomaly m
          = (Normal
               (if sameString (Some "critical") (an_severity anomaly)
                   && (sameString (Some "network") (an_type anomaly)
                       || sameString (Some "system") (an_type anomaly))
                then Some ransomware else None), m))
    /\ (forall complianceResult,
          findPlaybookForComplianceIssue complianceResult m
          = (Normal
               (if sameString (Some "nist-csf")
                     (option_map cc_frameworkId (control complianceResult))
                   || sameString (Some "iso-27001")
                        (option_map cc_frameworkId (control complianceResult))
                then Some remediation else None), m)).
Proof.
  destruct m0 as [s clk ent tms nt subs cons]. cbn [this]. intros ->.
  unfold registerSamples, registerPlaybook, registerPolicy, getPlaybooks,
    findPlaybookForAnomaly, findPlaybookForComplianceIssue, initial.
  run_through.
  cbn [playbooks policies incidents orchestrationCallbacks].
  change (pb_id (ransomwareResponse (clk 0%nat) (clk 1%nat)))
    with "ransomware-response".
  change (pb_id (complianceRemediation (clk 2%nat) (clk 3%nat)))
    with "compliance-remediation".
  change (JsMap.set "compliance-remediation"
            (complianceRemediation (clk 2%nat) (clk 3%nat))
            (JsMap.set "ransomware-response"
               (ransomwareResponse (clk 0%nat) (clk 1%nat)) JsMap.empty))
    with [("ransomware-response", ransomwareResponse (clk 0%nat) (clk 1%nat));
          ("compliance-remediation",
           complianceRemediation (clk 2%nat) (clk 3%nat))].
  eexists _, _, _. split; [reflexivity|].
  split; [reflexivity|]. split; [reflexivity|]. split; [reflexivity|].
  split; [reflexivity|].
  split.
  - intros anomaly. cbn [JsMap.values map snd find playbooks this].
    f_equal. f_equal.
    change (matchesAnomaly anomaly
              (complianceRemediation (clk 2%nat) (clk 3%nat))) with false.
    change (matchesAnomaly anomaly
              (ransomwareResponse (clk 0%nat) (clk 1%nat)))
      with (sameString (Some "network") (an_type anomaly)
            && sameString (Some "critical") (an_severity anomaly)
            || (sameString (Some "system") (an_type anomaly)
                && sameString (Some "critical") (an_severity anomaly)
                || false)).
    destruct (sameString (Some "network") (an_type anomaly)),
             (sameString (Some "system") (an_type anomaly)),
             (sameString (Some "critical") (an_severity anomaly));
      reflexivity.
  - intros complianceResult. cbn [JsMap.values map snd find playbooks this].
    f_equal. f_equal.
    change (matchesComplianceIssue complianceResult
              (ransomwareResponse (clk 0%nat) (clk 1%nat))) with false.
    change (matchesComplianceIssue complianceResult
              (complianceRemediation (clk 2%nat) (clk 3%nat)))
      with (sameString (Some "nist-csf")
              (option_map cc_frameworkId (control complianceResult))
            || (sameString (Some "iso-27001")
                  (option_map cc_frameworkId (control complianceResult))
                || false)).
    destruct (sameString (Some "nist-csf") _), (sameString (Some "iso-27001") _);
      reflexivity.
Qed.

(** *** Registration order *)

Lemma find_snoc {A} (f : A -> bool) (l : list A) (x : A) :
  find f (l ++ [x])
  = match find f l with
    | Some y => Some y
    | None => if f x then Some x else None
    end.
Proof.
  induction l as [|y r IH]; cbn; [reflexivity|]. now destruct (f y).
Qed.

(** X22. A playbook registered under a new id is found by its id, and is chosen
    for an anomaly or a compliance issue only when no playbook registered
    before it matches. *)
Theorem new_playbook_never_preempts (m : Machine Svc Ext) (p : Playbook) :
  JsMap.get (pb_id p) (playbooks (this m)) = None ->
  exists m',
    registerPlaybook p m = (Normal tt, m')
    /\ getPlaybook (pb_id p) m' = (Normal (Some p), m')
    /\ (incidents (this m'), policies (this m'))
       = (incidents (this m), policies (this m))
    /\ (forall anomaly,
          fst (findPlaybookForAnomaly anomaly m')
          = match fst (findPlaybookForAnomaly anomaly m) with
            | Normal (Some q) => Normal (Some q)
            | Normal None =>
                Normal (if matchesAnomaly anomaly p then Some p else None)
            | Throws e => Throws e
            end)
    /\ (forall complianceResult,
          fst (findPlaybookForComplianceIssue complianceResult m')
          = match fst (findPlaybookForComplianceIssue complianceResult m) with
            | Normal (Some q) => Normal (Some q)
            | Normal None =>
                Normal (if matchesComplianceIssue complianceResult p
                        then Some p else None)
            | Throws e => Throws e
            end).
Proof.
  intros Hnew. eexists. split; [reflexivity|].
  unfold getPlaybook, findPlaybookForAnomaly, findPlaybookForComplianceIssue,
    bind, getThis, ret.
  cbn [this playbooks incidents policies fst].
  rewrite JsMap.get_set_eq, JsMap.values_set_new by exact Hnew.
  split; [reflexivity|]. split; [reflexivity|].
  split; intros x; rewrite find_snoc;
    match goal with
    | |- context [find ?f ?l] => destruct (find f l)
    end; reflexivity.
Qed.

(** *** The actions of a policy rule *)

(** The result of one simulated action: it succeeded without an error, or
    failed with the simulated one. *)
Definition Simulated (success : bool) (err : option string) : Prop :=
  (success, err) = (true, None)
  \/ (success, err) = (false, Some "Simulated failure").

Lemma policy_actions_run (actions : list PolicyAction) (context : Context)
    (m : Machine Svc Ext) :
  exists results m',
    mapM (fun a =>
            tryCatch (simulatePolicyActionExecution a context)
              (fun err =>
                 console_error ("Error executing action: " +++ pa_type a) err ;;;
                 timestamp <- Date_now ;;
                 ret (mkPolicyActionResult (pa_type a) false
                        (Some (messageOf err)) timestamp)))
      actions m = (Normal results, m')
    /\ Forall2 (fun a r => pact_type r = pa_type a
                           /\ Simulated (pact_success r) (pact_error r))
         actions results.
Proof.
  destruct (@JsFacts.mapM_Forall2 Svc Ext _ _ (fun _ => True)
              (fun a r => pact_type r = pa_type a
                          /\ Simulated (pact_success r) (pact_error r))
              (fun a =>
                 tryCatch (simulatePolicyActionExecution a context)
                   (fun err =>
                      console_error ("Error executing action: " +++ pa_type a)
                        err ;;;
                      timestamp <- Date_now ;;
                      ret (mkPolicyActionResult (pa_type a) false
                             (Some (messageOf err)) timestamp)))
              actions)
    with (m := m) as (results & m' & E & _ & Hall); [|exact I|eauto].
  intros a m0 _. unfold simulatePolicyActionExecution.
  destruct m0 as [s clk ent tms nt subs cons]. run_through.
  eexists _, _. split; [reflexivity|]. split; [exact I|].
  split; [reflexivity|]. cbn [pact_success pact_error]. unfold Simulated.
  destruct (Qlt_le_dec (Float64.toQ Float64.lit_0_05) (ent 0%nat)); auto.
Qed.

(** X23. Every action of a rule is attempted, in order, whether or not an
    earlier one failed: the result lists one action result per action of
    the rule, named after its type, and succeeds when all of them did.
    Nothing but the clock and the draws is touched. *)
Theorem rule_actions_all_attempted (p : Policy) (rule : PolicyRule)
    (context : Context) (m : Machine Svc Ext) :
  exists result m' actions,
    executeRuleActions p rule context m = (Normal result, m')
    /\ HostFacts.Advances m m'
    /\ or_actions result = PolicyActions actions
    /\ map pact_type actions = map pa_type (rule_actions rule)
    /\ Forall (fun r => Simulated (pact_success r) (pact_error r)) actions
    /\ or_success result = forallb pact_success actions
    /\ (or_type result, or_name result)
       = (policy, pol_name p +++ ":" +++ rule_name rule)
    /\ duration result = endTime result - startTime result.
Proof.
  destruct (OrchestrationFacts.executeRuleActions_hostOnly p rule context m)
    as (result & m' & E & Hadv).
  exists result, m'.
  revert E. unfold executeRuleActions.
  destruct (policy_actions_run (rule_actions rule) context (JsFacts.tick m))
    as (actions & m2 & E2 & Hall).
  erewrite JsFacts.bind_Normal by apply JsFacts.Date_now_run.
  erewrite JsFacts.bind_Normal by exact E2.
  erewrite JsFacts.bind_Normal by apply JsFacts.Date_now_run.
  unfold ret. intros [= <- <-].
  exists actions. split; [reflexivity|]. split; [exact Hadv|].
  cbn [or_actions or_success or_type or_name duration endTime startTime].
  split; [reflexivity|]. split.
  { clear E2. induction Hall as [|a r l l' (Ht & _) _ IH]; cbn;
      [reflexivity|]. now rewrite Ht, IH. }
  split.
  { clear E2. induction Hall as [|a r l l' (_ & Hs) _ IH]; constructor; auto. }
  repeat split; reflexivity.
Qed.

(** *** The times of a playbook run *)

Lemma simulateActionExecution_stamp step context (m : Machine Svc Ext) :
  exists r m',
    simulateActionExecution step context m = (Normal r, m')
    /\ act_timestamp r = clock m 0%nat
    /\ (forall n, clock m' n = clock m (1 + n)%nat).
Proof.
  destruct m as [s clk ent tms nt subs cons].
  unfold simulateActionExecution. run_through.
  eexists _, _. split; [reflexivity|]. split; [reflexivity|].
  intros n. reflexivity.
Qed.

Lemma runSteps_stamps (m0 : Machine Svc Ext) remaining context :
  forall actions (m1 : Machine Svc Ext) k,
    (forall n, clock m1 n = clock m0 (k + n)%nat) ->
    Forall (fun a => exists i, (i < k)%nat /\ act_timestamp a = clock m0 i)
      actions ->
    exists out m2 k',
      runSteps simulateActionExecution remaining context actions m1
      = (Normal out, m2)
      /\ (forall n, clock m2 n = clock m0 (k' + n)%nat)
      /\ Forall (fun a => exists i, (i < k')%nat
                                    /\ act_timestamp a = clock m0 i) out.
Proof.
  induction remaining as [|step rest IH]; intros actions m1 k Hk Hall;
    cbn [runSteps].
  - exists actions, m1, k. auto.
  - destruct (simulateActionExecution_stamp step context m1)
      as (r & m2 & E & Hts & Hclk).
    unfold bind at 1. unfold tryCatch. unfold bind at 1. rewrite E.
    unfold ret at 1. cbn [snd fst].
    assert (Hk2 : forall n, clock m2 n = clock m0 (Datatypes.S k + n)%nat).
    { intros n. rewrite Hclk, Hk. f_equal. lia. }
    assert (Hall2 : Forall (fun a => exists i, (i < Datatypes.S k)%nat
                                     /\ act_timestamp a = clock m0 i)
                      (actions ++ [r])).
    { apply Forall_app. split.
      - eapply Forall_impl; [|exact Hall]. intros a (i & Hi & Ha).
        exists i. split; [lia|exact Ha].
      - constructor; [|constructor]. exists k. split; [lia|].
        rewrite Hts, Hk. f_equal. lia. }
    destruct (negb (act_success r) && critical step).
    + exists (actions ++ [r]), m2, (Datatypes.S k). auto.
    + apply (IH _ _ _ Hk2 Hall2).
Qed.

(** X24. On a clock that never runs backwards, a playbook run starts before it
    ends, its duration is the difference of the two and not negative, and
    every step it attempted is stamped between its start and its end. *)
Theorem playbook_times_ordered (p : Playbook) (context : Context)
    (m : Machine Svc Ext) :
  OrchestrationFacts.MonotoneClock m ->
  exists result m' actions,
    executePlaybook p context m = (Normal result, m')
    /\ or_actions result = PlaybookActions actions
    /\ duration result = endTime result - startTime result
    /\ 0 <= duration result
    /\ Forall (fun a => startTime result <= act_timestamp a <= endTime result)
         actions.
Proof.
  intros Hmono. unfold executePlaybook, executePlaybookWith.
  destruct (@runSteps_stamps m (steps p) context [] (JsFacts.tick m) 1%nat)
    as (actions & m2 & k & E & Hk & Hall);
    [intros n; reflexivity|constructor|].
  erewrite JsFacts.bind_Normal by apply JsFacts.Date_now_run.
  erewrite JsFacts.bind_Normal by exact E.
  erewrite JsFacts.bind_Normal by apply JsFacts.Date_now_run.
  unfold ret.
  eexists _, _, actions. split; [reflexivity|].
  cbn [or_actions duration endTime startTime].
  split; [reflexivity|]. split; [reflexivity|].
  rewrite Hk. split.
  - pose proof (Hmono 0%nat (k + 0)%nat). lia.
  - eapply Forall_impl; [|exact Hall]. intros a (i & Hi & ->).
    split; apply Hmono; lia.
Qed.

(** *** Policies that do not apply *)

Lemma forOf_idle {A} (xs : list A) (body : A -> M Svc Ext unit)
    (m : Machine Svc Ext) :
  (forall x, In x xs -> body x m = (Normal tt, m)) ->
  forOf xs body m = (Normal tt, m).
Proof.
  induction xs as [|x r IH]; intros Hidle; cbn [forOf]; [reflexivity|].
  erewrite JsFacts.bind_Normal by (apply Hidle; now left).
  apply IH. intros y Hy. apply Hidle. now right.
Qed.

(** X25. Policies that are not active or are for another environment, and rules
    that are not active, are never evaluated: when every rule of every
    applicable policy is inactive, enforcing the policies changes nothing,
    draws nothing and calls no subscriber. *)
Theorem idle_policies_ignored (m : Machine Svc Ext)
    (analyticsResult : AnalyticsResult) :
  (forall p rule,
      In p (JsMap.values (policies (this m))) ->
      applicable analyticsResult p = true ->
      In rule (rules p) ->
      rule_status rule = rule_inactive) ->
  enforcePolicies analyticsResult m = (Normal tt, m).
Proof.
  intros Hidle. unfold enforcePolicies.
  erewrite JsFacts.bind_Normal by reflexivity.
  apply forOf_idle. intros p Hp. apply filter_In in Hp. destruct Hp as [Hp Ha].
  apply forOf_idle. intros rule Hrule.
  now rewrite (Hidle p rule Hp Ha Hrule).
Qed.

End Facts.
End ResponseFacts.

(** *** An anomaly of severity high, and a run of the sample playbook *)

Module ResponseExample.
Import Analytics Orchestration ResponseFacts.

#[local] Existing Instance Examples.runtime.

Definition scan : Anomaly :=
  mkAnomaly "anomaly-2" None (JsString "siem-1") (Some "network")
    "Unusual activity detected in SIEM" (Some "high") 80 ["event-2"]
    "new" 1700000000000 1700000000000.

Definition report : AnalyticsResult :=
  mkAnalyticsResult IT "SIEM" 1700000000000 [] [scan] [].

Definition fresh : Machine (OrchestrationService unit) unit :=
  Examples.hostWith (@Orchestration.initial unit) Examples.ticking
    (fun _ => 1 # 2).

Lemma ticking_monotone : OrchestrationFacts.MonotoneClock Examples.unlucky.
Proof.
  intros i j Hij. unfold Examples.unlucky, Examples.hostWith. cbn [clock].
  unfold Examples.ticking. lia.
Qed.

Lemma incidents_need_matched_anomaly_witness :
  exists m',
    handleAnalyticsResult report Examples.orchestration = (Normal tt, m')
    /\ this m' = this Examples.orchestration.
Proof.
  destruct (@incidents_need_matched_anomaly unit _ Examples.orchestration
              report)
    as (m' & Hrun & Hthis & _).
  - intros a [<-|[]] _. vm_compute. reflexivity.
  - exists m'. split; [exact Hrun|exact Hthis].
Defined.

Lemma sample_playbooks_trigger_witness :
  exists m,
    registerSamples fresh = (Normal tt, m)
    /\ fst (findPlaybookForAnomaly scan m) = Normal None
    /\ fst (findPlaybookForAnomaly Examples.intrusion m)
       = Normal (Some (ransomwareResponse 1700000000000 1700000000001)).
Proof.
  destruct (@sample_playbooks_trigger unit fresh eq_refl)
    as (m & ransomware & remediation & Hrun & -> & _ & _ & _ & Hfind & _).
  exists m. split; [exact Hrun|].
  rewrite !Hfind. split; reflexivity.
Defined.

Lemma new_playbook_never_preempts_witness :
  exists m',
    registerPlaybook (ransomwareResponse 0 0) Examples.unlucky
    = (Normal tt, m')
    /\ getPlaybook "ransomware-response" m'
       = (Normal (Some (ransomwareResponse 0 0)), m').
Proof.
  destruct (@new_playbook_never_preempts unit Examples.unlucky
              (ransomwareResponse 0 0) eq_refl)
    as (m' & Hrun & Hget & _).
  exists m'. split; [exact Hrun|exact Hget].
Defined.

Lemma playbook_times_ordered_witness :
  exists result m',
    executePlaybook (ransomwareResponse 0 0) (AnomalyContext scan)
      Examples.unlucky = (Normal result, m')
    /\ 0 <= duration result.
Proof.
  destruct (@playbook_times_ordered unit (ransomwareResponse 0 0)
              (AnomalyContext scan) Examples.unlucky ticking_monotone)
    as (result & m' & actions & Hrun & _ & _ & Hduration & _).
  exists result, m'. split; [exact Hrun|exact Hduration].
Defined.

(** The service with the cloud policy only. *)
Definition cloudOnly : Machine (OrchestrationService unit) unit :=
  snd (registerPolicy (cloudAccessControl 0 0) fresh).

Lemma idle_policies_ignored_witness :
  enforcePolicies report cloudOnly = (Normal tt, cloudOnly).
Proof.
  apply (@idle_policies_ignored unit cloudOnly report).
  intros p rule [<-|[]] Happlies. discriminate Happlies.
Defined.

End ResponseExample.

(* ================================================================= *)
(** ** The default risk engine: one score per environment of the batch *)

Module GroupingFacts.
Import Processing Analytics.

Section Facts.
Context {Ext : Type} `{JsRuntime}.

(** [groups] is the grouping of the records of [prefix] by environment
    key: the keys are distinct, each group is not empty and holds the
    records of its key in their order, and every record has its group. *)
Definition Grouped (prefix : list NormalizedData)
    (groups : list (string * list NormalizedData)) : Prop :=
  NoDup (map fst groups)
  /\ (forall k items,
        In (k, items) groups ->
        items <> []
        /\ items = filter (fun i => String.eqb (environmentKey i) k) prefix)
  /\ (forall item, In item prefix -> In (environmentKey item) (map fst groups)).

Lemma groupPush_keys env item groups :
  map fst (groupPush env item groups)
  = if in_dec string_dec env (map fst groups)
    then map fst groups else map fst groups ++ [env].
Proof.
  induction groups as [|[k items] r IH]; cbn [groupPush map fst].
  - now destruct (in_dec string_dec env []).
  - destruct (String.eqb env k) eqn:E.
    + apply String.eqb_eq in E. subst k. cbn [map fst].
      destruct (in_dec string_dec env (env :: map fst r)) as [|Hn];
        [reflexivity|]. exfalso. apply Hn. now left.
    + apply String.eqb_neq in E. cbn [map fst]. rewrite IH.
      destruct (in_dec string_dec env (map fst r)) as [Hin|Hn],
               (in_dec string_dec env (k :: map fst r)) as [Hin'|Hn'];
        try reflexivity.
      * exfalso. apply Hn'. now right.
      * exfalso. destruct Hin' as [Hk|Hin']; [congruence|tauto].
Qed.

Lemma groupPush_In env item groups k items :
  NoDup (map fst groups) ->
  In (k, items) (groupPush env item groups) ->
  (k <> env /\ In (k, items) groups)
  \/ (k = env
      /\ ((exists old, In (env, old) groups /\ items = old ++ [item])
          \/ (~ In env (map fst groups) /\ items = [item]))).
Proof.
  induction groups as [|[k0 it0] r IH]; cbn [groupPush map fst]; intros Hnd Hin.
  - destruct Hin as [Hin|[]]. injection Hin as <- <-. right. split; auto.
  - inversion Hnd as [|? ? Hnotin Hnd']; subst.
    destruct (String.eqb env k0) eqn:E.
    + apply String.eqb_eq in E. subst k0. destruct Hin as [Hin|Hin].
      * injection Hin as <- <-. right. split; [reflexivity|]. left.
        exists it0. split; [now left|reflexivity].
      * left. split; [|now right]. intros ->. apply Hnotin.
        change env with (fst (env, items)). now apply in_map.
    + apply String.eqb_neq in E. destruct Hin as [Hin|Hin].
      * injection Hin as <- <-. left. split; [congruence|now left].
      * destruct (IH Hnd' Hin) as [(Hne & Hin')|(-> & Hcase)].
        -- left. split; [assumption|now right].
        -- right. split; [reflexivity|].
           destruct Hcase as [(old & Hold & ->)|(Hnew & ->)].
           ++ left. exists old. split; [now right|reflexivity].
           ++ right. split; [|reflexivity]. cbn. intros [Hk|Hk]; congruence.
Qed.

Lemma NoDup_snoc {A} (l : list A) (x : A) :
  NoDup l -> ~ In x l -> NoDup (l ++ [x]).
Proof.
  induction l as [|y r IH]; cbn; intros Hnd Hx.
  - constructor; [tauto|constructor].
  - inversion Hnd as [|? ? Hnotin Hnd']; subst. constructor.
    + rewrite in_app_iff. cbn. intros [Hin|[Heq|[]]]; [tauto|].
      apply Hx. now left.
    + apply IH; [assumption|]. intros Hin. apply Hx. now right.
Qed.

Lemma NoDup_map_Some {A} (l : list A) : NoDup l -> NoDup (map Some l).
Proof.
  induction 1 as [|x l Hnotin _ IH]; cbn; constructor; [|assumption].
  intros Hin. apply in_map_iff in Hin. destruct Hin as (y & [= ->] & Hy).
  contradiction.
Qed.

Lemma Grouped_step prefix groups item :
  Grouped prefix groups ->
  Grouped (prefix ++ [item]) (groupPush (environmentKey item) item groups).
Proof.
  intros (Hnd & Hgroups & Hall). set (env := environmentKey item).
  split; [|split].
  - rewrite groupPush_keys.
    destruct (in_dec string_dec env (map fst groups)); [assumption|].
    now apply NoDup_snoc.
  - intros k items Hin. rewrite filter_app. cbn [filter]. fold env.
    destruct (@groupPush_In _ _ _ _ _ Hnd Hin)
      as [(Hne & Hin')|(-> & [(old & Hold & ->)|(Hnew & ->)])].
    + destruct (Hgroups k items Hin') as (Hnonempty & Hitems).
      split; [assumption|].
      assert (E : String.eqb env k = false)
        by (apply String.eqb_neq; congruence).
      rewrite E, app_nil_r. exact Hitems.
    + destruct (Hgroups env old Hold) as (_ & Hitems).
      split; [now destruct old|].
      now rewrite String.eqb_refl, <- Hitems.
    + split; [discriminate|]. rewrite String.eqb_refl.
      destruct (filter (fun i => String.eqb (environmentKey i) env) prefix)
        as [|x r] eqn:E; [reflexivity|].
      exfalso. apply Hnew.
      assert (Hx : In x (filter (fun i => String.eqb (environmentKey i) env)
                           prefix)) by (rewrite E; now left).
      apply filter_In in Hx. destruct Hx as [Hx Hkey].
      apply String.eqb_eq in Hkey. rewrite <- Hkey. now apply Hall.
  - intros x Hx. rewrite groupPush_keys. apply in_app_iff in Hx.
    destruct (in_dec string_dec env (map fst groups)) as [Hin|Hn].
    + destruct Hx as [Hx|[<-|[]]]; [now apply Hall|exact Hin].
    + apply in_app_iff. destruct Hx as [Hx|[<-|[]]]; [left; now apply Hall|].
      right. now left.
Qed.

Lemma Grouped_fold rest :
  forall prefix groups,
    Grouped prefix groups ->
    Grouped (prefix ++ rest)
      (fold_left (fun g item => groupPush (environmentKey item) item g)
         rest groups).
Proof.
  induction rest as [|item r IH]; intros prefix groups Hg; cbn [fold_left].
  - now rewrite app_nil_r.
  - replace (prefix ++ item :: r) with ((prefix ++ [item]) ++ r)
      by (now rewrite <- app_assoc).
    apply IH. now apply Grouped_step.
Qed.

Lemma groupByEnvironment_Grouped data : Grouped data (groupByEnvironment data).
Proof.
  apply (@Grouped_fold data [] []). split; [constructor|].
  split; [intros k items []|intros item []].
Qed.

(** *** [Object.entries] lists every property once *)

Lemma insertByIndex_perm {A} i (x : A) l :
  Permutation (insertByIndex i x l) ((i, x) :: l).
Proof.
  induction l as [|[j y] r IH]; cbn [insertByIndex]; [reflexivity|].
  destruct (i <? j); [reflexivity|].
  etransitivity; [apply perm_skip; exact IH|apply perm_swap].
Qed.

Lemma split_perm {A} (f g : A -> bool) (l : list A) :
  (forall x, g x = negb (f x)) ->
  Permutation (filter f l ++ filter g l) l.
Proof.
  intros Hfg. induction l as [|x r IH]; cbn [filter app]; [reflexivity|].
  rewrite Hfg. destruct (f x); cbn [negb].
  - cbn. now apply perm_skip.
  - etransitivity; [symmetry; apply Permutation_middle|now apply perm_skip].
Qed.

Lemma objectEntries_perm {A} (o : list (string * A)) :
  Permutation (objectEntries o) o.
Proof.
  unfold objectEntries.
  set (f := fun (acc : list (Z * (string * A))) (kv : string * A) =>
              match arrayIndex (fst kv) with
              | Some i => insertByIndex i kv acc
              | None => acc
              end).
  set (isIndex := fun kv : string * A =>
                    match arrayIndex (fst kv) with
                    | Some _ => true
                    | None => false
                    end).
  assert (Hfold : forall l acc,
             Permutation (map snd (fold_left f l acc))
               (map snd acc ++ filter isIndex l)).
  { induction l as [|kv r IH]; intros acc; cbn [fold_left filter].
    - now rewrite app_nil_r.
    - rewrite IH.
      change (f acc kv)
        with (match arrayIndex (fst kv) with
              | Some i => insertByIndex i kv acc
              | None => acc
              end).
      change (isIndex kv)
        with (match arrayIndex (fst kv) with
              | Some _ => true
              | None => false
              end).
      destruct (arrayIndex (fst kv)) as [i|]; [|reflexivity].
      rewrite (Permutation_map snd (insertByIndex_perm i kv acc)).
      cbn [map snd app]. apply Permutation_middle. }
  rewrite (Hfold o []). cbn [map app].
  apply split_perm. intros kv. unfold isIndex.
  now destruct (arrayIndex (fst kv)).
Qed.

Lemma objectEntries_plain {A} (o : list (string * A)) :
  (forall kv, In kv o -> arrayIndex (fst kv) = None) -> objectEntries o = o.
Proof.
  intros Hplain. unfold objectEntries.
  assert (Hfold : forall l acc,
             (forall kv, In kv l -> arrayIndex (fst kv) = None) ->
             fold_left
               (fun (acc : list (Z * (string * A))) (kv : string * A) =>
                  match arrayIndex (fst kv) with
                  | Some i => insertByIndex i kv acc
                  | None => acc
                  end) l acc = acc).
  { induction l as [|kv r IH]; intros acc Hl; cbn [fold_left]; [reflexivity|].
    rewrite (Hl kv (or_introl eq_refl)). apply IH. intros; apply Hl.
    now right. }
  rewrite Hfold by assumption. cbn [map app].
  induction o as [|kv r IH]; cbn [filter]; [reflexivity|].
  rewrite (Hplain kv (or_introl eq_refl)). f_equal. apply IH.
  intros; apply Hplain. now right.
Qed.

(** X26. The default engine groups the batch by environment key
    ([item.data.environment], ['unknown'] when that is missing).  When some
    record has a key that an object literal inherits from
    [Object.prototype] (['constructor'], ['toString'], ['__proto__'] and
    the like) it throws a [TypeError] and draws nothing.  Otherwise it does
    not throw and returns one score per distinct key of the batch, none for
    an empty batch: each group holds its records in order, and the scores
    follow the groups as [Object.entries] lists them, which is the order in
    which the keys first occur unless a key reads as an array index. *)
Theorem default_engine_groups (data : list NormalizedData)
    (h : Machine unit Ext) :
  (AnalyticsFacts.groupable data = false ->
   engine_calculateRiskScores defaultRiskScoreEngine data h
   = (Throws (Error "environmentData[env].push is not a function"), h))
  /\ (AnalyticsFacts.groupable data = true ->
      exists scores h',
        engine_calculateRiskScores defaultRiskScoreEngine data h
        = (Normal scores, h')
        /\ HostFacts.Advances h h'
        /\ map environmentType scores
           = map (fun group => Some (fst group))
               (objectEntries (groupByEnvironment data))
        /\ NoDup (map environmentType scores)
        /\ (data = [] -> scores = []))
  /\ Permutation (objectEntries (groupByEnvironment data))
       (groupByEnvironment data)
  /\ ((forall group, In group (groupByEnvironment data) ->
                     arrayIndex (fst group) = None) ->
      objectEntries (groupByEnvironment data) = groupByEnvironment data)
  /\ Grouped data (groupByEnvironment data).
Proof.
  pose proof (groupByEnvironment_Grouped data) as Hgrouped.
  split.
  { intros Hbad. cbn [engine_calculateRiskScores defaultRiskScoreEngine].
    unfold bind. now rewrite AnalyticsFacts.groupItems_run, Hbad. }
  split; [|split; [apply objectEntries_perm
                  |split; [apply objectEntries_plain|exact Hgrouped]]].
  intros Hok.
  set (entries := objectEntries (groupByEnvironment data)).
  assert (Hrun : engine_calculateRiskScores (@defaultRiskScoreEngine Ext _)
                   data h
                 = mapM (fun group =>
                           scoreFor (fst group) 50 20 40 10 30 40 20 30
                             Float64.lit_0_3 Float64.lit_0_3 Float64.lit_0_2
                             Float64.lit_0_2) entries h).
  { cbn [engine_calculateRiskScores defaultRiskScoreEngine].
    unfold bind at 1. now rewrite AnalyticsFacts.groupItems_run, Hok. }
  assert (Hhost : HostFacts.hostOnly
            (mapM (fun group : string * list NormalizedData =>
                     @scoreFor Ext (fst group) 50 20 40 10 30 40 20 30
                       Float64.lit_0_3 Float64.lit_0_3 Float64.lit_0_2
                       Float64.lit_0_2) entries)).
  { apply HostFacts.hostOnly_mapM. intros group.
    unfold scoreFor, factor. host_only. }
  destruct (Hhost h) as (scores & h' & E & Hadv).
  destruct (@JsFacts.mapM_Forall2 unit Ext _ _ (fun _ => True)
              (fun (group : string * list NormalizedData) score =>
                 environmentType score = Some (fst group))
              (fun group =>
                 scoreFor (fst group) 50 20 40 10 30 40 20 30
                   Float64.lit_0_3 Float64.lit_0_3 Float64.lit_0_2
                   Float64.lit_0_2)
              entries)
    with (m := h) as (scores' & h2 & E' & _ & Hall); [|exact I|].
  { intros group m _.
    destruct (DetectionFacts.scoreFor_named (fst group) 50 20 40 10 30 40 20 30
                Float64.lit_0_3 Float64.lit_0_3 Float64.lit_0_2
                Float64.lit_0_2 m) as (score & m' & Es & _ & Henv & _).
    exists score, m'. auto. }
  assert (Heq : (Normal scores, h') = (Normal scores', h2))
    by (rewrite <- E; exact E').
  injection Heq as <- <-.
  assert (Hmap : map environmentType scores
                 = map (fun group => Some (fst group)) entries).
  { clear E E' Hrun Hhost Hadv.
    induction Hall as [|g sc gs scs Hg _ IH]; cbn; [reflexivity|].
    now rewrite Hg, IH. }
  exists scores, h'. split; [rewrite Hrun; exact E|]. split; [exact Hadv|].
  split; [exact Hmap|]. split.
  - rewrite Hmap. destruct Hgrouped as (Hnd & _).
    assert (Hkeys : NoDup (map fst entries)).
    { eapply Permutation_NoDup; [|exact Hnd].
      apply Permutation_map. symmetry. apply objectEntries_perm. }
    rewrite <- (map_map fst Some). now apply NoDup_map_Some.
  - intros ->. subst entries. cbn in Hall. now inversion Hall.
Qed.

End Facts.
End GroupingFacts.

(* ================================================================= *)
(** ** [truncateString] *)

Module UtilsFacts.
Import Utils.

Lemma length_append (s t : string) :
  String.length (s +++ t) = (String.length s + String.length t)%nat.
Proof. induction s as [|c s IH]; cbn; [reflexivity|]. now rewrite IH. Qed.

Lemma length_prefix (n : nat) (s : string) :
  (n <= String.length s)%nat -> String.length (String.substring 0 n s) = n.
Proof.
  revert n. induction s as [|c s IH]; intros [|n]; cbn; intros Hn;
    try reflexivity; try lia.
  rewrite IH; [reflexivity|lia].
Qed.

Lemma prefix_append (n : nat) (s t : string) :
  (n <= String.length s)%nat ->
  String.substring 0 n (s +++ t) = String.substring 0 n s.
Proof.
  revert n. induction s as [|c s IH]; intros [|n]; cbn; intros Hn;
    try reflexivity; try lia.
  - now destruct t.
  - rewrite IH; [reflexivity|lia].
Qed.

Lemma prefix_prefix (n : nat) (s : string) :
  String.substring 0 n (String.substring 0 n s) = String.substring 0 n s.
Proof.
  revert n. induction s as [|c s IH]; intros [|n]; cbn; try reflexivity.
  now rewrite IH.
Qed.

(** X27. A string no longer than [length] is returned as it is.  A longer one
    is cut to its first [length] code units and three dots are appended:
    the result is [length + 3] long, which can exceed the input by up to
    three.  Truncating twice to the same length is truncating once. *)
Theorem truncateString_cuts (str : string) (length : Z) :
  (Z.of_nat (String.length str) <= length -> truncateString str length = str)
  /\ (0 <= length < Z.of_nat (String.length str) ->
      truncateString str length
      = String.substring 0 (Z.to_nat length) str +++ "..."
      /\ Z.of_nat (String.length (truncateString str length)) = length + 3)
  /\ (0 <= length ->
      truncateString (truncateString str length) length
      = truncateString str length).
Proof.
  assert (Hcut : 0 <= length < Z.of_nat (String.length str) ->
                 truncateString str length
                 = String.substring 0 (Z.to_nat length) str +++ "...").
  { intros Hl. unfold truncateString, sliceFromStart.
    destruct (Z.of_nat (String.length str) <=? length) eqn:E;
      [apply Z.leb_le in E; lia|].
    destruct (length <? 0) eqn:E'; [apply Z.ltb_lt in E'; lia|].
    now rewrite Z.min_l by lia. }
  split; [|split].
  - intros Hl. unfold truncateString.
    now rewrite (proj2 (Z.leb_le _ _) Hl).
  - intros Hl. split; [now apply Hcut|]. rewrite (Hcut Hl).
    rewrite length_append, length_prefix by lia. cbn. lia.
  - intros H0.
    destruct (Z_le_gt_dec (Z.of_nat (String.length str)) length) as [Hl|Hl].
    + unfold truncateString at 2. rewrite (proj2 (Z.leb_le _ _) Hl).
      unfold truncateString. now rewrite (proj2 (Z.leb_le _ _) Hl).
    + assert (Hl' : 0 <= length < Z.of_nat (String.length str)) by lia.
      rewrite (Hcut Hl').
      set (cut := String.substring 0 (Z.to_nat length) str).
      assert (Hlen : String.length cut = Z.to_nat length)
        by (apply length_prefix; lia).
      unfold truncateString, sliceFromStart.
      rewrite length_append, Hlen. cbn [String.length].
      destruct (Z.of_nat (Z.to_nat length + 3) <=? length) eqn:E;
        [apply Z.leb_le in E; lia|].
      destruct (length <? 0) eqn:E'; [apply Z.ltb_lt in E'; lia|].
      rewrite Z.min_l by lia. f_equal.
      rewrite prefix_append by lia. apply prefix_prefix.
Qed.

End UtilsFacts.
